(** * Signal-card timing extraction and phase synthesis

    A shallow embedding of the parts of [scripts/importExcelSignals.py]
    that turn an Excel signal card into phases: the timing-table parser,
    the movement-grid parser, the phase synthesizer, the movement
    classifier, the time-period selector and the command-line guard.

    Python exceptions are values of [Py.result]; Python 2 dictionaries whose
    iteration order is observable are association lists in iteration order;
    the movement grid (a [MultiArray]) is a finite map keyed by
    (movement label, interval index). *)

From Stdlib Require Import ZArith String Ascii Floats.PrimFloat QArith Qcanon.
From Stdlib Require Import Floats.SpecFloat Floats.FloatOps Floats.FloatAxioms.
From Stdlib Require Import QArith.Qabs.
From stdpp Require Import base strings list gmap numbers pretty.

Local Open Scope string_scope.
Local Open Scope Z_scope.

(** ** Python values, exceptions and string primitives *)

Module Py.

(** The exceptions that the embedded functions can raise.  The last one
    is the card-level parsing failure declared by the script. *)
Inductive exn : Set :=
| NameError
| IndexError
| AttributeError
| ValueError
| KeyError
| SystemExit (code : Z)
| ParsingCardError.

Global Instance exn_eq_dec : EqDecision exn.
Proof. solve_decision. Defined.

Inductive result (A : Type) : Type :=
| Ok (a : A)
| Raise (e : exn).
Global Arguments Ok {A} a.
Global Arguments Raise {A} e.

Global Instance result_ret : MRet result := λ A a, Ok a.

Global Instance result_bind : MBind result := λ A B k m,
  match m with
  | Ok a => k a
  | Raise e => Raise e
  end.

Definition is_ok {A} (m : result A) : bool :=
  match m with Ok _ => true | Raise _ => false end.

(** [try: m except e0: h] *)
Definition catch {A} (m : result A) (e0 : exn) (h : result A) : result A :=
  match m with
  | Ok a => Ok a
  | Raise e => if decide (e = e0) then h else Raise e
  end.

(** [for x in xs: body], threading the variables the body assigns. *)
Fixpoint for_each {A S} (xs : list A) (body : S → A → result S) (s : S)
  : result S :=
  match xs with
  | [] => Ok s
  | x :: xs' => s' ← body s x; for_each xs' body s'
  end.

(** [range(a, b)] *)
Definition range (a b : Z) : list Z := seqZ a (b - a).

(** [l[i]] for [i >= 0]. *)
Definition getitem {A} (l : list A) (i : nat) : result A :=
  from_option Ok (Raise IndexError) (l !! i).

(** [sub in s] on strings. *)
Fixpoint contains (sub s : string) : bool :=
  String.prefix sub s ||
  match s with
  | EmptyString => false
  | String _ s' => contains sub s'
  end.

(** [s.endswith(p)] *)
Definition endswith (s p : string) : bool :=
  String.prefix (String.rev p) (String.rev s).

(** The characters removed by [str.strip()]. *)
Definition isspace (c : ascii) : bool :=
  let n := nat_of_ascii c in
  ((9 <=? n)%nat && (n <=? 13)%nat) || (n =? 32)%nat.

Fixpoint lstrip (s : string) : string :=
  match s with
  | EmptyString => EmptyString
  | String c s' => if isspace c then lstrip s' else s
  end.

Definition strip (s : string) : string :=
  String.rev (lstrip (String.rev (lstrip s))).

Definition upper_char (c : ascii) : ascii :=
  let n := nat_of_ascii c in
  if ((97 <=? n)%nat && (n <=? 122)%nat) then ascii_of_nat (n - 32) else c.

Fixpoint upper (s : string) : string :=
  match s with
  | EmptyString => EmptyString
  | String c s' => String (upper_char c) (upper s')
  end.

(** [s[:n]] for [n >= 0]. *)
Definition take (n : nat) (s : string) : string := String.substring 0 n s.

(** [x in l] on lists of strings. *)
Definition inlist (x : string) (l : list string) : bool := bool_decide (x ∈ l).

End Py.

Import Py.

(** ** Clock times *)

Module Timing.

(** Modelled from the spec: [dta.Time] ([dta/Utils.py] is not part of the
    sources at hand) is a time of day with minute resolution, compared by
    hour and then by minute. *)
Record Time : Set := mkTime { hour : Z; minute : Z }.

Global Instance Time_eq_dec : EqDecision Time.
Proof. solve_decision. Defined.

Definition Time_ltb (a b : Time) : bool :=
  (hour a <? hour b) || ((hour a =? hour b) && (minute a <? minute b)).

Definition Time_eqb (a b : Time) : bool :=
  (hour a =? hour b) && (minute a =? minute b).

Definition Time_leb (a b : Time) : bool := Time_ltb a b || Time_eqb a b.

End Timing.

Import Timing.

(** ** The signal card *)

(** The development is generic in the type [D] of Python floats (interval
    durations, cycle lengths, numeric cells).  Python uses binary64,
    instantiated below by [PrimFloat.float]; exact rationals are a second
    instance.  The conversions between floats and text are Python
    built-ins, not code of the script, and are parameters. *)
Section Card.

Variable D : Type.
(** [dzero] is the integer literal [0] that seeds a duration, [dadd] is
    [+] (as used by [+=]). *)
Variable dzero : D.
Variable dadd : D → D → D.
(** [float(s)] on a string ([None]: [ValueError]), [float(z)] on an integer,
    [str(x)] and [int(x)] on a float, and the truth value of a float. *)
Variable float_of_str : string → option D.
Variable float_of_int : Z → D.
Variable str_of_float : D → string.
Variable int_of_float : D → result Z.
Variable float_bool : D → bool.

(** A value of a timing field: [None], an integer literal, a float or a
    string. *)
Inductive pyval : Type :=
| PyNone
| PyInt (z : Z)
| PyFloat (x : D)
| PyStr (s : string).

(** The value of a spreadsheet cell as the reader returns it: text (the
    empty string for an empty cell), a float, or an integer.  The text is
    a string of bytes: the reader's unicode text is covered when its
    characters are ASCII, the case in which [str] returns it unchanged. *)
Inductive cell : Type :=
| CText (s : string)
| CFloat (x : D)
| CInt (z : Z).

(** The spreadsheet-grid reader: [None] when the coordinate has no row or
    column ([IndexError]). *)
Definition Sheet : Type := Z → Z → option cell.

Definition cell_value (sheet : Sheet) (rowx colx : Z) : result cell :=
  from_option Ok (Raise IndexError) (sheet rowx colx).

(** [str(v)], [bool(v)] and [float(v)] on a cell value. *)
Definition py_str (v : cell) : string :=
  match v with
  | CText s => s
  | CFloat x => str_of_float x
  | CInt z => pretty z
  end.

Definition py_bool (v : cell) : bool :=
  match v with
  | CText s => negb (String.eqb s "")
  | CFloat x => float_bool x
  | CInt z => negb (z =? 0)
  end.

Definition py_float (v : cell) : result D :=
  match v with
  | CText s => from_option Ok (Raise ValueError) (float_of_str s)
  | CFloat x => Ok x
  | CInt z => Ok (float_of_int z)
  end.

(** [class ExcelSignalTiming] *)
Record ExcelSignalTiming : Type := mkExcelSignalTiming {
  cso : pyval;
  cycle : pyval;
  offset : pyval;
  isActuated : bool;
  startTime : Time;
  endTime : Time;
  times : list D
}.

Definition DEFAULT_VALUE : Z := -1.
Definition DEFAULT_OFFSET : Z := 0.

(** [ExcelSignalTiming.__init__] *)
Definition ExcelSignalTiming_init : ExcelSignalTiming :=
  {| cso := PyInt DEFAULT_VALUE;
     cycle := PyInt DEFAULT_VALUE;
     offset := PyInt DEFAULT_OFFSET;
     isActuated := false;
     startTime := mkTime 23 59;
     endTime := mkTime 23 59;
     times := [] |}.

(** Modelled from the spec: [dta.MultiArray] ([dta/MultiArray.py] is not part
    of the sources at hand) is the two-dimensional sparse table keyed by
    (movement-group label, interval index in 1..N) holding one-character
    states; a cell never assigned reads as the empty string. *)
Record MultiArray : Type := mkMultiArray {
  ma_movements : list string;
  ma_numIntervals : nat;
  ma_data : gmap (string * Z) string
}.

Definition ma_get (ma : MultiArray) (gMov : string) (timeIndex : Z) : string :=
  default "" (ma_data ma !! (gMov, timeIndex)).

Definition ma_set (ma : MultiArray) (gMov : string) (timeIndex : Z) (v : string)
  : MultiArray :=
  {| ma_movements := ma_movements ma;
     ma_numIntervals := ma_numIntervals ma;
     ma_data := <[(gMov, timeIndex) := v]> (ma_data ma) |}.

(** [getElementsOfDimention(0)] and [getElementsOfDimention(1)] *)
Definition getElementsOfDimention0 (ma : MultiArray) : list string :=
  ma_movements ma.

Definition getElementsOfDimention1 (ma : MultiArray) : list Z :=
  seqZ 1 (Z.of_nat (ma_numIntervals ma)).

(** The fields of [class SignalData] that the functions below read or
    assign.  The dictionary [signalTiming] is listed in its iteration
    order. *)
Record SignalData : Type := mkSignalData {
  topLeftCell : option (Z * Z);
  phaseSeqCell : option (Z * Z);
  sigInterCell : option (Z * Z);
  colPhaseData : option Z;
  lastColPhaseData : option Z;
  signalTiming : list (string * ExcelSignalTiming);
  phasingData : option MultiArray
}.

(** [SignalData.iterSignalTiming]: the values of the dictionary. *)
Definition iterSignalTiming (sd : SignalData) : list ExcelSignalTiming :=
  (signalTiming sd).*2.

(** [SignalData.getNumTimeIntervals]; [None] when there is no timing. *)
Definition getNumTimeIntervals (sd : SignalData) : option nat :=
  match iterSignalTiming sd with
  | [] => None
  | st :: _ => Some (length (times st))
  end.

(** *** Time-period selector *)

(** [startTime >= t.startTime and startTime <= t.endTime and
    t.endTime > t.startTime] *)
Definition inOperation (startTime0 : Time) (st : ExcelSignalTiming) : bool :=
  Time_leb (startTime st) startTime0 && Time_leb startTime0 (endTime st)
  && Time_ltb (startTime st) (endTime st).

Definition isAllOtherTimes (st : ExcelSignalTiming) : bool :=
  bool_decide (startTime st = mkTime 0 0) && bool_decide (endTime st = mkTime 0 0).

Definition isFullDay (st : ExcelSignalTiming) : bool :=
  bool_decide (startTime st = mkTime 0 0) && bool_decide (endTime st = mkTime 23 59).

(** [for x in xs: if cond(x): return x] *)
Fixpoint returnFirst {A} (cond : A → bool) (xs : list A) : option A :=
  match xs with
  | [] => None
  | x :: xs' => if cond x then Some x else returnFirst cond xs'
  end.

(** The module-level [selectCSO(excelCard, startTime, endTime)]; the
    result [None] is Python's [None]. *)
Definition selectCSO (excelCard : SignalData) (startTime0 endTime0 : Time)
  : option ExcelSignalTiming :=
  match returnFirst (inOperation startTime0) (iterSignalTiming excelCard) with
  | Some st => Some st
  | None =>
    match returnFirst isAllOtherTimes (iterSignalTiming excelCard) with
    | Some st => Some st
    | None => returnFirst isFullDay (iterSignalTiming excelCard)
    end
  end.

(** The method [SignalData.selectCSO(self, startTime, endTime)], which no
    caller uses: it returns the dictionary key, does not require the end to
    follow the start, and tries the full-day period before the
    all-other-times one. *)
Definition SignalData_selectCSO (self : SignalData) (startTime0 endTime0 : Time)
  : option string :=
  let items := signalTiming self in
  match returnFirst (λ kv, Time_leb (startTime kv.2) startTime0
                           && Time_leb startTime0 (endTime kv.2)) items with
  | Some kv => Some kv.1
  | None =>
    match returnFirst (λ kv, isFullDay kv.2) items with
    | Some kv => Some kv.1
    | None => fst <$> returnFirst (λ kv, isAllOtherTimes kv.2) items
    end
  end.

(** *** Phase synthesizer *)

(** The dictionary [pPhase] with its keys "Movs", "green", "yellow" and
    "allRed". *)
Record Phase : Type := mkPhase {
  Movs : list string;
  green : D;
  yellow : D;
  allRed : D
}.

(** [[gMov for gMov in groupMovements if phasingData[gMov, timeIndex1] == c]] *)
Definition movsInState (phasingData0 : MultiArray) (groupMovements : list string)
    (timeIndex1 : Z) (c : string) : list string :=
  filter (λ gMov, ma_get phasingData0 gMov timeIndex1 = c) groupMovements.

(** The counting loops [for m in cMovs: if m in pPhase["Movs"]: n += 1]. *)
Definition countMatches (cMovs pMovs : list string) : nat :=
  length (filter (λ m, m ∈ pMovs) cMovs).

Definition startPhase (movs : list string) (dur1 : D) : Phase :=
  {| Movs := movs; green := dur1; yellow := dzero; allRed := dzero |}.

Definition isEmpty {A} (l : list A) : bool :=
  match l with [] => true | _ => false end.

(** The branch of the [if]/[elif] chain taken for one interval when a
    phase [pPhase] is in progress: the next in-progress phase and the
    phases closed so far.  The last branch appends, then reads the name
    [cActiveMovs], which is bound nowhere. *)
Definition nextPhase (cGreenMovs cYellowMovs cRedMovs : list string)
    (dur1 : D) (pPhase : Phase) (phases : list Phase)
  : result (Phase * list Phase) :=
  let gMatches := countMatches cGreenMovs (Movs pPhase) in
  let yMatches := countMatches cYellowMovs (Movs pPhase) in
  let rMatches := countMatches cRedMovs (Movs pPhase) in
  let len_p := length (Movs pPhase) in
  if (gMatches + yMatches <? length cGreenMovs + length cYellowMovs)%nat then
    Ok (startPhase cGreenMovs dur1, (phases ++ [pPhase])%list)
  else if (gMatches + yMatches =? len_p)%nat then
    if (0 <? yMatches)%nat then
      Ok ({| Movs := Movs pPhase; green := green pPhase;
             yellow := dadd (yellow pPhase) dur1; allRed := allRed pPhase |},
          phases)
    else if (0 <? rMatches)%nat then
      Ok ({| Movs := Movs pPhase; green := green pPhase;
             yellow := yellow pPhase; allRed := dadd (allRed pPhase) dur1 |},
          phases)
    else
      Ok ({| Movs := Movs pPhase; green := dadd (green pPhase) dur1;
             yellow := yellow pPhase; allRed := allRed pPhase |},
          phases)
  else if ((gMatches + yMatches <? len_p) && (0 <? gMatches + yMatches))%nat then
    if (yMatches =? 0)%nat then
      Ok (startPhase cGreenMovs dur1, (phases ++ [pPhase])%list)
    else
      Ok ({| Movs := cYellowMovs; green := dzero; yellow := dur1;
             allRed := dzero |},
          (phases ++ [pPhase])%list)
  else if (rMatches =? len_p)%nat && isEmpty cGreenMovs then
    Ok ({| Movs := Movs pPhase; green := green pPhase;
           yellow := yellow pPhase; allRed := dadd (allRed pPhase) dur1 |},
        phases)
  else if (rMatches =? len_p)%nat && negb (isEmpty cGreenMovs) then
    Ok (startPhase cGreenMovs dur1, (phases ++ [pPhase])%list)
  else
    Raise NameError.

(** One iteration of [for timeIndex1, dur1 in izip(timeIndices, timeIntervals)].
    The state is the pair ([pPhase], [phases]); the empty dictionary
    [pPhase] is [None].  The first interval seeds [pPhase] and leaves
    through [continue], before the test on [lastIndex].  The column
    [phasingData[:, timeIndex1]] read at the top of the body is not used
    afterwards, and the table is total on its two dimensions. *)
Definition getPhases_body (phasingData0 : MultiArray) (lastIndex : Z)
    (st : option Phase * list Phase) (interval : Z * D)
  : result (option Phase * list Phase) :=
  let '(timeIndex1, dur1) := interval in
  let groupMovements := getElementsOfDimention0 phasingData0 in
  let cGreenMovs := movsInState phasingData0 groupMovements timeIndex1 "G" in
  let cYellowMovs := movsInState phasingData0 groupMovements timeIndex1 "Y" in
  let cRedMovs := movsInState phasingData0 groupMovements timeIndex1 "R" in
  match st.1 with
  | None => Ok (Some (startPhase cGreenMovs dur1), st.2)
  | Some pPhase =>
    '(pPhase', phases) ← nextPhase cGreenMovs cYellowMovs cRedMovs dur1 pPhase st.2;
    if timeIndex1 =? lastIndex
    then Ok (Some pPhase', (phases ++ [pPhase'])%list)
    else Ok (Some pPhase', phases)
  end.

(** The synthesis proper, from the grid and the interval durations. *)
Definition synthesize (phasingData0 : MultiArray) (timeIntervals : list D)
  : result (list Phase) :=
  let timeIndices := getElementsOfDimention1 phasingData0 in
  lastIndex ← from_option Ok (Raise IndexError) (last timeIndices);
  st ← for_each (zip timeIndices timeIntervals)
                (getPhases_body phasingData0 lastIndex) (None, []);
  Ok st.2.

(** [SignalData.getPhases(self, startHour, endHour)] *)
Definition getPhases (self : SignalData) (startHour endHour : Time)
  : result (list Phase) :=
  phasingData0 ← from_option Ok (Raise AttributeError) (phasingData self);
  timing ← from_option Ok (Raise AttributeError)
                       (selectCSO self startHour endHour);
  synthesize phasingData0 (times timing).

(** *** Timing-table parser: cycle, offset and actuation of one row *)

Definition set_cycle (v : pyval) (st : ExcelSignalTiming) : ExcelSignalTiming :=
  {| cso := cso st; cycle := v; offset := offset st;
     isActuated := isActuated st; startTime := startTime st;
     endTime := endTime st; times := times st |}.

Definition set_offset (v : pyval) (st : ExcelSignalTiming) : ExcelSignalTiming :=
  {| cso := cso st; cycle := cycle st; offset := v;
     isActuated := isActuated st; startTime := startTime st;
     endTime := endTime st; times := times st |}.

Definition set_isActuated (b : bool) (st : ExcelSignalTiming) : ExcelSignalTiming :=
  {| cso := cso st; cycle := cycle st; offset := offset st;
     isActuated := b; startTime := startTime st;
     endTime := endTime st; times := times st |}.

Definition set_startEnd (s e : Time) (st : ExcelSignalTiming) : ExcelSignalTiming :=
  {| cso := cso st; cycle := cycle st; offset := offset st;
     isActuated := isActuated st; startTime := s;
     endTime := e; times := times st |}.

(** [float(s)] on a string. *)
Definition float_str (s : string) : result D :=
  from_option Ok (Raise ValueError) (float_of_str s).

(** The cells of row [i] from the CSO column up to the phase-data
    column, without those whose [str] is empty
    ([getSignalIntervalData], the loop filling [row]). *)
Definition readCsoRow (sheet : Sheet) (i startY colPhaseData0 : Z)
  : result (list cell) :=
  for_each (range startY colPhaseData0)
    (λ row j, value ← cell_value sheet i j;
              if String.eqb (py_str value) "" then Ok row
              else Ok (row ++ [value])%list) [].

(** [strCso]: [str(int(float(row[0])))], or [str(row[0])] on [ValueError]. *)
Definition csoOfRow (row : list cell) : result string :=
  row0 ← getitem row 0;
  catch (x ← py_float row0; z ← int_of_float x; Ok (pretty z))
        ValueError (Ok (py_str row0)).

(** [strCycle] and [strOffset], by the length of [row]. *)
Definition cycleOffsetOfRow (row : list cell) : result (string * string) :=
  match row with
  | [_; c; o] => Ok (py_str c, py_str o)
  | [_; c] => Ok (py_str c, "-")
  | [_] => Ok ("-", "-")
  | _ => Raise ParsingCardError
  end.

(** The [if]/[elif] chain of [getSignalIntervalData] that fills offset,
    cycle and actuation of a fresh [ExcelSignalTiming].  Only the last
    branch sits inside [try ... except ValueError]. *)
Definition classifyCso (strCso strCycle strOffset : string)
  : result ExcelSignalTiming :=
  let signalTiming0 :=
    {| cso := PyStr strCso; cycle := cycle ExcelSignalTiming_init;
       offset := offset ExcelSignalTiming_init;
       isActuated := isActuated ExcelSignalTiming_init;
       startTime := startTime ExcelSignalTiming_init;
       endTime := endTime ExcelSignalTiming_init;
       times := times ExcelSignalTiming_init |} in
  if endswith strCso "-" && (String.length strCso =? 3)%nat
     && negb (String.eqb strCycle "--") then
    let st := set_offset (PyInt 0) signalTiming0 in
    if endswith strCso "--" then
      Ok (set_isActuated true (set_cycle (PyInt 0) st))
    else
      c ← float_str strCycle; Ok (set_cycle (PyFloat c) st)
  else if endswith strCso "--" && (String.length strCso =? 4)%nat
          && String.eqb strCycle "--" then
    let st := set_offset (PyInt 0) signalTiming0 in
    c ← float_str strCycle; Ok (set_cycle (PyFloat c) st)
  else if String.eqb strCso "FREE" || String.eqb strCso "free" then
    Ok (set_isActuated true signalTiming0)
  else
    catch
      (st ← (if contains "-" strCycle
             then Ok (set_isActuated true (set_cycle PyNone signalTiming0))
             else c ← float_str strCycle; Ok (set_cycle (PyFloat c) signalTiming0));
       o ← (if negb (contains "-" strOffset)
            then x ← float_str strOffset; Ok (PyFloat x)
            else Ok (PyInt 0));
       Ok (set_offset o st))
      ValueError (Raise ParsingCardError).

(** The timing record of one row of [getSignalIntervalData], up to the
    point where it is stored in [signalData.signalTiming]. *)
Definition parseCsoRow (row : list cell) : result ExcelSignalTiming :=
  strCso ← csoOfRow row;
  '(strCycle, strOffset) ← cycleOffsetOfRow row;
  classifyCso strCso strCycle strOffset.

(** *** Timing-table parser: operating times *)

(** [checkForWeekdayPlan(sheet, row, column)] *)
Definition checkForWeekdayPlan (sheet : Sheet) (row column : Z) : result bool :=
  thurs ← cell_value sheet row (column - 3);
  let ThursValue := strip (py_str thurs) in
  fri ← cell_value sheet row (column - 2);
  let FriValue := strip (py_str fri) in
  if String.eqb ThursValue "X" && String.eqb FriValue "X" then Ok true
  else if String.eqb ThursValue "x" && String.eqb FriValue "x" then Ok true
  else Ok false.

(** The local flags of [setTimes]. *)
Record timesFlags : Set := mkTimesFlags {
  hasAllOtherTimes : bool;
  gotStartTime : bool;
  gotStartTime2 : bool
}.

(** The rules that read a clock time from one cell of a weekday row (the
    [elif] branches of [setTimes] after the weekday test) are not part of
    this development; they are a parameter acting on the flags and on the
    timing record [signalData.signalTiming[strCso]]. *)
Variable readClockTimes :
  cell → timesFlags → ExcelSignalTiming → result (timesFlags * ExcelSignalTiming).

(** The body of the loop of [setTimes] for the cell in column [curColumn]. *)
Definition setTimes_body (sheet : Sheet) (row colCycle : Z)
    (st : timesFlags * ExcelSignalTiming) (curColumn : Z)
  : result (timesFlags * ExcelSignalTiming) :=
  cellValue ← cell_value sheet row curColumn;
  if negb (String.eqb (strip (py_str cellValue)) "") then
    isWeekdayPlan ← checkForWeekdayPlan sheet row colCycle;
    if negb isWeekdayPlan then
      Ok ({| hasAllOtherTimes := hasAllOtherTimes st.1;
             gotStartTime := true;
             gotStartTime2 := gotStartTime2 st.1 |},
          set_startEnd (mkTime 23 59) (mkTime 23 59) st.2)
    else readClockTimes cellValue st.1 st.2
  else Ok st.

(** [setTimes(row, colCycle, sheet)] inside [getOperationTimes], acting on
    the timing record of the resolved code; the columns scanned are
    [range(signalData.topLeftCell[1], signalData.colPhaseData)]. *)
Definition setTimes (sheet : Sheet) (firstColumn colPhaseData0 : Z)
    (row colCycle : Z) (timing : ExcelSignalTiming)
  : result ExcelSignalTiming :=
  st ← for_each (range firstColumn colPhaseData0)
                (setTimes_body sheet row colCycle)
                ({| hasAllOtherTimes := false; gotStartTime := false;
                    gotStartTime2 := false |}, timing);
  Ok st.2.

(** The composite code of row [k]: the six cells from the CYCLE column,
    blank and false cells skipped, numbers written as integers. *)
Definition readCso (sheet : Sheet) (k y : Z) : result (list string) :=
  for_each (range y (y + 6))
    (λ cso0 l,
       cellValue ← cell_value sheet k l;
       if String.eqb (strip (py_str cellValue)) "" then Ok cso0
       else if py_bool cellValue then
         s ← match cellValue with
             | CFloat x => z ← int_of_float x; Ok (pretty z)
             | CInt z => Ok (pretty z)
             | CText s => Ok s
             end;
         Ok (cso0 ++ [s])%list
       else Ok cso0) [].

(** What [getOperationTimes] does with a row once its code is resolved. *)
Inductive csoResolution : Set :=
| CsoSkipped
| CsoUnknown (strCso : string)
| CsoFound (strCso : string).

(** First loop over the keys: the code is matched on its first character,
    the last matching key wins. *)
Definition matchFirstCharacter (keys : list string) (strCsoSub : string)
    (acc : bool * string) : bool * string :=
  foldl (λ acc signalTimes,
           if String.eqb (take 1 signalTimes) strCsoSub
           then (true, signalTimes) else acc) acc keys.

(** Second loop over the keys, for a code that is FREE or dashes: both
    arms of its [if] assign the key at hand. *)
Definition matchFreeCso (keys : list string) (acc : bool * string)
  : bool * string :=
  foldl (λ acc signalTimes,
           if String.eqb (take 1 signalTimes) "1"
           then (true, signalTimes) else (true, signalTimes)) acc keys.

(** The resolution of the composite code [cso] of row [k] against the
    keys of [signalData.signalTiming], in their iteration order. *)
Definition resolveCso (sheet : Sheet) (keys : list string) (k y : Z)
    (cso0 : list string) : result csoResolution :=
  let csosub := List.firstn 1 cso0 in
  let strCso := String.concat "" cso0 in
  let strCsoSub := String.concat "" csosub in
  if String.eqb strCso "" then Ok CsoSkipped
  else
    let '(CSOMatch, strCso) := matchFirstCharacter keys strCsoSub (false, strCso) in
    r ← (if negb CSOMatch then
           c ← from_option Ok (Raise IndexError) (String.get 0 strCsoSub);
           if Ascii.eqb c "F" || Ascii.eqb c "-" then
             Ok (Some (matchFreeCso keys (CSOMatch, strCso)))
           else
             v ← cell_value sheet k (y - 11);
             let timename := strip (py_str v) in
             if String.eqb (take 1 timename) "P" then Ok None
             else Ok (Some (CSOMatch, strCso))
         else Ok (Some (CSOMatch, strCso)));
    match r with
    | None => Ok CsoSkipped
    | Some (false, strCso) => Ok (CsoUnknown strCso)
    | Some (true, strCso) => Ok (CsoFound strCso)
    end.

(** [signalData.signalTiming[key]] and assignment to that existing entry. *)
Fixpoint lookupTiming (key : string) (items : list (string * ExcelSignalTiming))
  : result ExcelSignalTiming :=
  match items with
  | [] => Raise KeyError
  | (k, v) :: rest => if String.eqb k key then Ok v else lookupTiming key rest
  end.

Fixpoint storeTiming (key : string) (v : ExcelSignalTiming)
    (items : list (string * ExcelSignalTiming)) : list (string * ExcelSignalTiming) :=
  match items with
  | [] => []
  | (k, v0) :: rest =>
    if String.eqb k key then (k, v) :: rest else (k, v0) :: storeTiming key v rest
  end.

(** The body of [for k in range(x + 1, z)] of [getOperationTimes]: read the
    code of row [k], resolve it and set the operating times of its period. *)
Definition getOperationTimes_row (sheet : Sheet) (firstColumn colPhaseData0 y : Z)
    (timings : list (string * ExcelSignalTiming)) (k : Z)
  : result (list (string * ExcelSignalTiming)) :=
  cso0 ← readCso sheet k y;
  r ← resolveCso sheet timings.*1 k y cso0;
  match r with
  | CsoFound strCso =>
    timing ← lookupTiming strCso timings;
    timing' ← setTimes sheet firstColumn colPhaseData0 k y timing;
    Ok (storeTiming strCso timing' timings)
  | _ => Ok timings
  end.

(** *** Movement-grid parser *)

(** One step of the forward loop of [fillPhaseInfo]:
    [if phaseInfo[i] == "" and phaseInfo[i - 1] != "": phaseInfo[i] = phaseInfo[i - 1]].
    The second operand of [and] is read only when the first holds. *)
Definition fillForward_body (phaseInfo : list string) (i : nat)
  : result (list string) :=
  a ← getitem phaseInfo i;
  if String.eqb a "" then
    b ← getitem phaseInfo (i - 1);
    if negb (String.eqb b "") then Ok (<[i := b]> phaseInfo) else Ok phaseInfo
  else Ok phaseInfo.

(** One step of the backward loop:
    [if phaseInfo[i] == "" and phaseInfo[i + 1] != "": phaseInfo[i] = phaseInfo[i + 1]]. *)
Definition fillBackward_body (phaseInfo : list string) (i : nat)
  : result (list string) :=
  a ← getitem phaseInfo i;
  if String.eqb a "" then
    b ← getitem phaseInfo (i + 1);
    if negb (String.eqb b "") then Ok (<[i := b]> phaseInfo) else Ok phaseInfo
  else Ok phaseInfo.

(** [for i in range(1, len(phaseInfo))] *)
Definition fillForward (phaseInfo : list string) : result (list string) :=
  for_each (seq 1 (length phaseInfo - 1)) fillForward_body phaseInfo.

(** [for i in range(len(phaseInfo) - 1, -1, -1)] *)
Definition fillBackward (phaseInfo : list string) : result (list string) :=
  for_each (rev (seq 0 (length phaseInfo))) fillBackward_body phaseInfo.

(** [fillPhaseInfo(phaseInfo)]: the list after the two in-place passes, or
    the [IndexError] of an access past the end. *)
Definition fillPhaseInfo (phaseInfo : list string) : result (list string) :=
  phaseInfo' ← fillForward phaseInfo;
  fillBackward phaseInfo'.

Definition intervalStateGreen : list string :=
  ["G"; "G+G"; "G*"; "G G"; "FY"; "F"; "G+F"; "U"; "T"; "G + G"; "G + F"; "ON"].
Definition intervalStateYellow : list string := ["Y"; "SY"].
Definition intervalStateRed : list string := ["R"; "RH"; "OFF"; "FR"].

(** The label test that skips a row of the grid. *)
Definition skippedMovement (groupMovement : string) : bool :=
  String.eqb groupMovement "" || contains "PEDS " groupMovement
  || contains "PED " groupMovement || contains "XING " groupMovement
  || contains "MUNI " groupMovement || contains "TRAIN " groupMovement
  || contains "FLASHING " groupMovement || String.eqb groupMovement "MUNI"
  || contains " MUNI" groupMovement || contains "RAIL" groupMovement.

(** The inner loop of [getPhasingData] over the state columns of row [i]:
    [None] when a cell holds no known state ([allIntervalStatesValid] is
    false and the loop is left). *)
Fixpoint readStates (sheet : Sheet) (i : Z) (cols : list Z) (acc : list string)
  : result (option (list string)) :=
  match cols with
  | [] => Ok (Some acc)
  | j :: cols' =>
    v ← cell_value sheet i j;
    let intervalState := strip (upper (py_str v)) in
    if String.eqb intervalState "" then readStates sheet i cols' (acc ++ [""])%list
    else if inlist intervalState intervalStateGreen
      then readStates sheet i cols' (acc ++ ["G"])%list
    else if inlist intervalState intervalStateYellow
      then readStates sheet i cols' (acc ++ ["Y"])%list
    else if inlist intervalState intervalStateRed || inlist "-R-" intervalStateRed
      then readStates sheet i cols' (acc ++ ["R"])%list
    else Ok None
  end.

(** The body of the row loop of [getPhasingData]; the state is
    ([movementNames], [phasingData]). *)
Definition getPhasingData_row (sheet : Sheet) (startY colPhaseData0 lastCol : Z)
    (st : list string * list (list string)) (i : Z)
  : result (list string * list (list string)) :=
  v ← cell_value sheet i startY;
  let groupMovement := upper (py_str v) in
  if skippedMovement groupMovement then Ok st
  else
    r ← readStates sheet i (range colPhaseData0 (lastCol + 1)) [];
    match r with
    | None => Ok st
    | Some singleMovementData =>
      if bool_decide (singleMovementData
                      = replicate (length singleMovementData) "")
      then Ok st
      else Ok ((st.1 ++ [groupMovement])%list, (st.2 ++ [singleMovementData])%list)
    end.

(** [len(phasingData[i]) != len(phasingData[i+1])] for some [i]. *)
Fixpoint raggedRows (rows : list (list string)) : bool :=
  match rows with
  | r1 :: ((r2 :: _) as rest) =>
    negb (length r1 =? length r2)%nat || raggedRows rest
  | _ => false
  end.

(** The loop of [getPhasingData] that fills the [MultiArray]: row [i] of
    [phasingData] is passed to [fillPhaseInfo] and copied cell by cell. *)
Definition fillGrid_row (phasingData0 : list (list string)) (numIntervals : nat)
    (ma : MultiArray) (entry : nat * string) : result MultiArray :=
  let '(i, movName) := entry in
  row ← getitem phasingData0 i;
  row' ← fillPhaseInfo row;
  for_each (range 1 (Z.of_nat numIntervals + 1))
    (λ ma j,
       c ← getitem row' (Z.to_nat (j - 1));
       let intervalState := upper (strip c) in
       if String.eqb intervalState "G" then Ok (ma_set ma movName j "G")
       else if String.eqb intervalState "Y" then Ok (ma_set ma movName j "Y")
       else if String.eqb intervalState "R" then Ok (ma_set ma movName j "R")
       else Raise ParsingCardError) ma.

(** A field that is [None] or [0] is false. *)
Definition truthyZ (o : option Z) : bool :=
  match o with Some z => negb (z =? 0) | None => false end.

End Card.

Arguments PyNone {D}.
Arguments PyInt {D} z.
Arguments PyFloat {D} x.
Arguments PyStr {D} s.
Arguments CText {D} s.
Arguments CFloat {D} x.
Arguments CInt {D} z.
Arguments mkExcelSignalTiming {D}.
Arguments cso {D}.
Arguments cycle {D}.
Arguments offset {D}.
Arguments isActuated {D}.
Arguments startTime {D}.
Arguments endTime {D}.
Arguments times {D}.
Arguments ExcelSignalTiming_init {D}.
Arguments mkSignalData {D}.
Arguments topLeftCell {D}.
Arguments phaseSeqCell {D}.
Arguments sigInterCell {D}.
Arguments colPhaseData {D}.
Arguments lastColPhaseData {D}.
Arguments signalTiming {D}.
Arguments phasingData {D}.
Arguments iterSignalTiming {D}.
Arguments getNumTimeIntervals {D}.
Arguments inOperation {D}.
Arguments isAllOtherTimes {D}.
Arguments isFullDay {D}.
Arguments selectCSO {D}.
Arguments SignalData_selectCSO {D}.
Arguments mkPhase {D}.
Arguments Movs {D}.
Arguments green {D}.
Arguments yellow {D}.
Arguments allRed {D}.
Arguments startPhase {D}.
Arguments nextPhase {D}.
Arguments getPhases_body {D}.
Arguments synthesize {D}.
Arguments getPhases {D}.
Arguments cell_value {D}.
Arguments py_str {D}.
Arguments py_bool {D}.
Arguments py_float {D}.
Arguments set_cycle {D}.
Arguments set_offset {D}.
Arguments set_isActuated {D}.
Arguments set_startEnd {D}.
Arguments float_str {D}.
Arguments readCsoRow {D}.
Arguments csoOfRow {D}.
Arguments cycleOffsetOfRow {D}.
Arguments classifyCso {D}.
Arguments parseCsoRow {D}.
Arguments checkForWeekdayPlan {D}.
Arguments setTimes_body {D}.
Arguments setTimes {D}.
Arguments readCso {D}.
Arguments resolveCso {D}.
Arguments lookupTiming {D}.
Arguments storeTiming {D}.
Arguments getOperationTimes_row {D}.
Arguments readStates {D}.
Arguments getPhasingData_row {D}.

(** ** Dictionary iteration order *)

(** Python 2 leaves the order in which a dictionary is iterated to the
    interpreter.  This is the order of CPython 2.7 for a dictionary
    display of at most five entries, which stays in the initial table of
    eight slots: the hash of a string and of a tuple of strings over a C
    [long] of [w] bits (hash randomization is off by default), the probe
    sequence of the open-addressing table, and [items()], which lists
    the table slot by slot. *)
Module CPython27.







Section Dict.

Context {K V : Type} `{EqDecision K}.
Variable w : Z.
Variable hash : K → Z.




End Dict.

End CPython27.

(** ** Movement classifier *)

Module Classifier.

Definition TURN_LEFT : list string := ["LT"; "LT2"].
Definition TURN_THRU : list string := ["TH"; "TH2"].
Definition TURN_RIGHT : list string := ["RT"; "RT2"].

Definition leftTurnIndicators : list string :=
  ["LT'S"; "-L"; "WB-L"; "EB-L"; "SB-L"; "NB-L"; "LEFT TURN"; " LT"; "NBLT";
   "SBLT"; "WBLT"; "EBLT"; "(NBLT)"; "(SBLT)"; "(WBLT)"; "(EBLT)"].
Definition rightTurnIndicators : list string := ["RIGHT TURN"; "BRT"; " RT"].
Definition thruTurnIndicators : list string := [" THRU"; " THROUGH"; "(THRU)"].

(** The entries of the dictionary [indicators] of
    [groupMovementToTurnType], in the order of the dictionary display. *)
Definition turnIndicators : list (list string * list string) :=
  [(TURN_LEFT, leftTurnIndicators); (TURN_THRU, thruTurnIndicators);
   (TURN_RIGHT, rightTurnIndicators)].

(** The inner loop [for indicator in dirIndicators]; the state is
    ([result], [thruadded]). *)
Definition turnType_body (gMovName : string) (addRightToThru : bool)
    (dir : list string) (st : list string * bool) (indicator : string)
  : list string * bool :=
  let st1 :=
    if contains indicator gMovName
    then ((st.1 ++ dir)%list, if bool_decide (dir = TURN_THRU) then true else st.2)
    else st in
  if bool_decide (dir = TURN_RIGHT) && st1.2 && addRightToThru
  then ((st1.1 ++ dir)%list, st1.2)
  else st1.

(** [groupMovementToTurnType(gMovName, addRightToThru)], given the list
    [items] that [indicators.items()] yields: the entries of the dictionary
    in the iteration order of the interpreter. *)
Definition groupMovementToTurnType_items (items : list (list string * list string))
    (gMovName : string) (addRightToThru : bool) : list string :=
  (foldl (λ st entry,
            foldl (turnType_body gMovName addRightToThru entry.1) st entry.2)
         ([], false) items).1.

Definition wbIndicators : list string :=
  ["WB-"; "WB,"; ",WB"; "WB/"; "/WB"; "WB&"; "&WB"; " WB"; "WB "; "W/B"; "(WB";
   "WB)"; "(WB)"; "(WESTBOUND)"; "WESTBOUND"; "WEST "].
Definition ebIndicators : list string :=
  ["EB-"; "EB,"; ",EB"; "EB/"; "/EB"; "EB&"; "&EB"; " EB"; "EB "; "E/B"; "(EB";
   "(EB)"; "EB)"; "(EASTBOUND)"; "EASTBOUND"; "EAST "].
Definition nbIndicators : list string :=
  ["NB-"; "NB,"; ",NB"; "NB/"; "/NB"; "NB&"; "&NB"; " NB"; "NB "; "N/B"; "(NB";
   "NB)"; "(NORTHBOUND)"; "NORTHBOUND"; "NORTH "].
Definition sbIndicators : list string :=
  ["SB-"; "SB,"; ",SB"; "SB/"; "/SB"; "SB&"; "&SB"; " SB"; "SB "; "S/B"; "(SB";
   "SB)"; "(SOUTHBOUND)"; "SOUTHBOUND"; "SOUTH "].

(** The entries of the dictionary [indicators] of [getDirections]. *)
Definition directionIndicators : list (string * list string) :=
  [("WB", wbIndicators); ("EB", ebIndicators); ("NB", nbIndicators);
   ("SB", sbIndicators)].

(** The test of the inner loop of [getDirections]. *)
Definition directionHit (gMovName indicator : string) : bool :=
  contains indicator gMovName
  && negb (String.eqb gMovName "SOUTH VAN NESS")
  && negb (String.eqb gMovName "WEST PORTAL")
  && negb (String.eqb gMovName "NORTH POINT")
  && negb (String.eqb gMovName "I-80 E OFF-RAMP")
  && negb (String.eqb gMovName "HWY 101 SOUTHBOUND RAMP").

(** [for indicator in dirIndicators: if hit: result.append(dir); break] *)
Fixpoint appendOnFirstHit (gMovName dir : string) (dirIndicators : list string)
    (result0 : list string) : list string :=
  match dirIndicators with
  | [] => result0
  | indicator :: rest =>
    if directionHit gMovName indicator then (result0 ++ [dir])%list
    else appendOnFirstHit gMovName dir rest result0
  end.

(** [getDirections(gMovName)] inside [mapMovements], given the list that
    [indicators.items()] yields. *)
Definition getDirections_items (items : list (string * list string))
    (gMovName : string) : list string :=
  foldl (λ result0 entry, appendOnFirstHit gMovName entry.1 entry.2 result0)
        [] items.



End Classifier.

(** ** Command-line entry point *)

Module Main.

Definition USAGE : string := "

 python importExcelSignals.py dynameq_net_dir dynameq_net_prefix excel_signals_dir startTime endTime output_dynameq_dir output_dynameq_net_prefix [overrideturntypes.csv]
 
 e.g.
 
 python importExcelSignals.py . sf Y:\dta\SanFrancisco\2010\excelSignalCards 15:30 18:30 Y:\dta\SanFrancisco\2010\network\movement_override.csv
 
 This script reads all the excel signal cards in the excel_signal_cards dir and converts them to the dynameq network
 specified with the first two arguments.
 
 Only signals that are active in the given time period are converted.
 
 The script writes a new dynameq network that includes the signals to output_dynameq_dir using the prefix output_dynameq_net_prefix
 ".

(** The guard at the top of the [__main__] block: what is printed, and
    whether the process goes on ([Ok]) or exits ([SystemExit]).  [argv] is
    [sys.argv]; its first element is the script name. *)
Definition checkArguments (argv : list string) : list string * result unit :=
  if (length argv <? 6)%nat then ([USAGE], Raise (SystemExit 2))
  else ([], Ok ()).

(** The positional arguments are the elements of [sys.argv] after the
    script name. *)
Definition positional (argv : list string) : list string := tail argv.

End Main.

(** ** Instances of the float parameters *)

(** Binary64 floats: the arithmetic of the interpreter. *)
Module Binary64.

Definition getPhases := @getPhases float 0%float PrimFloat.add.
Definition synthesize := @synthesize float 0%float PrimFloat.add.

End Binary64.

(** The numbers that binary64 durations stand for.  Every finite binary64
    number is a multiple of 2^-1074: [units] is that multiple for a number
    in the representation of the floating-point specification of the
    library (sign, mantissa, exponent), and 0 for the infinities and NaN. *)
Module F64.

Definition units (x : spec_float) : Z :=
  match x with
  | S754_finite s m e => cond_Zopp s (Zpos m * 2 ^ (e + 1074))
  | _ => 0
  end.

Definition finite (x : spec_float) : bool :=
  match x with
  | S754_zero _ | S754_finite _ _ _ => true
  | _ => false
  end.

Definition value (x : float) : Z := units (Prim2SF x).

Definition isFinite (x : float) : bool := finite (Prim2SF x).

(** The number itself, as a rational: [value x] over 2^1074. *)
Definition toQ (x : float) : Q := value x # 2 ^ 1074.

(** green + yellow + allRed of a phase and its sum over the phases, the
    sum of the durations, and the sum of their absolute values, all as
    exact sums of the binary64 numbers at hand. *)
Definition phaseSeconds (p : Phase float) : Q :=
  toQ (green p) + toQ (yellow p) + toQ (allRed p).

Definition totalPhases (phases : list (Phase float)) : Q :=
  foldr (λ p acc, phaseSeconds p + acc)%Q 0%Q phases.

Definition totalDurations (durations : list float) : Q :=
  foldr (λ d acc, toQ d + acc)%Q 0%Q durations.

Definition magnitude (durations : list float) : Q :=
  foldr (λ d acc, Qabs (toQ d) + acc)%Q 0%Q durations.

(** The same sums counted in units of 2^-1074. *)
Definition phaseUnits (p : Phase float) : Z :=
  value (green p) + value (yellow p) + value (allRed p).

Definition phaseSize (p : Phase float) : Z :=
  Z.abs (value (green p)) + Z.abs (value (yellow p)) + Z.abs (value (allRed p)).

Definition unitsOfPhases (phases : list (Phase float)) : Z :=
  foldr (λ p acc, phaseUnits p + acc) 0 phases.

Definition unitsOfDurations (durations : list float) : Z :=
  foldr (λ d acc, value d + acc) 0 durations.

Definition sizeOfDurations (durations : list float) : Z :=
  foldr (λ d acc, Z.abs (value d) + acc) 0 durations.

(** The integer [M] after [k] right shifts of the rounding procedure:
    the mantissa kept, and the round and sticky bits that place the part
    shifted out with respect to one half. *)
Definition shr_inv (M k : Z) (mrs : shr_record) : Prop :=
  0 ≤ shr_m mrs
  ∧ 0 ≤ M - shr_m mrs * 2 ^ k < 2 ^ k
  ∧ match shr_r mrs, shr_s mrs with
    | false, false => M - shr_m mrs * 2 ^ k = 0
    | false, true => 0 < 2 * (M - shr_m mrs * 2 ^ k) < 2 ^ k
    | true, false => 2 * (M - shr_m mrs * 2 ^ k) = 2 ^ k
    | true, true => 2 ^ k < 2 * (M - shr_m mrs * 2 ^ k)
    end.

(** One rounding error of an addition whose exact result is below 2^21
    seconds, in units of 2^-1074: 2^-32 seconds. *)
Definition eps : Z := 2 ^ 1042.

(** The phases and the phase in progress account for the durations read
    so far up to one rounding error per duration, as long as these are
    finite, at most 4096, and add up to 2^20 seconds at most in absolute
    value. *)
Definition accountsWithin (phases : list (Phase float)) (p : Phase float)
    (seen : list float) : Prop :=
  Forall (λ d, isFinite d = true) seen →
  sizeOfDurations seen ≤ 2 ^ 52 * eps →
  (length seen ≤ 4096)%nat →
  isFinite (green p) = true ∧ isFinite (yellow p) = true
  ∧ isFinite (allRed p) = true
  ∧ phaseSize p ≤ sizeOfDurations seen + Z.of_nat (length seen) * eps
  ∧ Z.abs (unitsOfPhases phases + phaseUnits p - unitsOfDurations seen)
    ≤ Z.of_nat (length seen) * eps.

End F64.

(** Exact rationals, with the conversions restricted to plain decimal
    numerals (an optional sign, digits, an optional fraction); they serve
    to run the parsers on examples and to state what the synthesizer
    computes when no rounding occurs. *)
Module Exact.

Definition digit (c : ascii) : option Z :=
  let n := nat_of_ascii c in
  if ((48 <=? n) && (n <=? 57))%nat then Some (Z.of_nat (n - 48)) else None.

Fixpoint readDigits (s : string) (acc : Z) (cnt : nat) : Z * nat * string :=
  match s with
  | EmptyString => (acc, cnt, s)
  | String c s' =>
    match digit c with
    | Some d => readDigits s' (10 * acc + d) (S cnt)
    | None => (acc, cnt, s)
    end
  end.

Definition ratio (n : Z) (d : Z) : Qc := (Qc_of_Z n / Qc_of_Z d)%Qc.

Definition float_of_str (s : string) : option Qc :=
  let s := strip s in
  let '(sign, s) :=
    match s with
    | String "-"%char s' => (-1, s')
    | String "+"%char s' => (1, s')
    | _ => (1, s)
    end in
  let '(ip, n1, rest) := readDigits s 0 0 in
  match rest with
  | EmptyString => if (n1 =? 0)%nat then None else Some (Qc_of_Z (sign * ip))
  | String "."%char rest' =>
    let '(fp, n2, rest'') := readDigits rest' 0 0 in
    match rest'' with
    | EmptyString =>
      if (n1 + n2 =? 0)%nat then None
      else Some (ratio (sign * (ip * 10 ^ Z.of_nat n2 + fp)) (10 ^ Z.of_nat n2))
    | _ => None
    end
  | _ => None
  end.

Definition float_of_int (z : Z) : Qc := Qc_of_Z z.

Definition int_of_float (x : Qc) : result Z :=
  Ok (Z.quot (Qnum (this x)) (Zpos (Qden (this x)))).

Definition float_bool (x : Qc) : bool := negb (bool_decide (x = 0%Qc)).

(** Up to [n] decimals of the fraction [num / den], [0 <= num < den]. *)
Fixpoint decimals (n : nat) (num den : Z) : string :=
  match n with
  | O => ""
  | S n' =>
    if num =? 0 then ""
    else pretty (10 * num / den) +:+ decimals n' (10 * num mod den) den
  end.

Definition str_of_float (x : Qc) : string :=
  let num := Qnum (this x) in
  let den := Zpos (Qden (this x)) in
  let ip := Z.quot num den in
  let fp := decimals 12 (Z.abs (Z.rem num den)) den in
  (if (num <? 0) && (ip =? 0) then "-" else "")
  +:+ pretty ip +:+ "." +:+ (if String.eqb fp "" then "0" else fp).

Definition getPhases := @getPhases Qc 0%Qc Qcplus.
Definition synthesize := @synthesize Qc 0%Qc Qcplus.
Definition classifyCso := @classifyCso Qc float_of_str.
Definition parseCsoRow := @parseCsoRow Qc float_of_str float_of_int str_of_float int_of_float.

End Exact.

(** ** Example cards *)

Module Examples.

(** The rows of a movement grid, as a [MultiArray] over [n] intervals. *)
Definition gridOfRows (n : nat) (rows : list (string * list string)) : MultiArray :=
  {| ma_movements := rows.*1;
     ma_numIntervals := n;
     ma_data := list_to_map
       (rows ≫= λ r, imap (λ j c, ((r.1, Z.of_nat j + 1), c)) r.2) |}.

(** A card with one operating period, in force all day. *)
Definition cardOf {D} (ma : MultiArray) (durations : list D) : SignalData D :=
  {| topLeftCell := None; phaseSeqCell := None; sigInterCell := None;
     colPhaseData := None; lastColPhaseData := None;
     signalTiming :=
       [("111", {| cso := PyStr "111"; cycle := PyNone; offset := PyInt 0;
                   isActuated := false; startTime := mkTime 0 0;
                   endTime := mkTime 23 59; times := durations |})];
     phasingData := Some ma |}.

(** The worked example: two movements over eight intervals. *)
Definition mainCrossGrid : MultiArray :=
  gridOfRows 8 [("MAIN EB", ["G"; "G"; "Y"; "R"; "R"; "R"; "R"; "R"]);
                ("CROSS NB", ["R"; "R"; "R"; "R"; "G"; "G"; "Y"; "R"])].

Definition mainCrossTimes : list float :=
  [47; 6; 3.5; 0.5; 8; 20; 3.5; 1.5]%float.

Definition mainCrossPhases : list (Phase float) :=
  [ {| Movs := ["MAIN EB"]; green := 53; yellow := 3.5; allRed := 0.5 |};
    {| Movs := ["CROSS NB"]; green := 28; yellow := 3.5; allRed := 1.5 |} ]%float.

(** The durations of the worked example as exact rationals. *)
Definition mainCrossTimesExact : list Qc :=
  [Qc_of_Z 47; Qc_of_Z 6; Exact.ratio 7 2; Exact.ratio 1 2; Qc_of_Z 8;
   Qc_of_Z 20; Exact.ratio 7 2; Exact.ratio 3 2].

(** A grid with a single interval. *)
Definition oneIntervalGrid : MultiArray :=
  gridOfRows 1 [("MAIN EB", ["G"]); ("CROSS NB", ["R"])].

(** One movement, green then yellow, with a very long first interval. *)
Definition longGrid : MultiArray :=
  gridOfRows 4 [("MAIN EB", ["G"; "G"; "Y"; "Y"]); ("CROSS NB", ["R"; "R"; "R"; "R"])].



Definition rightTurnsFirst : list (list string * list string) :=
  [(Classifier.TURN_RIGHT, Classifier.rightTurnIndicators);
   (Classifier.TURN_THRU, Classifier.thruTurnIndicators);
   (Classifier.TURN_LEFT, Classifier.leftTurnIndicators)].

(** A timing-table row whose Thursday and Friday cells (columns 0 and 1,
    the cycle column being column 3) hold X and x, with a clock-time text
    in column 2. *)
Definition mixedCaseSheet : Sheet Qc :=
  λ r c, if c =? 0 then Some (CText "X")
         else if c =? 1 then Some (CText "x")
         else if c =? 2 then Some (CText "0700-0900")
         else Some (CText "").

(** A row without any text left of the phase-data column. *)
Definition blankSheet : Sheet Qc := λ r c, Some (CText "").

(** A stand-in for the clock-time rules that leaves the record as it is. *)
Definition noClockTimes (v : cell Qc) (fl : timesFlags)
    (st : ExcelSignalTiming Qc) : result (timesFlags * ExcelSignalTiming Qc) :=
  Ok (fl, st).

(** A period that an earlier row set to 07:00-09:00. *)
Definition morningPeak : ExcelSignalTiming Qc :=
  set_startEnd (mkTime 7 0) (mkTime 9 0) ExcelSignalTiming_init.

End Examples.

(** ** Totals, well-formed periods and orders *)

Section Totals.

Context {D : Type} (dzero : D) (dadd : D → D → D).

(** green + yellow + allRed of one phase, and its sum over the phases. *)
Definition phaseTotal (p : Phase D) : D :=
  dadd (dadd (green p) (yellow p)) (allRed p).

Definition sumPhases (phases : list (Phase D)) : D :=
  foldl (λ acc p, dadd acc (phaseTotal p)) dzero phases.

(** The sum of the raw interval durations, as [sum()] adds them. *)
Definition sumDurations (durations : list D) : D :=
  foldl dadd dzero durations.

(** A well-formed operating period: every movement row has a state G, Y or
    R in each of the N intervals, and there are N durations. *)
Definition wellFormed (ma : MultiArray) (durations : list D) : Prop :=
  (∀ gMov t, gMov ∈ ma_movements ma → 1 ≤ t ≤ Z.of_nat (ma_numIntervals ma) →
             ma_get ma gMov t ∈ ["G"; "Y"; "R"])
  ∧ length durations = ma_numIntervals ma.

End Totals.

(** Two binary64 totals agree within the tolerance 1e-6. *)
Definition withinTolerance (a b : float) : bool :=
  PrimFloat.leb (PrimFloat.abs (PrimFloat.sub a b)) 0x1.0c6f7a0b5ed8dp-20%float.

(** The order of clock times: by hour, then by minute. *)
Definition Time_le (a b : Time) : Prop :=
  hour a < hour b ∨ (hour a = hour b ∧ minute a ≤ minute b).

Definition Time_lt (a b : Time) : Prop :=
  hour a < hour b ∨ (hour a = hour b ∧ minute a < minute b).

(** [x] is the first element of [l] that satisfies [P]. *)
Definition firstSuch {A} (P : A → Prop) (l : list A) (x : A) : Prop :=
  ∃ l1 l2, l = (l1 ++ x :: l2)%list ∧ P x ∧ Forall (λ y, ¬ P y) l1.

Section Tiers.

Context {D : Type}.

(** The three tiers of the time-period selector, in the words of the
    contract: recorded start <= query start <= recorded end with the end
    strictly after the start; start = end = 0:00; start = 0:00 and
    end = 23:59. *)
Definition inForce (query : Time) (st : ExcelSignalTiming D) : Prop :=
  Time_le (startTime st) query ∧ Time_le query (endTime st)
  ∧ Time_lt (startTime st) (endTime st).

Definition allOtherTimes (st : ExcelSignalTiming D) : Prop :=
  startTime st = mkTime 0 0 ∧ endTime st = mkTime 0 0.

Definition fullDay (st : ExcelSignalTiming D) : Prop :=
  startTime st = mkTime 0 0 ∧ endTime st = mkTime 23 59.

End Tiers.


(** [items'] lists the entries of the dictionary [items] in another
    order, each with its indicators in another order. *)
Definition reordered {K} (items items' : list (K * list string)) : Prop :=
  ∃ mid, Forall2 (λ e e', e.1 = e'.1 ∧ e.2 ≡ₚ e'.2) items mid ∧ mid ≡ₚ items'.


(** What the classifiers retain of a dictionary entry.  For a direction:
    its key and whether one of its indicators hits the label.  For a turn
    type: its key, how many of its indicators occur in the label, and how
    many indicators it has. *)
Definition dirSummary (gMovName : string) (e : string * list string)
  : string * bool :=
  (e.1, existsb (Classifier.directionHit gMovName) e.2).

Definition dirEntry (result0 : list string) (s : string * bool) : list string :=
  if s.2 then (result0 ++ [s.1])%list else result0.

Definition hits (gMovName : string) (inds : list string) : nat :=
  length (filter (λ i, contains i gMovName = true) inds).

Definition turnSummary (gMovName : string) (e : list string * list string)
  : list string * nat * nat :=
  (e.1, hits gMovName e.2, length e.2).

(** [k] copies of the codes of a turn type. *)
Definition copies (k : nat) (dir : list string) : list string :=
  concat (replicate k dir).

Definition turnEntry (addRightToThru : bool) (st : list string * bool)
    (s : list string * nat * nat) : list string * bool :=
  let '(dir, h, n) := s in
  ((st.1 ++ copies (h + (if bool_decide (dir = Classifier.TURN_RIGHT) && st.2
                            && addRightToThru then n else 0)) dir)%list,
   st.2 || (bool_decide (dir = Classifier.TURN_THRU) && (0 <? h)%nat)).

(** The cell at index [k] of a state row exists and is not blank. *)
Definition filledAt (l : list string) (k : nat) : Prop :=
  ∃ x, l !! k = Some x ∧ x ≠ "".

(** A state row holds at least one non-blank cell. *)
Definition hasState (l : list string) : Prop := ∃ x, x ∈ l ∧ x ≠ "".

(** The state of the forward pass of [fillPhaseInfo] on the row [orig]
    once index [i] has been handled: cells after [i] are untouched, and
    every cell up to [i] with a non-blank cell at or before it in the
    original row is non-blank. *)
Definition forwardInv (orig : list string) (i : nat) (cur : list string) : Prop :=
  length cur = length orig
  ∧ (∀ k, (i < k)%nat → cur !! k = orig !! k)
  ∧ (∀ j k, (j ≤ k)%nat → (k ≤ i)%nat → filledAt orig j → filledAt cur k).

(** The cell of row [row], column [c] has text other than white space. *)
Definition nonBlankAt {D} (str_of_float : D → string) (sheet : Sheet D)
    (row c : Z) : bool :=
  match sheet row c with
  | Some v => negb (String.eqb (strip (py_str str_of_float v)) "")
  | None => false
  end.

(** The active movements [movs] of a phase are a selection, in grid order,
    of the movements [gm] of the grid. *)
Definition closedIn (gm movs : list string) : Prop :=
  filter (λ x, x ∈ movs) gm = movs.

(** Every movement of the grid has state G, Y or R in interval [t]. *)
Definition statesKnown (ma : MultiArray) (t : Z) : Prop :=
  Forall (λ gMov, ma_get ma gMov t ∈ ["G"; "Y"; "R"]) (ma_movements ma).

Section Outcomes.

Context {D : Type} (dzero : D) (dadd : D → D → D).

(** What one interval does to the phase in progress [p] and to the closed
    phases: one of the three counters of [p] grows by the duration, or [p]
    is closed and a new phase starts, green on the green movements or
    yellow on the yellow ones. *)
Inductive stepOutcome (cGreenMovs cYellowMovs : list string) (dur1 : D)
    (p : Phase D) (phases : list (Phase D)) : Phase D → list (Phase D) → Prop :=
| ExtendGreen :
    stepOutcome cGreenMovs cYellowMovs dur1 p phases
      {| Movs := Movs p; green := dadd (green p) dur1; yellow := yellow p;
         allRed := allRed p |} phases
| ExtendYellow :
    stepOutcome cGreenMovs cYellowMovs dur1 p phases
      {| Movs := Movs p; green := green p; yellow := dadd (yellow p) dur1;
         allRed := allRed p |} phases
| ExtendAllRed :
    stepOutcome cGreenMovs cYellowMovs dur1 p phases
      {| Movs := Movs p; green := green p; yellow := yellow p;
         allRed := dadd (allRed p) dur1 |} phases
| StartGreen :
    stepOutcome cGreenMovs cYellowMovs dur1 p phases
      (startPhase dzero cGreenMovs dur1) (phases ++ [p])%list
| StartYellow :
    stepOutcome cGreenMovs cYellowMovs dur1 p phases
      {| Movs := cYellowMovs; green := dzero; yellow := dur1; allRed := dzero |}
      (phases ++ [p])%list.

(** The loop invariant of the synthesizer, for a property [J] of the
    closed phases, the phase in progress and the durations read so far. *)
Definition loopInv (J : list (Phase D) → Phase D → list D → Prop)
    (ma : MultiArray) (st : option (Phase D) * list (Phase D)) (seen : list D)
  : Prop :=
  match st.1 with
  | None => st.2 = [] ∧ seen = []
  | Some p => closedIn (ma_movements ma) (Movs p) ∧ J st.2 p seen
  end.

End Outcomes.

(** In exact arithmetic: the closed phases and the phase in progress
    account for the durations read so far. *)
Definition accountsFor (phases : list (Phase Qc)) (p : Phase Qc) (seen : list Qc)
  : Prop :=
  (sumPhases 0%Qc Qcplus phases + phaseTotal Qcplus p)%Qc
  = sumDurations 0%Qc Qcplus seen.

(** A decision procedure for the states of a grid. *)
Definition knownStatesb (ma : MultiArray) : bool :=
  forallb (λ gMov,
             forallb (λ t, bool_decide (ma_get ma gMov t ∈ ["G"; "Y"; "R"]))
                     (getElementsOfDimention1 ma))
          (ma_movements ma).

(** The grid under construction in [getPhasingData]: its dimensions are
    [names] and [n], every state stored so far is G, Y or R, and the rows
    of the movements in [complete] hold a state for each interval. *)
Definition gridFilled (names : list string) (n : nat) (complete : list string)
    (ma : MultiArray) : Prop :=
  ma_movements ma = names ∧ ma_numIntervals ma = n
  ∧ map_Forall (λ _ v, v ∈ ["G"; "Y"; "R"]) (ma_data ma)
  ∧ ∀ g t, g ∈ complete → 1 ≤ t ≤ Z.of_nat n → is_Some (ma_data ma !! (g, t)).

(** ** Locating the sections of a card *)

Section Locators.

Context {D : Type} (str_of_float : D → string).
(** [==] between two floats, and [float(z)]. *)
Variable float_eqb : D → D → bool.
Variable float_of_int : Z → D.

Definition MAX_RANGE : Z := 10.

(** [for i in range(MAX_RANGE): for j in range(MAX_RANGE)]: the cells of
    the window in the order in which the two loops visit them. *)
Definition topLeftWindow : list (Z * Z) :=
  i ← range 0 MAX_RANGE; j ← range 0 MAX_RANGE; [(i, j)].

(** The body of the two loops of [findTopLeftCell], and the [raise] that
    follows them. *)
Fixpoint firstNonBlank (sheet : Sheet D) (cells : list (Z * Z)) : result (Z * Z) :=
  match cells with
  | [] => Raise ParsingCardError
  | (i, j) :: rest =>
    v ← cell_value sheet i j;
    if negb (String.eqb (strip (py_str str_of_float v)) "") then Ok (i, j)
    else firstNonBlank sheet rest
  end.

(** [findTopLeftCell(sheet)] *)
Definition findTopLeftCell (sheet : Sheet D) : result (Z * Z) :=
  firstNonBlank sheet topLeftWindow.

(** [getIntersectionName(sheet, topLeftCell)] *)
Definition getIntersectionName (sheet : Sheet D) (topLeftCell0 : Z * Z)
  : result string :=
  v ← cell_value sheet topLeftCell0.1 topLeftCell0.2;
  Ok (upper (py_str str_of_float v)).

(** How the loop of [findStreet], [findPedestrianPhase] and
    [findSignalIntervals] ends: a [return cell], the [return None] of the
    handler of [IndexError], or the end of the range. *)
Inductive scanResult : Set :=
| Found (cell0 : Z * Z)
| RanOut
| NotFound.

(** The loop that the three functions share:
    [for row in range(CELLS_TO_SEARCH): cell = (topLeftCell[0] + row, topLeftCell[1]);
     try: value = str(sheet.cell_value(...)) except IndexError: return None;
     if test(value): return cell].
    The reader raises nothing but [IndexError]. *)
Fixpoint scanColumn (test : string → bool) (sheet : Sheet D)
    (topLeftCell0 : Z * Z) (rows : list Z) : scanResult :=
  match rows with
  | [] => NotFound
  | row :: rest =>
    let cell0 := (topLeftCell0.1 + row, topLeftCell0.2) in
    match cell_value sheet cell0.1 cell0.2 with
    | Raise _ => RanOut
    | Ok v =>
      if test (py_str str_of_float v) then Found cell0
      else scanColumn test sheet topLeftCell0 rest
    end
  end.

(** [value.upper().strip().startswith("STREET")] *)
Definition isStreetKeyword (value : string) : bool :=
  String.prefix "STREET" (strip (upper value)).

(** The test of [findPedestrianPhase]. *)
Definition isPedestrianKeyword (value : string) : bool :=
  let v := strip (upper value) in
  contains "PEDS " v || contains "PED " v || contains "XING " v
  || contains "MUNI " v || contains "TRAIN " v || contains "FLASHING " v.

(** ["CSO" in value.upper().strip() or "DIAL" in value.upper().strip()] *)
Definition isIntervalKeyword (value : string) : bool :=
  let v := strip (upper value) in
  contains "CSO" v || contains "DIAL" v.

(** [findStreet(sheet, topLeftCell)]; [Ok None] is the value [None]. *)
Definition findStreet (sheet : Sheet D) (topLeftCell0 : Z * Z)
  : result (option (Z * Z)) :=
  match scanColumn isStreetKeyword sheet topLeftCell0 (range 0 40) with
  | Found cell0 => Ok (Some cell0)
  | RanOut => Ok None
  | NotFound => Raise ParsingCardError
  end.

(** [findPedestrianPhase(sheet, topLeftCell)], which raises nothing. *)
Definition findPedestrianPhase (sheet : Sheet D) (topLeftCell0 : Z * Z)
  : option (Z * Z) :=
  match scanColumn isPedestrianKeyword sheet topLeftCell0 (range 0 60) with
  | Found cell0 => Some cell0
  | RanOut => None
  | NotFound => None
  end.

(** [findSignalIntervals(sheet, topLeftCell)] *)
Definition findSignalIntervals (sheet : Sheet D) (topLeftCell0 : Z * Z)
  : result (option (Z * Z)) :=
  match scanColumn isIntervalKeyword sheet topLeftCell0 (range 0 80) with
  | Found cell0 => Ok (Some cell0)
  | RanOut => Ok None
  | NotFound => Raise ParsingCardError
  end.

(** [value == 1] on a cell value: a text is never equal to a number. *)
Definition isOne (v : cell D) : bool :=
  match v with
  | CText _ => false
  | CFloat x => float_eqb x (float_of_int 1)
  | CInt z => z =? 1
  end.

Definition NUM_COL_TO_SEARCH : Z := 10.

(** The loop of [getFirstColumnOfPhasingData] over the columns, and the
    [raise] that follows it. *)
Fixpoint firstColumnOfOne (sheet : Sheet D) (startX : Z) (cols : list Z)
  : result Z :=
  match cols with
  | [] => Raise ParsingCardError
  | col :: rest =>
    v ← cell_value sheet startX col;
    if isOne v then Ok col else firstColumnOfOne sheet startX rest
  end.

(** [getFirstColumnOfPhasingData(sheet, signalData)]: the card with its
    field [colPhaseData] assigned. *)
Definition getFirstColumnOfPhasingData (sheet : Sheet D) (signalData : SignalData D)
  : result (SignalData D) :=
  '(startX, startY) ← from_option Ok (Raise ParsingCardError)
                                  (phaseSeqCell signalData);
  col ← firstColumnOfOne sheet startX
          (range (startY + 1) (startY + NUM_COL_TO_SEARCH));
  Ok {| topLeftCell := topLeftCell signalData;
        phaseSeqCell := phaseSeqCell signalData;
        sigInterCell := sigInterCell signalData;
        colPhaseData := Some col;
        lastColPhaseData := lastColPhaseData signalData;
        signalTiming := signalTiming signalData;
        phasingData := phasingData signalData |}.

End Locators.

(** ** Periods that cover the requested time span *)

(** [checkNumberofTimes(excelCard, startTime, endTime)]: the number of
    periods with
    [startTime >= t.startTime and endTime <= t.endTime and t.endTime > t.startTime].
    The log lines written when there are several are left out. *)
Definition checkNumberofTimes {D} (excelCard : SignalData D)
    (startTime0 endTime0 : Time) : nat :=
  foldl (λ nummatches signalTiming0,
           if Time_leb (startTime signalTiming0) startTime0
              && Time_leb endTime0 (endTime signalTiming0)
              && Time_ltb (startTime signalTiming0) (endTime signalTiming0)
           then S nummatches else nummatches)
        0%nat (iterSignalTiming excelCard).

(** ** Directions of a link *)

(** [getPossibleLinkDirections(link)] as a function of
    [link.getOrientation()], a number of degrees. *)
Definition getPossibleLinkDirections (orientation : Q) : list string :=
  let result0 :=
    if Qle_bool 270 orientation || negb (Qle_bool 90 orientation)
    then ["NB"] else ["SB"] in
  if Qle_bool 0 orientation && negb (Qle_bool 180 orientation)
  then (result0 ++ ["EB"])%list else (result0 ++ ["WB"])%list.

(** ** Street names of an intersection *)

Module StreetNames.

(** The first alternative of a pattern [a1|a2|...] of literals that matches
    at the head of [s]. *)
Definition matchAt (alternatives : list string) (s : string) : option string :=
  List.find (λ alt, String.prefix alt s) alternatives.

(** [regex.split(s)] for a pattern that is an alternation of non-empty
    literals: the text is read from the left, at each position the
    alternatives are tried in order, and a match ends the piece being
    read.  [skip] counts the characters of the match that are still to be
    passed over and [cur] is the piece being read. *)
Fixpoint re_split_go (alternatives : list string) (s : string) (skip : nat)
    (cur : string) : list string :=
  match s with
  | EmptyString => [cur]
  | String c s' =>
    match skip with
    | S k => re_split_go alternatives s' k cur
    | O =>
      match matchAt alternatives s with
      | Some alt => cur :: re_split_go alternatives s' (String.length alt - 1) ""
      | None => re_split_go alternatives s' 0 (cur +:+ String c "")
      end
    end
  end.

Definition re_split (alternatives : list string) (s : string) : list string :=
  re_split_go alternatives s 0 "".

(** [sorted(l)] on [str] values, which are ordered by character code, a
    prefix first: the elements are inserted one by one into a sorted
    list. *)
Fixpoint insertSorted (x : string) (l : list string) : list string :=
  match l with
  | [] => [x]
  | y :: l' => if String.leb x y then x :: l else y :: insertSorted x l'
  end.

Definition sorted (l : list string) : list string := foldr insertSorted [] l.

(** The alternatives of [re.compile(r",| AND|\&|\@|\ AT|\/")]. *)
Definition separators : list string := [","; " AND"; "&"; "@"; " AT"; "/"].

(** [extractStreetNames(intersection)] *)
Definition extractStreetNames (intersection : string) : list string :=
  let intersection := upper intersection in
  let streetNames := re_split separators intersection in
  sorted (strip <$> streetNames).

(** [new.join(...)] of the characters of [s], each followed by [new]. *)
Fixpoint interleave (new s : string) : string :=
  match s with
  | EmptyString => EmptyString
  | String c s' => String c (new +:+ interleave new s')
  end.

(** The occurrences of a non-empty [old] in [s], from the left and without
    overlap, replaced by [new]. *)
Fixpoint replace_go (old new s : string) (skip : nat) : string :=
  match s with
  | EmptyString => EmptyString
  | String c s' =>
    match skip with
    | S k => replace_go old new s' k
    | O =>
      if String.prefix old s
      then new +:+ replace_go old new s' (String.length old - 1)
      else String c (replace_go old new s' 0)
    end
  end.

(** [s.replace(old, new)] *)
Definition replace (s old new : string) : string :=
  match old with
  | EmptyString => new +:+ interleave new s
  | _ => replace_go old new s 0
  end.

(** [s.find(sub)] *)
Definition find (s sub : string) : Z :=
  match String.index 0 sub s with
  | Some n => Z.of_nat n
  | None => -1
  end.

(** [s[:k]], a negative [k] counting from the end. *)
Definition upto (k : Z) (s : string) : string :=
  if k <? 0 then take (Z.to_nat (Z.of_nat (String.length s) + k)) s
  else take (Z.to_nat k) s.

(** The dictionary [corrections] of [cleanStreetName], in the order of its
    display. *)
Definition corrections : list (string * string) :=
  [("TWELFTH", "12TH"); ("ELEVENTH", "11TH"); ("TENTH", "10TH");
   ("NINTH", "9TH"); ("EIGHTH", "8TH"); ("SEVENTH", "7TH"); ("SIXTH", "6TH");
   ("FIFTH", "5TH"); ("FOURTH", "4TH"); ("THIRD", "3RD"); ("SECOND", "2ND");
   ("FIRST", "1ST"); ("O'FARRELL", "O FARRELL"); ("3RDREET", "3RD");
   ("EMBARCADERO/KING", "THE EMBARCADERO"); ("VAN NESSNUE", "VAN NESS");
   ("3RD #3", "3RD"); ("BAYSHORE #3", "BAYSHORE"); ("09TH", "9TH");
   ("08TH", "8TH"); ("07TH", "7TH"); ("06TH", "6TH"); ("05TH", "5TH");
   ("04TH", "4TH"); ("03RD", "3RD"); ("02ND", "2ND"); ("01ST", "1ST")].

Definition itemsToRemove : list string :=
  [" STREETS"; " STREET"; " STS."; " STS"; " ST."; " ST"; " ROAD"; " RD.";
   " RD"; " AVENUE"; " AVE."; " AVES"; " AVE"; " BLVD."; " BLVD";
   " BOULEVARD"; "MASTER:"; " DRIVE"; " DR."; " WAY"; " WY"; " CT"; " TERR";
   " HWY"].

(** The body of [for wrongName, rightName in corrections.items()]: the
    five tests read [streetName], and each assigns [newStreetName]. *)
Definition correction_body (streetName : string) (newStreetName : string)
    (entry : string * string) : string :=
  let '(wrongName, rightName) := entry in
  let new1 := if contains wrongName streetName
              then replace streetName wrongName rightName else newStreetName in
  let new2 := if String.eqb streetName "EMBARCADERO"
              then "THE EMBARCADERO" else new1 in
  let new3 := if endswith streetName " DR" then upto (-3) streetName else new2 in
  let new4 := if endswith streetName " AV" then upto (-3) streetName else new3 in
  if contains " TO " streetName
  then upto (find streetName " TO ") streetName else new4.

(** The body of [for item in itemsToRemove]. *)
Definition remove_body (newStreetName item : string) : string :=
  if contains item newStreetName then replace newStreetName item ""
  else newStreetName.

(** [cleanStreetName(streetName)], given the list [items] that
    [corrections.items()] yields. *)
Definition cleanStreetName_items (items : list (string * string))
    (streetName : string) : string :=
  let newStreetName := strip streetName in
  let newStreetName := foldl (correction_body streetName) newStreetName items in
  let newStreetName := foldl remove_body newStreetName itemsToRemove in
  strip newStreetName.

(** [cleanStreetNames(streetNames)] *)
Definition cleanStreetNames_items (items : list (string * string))
    (streetNames : list string) : list string :=
  let newStreetNames := cleanStreetName_items items <$> streetNames in
  if (1 <? length newStreetNames)%nat
     && from_option (λ s, String.eqb s "") false (head newStreetNames)
  then tail newStreetNames else newStreetNames.

(** [assignCardNames(excelCards)]: the fields [streetNames] and [iiName]
    computed from the field [iName]. *)
Definition assignCardNames_items (items : list (string * string))
    (iName : string) : list string * string :=
  let streetNames := extractStreetNames iName in
  let streetNames := sorted (cleanStreetNames_items items streetNames) in
  (streetNames, String.concat "," streetNames).

End StreetNames.

(** ** Movement groups expected to be mapped *)

Module Mapper.

Import Classifier.

(** The test on a label that makes [mapGroupMovements] skip it and
    [mapMovements] remove it from the expected labels. *)
Definition isUnmappedLabel (gMovName : string) : bool :=
  contains "DRIVEWAY" gMovName || contains "FIRE HOUSE" gMovName
  || (contains "BRIDGE " gMovName && negb (contains "CAMBRIDGE" gMovName))
  || contains "RESTRICTION" gMovName || contains "PIER 39" gMovName
  || contains " PEDS" gMovName || contains "SERVICE ROAD" gMovName
  || (contains "PARKING" gMovName && negb (contains "CHURCH" gMovName))
  || contains "GARAGE" gMovName || contains "(EMS" gMovName
  || contains "LRV PREEMPT" gMovName || contains "AT BRIDGE" gMovName
  || contains "BLIND " gMovName || contains "STREETCAR" gMovName
  || contains "(FAR" gMovName || contains "SHRADER PATH" gMovName
  || contains " WBRT" gMovName || contains " RT. TURN" gMovName
  || contains "XING" gMovName || contains "PEDS " gMovName.

(** The five tests on a label, its directions and the street names of the
    card that follow in both functions. *)
Definition directionTests (streetNames gDirections : list string)
    (gMovName : string) : list bool :=
  [ contains "BUSH" gMovName && inlist "WB" gDirections;
    contains "FELL" gMovName && inlist "EB" gDirections
      && negb (inlist "WB" gDirections) && negb (inlist "FRANKLIN" streetNames);
    contains "PINE" gMovName && inlist "EB" gDirections;
    contains "PIERCE" gMovName && inlist "FELL" streetNames
      && inlist "NB" gDirections;
    contains "LEE" gMovName && inlist "OCEAN" streetNames
      && inlist "SB" gDirections ].

(** [l.remove(x)]: the first occurrence goes, [ValueError] without one. *)
Fixpoint list_remove (x : string) (l : list string) : result (list string) :=
  match l with
  | [] => Raise ValueError
  | y :: l' =>
    if String.eqb y x then Ok l'
    else l'' ← list_remove x l'; Ok (y :: l'')
  end.

(** [if test: MovementNames = list(groupMovements);
     MovementNames.remove(gMovName); groupMovements = tuple(MovementNames)] *)
Definition removeIf (test : bool) (gMovName : string) (groupMovements : list string)
  : result (list string) :=
  if test then list_remove gMovName groupMovements else Ok groupMovements.

(** The body of the loop of [mapMovements] over the labels of the grid;
    the state is the variable [groupMovements].  [ditems] lists the entries
    of the dictionary of [getDirections] in iteration order. *)
Definition expectedMovements_body (ditems : list (string * list string))
    (streetNames : list string) (groupMovements : list string) (gMovName : string)
  : result (list string) :=
  groupMovements ← removeIf (isUnmappedLabel gMovName) gMovName groupMovements;
  let gDirections := getDirections_items ditems gMovName in
  for_each (directionTests streetNames gDirections gMovName)
           (λ groupMovements test, removeIf test gMovName groupMovements)
           groupMovements.

(** The labels that [mapMovements] expects to find mapped: the loop
    [for gMovName in groupMovements] runs over the labels of the grid while
    the variable of the same name is rebound to shorter copies. *)
Definition expectedMovements (ditems : list (string * list string))
    (streetNames : list string) (groupMovements : list string)
  : result (list string) :=
  for_each groupMovements (expectedMovements_body ditems streetNames)
           groupMovements.

(** The number of tests that a label meets. *)
Definition removals (ditems : list (string * list string))
    (streetNames : list string) (gMovName : string) : nat :=
  length (filter (λ b, b = true)
            (isUnmappedLabel gMovName
             :: directionTests streetNames
                  (getDirections_items ditems gMovName) gMovName)).

End Mapper.

(** ** Notions used to state the properties of the locators *)

Section LocatorNotions.

Context {D : Type} (str_of_float : D → string).

(** The cell exists and holds nothing but white space. *)
Definition blankAt (sheet : Sheet D) (c : Z * Z) : Prop :=
  ∃ v, sheet c.1 c.2 = Some v ∧ strip (py_str str_of_float v) = "".

(** The cell exists and its value meets, or fails, a test. *)
Definition meetsAt (test : cell D → bool) (sheet : Sheet D) (c : Z * Z) : Prop :=
  ∃ v, sheet c.1 c.2 = Some v ∧ test v = true.

Definition failsAt (test : cell D → bool) (sheet : Sheet D) (c : Z * Z) : Prop :=
  ∃ v, sheet c.1 c.2 = Some v ∧ test v = false.

(** The sheet has no cell at these coordinates. *)
Definition missingAt (sheet : Sheet D) (c : Z * Z) : Prop := sheet c.1 c.2 = None.

(** The window of [findTopLeftCell] and the order in which it is visited. *)
Definition inWindow (c : Z * Z) : Prop :=
  0 ≤ c.1 < MAX_RANGE ∧ 0 ≤ c.2 < MAX_RANGE.

Definition visitedBefore (a b : Z * Z) : Prop :=
  a.1 < b.1 ∨ (a.1 = b.1 ∧ a.2 < b.2).

Definition visitedBeforeb (a b : Z * Z) : bool :=
  (a.1 <? b.1) || ((a.1 =? b.1) && (a.2 <? b.2)).

Fixpoint visitedInOrder (cells : list (Z * Z)) : bool :=
  match cells with
  | [] => true
  | c :: rest => forallb (visitedBeforeb c) rest && visitedInOrder rest
  end.

(** Row [row] below the anchor is the first of the [n] rows scanned whose
    text meets the test. *)
Definition firstHit (test : string → bool) (sheet : Sheet D) (anchor : Z * Z)
    (n : Z) (cell0 : Z * Z) : Prop :=
  ∃ row, 0 ≤ row < n ∧ cell0 = (anchor.1 + row, anchor.2)
         ∧ meetsAt (λ v, test (py_str str_of_float v)) sheet cell0
         ∧ ∀ r, 0 ≤ r < row →
                failsAt (λ v, test (py_str str_of_float v)) sheet (anchor.1 + r, anchor.2).

(** The column ends within the [n] rows scanned, before any row meets the
    test. *)
Definition cutShort (test : string → bool) (sheet : Sheet D) (anchor : Z * Z)
    (n : Z) : Prop :=
  ∃ row, 0 ≤ row < n ∧ missingAt sheet (anchor.1 + row, anchor.2)
         ∧ ∀ r, 0 ≤ r < row →
                failsAt (λ v, test (py_str str_of_float v)) sheet (anchor.1 + r, anchor.2).

(** The [n] rows scanned exist and none meets the test. *)
Definition noHit (test : string → bool) (sheet : Sheet D) (anchor : Z * Z)
    (n : Z) : Prop :=
  ∀ r, 0 ≤ r < n →
       failsAt (λ v, test (py_str str_of_float v)) sheet (anchor.1 + r, anchor.2).

End LocatorNotions.

(** The direction opposite to a direction. *)
Definition opposite (dir : string) : string :=
  if String.eqb dir "NB" then "SB"
  else if String.eqb dir "SB" then "NB"
  else if String.eqb dir "EB" then "WB"
  else if String.eqb dir "WB" then "EB"
  else dir.

(** ** Notions used to state the properties of the street names *)

(** None of the separators of [extractStreetNames] occurs in [s]. *)
Definition separatorFree (s : string) : Prop :=
  Forall (λ alt, contains alt s = false) StreetNames.separators.

(** The correction [entry] applies to the name: its key occurs in it. *)
Definition applies (streetName : string) (entry : string * string) : Prop :=
  contains entry.1 streetName = true.

Global Instance applies_dec streetName entry : Decision (applies streetName entry).
Proof. unfold applies. apply _. Defined.

(** What the four tests that follow the correction in the loop of
    [cleanStreetName] make of a corrected name [new]: the last test that
    holds decides. *)
Definition overridden (streetName new : string) : string :=
  if contains " TO " streetName
  then StreetNames.upto (StreetNames.find streetName " TO ") streetName
  else if endswith streetName " AV" then StreetNames.upto (-3) streetName
  else if endswith streetName " DR" then StreetNames.upto (-3) streetName
  else if String.eqb streetName "EMBARCADERO" then "THE EMBARCADERO"
  else new.

(** [k] removals of the label in a row. *)
Fixpoint removeTimes (k : nat) (gMovName : string) (groupMovements : list string)
  : result (list string) :=
  match k with
  | O => Ok groupMovements
  | S k' =>
    groupMovements' ← Mapper.list_remove gMovName groupMovements;
    removeTimes k' gMovName groupMovements'
  end.

(** ** Notions used to state what [fillPhaseInfo] computes *)

(** The last state at or before index [k] of a row, the first state of
    the row, and the state that a filled row holds at index [k]: the
    nearest state to the left, or the first state of the row when there is
    none. *)
Definition lastStateUpTo (row : list string) (k : nat) : option string :=
  last (filter (λ x, x ≠ "") (firstn (S k) row)).

Definition firstState (row : list string) : option string :=
  head (filter (λ x, x ≠ "") row).

Definition filledState (row : list string) (k : nat) : string :=
  default (default "" (firstState row)) (lastStateUpTo row k).

(** The row during the forward pass, index [i] being the last one
    handled, and during the backward pass, index [i] being the next one to
    handle ([fwd] is the row after the forward pass). *)
Definition forwardState (row : list string) (i : nat) (cur : list string) : Prop :=
  length cur = length row
  ∧ (∀ k, (i < k)%nat → cur !! k = row !! k)
  ∧ (∀ k, (k ≤ i)%nat → (k < length row)%nat →
          cur !! k = Some (default "" (lastStateUpTo row k))).

Definition backwardState (row fwd : list string) (i : nat) (cur : list string)
  : Prop :=
  length cur = length row
  ∧ (∀ k, (k < i)%nat → cur !! k = fwd !! k)
  ∧ (∀ k, (i ≤ k)%nat → (k < length row)%nat →
          cur !! k = Some (filledState row k)).

(** ** A sample of the phasing section of a card *)

Module Samples.

(** The STREET row with the interval numbers, two movement rows, of which
    the first leaves its second interval blank, and the CSO row. *)
Definition phasingSheet : Sheet Qc :=
  λ r c,
    Some (if (r =? 0) && (c =? 0) then CText "STREET"
          else if (r =? 0) && (c =? 1) then CFloat (Qc_of_Z 1)
          else if (r =? 0) && (c =? 2) then CFloat (Qc_of_Z 2)
          else if (r =? 1) && (c =? 0) then CText "Main EB"
          else if (r =? 1) && (c =? 1) then CText "G"
          else if (r =? 2) && (c =? 0) then CText "Cross NB"
          else if (r =? 2) && (c =? 1) then CText "R"
          else if (r =? 2) && (c =? 2) then CText "G"
          else if (r =? 3) && (c =? 0) then CText "CSO"
          else CText "").

(** The card once its sections are located and one period of two
    intervals is read. *)
Definition phasingCard : SignalData Qc :=
  {| topLeftCell := Some (0, 0); phaseSeqCell := Some (0, 0);
     sigInterCell := Some (3, 0); colPhaseData := Some 1;
     lastColPhaseData := Some 2;
     signalTiming :=
       [("111", {| cso := PyStr "111"; cycle := PyFloat (Qc_of_Z 60);
                   offset := PyInt 0; isActuated := false;
                   startTime := mkTime 0 0; endTime := mkTime 0 0;
                   times := [Qc_of_Z 40; Qc_of_Z 20] |})];
     phasingData := None |}.



End Samples.


(** ** Outcomes beyond the exceptions of the card parser *)

Module Wide.

(** The functions below can also end in a [TypeError] ([None] or an
    integer where a sequence is expected) or in the [dta.DtaError] of the
    network library, which [Py.exn] does not list. *)
Inductive error : Set :=
| Std (e : Py.exn)
| TypeError
| DtaError.

Global Instance error_eq_dec : EqDecision error.
Proof. solve_decision. Defined.

(** The outcome of a call: a value, an exception, or, for the one loop
    that Python writes as [while True], the end of the steps allowed. *)
Inductive outcome (A : Type) : Type :=
| Done (a : A)
| Fail (e : error)
| OutOfFuel.
Global Arguments Done {A} a.
Global Arguments Fail {A} e.
Global Arguments OutOfFuel {A}.

Global Instance outcome_ret : MRet outcome := λ A a, Done a.

Global Instance outcome_bind : MBind outcome := λ A B k m,
  match m with
  | Done a => k a
  | Fail e => Fail e
  | OutOfFuel => OutOfFuel
  end.

(** A call to a function that raises only the exceptions of [Py.exn]. *)
Definition lift {A} (m : Py.result A) : outcome A :=
  match m with
  | Ok a => Done a
  | Raise e => Fail (Std e)
  end.

(** [try: m except e0: h] *)
Definition try_except {A} (m : outcome A) (e0 : Py.exn) (h : outcome A) : outcome A :=
  match m with
  | Fail (Std e) => if decide (e = e0) then h else Fail (Std e)
  | _ => m
  end.

(** [for x in xs: body] *)
Fixpoint for_loop {A S} (xs : list A) (body : S → A → outcome S) (s : S)
  : outcome S :=
  match xs with
  | [] => Done s
  | x :: xs' => s' ← body s x; for_loop xs' body s'
  end.

End Wide.

Import Wide.

(** ** The movement grid of a card *)

(** The characters of the text are ASCII. *)
Fixpoint isAscii (s : string) : bool :=
  match s with
  | EmptyString => true
  | String c s' => (N_of_ascii c <? 128)%N && isAscii s'
  end.

(** Every text cell of the sheet is ASCII, so that [str] of a cell is its
    text ([py_str]).  On a text with another character [str] raises
    [UnicodeEncodeError], which sheets of this kind keep out. *)
Definition asciiSheet {D} (sheet : Sheet D) : Prop :=
  ∀ r c s, sheet r c = Some (CText s) → isAscii s = true.

Section PhasingData.

Context {D : Type} (str_of_float : D → string).

(** [getPhasingData(sheet, signalData)]: the grid assigned to
    [signalData.phasingData].  The message of the failure on a number of
    states that differs from [getNumTimeIntervals()] is formatted with
    [%d]: on a card without any period that number is [None], and the
    formatting ends in a [TypeError]. *)
Definition getPhasingData (sheet : Sheet D) (signalData : SignalData D)
  : outcome MultiArray :=
  '(startX, startY) ←
    lift (from_option Ok (Raise ParsingCardError) (phaseSeqCell signalData));
  '(endX, endY) ←
    lift (from_option Ok (Raise ParsingCardError) (sigInterCell signalData));
  colPhaseData0 ←
    lift (if truthyZ (colPhaseData signalData)
          then from_option Ok (Raise ParsingCardError) (colPhaseData signalData)
          else Raise ParsingCardError);
  lastCol ←
    lift (if truthyZ (lastColPhaseData signalData)
          then from_option Ok (Raise ParsingCardError) (lastColPhaseData signalData)
          else Raise ParsingCardError);
  '(movementNames, phasingData0) ←
    lift (for_each (range (startX + 1) endX)
                   (getPhasingData_row str_of_float sheet startY colPhaseData0 lastCol)
                   ([], []));
  row0 ← lift (from_option Ok (Raise ParsingCardError) (head phasingData0));
  let numIntervals := length row0 in
  if (numIntervals =? 0)%nat then Fail (Std ParsingCardError)
  else if (length phasingData0 <=? 1)%nat then Fail (Std ParsingCardError)
  else if raggedRows phasingData0 then Fail (Std ParsingCardError)
  else
    match getNumTimeIntervals signalData with
    | None => Fail TypeError
    | Some n =>
      if negb (n =? numIntervals)%nat then Fail (Std ParsingCardError)
      else
        let ma := {| ma_movements := movementNames;
                     ma_numIntervals := numIntervals;
                     ma_data := ∅ |} in
        lift (for_each (imap (λ i movName, (i, movName)) (getElementsOfDimention0 ma))
                       (fillGrid_row phasingData0 numIntervals) ma)
    end.

End PhasingData.

(** ** Clock times of a period *)

(** [s[k:]] for [k >= 0]. *)
Fixpoint slice_from (k : nat) (s : string) : string :=
  match k, s with
  | O, _ => s
  | S _, EmptyString => EmptyString
  | S k', String _ s' => slice_from k' s'
  end.

Section ClockTimes.

Context {D : Type} (str_of_float : D → string).
(** [==] between two floats, and [float(z)]. *)
Variable float_eqb : D → D → bool.
Variable float_of_int : Z → D.
(** The entries 3 and 4 (hour and minute) of [xlrd.xldate_as_tuple(x, 0)]. *)
Variable xldate_as_tuple : D → outcome (Z * Z).
(** Modelled from the spec: [dta.Time(hour, minute)] builds a time of day
    with minute resolution; what it does with numbers that are no time of
    day is not given, so the constructor is a parameter. *)
Variable newTime : Z → Z → outcome Time.
(** [int(s)] on a text ([None]: [ValueError]). *)
Variable int_of_str : string → option Z.

Definition int (s : string) : outcome Z :=
  from_option Done (Fail (Std ValueError)) (int_of_str s).

Definition set_gotStartTime (flags : timesFlags) : timesFlags :=
  {| hasAllOtherTimes := hasAllOtherTimes flags;
     gotStartTime := true;
     gotStartTime2 := gotStartTime2 flags |}.

Definition set_gotStartTime2 (flags : timesFlags) : timesFlags :=
  {| hasAllOtherTimes := hasAllOtherTimes flags;
     gotStartTime := gotStartTime flags;
     gotStartTime2 := true |}.

Definition set_startTime (s : Time) (st : ExcelSignalTiming D) : ExcelSignalTiming D :=
  set_startEnd s (endTime st) st.

Definition set_endTime (e : Time) (st : ExcelSignalTiming D) : ExcelSignalTiming D :=
  set_startEnd (startTime st) e st.

(** The branch of [setTimes] for a number, [isinstance(cellValue, float)]. *)
Definition clockNumber (cellValue : D) (flags : timesFlags)
    (timing : ExcelSignalTiming D)
  : outcome (timesFlags * ExcelSignalTiming D) :=
  time ← (if float_eqb cellValue (float_of_int 1) then Done (0, 0)
          else xldate_as_tuple cellValue);
  if negb (gotStartTime flags) then
    t ← newTime time.1 time.2;
    Done (set_gotStartTime flags, set_startTime t timing)
  else
    t ← newTime time.1 time.2;
    Done (flags, set_endTime t timing).

(** The text of the form [ab-cd] or [ab - cd] read by position:
    the hour and the minute of the start, and those of the end at the
    positions [e1] and [e2]; [clamp] is the rule that turns an end hour 24
    into 23:59. *)
Definition clockByPosition (cellValue : string) (e1 e2 : nat) (clamp : bool)
    (flags : timesFlags) (timing : ExcelSignalTiming D)
  : outcome (string * timesFlags * ExcelSignalTiming D) :=
  let cellValue := strip cellValue in
  startTime1 ← int (take 2 cellValue);
  startTime2 ← int (String.substring 2 2 cellValue);
  endTime1 ← int (String.substring e1 2 cellValue);
  endTime2 ← int (slice_from e2 cellValue);
  let '(endTime1, endTime2) :=
    if clamp && (endTime1 =? 24) then (23, 59) else (endTime1, endTime2) in
  s ← newTime startTime1 startTime2;
  e ← newTime endTime1 endTime2;
  Done (cellValue, set_gotStartTime flags, set_startEnd s e timing).

(** The text split at [stopval]: the start is [cellValue[:stopval - before]]
    and the end [cellValue[stopval + after:]], each of them split at its
    first colon. *)
Definition clockBySeparator (cellValue : string) (stopval : Z) (before after : Z)
    (flags : timesFlags) (timing : ExcelSignalTiming D)
  : outcome (timesFlags * ExcelSignalTiming D) :=
  let startTimeAll := StreetNames.upto (stopval - before) cellValue in
  let colonval := StreetNames.find startTimeAll ":" in
  startTime1 ← int (StreetNames.upto colonval startTimeAll);
  startTime2 ← int (slice_from (Z.to_nat (colonval + 1)) startTimeAll);
  s ← newTime startTime1 startTime2;
  let endTimeAll := slice_from (Z.to_nat (stopval + after)) cellValue in
  let colonval := StreetNames.find endTimeAll ":" in
  endTime1 ← int (StreetNames.upto colonval endTimeAll);
  endTime2 ← int (slice_from (Z.to_nat (colonval + 1)) endTimeAll);
  e ← newTime endTime1 endTime2;
  Done (flags, set_startEnd s e timing).

(** The branches of [setTimes] for a text, from
    [elif "event" in cellValue] to the end of the function. *)
Definition clockText (cellValue : string) (flags : timesFlags)
    (timing : ExcelSignalTiming D)
  : outcome (timesFlags * ExcelSignalTiming D) :=
  if contains "event" cellValue || contains "Event" cellValue
     || contains "Game" cellValue then
    Done (flags, set_startEnd (mkTime 23 59) (mkTime 23 59) timing)
  else if contains "TIMES" cellValue || contains "Times" cellValue then
    Done ({| hasAllOtherTimes := true; gotStartTime := true;
             gotStartTime2 := gotStartTime2 flags |},
          set_startEnd (mkTime 0 0) (mkTime 0 0) timing)
  else if negb (gotStartTime flags) then
    '(cellValue, flags, timing) ←
      (if contains "-" cellValue && negb (contains ":" cellValue)
          && negb (contains " - " cellValue)
       then clockByPosition cellValue 5 7 false flags timing
       else Done (cellValue, flags, timing));
    '(cellValue, flags, timing) ←
      (if contains " - " cellValue && negb (contains ":" cellValue)
       then clockByPosition cellValue 7 9 true flags timing
       else Done (cellValue, flags, timing));
    if contains "-" cellValue && contains ":" cellValue then
      clockBySeparator cellValue (StreetNames.find cellValue "-") 0 1 flags timing
    else if contains ":" cellValue && (String.length cellValue =? 5)%nat then
      if negb (gotStartTime2 flags) then
        startTime1 ← int (take 2 cellValue);
        startTime2 ← int (slice_from 3 cellValue);
        s ← newTime startTime1 startTime2;
        Done (set_gotStartTime2 flags, set_startTime s timing)
      else
        endTime1 ← int (take 2 cellValue);
        endTime2 ← int (slice_from 3 cellValue);
        e ← newTime endTime1 endTime2;
        Done (flags, set_endTime e timing)
    else if contains ":" cellValue && contains "TO" cellValue then
      clockBySeparator cellValue (StreetNames.find cellValue "TO") 1 3 flags timing
    else if contains ":" cellValue && contains "to" cellValue then
      clockBySeparator cellValue (StreetNames.find cellValue "to") 1 3 flags timing
    else Done (flags, timing)
  else Done (flags, timing).

(** The rules of [setTimes] for the cell of a weekday row.  On an integer
    (a boolean or an error cell) the test ["event" in cellValue] is a
    [TypeError]. *)
Definition readClockTimes (cellValue : cell D) (flags : timesFlags)
    (timing : ExcelSignalTiming D)
  : outcome (timesFlags * ExcelSignalTiming D) :=
  match cellValue with
  | CFloat x => clockNumber x flags timing
  | CText s => clockText s flags timing
  | CInt _ => Fail TypeError
  end.

(** The body of the loop of [setTimes], with the rules above. *)
Definition setTimes_cell (sheet : Sheet D) (row colCycle : Z)
    (st : timesFlags * ExcelSignalTiming D) (curColumn : Z)
  : outcome (timesFlags * ExcelSignalTiming D) :=
  cellValue ← lift (cell_value sheet row curColumn);
  if negb (String.eqb (strip (py_str str_of_float cellValue)) "") then
    isWeekdayPlan ← lift (checkForWeekdayPlan str_of_float sheet row colCycle);
    if negb isWeekdayPlan then
      Done ({| hasAllOtherTimes := hasAllOtherTimes st.1;
               gotStartTime := true;
               gotStartTime2 := gotStartTime2 st.1 |},
            set_startEnd (mkTime 23 59) (mkTime 23 59) st.2)
    else readClockTimes cellValue st.1 st.2
  else Done st.

(** [setTimes(row, colCycle, sheet)] with the rules above. *)
Definition setTimes_row (sheet : Sheet D) (firstColumn colPhaseData0 : Z)
    (row colCycle : Z) (timing : ExcelSignalTiming D)
  : outcome (ExcelSignalTiming D) :=
  st ← for_loop (range firstColumn colPhaseData0)
                     (setTimes_cell sheet row colCycle)
                     ({| hasAllOtherTimes := false; gotStartTime := false;
                         gotStartTime2 := false |}, timing);
  Done st.2.

End ClockTimes.

(** *** Clock times written with two digits *)

Definition isdigit (c : ascii) : bool :=
  let n := nat_of_ascii c in ((48 <=? n) && (n <=? 57))%nat.

(** The digit [n] in [0..9] as a character, and a number below 100 written
    with two digits. *)
Definition digit (n : Z) : ascii := ascii_of_nat (48 + Z.to_nat n).

Definition two (n : Z) : string :=
  String (digit (n / 10)) (String (digit (n mod 10)) "").

(** [hhmm] and [hh:mm] *)
Definition hhmm (t : Time) : string := two (hour t) +:+ two (minute t).

Definition hh_mm (t : Time) : string := two (hour t) +:+ ":" +:+ two (minute t).

Definition validTime (t : Time) : Prop :=
  0 ≤ hour t < 24 ∧ 0 ≤ minute t < 60.

(** [c in s] for a character. *)
Fixpoint mentions (c : ascii) (s : string) : bool :=
  match s with
  | EmptyString => false
  | String x s' => Ascii.eqb c x || mentions c s'
  end.

(** Instances of the parameters of the clock-time rules in exact
    arithmetic, to run them on examples: [int] on plain decimal numerals
    (white space around, an optional sign, digits), a constructor of times
    that refuses what is no time of day with [ValueError], and the hour and
    minute of a date serial as [xlrd] computes them, halves of a second
    rounded up. *)
Module ExactClock.

Definition int_of_str (s : string) : option Z :=
  let s := strip s in
  let '(sign, s) :=
    match s with
    | String "-"%char s' => (-1, s')
    | String "+"%char s' => (1, s')
    | _ => (1, s)
    end in
  let '(ip, n1, rest) := Exact.readDigits s 0 0 in
  match rest with
  | EmptyString => if (n1 =? 0)%nat then None else Some (sign * ip)
  | _ => None
  end.

Definition newTime (h m : Z) : outcome Time :=
  if (0 <=? h) && (h <? 24) && (0 <=? m) && (m <? 60) then Done (mkTime h m)
  else Fail (Std ValueError).

Definition xldate_as_tuple (x : Qc) : outcome (Z * Z) :=
  let num := Qnum (this x) in
  let den := Zpos (Qden (this x)) in
  if num =? 0 then Done (0, 0)
  else if num <? 0 then Fail (Std ValueError)
  else
    let xldays := num / den in
    let seconds := (2 * (num mod den) * 86400 + den) / (2 * den) in
    let '(xldays, hour0, minute0) :=
      if seconds =? 86400 then (xldays + 1, 0, 0)
      else (xldays, seconds / 60 / 60, (seconds / 60) mod 60) in
    if 2958466 <=? xldays then Fail (Std ValueError)
    else if xldays =? 0 then Done (hour0, minute0)
    else if xldays <? 61 then Fail (Std ValueError)
    else Done (hour0, minute0).

End ExactClock.

(** *** Rows of clock times *)

Section ClockNotions.

Context {D : Type} (str_of_float : D → string).
Variable float_eqb : D → D → bool.
Variable float_of_int : Z → D.
Variable xldate_as_tuple : D → outcome (Z * Z).
Variable newTime : Z → Z → outcome Time.

(** The time that [setTimes] takes from a number. *)
Definition timeOfNumber (x : D) : outcome Time :=
  time ← (if float_eqb x (float_of_int 1) then Done (0, 0)
          else xldate_as_tuple x);
  newTime time.1 time.2.

(** The cells of [row] in the columns [cols] that are not blank. *)
Definition filledCells (sheet : Sheet D) (row : Z) (cols : list Z) : list (cell D) :=
  omap (λ c, match sheet row c with
             | Some v =>
               if String.eqb (strip (py_str str_of_float v)) "" then None
               else Some v
             | None => None
             end) cols.

(** A period whose start is the first of the times [ts] and whose end is
    the last of them when there are two or more. *)
Definition spanOf (ts : list Time) (timing : ExcelSignalTiming D)
  : ExcelSignalTiming D :=
  match ts with
  | [] => timing
  | [t] => set_startTime t timing
  | t :: rest => set_startEnd t (default t (last rest)) timing
  end.

(** One reading of a row: the start when none was read before, the end
    otherwise. *)
Definition stepSpan (started : bool) (t : Time) (timing : ExcelSignalTiming D)
  : ExcelSignalTiming D :=
  if started then set_endTime t timing else set_startTime t timing.

End ClockNotions.

(** A weekday row (an X in the two columns left of the column 7 of the
    cycle) whose clock times are the numbers 0.25 and 0.375, and the
    equality of exact numbers. *)
Module ClockSamples.

Definition float_eqb (x y : Qc) : bool := bool_decide (x = y).

Definition weekdaySheet : Sheet Qc :=
  λ r c,
    Some (if c =? 0 then CFloat (Exact.ratio 1 4)
          else if c =? 1 then CFloat (Exact.ratio 3 8)
          else if (c =? 4) || (c =? 5) then CText "X"
          else CText "").

Definition noFlags : timesFlags :=
  {| hasAllOtherTimes := false; gotStartTime := false; gotStartTime2 := false |}.

End ClockSamples.

(** ** The table of periods *)

Section TimingTable.

Context {D : Type}.
Variable float_of_str : string → option D.
Variable float_of_int : Z → D.
Variable str_of_float : D → string.
Variable int_of_float : D → result Z.
(** The iteration order of a dictionary after a new key is added is not
    fixed by the language: [dict_order] rearranges the entries listed with
    the new one last. *)
Variable dict_order :
  list (string * ExcelSignalTiming D) → list (string * ExcelSignalTiming D).

(** [ExcelSignalTiming.setPhaseTimes(times)]: every entry has to be a
    float.  [ExcelSignalTimingError] is a subclass of [ParsingCardError]. *)
Definition setPhaseTimes (times0 : list (cell D)) (self : ExcelSignalTiming D)
  : result (ExcelSignalTiming D) :=
  _ ← for_each times0
        (λ _ time, match time with
                   | CFloat _ => Ok ()
                   | _ => Raise ParsingCardError
                   end) ();
  Ok {| cso := cso self; cycle := cycle self; offset := offset self;
        isActuated := isActuated self; startTime := startTime self;
        endTime := endTime self;
        times := omap (λ time, match time with
                               | CFloat x => Some x
                               | _ => None
                               end) times0 |}.

(** The loop [while True] of [getSignalIntervalData] that reads the
    durations of row [i] from column [j] on: the values read and the column
    at which a missing or a blank cell ends the loop.  Each turn of the
    loop takes one unit of [fuel]. *)
Fixpoint readTimings (fuel : nat) (sheet : Sheet D) (i j : Z)
    (timings : list (cell D)) : outcome (list (cell D) * Z) :=
  match fuel with
  | O => OutOfFuel
  | S fuel' =>
    match cell_value sheet i j with
    | Raise _ => Done (timings, j)
    | Ok value =>
      if negb (String.eqb (strip (py_str str_of_float value)) "") then
        match value with
        | CText _ => Fail (Std ParsingCardError)
        | _ => readTimings fuel' sheet i (j + 1) (timings ++ [value])%list
        end
      else Done (timings, j)
    end
  end.

(** [signalData.signalTiming[key] = v] *)
Definition setTiming (key : string) (v : ExcelSignalTiming D)
    (items : list (string * ExcelSignalTiming D))
  : list (string * ExcelSignalTiming D) :=
  if bool_decide (key ∈ items.*1) then storeTiming key v items
  else dict_order (items ++ [(key, v)])%list.

(** The period of row [i]: its key, its record with the durations, and
    the column at which the durations end.  The record is put in the
    dictionary before its durations are read; it is the same object, so
    the durations show in the dictionary. *)
Definition readPeriod (fuel : nat) (sheet : Sheet D) (startY colPhaseData0 i : Z)
  : outcome (string * ExcelSignalTiming D * Z) :=
  row ← lift (readCsoRow str_of_float sheet i startY colPhaseData0);
  strCso ← lift (csoOfRow float_of_str float_of_int str_of_float int_of_float row);
  '(strCycle, strOffset) ← lift (cycleOffsetOfRow str_of_float row);
  signalTiming0 ← lift (classifyCso float_of_str strCso strCycle strOffset);
  '(timings, j) ← readTimings fuel sheet i colPhaseData0 [];
  signalTiming1 ← lift (setPhaseTimes timings signalTiming0);
  Done (strCso, signalTiming1, j).

(** The loop over the rows; the state is [lastColPhaseData] and the
    dictionary [signalTiming].  The dictionary [sIntervals], which is
    written here and read nowhere, is left out. *)
Fixpoint getSignalIntervalData_rows (fuel : nat) (sheet : Sheet D)
    (startY colPhaseData0 : Z) (rows : list Z)
    (st : option Z * list (string * ExcelSignalTiming D))
  : outcome (option Z * list (string * ExcelSignalTiming D)) :=
  match rows with
  | [] => Done st
  | i :: rest =>
    match cell_value sheet i startY with
    | Raise _ => Done st
    | Ok value =>
      let text := strip (py_str str_of_float value) in
      if negb (String.eqb text "") then
        if contains "NOTE" text || contains "*" text then Done st
        else
          '(strCso, signalTiming0, j) ←
            readPeriod fuel sheet startY colPhaseData0 i;
          getSignalIntervalData_rows fuel sheet startY colPhaseData0 rest
            (if truthyZ st.1 then st.1 else Some (j - 1),
             setTiming strCso signalTiming0 st.2)
      else getSignalIntervalData_rows fuel sheet startY colPhaseData0 rest st
    end
  end.

(** [getSignalIntervalData(sheet, signalData)] *)
Definition getSignalIntervalData (fuel : nat) (sheet : Sheet D)
    (signalData : SignalData D) : outcome (SignalData D) :=
  match sigInterCell signalData, colPhaseData signalData with
  | Some (startX, startY), Some colPhaseData0 =>
    if truthyZ (Some colPhaseData0) then
      '(lastCol, timings) ←
        getSignalIntervalData_rows fuel sheet startY colPhaseData0
          (range (startX + 1) (startX + 11))
          (lastColPhaseData signalData, signalTiming signalData);
      Done {| topLeftCell := topLeftCell signalData;
              phaseSeqCell := phaseSeqCell signalData;
              sigInterCell := sigInterCell signalData;
              colPhaseData := colPhaseData signalData;
              lastColPhaseData := lastCol;
              signalTiming := timings;
              phasingData := phasingData signalData |}
    else Done signalData
  | _, _ => Done signalData
  end.

End TimingTable.

(** *** Notions used to state the properties of the table of periods *)

Section TableNotions.

Context {D : Type} (str_of_float : D → string).

(** The durations of row [i] end at column [j]: the cell is missing or
    blank. *)
Definition endsAt (sheet : Sheet D) (i j : Z) : Prop :=
  missingAt sheet (i, j) ∨ blankAt str_of_float sheet (i, j).

(** Row [i] holds the numbers [xs] from column [col] on, one per column,
    and ends after them. *)
Definition durationsAt (sheet : Sheet D) (i col : Z) (xs : list D) : Prop :=
  (∀ k x, xs !! k = Some x → sheet i (col + Z.of_nat k) = Some (CFloat x))
  ∧ endsAt sheet i (col + Z.of_nat (length xs)).

(** What the rows [rows] can add to the dictionary: a period under its own
    code, with the operating times of a fresh record and the durations of
    one of the rows. *)
Definition readFrom (sheet : Sheet D) (col : Z) (rows : list Z)
    (key : string) (period : ExcelSignalTiming D) : Prop :=
  cso period = PyStr key ∧ startTime period = mkTime 23 59
  ∧ endTime period = mkTime 23 59
  ∧ ∃ i, i ∈ rows ∧ durationsAt sheet i col (times period).

End TableNotions.

(** A table of periods: the CSO cell at the top left, one row with the
    code 111, the cycle 60, the offset 0 and the durations 40 and 20 from
    column 3 on, then a row of notes. *)
Module TimingSamples.

Definition timingSheet : Sheet Qc :=
  λ r c,
    Some (if (r =? 0) && (c =? 0) then CText "CSO"
          else if (r =? 1) && (c =? 0) then CFloat (Qc_of_Z 111)
          else if (r =? 1) && (c =? 1) then CFloat (Qc_of_Z 60)
          else if (r =? 1) && (c =? 2) then CFloat (Qc_of_Z 0)
          else if (r =? 1) && (c =? 3) then CFloat (Qc_of_Z 40)
          else if (r =? 1) && (c =? 4) then CFloat (Qc_of_Z 20)
          else if (r =? 2) && (c =? 0) then CText "NOTE: times in seconds"
          else CText "").

(** The same table with the code 11-- and the cycle "--" in its row. *)
Definition dashedSheet : Sheet Qc :=
  λ r c,
    Some (if (r =? 0) && (c =? 0) then CText "CSO"
          else if (r =? 1) && (c =? 0) then CText "11--"
          else if (r =? 1) && (c =? 1) then CText "--"
          else if (r =? 1) && (c =? 2) then CText "5"
          else if (r =? 1) && (c =? 3) then CFloat (Qc_of_Z 40)
          else if (r =? 1) && (c =? 4) then CFloat (Qc_of_Z 20)
          else if (r =? 2) && (c =? 0) then CText "NOTE: times in seconds"
          else CText "").

Definition timingCard : SignalData Qc :=
  {| topLeftCell := Some (0, 0); phaseSeqCell := None;
     sigInterCell := Some (0, 0); colPhaseData := Some 3;
     lastColPhaseData := None; signalTiming := []; phasingData := None |}.

Definition getSignalIntervalData :=
  @getSignalIntervalData Qc Exact.float_of_str Exact.float_of_int
                         Exact.str_of_float Exact.int_of_float id.

End TimingSamples.

(** ** Operating times of the periods *)

Section OperationTimes.

Context {D : Type} (str_of_float : D → string).
Variable float_eqb : D → D → bool.
Variable float_of_int : Z → D.
Variable xldate_as_tuple : D → outcome (Z * Z).
Variable newTime : Z → Z → outcome Time.
Variable int_of_str : string → option Z.
Variable int_of_float : D → result Z.
Variable float_bool : D → bool.

(** The body of [for k in range(x + 1, z)] of [getOperationTimes], with
    the rules of [setTimes] in place. *)
Definition operationTimes_row (sheet : Sheet D) (firstColumn colPhaseData0 y : Z)
    (timings : list (string * ExcelSignalTiming D)) (k : Z)
  : outcome (list (string * ExcelSignalTiming D)) :=
  cso0 ← lift (readCso str_of_float int_of_float float_bool sheet k y);
  r ← lift (resolveCso str_of_float sheet timings.*1 k y cso0);
  match r with
  | CsoFound strCso =>
    timing ← lift (lookupTiming strCso timings);
    timing' ← setTimes_row str_of_float float_eqb float_of_int xldate_as_tuple
                           newTime int_of_str sheet firstColumn colPhaseData0
                           k y timing;
    Done (storeTiming strCso timing' timings)
  | _ => Done timings
  end.

(** [str(sheet.cell_value(x, y)).strip().upper() == "CYCLE"] *)
Definition isCycleKeyword (v : cell D) : bool :=
  String.eqb (upper (strip (py_str str_of_float v))) "CYCLE".

(** The body of the two loops that search the CYCLE keyword; the state is
    [found] and the dictionary of periods.  [streetCell[0]] is a
    [TypeError] when [findStreet] returned [None]. *)
Definition operationTimes_at (sheet : Sheet D) (topLeftCell0 : Z * Z)
    (colPhaseData0 : Z) (st : bool * list (string * ExcelSignalTiming D))
    (xy : Z * Z) : outcome (bool * list (string * ExcelSignalTiming D)) :=
  v ← lift (cell_value sheet xy.1 xy.2);
  if isCycleKeyword v then
    streetCell ← lift (findStreet str_of_float sheet topLeftCell0);
    match streetCell with
    | None => Fail TypeError
    | Some streetCell0 =>
      timings ← for_loop (range (xy.1 + 1) streetCell0.1)
                         (operationTimes_row sheet topLeftCell0.2 colPhaseData0 xy.2)
                         st.2;
      Done (true, timings)
    end
  else Done st.

(** The cells searched for the CYCLE keyword, in the order of the two
    loops. *)
Definition cycleWindow (topLeftCell0 : Z * Z) (colPhaseData0 : Z) : list (Z * Z) :=
  let i := topLeftCell0.1 + 12 in
  let j := colPhaseData0 in
  x ← range (i - 5) (i + 7); y ← range j (j + 13); [(x, y)].

(** [getOperationTimes(sheet, signalData)]; a card without its top-left
    cell or its phase-data column ends in the [TypeError] of [None[0]] or
    of [None + 13]. *)
Definition getOperationTimes (sheet : Sheet D) (signalData : SignalData D)
  : outcome (SignalData D) :=
  match topLeftCell signalData with
  | None => Fail TypeError
  | Some topLeftCell0 =>
    match colPhaseData signalData with
    | None => Fail TypeError
    | Some j =>
      '(found, timings) ←
        for_loop (cycleWindow topLeftCell0 j)
                 (operationTimes_at sheet topLeftCell0 j)
                 (false, signalTiming signalData);
      if found : bool then
        Done {| topLeftCell := topLeftCell signalData;
                phaseSeqCell := phaseSeqCell signalData;
                sigInterCell := sigInterCell signalData;
                colPhaseData := colPhaseData signalData;
                lastColPhaseData := lastColPhaseData signalData;
                signalTiming := timings;
                phasingData := phasingData signalData |}
      else Fail (Std ParsingCardError)
    end
  end.

End OperationTimes.

(** Two records of a period that differ in their operating times at most. *)
Definition sameButTimes {D} (a b : ExcelSignalTiming D) : Prop :=
  cso a = cso b ∧ cycle a = cycle b ∧ offset a = offset b
  ∧ isActuated a = isActuated b ∧ times a = times b.

(** Two dictionaries of periods with the same keys in the same order, whose
    periods differ in their operating times at most. *)
Definition sameButTimesAll {D} (l l' : list (string * ExcelSignalTiming D)) : Prop :=
  Forall2 (λ a b, a.1 = b.1 ∧ sameButTimes a.2 b.2) l l'.

(** ** Reading one card file *)

Section CardFile.

Context {D : Type}.
Variable float_of_str : string → option D.
Variable float_of_int : Z → D.
Variable str_of_float : D → string.
Variable int_of_float : D → result Z.
Variable float_bool : D → bool.
Variable float_eqb : D → D → bool.
Variable dict_order :
  list (string * ExcelSignalTiming D) → list (string * ExcelSignalTiming D).
Variable xldate_as_tuple : D → outcome (Z * Z).
Variable newTime : Z → Z → outcome Time.
Variable int_of_str : string → option Z.

(** The card returned by [parseExcelCardFile]: the fields of [SignalData]
    that the parser assigns. *)
Record ParsedCard : Type := mkParsedCard {
  fileName : string;
  iName : string;
  pedPhaseCell : option (Z * Z);
  card : SignalData D
}.

(** [parseExcelCardFile(directory, fileName)], where [sheet] is the first
    sheet of the workbook that [xlrd] opens. *)
Definition parseExcelCardFile (fuel : nat) (fileName0 : string) (sheet : Sheet D)
  : outcome ParsedCard :=
  topLeftCell0 ← lift (findTopLeftCell str_of_float sheet);
  iName0 ← lift (getIntersectionName str_of_float sheet topLeftCell0);
  phaseSeqCell0 ←
    try_except (lift (findStreet str_of_float sheet topLeftCell0))
               ParsingCardError (Fail (Std ParsingCardError));
  let pedPhaseCell0 := findPedestrianPhase str_of_float sheet topLeftCell0 in
  sigInterCell0 ← lift (findSignalIntervals str_of_float sheet topLeftCell0);
  let sd := {| topLeftCell := Some topLeftCell0;
               phaseSeqCell := phaseSeqCell0;
               sigInterCell := sigInterCell0;
               colPhaseData := None;
               lastColPhaseData := None;
               signalTiming := [];
               phasingData := None |} in
  sd ← lift (getFirstColumnOfPhasingData float_eqb float_of_int sheet sd);
  sd ← getSignalIntervalData float_of_str float_of_int str_of_float int_of_float
                             dict_order fuel sheet sd;
  sd ← getOperationTimes str_of_float float_eqb float_of_int xldate_as_tuple
                         newTime int_of_str int_of_float float_bool sheet sd;
  ma ← getPhasingData str_of_float sheet sd;
  Done {| fileName := fileName0; iName := iName0; pedPhaseCell := pedPhaseCell0;
          card := {| topLeftCell := topLeftCell sd;
                     phaseSeqCell := phaseSeqCell sd;
                     sigInterCell := sigInterCell sd;
                     colPhaseData := colPhaseData sd;
                     lastColPhaseData := lastColPhaseData sd;
                     signalTiming := signalTiming sd;
                     phasingData := Some ma |} |}.

(** [fileName.endswith("xls")] and not [fileName.startswith("System")] *)
Definition isCardFileName (fileName0 : string) : bool :=
  endswith fileName0 "xls" && negb (String.prefix "System" fileName0).

(** [getExcelFileNames(directory)] as a function of [os.listdir(directory)]. *)
Definition getExcelFileNames (listing : list string) : list string :=
  filter (λ fileName0, isCardFileName fileName0 = true) listing.

(** [parseExcelCardsToSignalObjects(directory, fileName)]; [Done None] is
    the value [False].  The handler of [ParsingCardError] reads the local
    variable [sd], which the failed assignment left unbound: it ends in
    [UnboundLocalError], a subclass of [NameError]. *)
Definition parseExcelCardsToSignalObjects (fuel : nat) (fileName0 : string)
    (sheet : Sheet D) : outcome (option ParsedCard) :=
  if negb (endswith fileName0 "xls") then Done None
  else if String.prefix "System" fileName0 then Done None
  else
    try_except (sd ← parseExcelCardFile fuel fileName0 sheet; Done (Some sd))
               ParsingCardError (Fail (Std NameError)).

End CardFile.

Arguments mkParsedCard {D}.
Arguments fileName {D}.
Arguments iName {D}.
Arguments pedPhaseCell {D}.
Arguments card {D}.

(** ** Overrides of the turn types *)

(** [s.split(sep)] for a separator of one character. *)
Fixpoint split_go (sep : ascii) (s cur : string) : list string :=
  match s with
  | EmptyString => [cur]
  | String c s' =>
    if Ascii.eqb c sep then cur :: split_go sep s' ""
    else split_go sep s' (cur +:+ String c "")
  end.

Definition split (sep : ascii) (s : string) : list string := split_go sep s "".

(** [s.strip("\n")] *)
Fixpoint lstrip_newlines (s : string) : string :=
  match s with
  | EmptyString => EmptyString
  | String c s' => if Ascii.eqb c "010" then lstrip_newlines s' else s
  end.

Definition strip_newlines (s : string) : string :=
  String.rev (lstrip_newlines (String.rev (lstrip_newlines s))).

(** The record stored for the fields of a line: the turn type Thru, in the
    sixth field, becomes the constant [dta.Movement.DIR_TH]. *)
Definition withThru (DIR_TH : string) (override : list string) : list string :=
  if bool_decide (override !! 5%nat = Some "Thru")
  then <[5%nat := DIR_TH]> override else override.

(** The body of the loop over the lines of an override file: a header line
    is skipped; [override[5]] is an [IndexError] on a line of fewer than
    six fields. *)
Definition readOverride (DIR_TH : string) (overrides : list (list string))
    (line : string) : result (list (list string)) :=
  let line := strip_newlines line in
  let override := split "," line in
  o0 ← getitem override 0;
  if String.eqb o0 "From Dir" then Ok overrides
  else
    o5 ← getitem override 5;
    let override :=
      if String.eqb o5 "Thru" then <[5%nat := DIR_TH]> override else override in
    Ok (overrides ++ [override])%list.

(** The loops of the main program over the override files and their
    lines. *)
Definition readOverrides (DIR_TH : string) (files : list (list string))
  : result (list (list string)) :=
  for_each files
    (λ overrides inputstream, for_each inputstream (readOverride DIR_TH) overrides)
    [].

(** [sep.join(fields)], and a record written as a line of a file. *)
Fixpoint join (sep : string) (fields : list string) : string :=
  match fields with
  | [] => ""
  | [f] => f
  | f :: rest => f +:+ sep +:+ join sep rest
  end.

Definition writeOverride (fields : list string) : string :=
  join "," fields +:+ String "010" "".

(** A field that can be written in a line: no comma, no end of line. *)
Definition plainField (f : string) : Prop :=
  mentions "," f = false ∧ mentions "010" f = false.

(** ** Choosing the period of a time plan *)

Section PlanPeriod.

Context {D : Type}.
Variable float_bool : D → bool.

(** The truth value of a period: [ExcelSignalTiming.__len__] is the number
    of its durations. *)
Definition timing_bool (signalTiming0 : ExcelSignalTiming D) : bool :=
  negb (length (times signalTiming0) =? 0)%nat.

(** The truth value of a field. *)
Definition pyval_bool (v : pyval D) : bool :=
  match v with
  | PyNone => false
  | PyInt z => negb (z =? 0)
  | PyFloat x => float_bool x
  | PyStr s => negb (String.eqb s "")
  end.

(** [if signalTiming: cso = signalTiming.cso] and
    [if not signalTiming: cso = None] *)
Definition csoOfSelection (signalTiming0 : option (ExcelSignalTiming D)) : pyval D :=
  match signalTiming0 with
  | Some st => if timing_bool st then cso st else PyNone
  | None => PyNone
  end.

(** [card.signalTiming[cso]]: a key that is no text is in no dictionary of
    periods. *)
Definition timingOfCso (card0 : SignalData D) (cso0 : pyval D)
  : result (ExcelSignalTiming D) :=
  match cso0 with
  | PyStr key => lookupTiming key (signalTiming card0)
  | _ => Raise KeyError
  end.

(** The first lines of [convertSignalToDynameq], up to the offset handed
    to the time plan: the offset, and the time span with which
    [card.getPhases] is then called. *)
Definition planPeriod (card0 : SignalData D) (startTime0 endTime0 : Time)
  : outcome (pyval D * Time * Time) :=
  let cso0 := csoOfSelection (selectCSO card0 startTime0 endTime0) in
  '(cso0, startTime0, endTime0) ←
    (if negb (pyval_bool cso0) then
       let startTime0 := mkTime 0 0 in
       let endTime0 := mkTime 0 0 in
       let cso0 := csoOfSelection (selectCSO card0 startTime0 endTime0) in
       if negb (pyval_bool cso0) then Fail DtaError
       else Done (cso0, startTime0, endTime0)
     else Done (cso0, startTime0, endTime0));
  signalTiming0 ← lift (timingOfCso card0 cso0);
  Done (offset signalTiming0, startTime0, endTime0).

(** Every period is stored under its own code, and no code twice: what
    [getSignalIntervalData] builds. *)
Definition keyedByCso (card0 : SignalData D) : Prop :=
  NoDup (signalTiming card0).*1
  ∧ ∀ key period, (key, period) ∈ signalTiming card0 → cso period = PyStr key.

End PlanPeriod.

(** * Properties *)

Import Examples.

(** ** Phase synthesis on the worked example *)

Lemma getPhases_unfold {D} (dzero : D) dadd (sd : SignalData D) startHour endHour ma timing :
  phasingData sd = Some ma →
  selectCSO sd startHour endHour = Some timing →
  getPhases dzero dadd sd startHour endHour = synthesize dzero dadd ma (times timing).
Proof. intros Hma Hsel. unfold getPhases. by rewrite Hma, Hsel. Qed.

(** C1: on the grid MAIN EB = G G Y R R R R R, CROSS NB = R R R R G G Y R
    with interval durations 47, 6, 3.5, 0.5, 8, 20, 3.5, 1.5, [getPhases]
    returns exactly two phases: MAIN EB with green 53, yellow 3.5 and
    all-red 0.5, then CROSS NB with green 28, yellow 3.5 and all-red 1.5. *)
Theorem getPhases_worked_example (sd : SignalData float) (startHour endHour : Time)
    (timing : ExcelSignalTiming float) :
  phasingData sd = Some mainCrossGrid →
  selectCSO sd startHour endHour = Some timing →
  times timing = mainCrossTimes →
  Binary64.getPhases sd startHour endHour = Ok mainCrossPhases.
Proof.
  intros Hma Hsel Htimes. unfold Binary64.getPhases.
  rewrite (getPhases_unfold _ _ _ _ _ _ _ Hma Hsel), Htimes.
  vm_compute. reflexivity.
Qed.

Lemma getPhases_worked_example_witness :
  Binary64.getPhases (cardOf mainCrossGrid mainCrossTimes) (mkTime 7 0) (mkTime 9 0)
  = Ok mainCrossPhases.
Proof.
  apply (getPhases_worked_example _ _ _
           {| cso := PyStr "111"; cycle := PyNone; offset := PyInt 0;
              isActuated := false; startTime := mkTime 0 0;
              endTime := mkTime 23 59; times := mainCrossTimes |});
    reflexivity.
Defined.

(** ** The synthesizer accounts for every interval *)

Lemma filter_ext_elem {A} (P Q : A → Prop) `{!∀ x, Decision (P x)}
    `{!∀ x, Decision (Q x)} (l : list A) :
  (∀ x, x ∈ l → (P x ↔ Q x)) → filter P l = filter Q l.
Proof.
  induction l as [|a l IH]; intros Hall; [done|].
  rewrite !filter_cons.
  assert (P a ↔ Q a) as Ha by (apply Hall; left).
  rewrite IH by (intros x Hx; apply Hall; by right).
  destruct (decide (P a)), (decide (Q a)); tauto.
Qed.

Lemma closedIn_filter (P : string → Prop) `{!∀ x, Decision (P x)} gm :
  closedIn gm (filter P gm).
Proof.
  unfold closedIn. apply filter_ext_elem. intros x Hx.
  rewrite list_elem_of_filter. tauto.
Qed.

(** The green, yellow and red matches add up to the matches over all the
    movements. *)
Lemma count_by_state (Q : string → Prop) `{!∀ x, Decision (Q x)}
    (f : string → string) (l : list string) :
  Forall (λ g, f g ∈ ["G"; "Y"; "R"]) l →
  (length (filter Q (filter (λ g, f g = "G") l))
   + length (filter Q (filter (λ g, f g = "Y") l))
   + length (filter Q (filter (λ g, f g = "R") l)))%nat
  = length (filter Q l).
Proof.
  induction 1 as [|g l Hg _ IH]; [done|].
  rewrite !(filter_cons _ g l).
  apply elem_of_cons in Hg as [Hg|Hg]; [|apply elem_of_cons in Hg as [Hg|Hg];
    [|apply elem_of_cons in Hg as [Hg|Hg]; [|by apply elem_of_nil in Hg]]];
    repeat (case_decide; try congruence);
    rewrite ?filter_cons; repeat (case_decide; try done); simpl; lia.
Qed.

Lemma for_each_app {A S} (body : S → A → result S) xs ys s :
  for_each (xs ++ ys) body s = (s' ← for_each xs body s; for_each ys body s').
Proof.
  revert s. induction xs as [|x xs IH]; intros s; simpl; [done|].
  destruct (body s x); simpl; [apply IH | done].
Qed.

Lemma for_each_preserves {A S} (body : S → A → result S) (Inv : S → Prop) xs :
  (∀ s x s', Inv s → body s x = Ok s' → Inv s') →
  ∀ s s', Inv s → for_each xs body s = Ok s' → Inv s'.
Proof.
  intros Hbody. induction xs as [|x xs IH]; intros s s' Hs; simpl.
  - by intros [= <-].
  - destruct (body s x) as [s1|e] eqn:Hb; simpl; [|done].
    intros H. eapply IH; [|exact H]. by eapply Hbody.
Qed.

Lemma for_each_total {A S} (body : S → A → result S) (Inv : S → Prop)
    (P : A → Prop) xs :
  (∀ s x, P x → Inv s → ∃ s', body s x = Ok s' ∧ Inv s') →
  Forall P xs →
  ∀ s, Inv s → ∃ s', for_each xs body s = Ok s' ∧ Inv s'.
Proof.
  intros Hbody HP. induction HP as [|x xs Hx _ IH]; intros s Hs; simpl.
  - by exists s.
  - destruct (Hbody s x Hx Hs) as (s1 & -> & Hs1). simpl. by apply IH.
Qed.

Lemma wellFormed_statesKnown {D} ma (durations : list D) t :
  wellFormed ma durations → 1 ≤ t ≤ Z.of_nat (ma_numIntervals ma) →
  statesKnown ma t.
Proof.
  intros [Hcells _] Ht. apply Forall_forall. intros g Hg. by apply Hcells.
Qed.

Section Synthesis.

Context {D : Type} (dzero : D) (dadd : D → D → D).
Variable ma : MultiArray.

Local Abbreviation gm := (ma_movements ma).

(** With known states the chain of tests never falls through to its last
    branch: the interval extends one counter of the phase in progress, or
    closes it and starts a new one. *)
Lemma nextPhase_outcome t (dur1 : D) (pPhase : Phase D) (phases : list (Phase D)) :
  statesKnown ma t →
  closedIn gm (Movs pPhase) →
  ∃ pPhase' phases',
    nextPhase dzero dadd (movsInState ma gm t "G") (movsInState ma gm t "Y")
              (movsInState ma gm t "R") dur1 pPhase phases
    = Ok (pPhase', phases')
    ∧ stepOutcome dzero dadd (movsInState ma gm t "G") (movsInState ma gm t "Y")
                  dur1 pPhase phases pPhase' phases'.
Proof.
  intros Hstates Hclosed. unfold nextPhase, countMatches.
  pose proof (count_by_state (λ m, m ∈ Movs pPhase) (λ g, ma_get ma g t) gm Hstates)
    as Hcount.
  rewrite Hclosed in Hcount.
  fold (movsInState ma gm t "G") (movsInState ma gm t "Y")
       (movsInState ma gm t "R") in Hcount.
  set (cGreenMovs := movsInState ma gm t "G") in *.
  set (cYellowMovs := movsInState ma gm t "Y") in *.
  set (cRedMovs := movsInState ma gm t "R") in *.
  pose proof (length_filter (λ m, m ∈ Movs pPhase) cGreenMovs) as HleG.
  pose proof (length_filter (λ m, m ∈ Movs pPhase) cYellowMovs) as HleY.
  set (gMatches := length (filter (λ m, m ∈ Movs pPhase) cGreenMovs)) in *.
  set (yMatches := length (filter (λ m, m ∈ Movs pPhase) cYellowMovs)) in *.
  set (rMatches := length (filter (λ m, m ∈ Movs pPhase) cRedMovs)) in *.
  destruct (Nat.ltb_spec (gMatches + yMatches)
                         (length cGreenMovs + length cYellowMovs)).
  { eexists _, _. split; [done|]. constructor. }
  destruct (Nat.eqb_spec (gMatches + yMatches) (length (Movs pPhase))).
  { destruct (0 <? yMatches)%nat; [|destruct (0 <? rMatches)%nat];
      (eexists _, _; split; [done|]; constructor). }
  destruct (Nat.ltb_spec (gMatches + yMatches) (length (Movs pPhase)));
    destruct (Nat.ltb_spec 0 (gMatches + yMatches)); simpl; try lia.
  { destruct (yMatches =? 0)%nat;
      (eexists _, _; split; [done|]; constructor). }
  assert (length cGreenMovs = 0%nat) as HnoG by lia.
  destruct cGreenMovs; [|done]. simpl.
  destruct (Nat.eqb_spec rMatches (length (Movs pPhase))); [|lia]. simpl.
  eexists _, _. split; [done|]. constructor.
Qed.

(** The active movements stay a selection of the movements of the grid. *)
Lemma stepOutcome_closed t dur1 p phases p' phases' :
  closedIn gm (Movs p) →
  stepOutcome dzero dadd (movsInState ma gm t "G") (movsInState ma gm t "Y")
              dur1 p phases p' phases' →
  closedIn gm (Movs p').
Proof.
  intros Hclosed Hstep.
  destruct Hstep; simpl; try done; apply closedIn_filter.
Qed.

Variable J : list (Phase D) → Phase D → list D → Prop.
Hypothesis J_seed : ∀ movs d, J [] (startPhase dzero movs d) [d].
Hypothesis J_step : ∀ cG cY d p phases p' phases' seen,
  J phases p seen → stepOutcome dzero dadd cG cY d p phases p' phases' →
  J phases' p' (seen ++ [d])%list.

Lemma getPhases_body_inv lastIndex st t (d : D) seen :
  statesKnown ma t → t ≠ lastIndex → loopInv J ma st seen →
  ∃ st', getPhases_body dzero dadd ma lastIndex st (t, d) = Ok st'
         ∧ loopInv J ma st' (seen ++ [d])%list ∧ is_Some st'.1.
Proof.
  intros Hstates Hne Hinv. destruct st as [[p|] phases];
    unfold loopInv in Hinv; simpl in Hinv;
    unfold getPhases_body, getElementsOfDimention0; cbn [fst snd].
  - destruct Hinv as [Hclosed HJ].
    destruct (nextPhase_outcome t d p phases Hstates Hclosed)
      as (p' & phases' & -> & Hstep).
    cbn [mbind result_bind]. destruct (Z.eqb_spec t lastIndex); [done|].
    eexists. split; [done|]. split; [|by eexists].
    unfold loopInv; simpl. split; [by eapply stepOutcome_closed|].
    by eapply J_step.
  - destruct Hinv as [-> ->].
    eexists. split; [done|]. split; [|by eexists].
    unfold loopInv; simpl. split; [apply closedIn_filter | apply J_seed].
Qed.

Lemma getPhases_body_final lastIndex st p (d : D) seen :
  statesKnown ma lastIndex → st.1 = Some p → loopInv J ma st seen →
  ∃ p' phases',
    getPhases_body dzero dadd ma lastIndex st (lastIndex, d)
    = Ok (Some p', (phases' ++ [p'])%list)
    ∧ J phases' p' (seen ++ [d])%list.
Proof.
  intros Hstates Hp Hinv. destruct st as [o phases]; simpl in Hp; subst o.
  unfold loopInv in Hinv; simpl in Hinv. destruct Hinv as [Hclosed HJ].
  unfold getPhases_body, getElementsOfDimention0; cbn [fst snd].
  destruct (nextPhase_outcome lastIndex d p phases Hstates Hclosed)
    as (p' & phases' & -> & Hstep).
  cbn [mbind result_bind]. rewrite Z.eqb_refl.
  exists p', phases'. split; [done|]. by eapply J_step.
Qed.

Lemma getPhases_loop_inv lastIndex (ds : list D) :
  ∀ a st seen,
    (∀ t, a ≤ t < a + Z.of_nat (length ds) → statesKnown ma t ∧ t ≠ lastIndex) →
    loopInv J ma st seen →
    ∃ st', for_each (zip (seqZ a (Z.of_nat (length ds))) ds)
                    (getPhases_body dzero dadd ma lastIndex) st = Ok st'
           ∧ loopInv J ma st' (seen ++ ds)%list
           ∧ (ds ≠ [] → is_Some st'.1).
Proof.
  induction ds as [|d ds IH]; intros a st seen Hidx Hinv.
  - exists st. rewrite app_nil_r. by repeat split.
  - rewrite seqZ_cons by (simpl; lia).
    replace (Z.pred (Z.of_nat (length (d :: ds)))) with (Z.of_nat (length ds))
      by (simpl; lia).
    cbn [zip zip_with for_each].
    destruct (getPhases_body_inv lastIndex st a d seen)
      as (st1 & -> & Hinv1 & Hsome1); [apply Hidx|apply Hidx|done|];
      [simpl; lia..|].
    cbn [mbind result_bind].
    destruct (IH (Z.succ a) st1 (seen ++ [d])%list) as (st' & Hrun & Hinv' & Hsome').
    { intros t Ht. apply Hidx. simpl. lia. }
    { done. }
    exists st'. split; [done|]. split; [by rewrite <- app_assoc in Hinv'|].
    intros _. destruct ds as [|d' ds']; [|by apply Hsome'].
    simpl in Hrun. by inversion Hrun; subst.
Qed.

(** On a well-formed period of two intervals or more the synthesizer
    returns the closed phases followed by the phase in progress at the
    last interval, and [J] holds of them and of all the durations. *)
Lemma synthesize_inv (durations : list D) :
  wellFormed ma durations →
  (2 ≤ ma_numIntervals ma)%nat →
  ∃ p' phases',
    synthesize dzero dadd ma durations = Ok (phases' ++ [p'])%list
    ∧ J phases' p' durations.
Proof.
  intros Hwf Hn. pose proof Hwf as [_ Hlen].
  unfold synthesize, getElementsOfDimention1.
  destruct (ma_numIntervals ma) as [|n] eqn:HN; [lia|].
  induction durations as [|dlast init _] using rev_ind; [done|].
  rewrite length_app in Hlen. simpl in Hlen.
  assert (length init = n) as Hinit by lia.
  rewrite seqZ_S, last_snoc. simpl.
  rewrite zip_with_app by (rewrite length_seqZ; lia).
  rewrite for_each_app. rewrite <- Hinit.
  destruct (getPhases_loop_inv (1 + Z.of_nat (length init)) init 1 (None, []) [])
    as (st1 & -> & Hinv1 & Hsome1).
  { intros t Ht. split; [|lia].
    apply (wellFormed_statesKnown ma (init ++ [dlast])%list t Hwf). rewrite HN. lia. }
  { done. }
  cbn [mbind result_bind zip zip_with for_each].
  destruct Hsome1 as [p Hp]; [destruct init; [simpl in *; lia | done]|].
  destruct (getPhases_body_final (1 + Z.of_nat (length init)) st1 p dlast init)
    as (p' & phases' & -> & HJ); [|done|done|].
  { apply (wellFormed_statesKnown ma (init ++ [dlast])%list _ Hwf). rewrite HN. lia. }
  simpl. by exists p', phases'.
Qed.

End Synthesis.

(** The synthesizer returns on every well-formed period, whatever the
    arithmetic of the durations. *)
Lemma synthesize_returns {D} (dzero : D) dadd ma (durations : list D) :
  wellFormed ma durations →
  (1 ≤ ma_numIntervals ma)%nat →
  is_ok (synthesize dzero dadd ma durations) = true.
Proof.
  intros Hwf Hn.
  destruct (decide (ma_numIntervals ma = 1%nat)) as [H1|H1].
  - destruct Hwf as [_ Hlen]. unfold synthesize, getElementsOfDimention1.
    rewrite H1 in *. destruct durations as [|d [|? ?]]; try done.
  - destruct (synthesize_inv dzero dadd ma (λ _ _ _, True)) with (durations := durations)
      as (p' & phases' & -> & _); try done. lia.
Qed.

Lemma sumPhases_snoc phases (p : Phase Qc) :
  sumPhases 0%Qc Qcplus (phases ++ [p]) =
  (sumPhases 0%Qc Qcplus phases + phaseTotal Qcplus p)%Qc.
Proof. unfold sumPhases. by rewrite foldl_app. Qed.

Lemma accountsFor_seed movs (d : Qc) : accountsFor [] (startPhase 0%Qc movs d) [d].
Proof. unfold accountsFor, sumPhases, sumDurations, phaseTotal. simpl. ring. Qed.

(** Each of the five outcomes of an interval adds its duration once. *)
Lemma accountsFor_step cG cY (d : Qc) p phases p' phases' seen :
  accountsFor phases p seen →
  stepOutcome 0%Qc Qcplus cG cY d p phases p' phases' →
  accountsFor phases' p' (seen ++ [d]).
Proof.
  unfold accountsFor, sumDurations. intros Hacc Hstep.
  rewrite foldl_app. simpl. rewrite <- Hacc.
  destruct Hstep; rewrite ?sumPhases_snoc; unfold phaseTotal; simpl; ring.
Qed.

(** In exact arithmetic the synthesizer returns, and its phases add up to
    the durations, on every well-formed period of two intervals or more. *)
Lemma synthesize_accounts ma (durations : list Qc) :
  wellFormed ma durations →
  (2 ≤ ma_numIntervals ma)%nat →
  ∃ phases, Exact.synthesize ma durations = Ok phases
            ∧ sumPhases 0%Qc Qcplus phases = sumDurations 0%Qc Qcplus durations.
Proof.
  intros Hwf Hn.
  destruct (synthesize_inv 0%Qc Qcplus ma accountsFor accountsFor_seed accountsFor_step
              durations Hwf Hn) as (p' & phases' & Hrun & Hacc).
  exists (phases' ++ [p'])%list. split; [done|]. by rewrite sumPhases_snoc.
Qed.

Lemma knownStatesb_wellFormed {D} ma (durations : list D) :
  knownStatesb ma = true →
  length durations = ma_numIntervals ma →
  wellFormed ma durations.
Proof.
  intros Hb Hlen. split; [|done]. intros g t Hg Ht.
  unfold knownStatesb in Hb. rewrite forallb_forall in Hb.
  apply list_elem_of_In, Hb in Hg. rewrite forallb_forall in Hg.
  apply (bool_decide_eq_true_1 _), Hg, list_elem_of_In.
  unfold getElementsOfDimention1. apply elem_of_seqZ. lia.
Qed.

(** ** Rounding errors of binary64 additions *)

(** The floating-point specification of the library defines the addition
    bit by bit: the mantissas are aligned, added exactly, and the result is
    shifted right and rounded to the nearest number of 53 bits.  The lemmas
    below follow these steps on integers and bound the rounding error. *)
Section Rounding.

Import F64.

Ltac hide_pow :=
  repeat match goal with
         | |- context [2 ^ ?e] =>
           let p := fresh "p" in set (p := 2 ^ e) in *; clearbody p
         | H : context [2 ^ ?e] |- _ =>
           let p := fresh "p" in set (p := 2 ^ e) in *; clearbody p
         end.

Lemma digits2_pos_bounds (m : positive) :
  2 ^ (Zpos (digits2_pos m) - 1) ≤ Zpos m < 2 ^ Zpos (digits2_pos m).
Proof.
  induction m as [m IH|m IH|]; cbn [digits2_pos].
  - rewrite Pos2Z.inj_succ. change (Z.pos m~1) with (2 * Z.pos m + 1).
    replace (Z.succ (Z.pos (digits2_pos m)) - 1) with (Z.succ (Z.pos (digits2_pos m) - 1)) by lia.
    rewrite !Z.pow_succ_r by lia. hide_pow. lia.
  - rewrite Pos2Z.inj_succ. change (Z.pos m~0) with (2 * Z.pos m).
    replace (Z.succ (Z.pos (digits2_pos m)) - 1) with (Z.succ (Z.pos (digits2_pos m) - 1)) by lia.
    rewrite !Z.pow_succ_r by lia. hide_pow. lia.
  - split; [by compute|by compute].
Qed.

Lemma digits2_pos_unique (m : positive) (k : Z) :
  2 ^ (k - 1) ≤ Zpos m < 2 ^ k → Zpos (digits2_pos m) = k.
Proof.
  intros [Hlo Hhi]. pose proof (digits2_pos_bounds m) as [Hlo' Hhi'].
  set (d := Zpos (digits2_pos m)) in *.
  assert (0 < k).
  { destruct (Z.lt_ge_cases 0 k) as [|Hk]; [done|].
    destruct (Z.eq_dec k 0) as [->|]; [simpl in Hhi; lia|].
    rewrite Z.pow_neg_r in Hhi by lia. lia. }
  destruct (Z.lt_trichotomy d k) as [Hlt|[Heq|Hgt]]; [|done|].
  - assert (2 ^ d ≤ 2 ^ (k - 1)) by (apply Z.pow_le_mono_r; lia). lia.
  - assert (2 ^ k ≤ 2 ^ (d - 1)) by (apply Z.pow_le_mono_r; lia). lia.
Qed.

Lemma iter_xO (m d : positive) : Zpos (Pos.iter xO m d) = Zpos m * 2 ^ Zpos d.
Proof.
  induction d as [|d IH] using Pos.peano_ind.
  - simpl. lia.
  - rewrite Pos.iter_succ.
    change (Z.pos (Pos.iter xO m d)~0) with (2 * Z.pos (Pos.iter xO m d)).
    rewrite IH, Pos2Z.inj_succ, Z.pow_succ_r by lia. hide_pow. lia.
Qed.

Lemma iter_pos_inv {A} (f : A → A) (P : Z → A → Prop) :
  (∀ k x, 0 ≤ k → P k x → P (k + 1) (f x)) →
  ∀ n k x, 0 ≤ k → P k x → P (k + Zpos n) (SpecFloat.iter_pos f n x).
Proof.
  intros Hstep. induction n as [n IH|n IH|]; intros k x Hk HP; cbn [SpecFloat.iter_pos].
  - replace (k + Zpos n~1) with (k + 1 + Zpos n + Zpos n) by lia.
    apply IH; [lia|]. apply IH; [lia|]. by apply Hstep.
  - replace (k + Zpos n~0) with (k + Zpos n + Zpos n) by lia.
    apply IH; [lia|]. by apply IH.
  - by apply Hstep.
Qed.

Lemma shr_1_inv (M k : Z) (mrs : shr_record) :
  0 ≤ k → shr_inv M k mrs → shr_inv M (k + 1) (shr_1 mrs).
Proof.
  intros Hk. unfold shr_inv. rewrite Z.pow_add_r, Z.pow_1_r by lia.
  assert (0 < 2 ^ k) as Hpos by (apply Z.pow_pos_nonneg; lia).
  set (P := 2 ^ k) in *. clearbody P.
  destruct mrs as [m r s]. cbn [shr_m shr_r shr_s].
  intros (Hm & Hrho & Hloc).
  destruct m as [|[p|p|]|p]; [| | | |lia]; cbn [shr_1 shr_m shr_r shr_s];
    try change (Z.pos p~1) with (2 * Z.pos p + 1) in *;
    try change (Z.pos p~0) with (2 * Z.pos p) in *;
    destruct r, s; cbn [orb]; nia.
Qed.

Lemma shr_inv_start (M : Z) : 0 ≤ M → shr_inv M 0 (shr_record_of_loc M loc_Exact).
Proof. intros HM. unfold shr_inv. simpl. lia. Qed.

Lemma shr_nonpos mrs e n : n ≤ 0 → shr mrs e n = (mrs, e).
Proof. destruct n; [done|lia|done]. Qed.

Lemma shr_inv_shift (M e : Z) (p : positive) :
  0 ≤ M →
  shr (shr_record_of_loc M loc_Exact) e (Zpos p)
  = (SpecFloat.iter_pos shr_1 p (shr_record_of_loc M loc_Exact), e + Zpos p)
  ∧ shr_inv M (Zpos p) (SpecFloat.iter_pos shr_1 p (shr_record_of_loc M loc_Exact)).
Proof.
  intros HM. split; [done|].
  apply (iter_pos_inv shr_1 (shr_inv M) (shr_1_inv M) p 0); [done|].
  by apply shr_inv_start.
Qed.

Lemma round_nearest_even_bound (M k : Z) (mrs : shr_record) :
  0 ≤ k → shr_inv M k mrs →
  let m2 := round_nearest_even (shr_m mrs) (loc_of_shr_record mrs) in
  shr_m mrs ≤ m2 ≤ shr_m mrs + 1
  ∧ 2 * Z.abs (m2 * 2 ^ k - M) ≤ 2 ^ k.
Proof.
  intros Hk (Hm & Hrho & Hloc). destruct mrs as [m r s].
  cbn [shr_m shr_r shr_s] in *.
  assert (0 < 2 ^ k) as Hpos by (apply Z.pow_pos_nonneg; lia).
  set (P := 2 ^ k) in *. clearbody P.
  destruct r, s; cbn [loc_of_shr_record round_nearest_even];
    try destruct (Z.even m); nia.
Qed.

Lemma fexp_eq (e : Z) : fexp prec emax e = Z.max (e - 53) (-1074).
Proof. reflexivity. Qed.

Lemma pow_le_exp (a b : Z) : 0 ≤ a → 2 ^ a ≤ 2 ^ b → a ≤ b.
Proof.
  intros Ha Hle. destruct (Z.le_gt_cases a b) as [|Hgt]; [done|].
  assert (2 ^ b < 2 ^ a); [|lia].
  destruct (Z.lt_ge_cases b 0) as [Hb|Hb].
  - rewrite (Z.pow_neg_r 2 b) by done. apply Z.pow_pos_nonneg; lia.
  - apply Z.pow_lt_mono_r; lia.
Qed.

Lemma binary_round_aux_units (s : bool) (mz : positive) (ez : Z) :
  -1074 ≤ ez →
  Zpos mz * 2 ^ (ez + 1074) ≤ 2 ^ 2000 →
  ∃ m3 e3,
    binary_round_aux prec emax s (Zpos mz) ez loc_Exact = S754_finite s m3 e3
    ∧ -1074 ≤ e3
    ∧ 2 ^ 53 * Z.abs (Zpos m3 * 2 ^ (e3 + 1074) - Zpos mz * 2 ^ (ez + 1074))
      ≤ Zpos mz * 2 ^ (ez + 1074).
Proof.
  intros Hez Hmag.
  pose proof (digits2_pos_bounds mz) as [Hlo Hhi].
  set (d := Zpos (digits2_pos mz)) in *.
  assert (0 < d) as Hd by (subst d; lia).
  assert (0 < 2 ^ (ez + 1074)) as Hscale by (apply Z.pow_pos_nonneg; lia).
  unfold binary_round_aux, shr_fexp. cbn [Zdigits2]. fold d. rewrite fexp_eq.
  destruct (Z.le_gt_cases d 53) as [Hsmall|Hbig].
  - (* no digit is lost *)
    rewrite shr_nonpos by lia.
    cbn [shr_record_of_loc shr_m loc_of_shr_record round_nearest_even Zdigits2].
    fold d. rewrite fexp_eq, shr_nonpos by lia.
    cbn [shr_record_of_loc shr_m].
    assert (ez ≤ 926) as Hexp.
    { assert (ez + 1074 ≤ 2000); [|lia]. apply pow_le_exp; [lia|].
      assert (1 * 2 ^ (ez + 1074) ≤ Zpos mz * 2 ^ (ez + 1074)); [|lia].
      apply Z.mul_le_mono_nonneg_r; lia. }
    destruct (Z.leb_spec ez (emax - prec)) as [_|Hover];
      [|change (emax - prec) with 971 in Hover; lia].
    exists mz, ez. split; [done|]. split; [done|].
    rewrite Z.sub_diag. simpl. lia.
  - (* d - 53 digits are shifted out and the mantissa is rounded *)
    assert (Z.max (d + ez - 53) (-1074) - ez = d - 53) as -> by lia.
    destruct (d - 53) as [|p|p] eqn:Hp; [lia| |lia].
    destruct (shr_inv_shift (Zpos mz) ez p) as [-> Hinv]; [lia|].
    set (mrs := SpecFloat.iter_pos shr_1 p _) in *.
    destruct (round_nearest_even_bound (Zpos mz) (Zpos p) mrs) as [Hm2 Herr];
      [lia|done|].
    set (m2 := round_nearest_even (shr_m mrs) (loc_of_shr_record mrs)) in *.
    destruct Hinv as (Hm1 & Hrho & _).
    assert (d = 53 + Zpos p) as Hdp by lia.
    assert (2 ^ (d - 1) = 2 ^ 52 * 2 ^ Zpos p) as Hlo2
      by (rewrite <- Z.pow_add_r by lia; f_equal; lia).
    assert (2 ^ d = 2 ^ 53 * 2 ^ Zpos p) as Hhi2
      by (rewrite <- Z.pow_add_r by lia; f_equal; lia).
    assert (0 < 2 ^ Zpos p) as Hpp by (apply Z.pow_pos_nonneg; lia).
    assert (2 ^ 52 ≤ shr_m mrs < 2 ^ 53) as Hm1b.
    { rewrite Hlo2 in Hlo. rewrite Hhi2 in Hhi.
      set (P := 2 ^ Zpos p) in *. clearbody P. 
      change (2 ^ 52) with 4503599627370496 in *.
      change (2 ^ 53) with 9007199254740992 in *. nia. }
    assert (d - 1 + ez + 1074 ≤ 2000) as Hexp.
    { apply pow_le_exp; [lia|].
      replace (d - 1 + ez + 1074) with ((d - 1) + (ez + 1074)) by lia.
      rewrite Z.pow_add_r by lia.
      assert (2 ^ (d - 1) * 2 ^ (ez + 1074) ≤ Zpos mz * 2 ^ (ez + 1074)); [|lia].
      apply Z.mul_le_mono_nonneg_r; lia. }
    assert (2 ^ (ez + Zpos p + 1074) = 2 ^ Zpos p * 2 ^ (ez + 1074)) as Hunits
      by (rewrite <- Z.pow_add_r by lia; f_equal; lia).
    destruct m2 as [|q|q] eqn:Hq; [lia| |lia].
    cbn [Zdigits2].
    destruct (Z.eq_dec (Zpos q) (2 ^ 53)) as [Htop|Hntop].
    + (* the rounded mantissa reached 2^53: one more shift, which loses nothing *)
      assert (q = 9007199254740992%positive) as -> by (change (2 ^ 53) with 9007199254740992 in Htop; lia).
      change (Zpos (digits2_pos 9007199254740992)) with 54.
      rewrite fexp_eq.
      assert (Z.max (54 + (ez + Zpos p) - 53) (-1074) - (ez + Zpos p) = 1) as -> by lia.
      cbn [shr shr_record_of_loc SpecFloat.iter_pos shr_1 shr_m fst snd].
      destruct (Z.leb_spec (ez + Zpos p + 1) (emax - prec)) as [_|Hover];
        [|change (emax - prec) with 971 in Hover; lia].
      eexists _, _. split; [reflexivity|]. split; [lia|].
      replace (ez + Zpos p + 1 + 1074) with (1 + (ez + Zpos p + 1074)) by lia.
      rewrite Z.pow_add_r, Hunits by lia.
      change (2 ^ 1) with 2.
      change (Z.pos 4503599627370496) with 4503599627370496.
      replace (4503599627370496 * (2 * (2 ^ Z.pos p * 2 ^ (ez + 1074)))
               - Z.pos mz * 2 ^ (ez + 1074))
        with ((9007199254740992 * 2 ^ Zpos p - Zpos mz) * 2 ^ (ez + 1074)) by ring.
      rewrite Z.abs_mul, (Z.abs_eq (2 ^ (ez + 1074))) by lia.
      rewrite Z.mul_assoc. apply Z.mul_le_mono_nonneg_r; [lia|].
      rewrite Hlo2 in Hlo.
      set (P := 2 ^ Zpos p) in *. clearbody P.
      change (2 ^ 52) with 4503599627370496 in *.
      change (2 ^ 53) with 9007199254740992 in *. lia.
    + assert (Zpos (digits2_pos q) = 53) as ->.
      { apply digits2_pos_unique. change (53 - 1) with 52. lia. }
      rewrite fexp_eq.
      rewrite shr_nonpos by lia. cbn [shr_record_of_loc shr_m].
      destruct (Z.leb_spec (ez + Zpos p) (emax - prec)) as [_|Hover];
        [|change (emax - prec) with 971 in Hover; lia].
      exists q, (ez + Zpos p). split; [done|]. split; [lia|].
      rewrite Hunits.
      replace (Zpos q * (2 ^ Z.pos p * 2 ^ (ez + 1074)) - Z.pos mz * 2 ^ (ez + 1074))
        with ((Zpos q * 2 ^ Zpos p - Zpos mz) * 2 ^ (ez + 1074)) by ring.
      rewrite Z.abs_mul, (Z.abs_eq (2 ^ (ez + 1074))) by lia.
      rewrite Z.mul_assoc. apply Z.mul_le_mono_nonneg_r; [lia|].
      rewrite Hlo2 in Hlo.
      set (P := 2 ^ Zpos p) in *. clearbody P.
      change (2 ^ 52) with 4503599627370496 in *.
      change (2 ^ 53) with 9007199254740992 in *. lia.
Qed.

Lemma shl_align_units (mx : positive) (ex ex' : Z) :
  -1074 ≤ ex → -1074 ≤ ex' →
  snd (shl_align mx ex ex') = Z.min ex ex'
  ∧ Zpos (fst (shl_align mx ex ex')) * 2 ^ (Z.min ex ex' + 1074)
    = Zpos mx * 2 ^ (ex + 1074).
Proof.
  intros Hex Hex'. unfold shl_align.
  destruct (ex' - ex) as [|d|d] eqn:Hd; cbn [fst snd].
  - rewrite Z.min_l by lia. done.
  - rewrite Z.min_l by lia. done.
  - rewrite Z.min_r by lia. split; [done|].
    rewrite iter_xO. replace (ex + 1074) with (Zpos d + (ex' + 1074)) by lia.
    rewrite (Z.pow_add_r 2 (Zpos d) (ex' + 1074)) by lia. ring.
Qed.

Lemma binary_round_units (s : bool) (mx : positive) (ex : Z) :
  -1074 ≤ ex →
  Zpos mx * 2 ^ (ex + 1074) ≤ 2 ^ 2000 →
  ∃ m3 e3,
    binary_round prec emax s mx ex = S754_finite s m3 e3
    ∧ -1074 ≤ e3
    ∧ 2 ^ 53 * Z.abs (Zpos m3 * 2 ^ (e3 + 1074) - Zpos mx * 2 ^ (ex + 1074))
      ≤ Zpos mx * 2 ^ (ex + 1074).
Proof.
  intros Hex Hmag. unfold binary_round. rewrite fexp_eq.
  set (e' := Z.max (Zpos (digits2_pos mx) + ex - 53) (-1074)).
  destruct (shl_align_units mx ex e') as [He Hval]; [lia|subst e'; lia|].
  destruct (shl_align mx ex e') as [mz ez]. cbn [fst snd] in *. subst ez.
  rewrite <- Hval in *. apply binary_round_aux_units; [lia|done].
Qed.

Lemma valid_exponent (s : bool) (m : positive) (e : Z) :
  valid_binary (S754_finite s m e) = true → -1074 ≤ e.
Proof.
  unfold SpecFloat.valid_binary, bounded, canonical_mantissa. rewrite fexp_eq.
  intros [Hcanon _]%andb_prop. apply Z.eqb_eq in Hcanon. lia.
Qed.

Lemma cond_Zopp_mul (s : bool) (a c : Z) : cond_Zopp s a * c = cond_Zopp s (a * c).
Proof. destruct s; simpl; lia. Qed.

(** The sum of two finite numbers is their exact sum rounded: the error is
    at most 2^-53 times the exact sum, as long as this sum is far below
    the overflow threshold. *)
Lemma SFadd_units (x y : spec_float) :
  valid_binary x = true → valid_binary y = true →
  finite x = true → finite y = true →
  Z.abs (units x + units y) ≤ 2 ^ 2000 →
  finite (SFadd prec emax x y) = true
  ∧ 2 ^ 53 * Z.abs (units (SFadd prec emax x y) - (units x + units y))
    ≤ Z.abs (units x + units y).
Proof.
  intros Hvx Hvy Hfx Hfy Hmag.
  destruct x as [sx|sx| |sx mx ex]; try discriminate Hfx;
    destruct y as [sy|sy| |sy my ey]; try discriminate Hfy.
  - destruct sx, sy; simpl; lia.
  - cbn [SFadd units finite]. split; [done|].
    replace (_ - _) with 0 by lia. simpl. lia.
  - cbn [SFadd units finite]. split; [done|].
    replace (_ - _) with 0 by lia. simpl. lia.
  - pose proof (valid_exponent _ _ _ Hvx) as Hex.
    pose proof (valid_exponent _ _ _ Hvy) as Hey.
    cbn [SFadd]. cbn [units] in *.
    destruct (shl_align_units mx ex (Z.min ex ey)) as [_ Hx]; [lia|lia|].
    destruct (shl_align_units my ey (Z.min ex ey)) as [_ Hy]; [lia|lia|].
    rewrite (Z.min_r ex (Z.min ex ey)) in Hx by lia.
    rewrite (Z.min_r ey (Z.min ex ey)) in Hy by lia.
    set (ez := Z.min ex ey) in *.
    set (mx' := Zpos (fst (shl_align mx ex ez))) in *.
    set (my' := Zpos (fst (shl_align my ey ez))) in *.
    assert (cond_Zopp sx (Zpos mx * 2 ^ (ex + 1074))
            + cond_Zopp sy (Zpos my * 2 ^ (ey + 1074))
            = (cond_Zopp sx mx' + cond_Zopp sy my') * 2 ^ (ez + 1074)) as Hsum.
    { rewrite Z.mul_add_distr_r, !cond_Zopp_mul. by rewrite Hx, Hy. }
    rewrite Hsum in *.
    destruct (cond_Zopp sx mx' + cond_Zopp sy my') as [|p|p]; cbn [binary_normalize].
    + simpl. lia.
    + destruct (binary_round_units false p ez) as (m3 & e3 & -> & He3 & Hbound);
        [lia|lia|].
      cbn [finite units cond_Zopp]. split; [done|].
      assert (0 < 2 ^ (ez + 1074)) by (apply Z.pow_pos_nonneg; lia).
      rewrite (Z.abs_eq (Zpos p * _)) by lia. done.
    + assert (0 < 2 ^ (ez + 1074)) as Hscale by (apply Z.pow_pos_nonneg; lia).
      destruct (binary_round_units true p ez) as (m3 & e3 & -> & He3 & Hbound).
      { lia. }
      { rewrite Z.abs_neq in Hmag by lia. lia. }
      cbn [finite units cond_Zopp]. split; [done|].
      rewrite (Z.abs_neq (Zneg p * _)) by lia.
      replace (- (Zpos m3 * 2 ^ (e3 + 1074)) - Zneg p * 2 ^ (ez + 1074))
        with (- (Zpos m3 * 2 ^ (e3 + 1074) - Zpos p * 2 ^ (ez + 1074))) by lia.
      rewrite Z.abs_opp.
      replace (- (Zneg p * 2 ^ (ez + 1074))) with (Zpos p * 2 ^ (ez + 1074)) by lia.
      done.
Qed.

(** The same bound for the primitive addition of binary64 numbers. *)
Lemma add_value (x y : float) :
  isFinite x = true → isFinite y = true →
  Z.abs (value x + value y) ≤ 2 ^ 2000 →
  isFinite (x + y) = true
  ∧ 2 ^ 53 * Z.abs (value (x + y) - (value x + value y))
    ≤ Z.abs (value x + value y).
Proof.
  unfold isFinite, value. rewrite add_spec.
  apply SFadd_units; apply Prim2SF_valid.
Qed.

Lemma value_zero : value 0%float = 0 ∧ isFinite 0%float = true.
Proof. split; reflexivity. Qed.

End Rounding.

(** ** The totals of the phases in binary64 *)

Section Accounting.

Import F64.

Lemma eps_pos : 0 < eps.
Proof. reflexivity. Qed.

Lemma eps_no_overflow : 9007199254740992 * eps ≤ 2 ^ 2000.
Proof. by vm_compute. Qed.

(** An addition whose operands are below 2^21 seconds in all is off by
    2^-32 seconds at most. *)
Lemma add_within (f d : float) :
  isFinite f = true → isFinite d = true →
  Z.abs (value f) + Z.abs (value d) ≤ 9007199254740992 * eps →
  isFinite (f + d) = true
  ∧ Z.abs (value (f + d) - (value f + value d)) ≤ eps.
Proof.
  intros Hf Hd Hsize. pose proof eps_no_overflow as Hover.
  destruct (add_value f d Hf Hd) as [Hfin Herr]; [lia|].
  split; [done|]. change (2 ^ 53) with 9007199254740992 in Herr. lia.
Qed.

Lemma sizeOfDurations_snoc seen d :
  sizeOfDurations (seen ++ [d]) = sizeOfDurations seen + Z.abs (value d).
Proof. unfold sizeOfDurations. induction seen as [|x seen IH]; simpl; lia. Qed.

Lemma unitsOfDurations_snoc seen d :
  unitsOfDurations (seen ++ [d]) = unitsOfDurations seen + value d.
Proof. unfold unitsOfDurations. induction seen as [|x seen IH]; simpl; lia. Qed.

Lemma unitsOfPhases_snoc phases p :
  unitsOfPhases (phases ++ [p]) = unitsOfPhases phases + phaseUnits p.
Proof. unfold unitsOfPhases. induction phases as [|x phases IH]; simpl; lia. Qed.

(** The first interval, and then each of the five outcomes of an interval,
    add the duration once, with one rounding error at most. *)
Lemma accountsWithin_seed movs d : accountsWithin [] (startPhase 0%float movs d) [d].
Proof.
  intros Hfin _ _. apply Forall_cons in Hfin as [Hd _].
  pose proof eps_pos. destruct value_zero as [Hz Hzf].
  unfold phaseSize, phaseUnits, unitsOfPhases, unitsOfDurations, sizeOfDurations.
  cbn [startPhase green yellow allRed foldr length]. rewrite Hz.
  repeat split; try done; lia.
Qed.

Lemma accountsWithin_step cG cY d p phases p' phases' seen :
  accountsWithin phases p seen →
  stepOutcome 0%float PrimFloat.add cG cY d p phases p' phases' →
  accountsWithin phases' p' (seen ++ [d]).
Proof.
  intros Hacc Hstep Hfin Hsize Hlen.
  apply Forall_app in Hfin as [Hfin [Hd _]%Forall_cons].
  rewrite sizeOfDurations_snoc in *. rewrite length_app in *. cbn [length] in *.
  rewrite unitsOfDurations_snoc.
  pose proof eps_pos as Heps.
  change (2 ^ 52) with 4503599627370496 in *.
  destruct Hacc as (Hg & Hy & Hr & Hphase & Herr); [done|lia|lia|].
  destruct value_zero as [Hz Hzf].
  assert (Z.of_nat (length seen) * eps ≤ 4096 * eps) as Hn by nia.
  replace (Z.of_nat (length seen + 1)) with (Z.of_nat (length seen) + 1) by lia.
  unfold phaseSize, phaseUnits in *.
  destruct Hstep; cbn [startPhase green yellow allRed] in *;
    rewrite ?unitsOfPhases_snoc; unfold phaseUnits; rewrite ?Hz.
  - destruct (add_within (green p) d Hg Hd) as [Hfin' Hround]; [lia|].
    repeat split; try done; lia.
  - destruct (add_within (yellow p) d Hy Hd) as [Hfin' Hround]; [lia|].
    repeat split; try done; lia.
  - destruct (add_within (allRed p) d Hr Hd) as [Hfin' Hround]; [lia|].
    repeat split; try done; lia.
  - repeat split; try done; lia.
  - repeat split; try done; lia.
Qed.

End Accounting.

Section AccountingQ.

Import F64.

Lemma synthesize_accountsWithin ma (durations : list float) :
  wellFormed ma durations →
  (2 ≤ ma_numIntervals ma)%nat →
  ∃ p phases,
    Binary64.synthesize ma durations = Ok (phases ++ [p])%list
    ∧ accountsWithin phases p durations.
Proof.
  intros Hwf Hn.
  destruct (synthesize_inv 0%float PrimFloat.add ma accountsWithin
              accountsWithin_seed accountsWithin_step durations Hwf Hn)
    as (p & phases & Hrun & Hacc).
  by exists p, phases.
Qed.

(** The sums in seconds are the sums in units of 2^-1074 over 2^1074. *)
Lemma Qmake_plus (a b : Z) (c : positive) : (a # c) + (b # c) == (a + b) # c.
Proof. unfold Qeq, Qplus. cbn [Qnum Qden]. rewrite Pos2Z.inj_mul. ring. Qed.

Lemma totalDurations_units l : totalDurations l == unitsOfDurations l # 2 ^ 1074.
Proof.
  induction l as [|d l IH]; [reflexivity|].
  cbn [totalDurations unitsOfDurations foldr].
  fold (totalDurations l) (unitsOfDurations l).
  rewrite IH. unfold toQ. apply Qmake_plus.
Qed.

Lemma magnitude_units l : magnitude l == sizeOfDurations l # 2 ^ 1074.
Proof.
  induction l as [|d l IH]; [reflexivity|].
  cbn [magnitude sizeOfDurations foldr].
  fold (magnitude l) (sizeOfDurations l).
  rewrite IH. unfold toQ. cbn [Qabs]. apply Qmake_plus.
Qed.

Lemma totalPhases_units l : totalPhases l == unitsOfPhases l # 2 ^ 1074.
Proof.
  induction l as [|p l IH]; [reflexivity|].
  cbn [totalPhases unitsOfPhases foldr].
  fold (totalPhases l) (unitsOfPhases l).
  rewrite IH. unfold phaseSeconds, phaseUnits, toQ.
  by rewrite !Qmake_plus.
Qed.

Lemma seconds_units : Zpos (2 ^ 1074) = 2 ^ 32 * eps.
Proof. reflexivity. Qed.

End AccountingQ.


(** In exact arithmetic the phases of a well-formed operating period of two
    intervals or more add up to the sum of the raw interval durations. *)
Lemma getPhases_accounts_exact (sd : SignalData Qc) (startHour endHour : Time)
    (ma : MultiArray) (timing : ExcelSignalTiming Qc) :
  phasingData sd = Some ma →
  selectCSO sd startHour endHour = Some timing →
  wellFormed ma (times timing) →
  (2 ≤ ma_numIntervals ma)%nat →
  ∃ phases,
    Exact.getPhases sd startHour endHour = Ok phases
    ∧ sumPhases 0%Qc Qcplus phases = sumDurations 0%Qc Qcplus (times timing).
Proof.
  intros Hma Hsel Hwf Hn. unfold Exact.getPhases.
  rewrite (getPhases_unfold _ _ _ _ _ _ _ Hma Hsel).
  by apply synthesize_accounts.
Qed.

(** C2, as the code has it: for every well-formed operating period of two
    to 4096 intervals whose durations are finite binary64 numbers that add
    up, in absolute value, to 2^20 seconds at most, [getPhases] returns,
    and the green, yellow and all-red times of the phases it returns add
    up to the sum of the raw interval durations within 1e-6.  The times
    are the binary64 numbers that the code computes with its rounded
    additions; the two sums compared are their exact sums. *)
Theorem getPhases_accounts (sd : SignalData float) (startHour endHour : Time)
    (ma : MultiArray) (timing : ExcelSignalTiming float) :
  phasingData sd = Some ma →
  selectCSO sd startHour endHour = Some timing →
  wellFormed ma (times timing) →
  (2 ≤ ma_numIntervals ma ≤ 4096)%nat →
  Forall (λ d, F64.isFinite d = true) (times timing) →
  (F64.magnitude (times timing) <= 1048576)%Q →
  ∃ phases,
    Binary64.getPhases sd startHour endHour = Ok phases
    ∧ (Qabs (F64.totalPhases phases - F64.totalDurations (times timing))
       <= 1 # 1000000)%Q.
Proof.
  intros Hma Hsel Hwf [Hn Hmax] Hfin Hmag. unfold Binary64.getPhases.
  rewrite (getPhases_unfold _ _ _ _ _ _ _ Hma Hsel).
  destruct (synthesize_accountsWithin ma (times timing) Hwf Hn)
    as (p & phases & Hrun & Hacc).
  exists (phases ++ [p])%list. split; [exact Hrun|].
  pose proof Hwf as [_ Hlen].
  rewrite magnitude_units in Hmag. unfold Qle in Hmag. cbn [Qnum Qden] in Hmag.
  rewrite seconds_units in Hmag.
  pose proof eps_pos as Heps.
  change (2 ^ 32) with 4294967296 in Hmag.
  destruct Hacc as (_ & _ & _ & _ & Herr).
  { done. }
  { change (2 ^ 52) with 4503599627370496. lia. }
  { lia. }
  rewrite totalPhases_units, totalDurations_units.
  assert (F64.unitsOfPhases (phases ++ [p]) = F64.unitsOfPhases phases + F64.phaseUnits p)
    as -> by apply unitsOfPhases_snoc.
  set (V := F64.unitsOfPhases phases + F64.phaseUnits p) in *.
  set (T := F64.unitsOfDurations (times timing)) in *.
  assert ((V # 2 ^ 1074) - (T # 2 ^ 1074) == (V - T) # 2 ^ 1074)%Q as ->.
  { unfold Qminus, Qopp. cbn [Qnum Qden]. rewrite Qmake_plus.
    by replace (V + - T) with (V - T) by lia. }
  unfold Qle. cbn [Qabs Qnum Qden]. rewrite seconds_units.
  change (2 ^ 32) with 4294967296.
  assert (Z.of_nat (length (times timing)) * F64.eps ≤ 4096 * F64.eps) by nia.
  lia.
Qed.

Lemma getPhases_accounts_witness :
  ∃ phases,
    Binary64.getPhases (cardOf mainCrossGrid mainCrossTimes) (mkTime 7 0) (mkTime 9 0)
    = Ok phases
    ∧ (Qabs (F64.totalPhases phases - F64.totalDurations mainCrossTimes)
       <= 1 # 1000000)%Q.
Proof.
  apply (getPhases_accounts (cardOf mainCrossGrid mainCrossTimes)
           (mkTime 7 0) (mkTime 9 0) mainCrossGrid
           {| cso := PyStr "111"; cycle := PyNone; offset := PyInt 0;
              isActuated := false; startTime := mkTime 0 0;
              endTime := mkTime 23 59; times := mainCrossTimes |}).
  - reflexivity.
  - reflexivity.
  - apply knownStatesb_wellFormed; [vm_compute|]; reflexivity.
  - simpl. lia.
  - repeat constructor.
  - by vm_compute.
Defined.

(** Without these bounds the equality within 1e-6 fails twice.  A period of
    one interval yields no phase at all.  And with a first interval of
    1e16 seconds the green time 1e16 + 1 is rounded to 1e16: the phases
    add up to 1e16 + 2, the durations to 1e16 + 3; added as binary64
    numbers from left to right, the durations even give 1e16. *)
Lemma getPhases_total_counterexample :
  (wellFormed oneIntervalGrid [5%float]
   ∧ Binary64.getPhases (cardOf oneIntervalGrid [5%float]) (mkTime 7 0) (mkTime 9 0)
     = Ok []
   ∧ ¬ (Qabs (F64.totalPhases [] - F64.totalDurations [5%float])
        <= 1 # 1000000)%Q)
  ∧ (wellFormed longGrid [1e16; 1; 1; 1]%float
     ∧ Forall (λ d, F64.isFinite d = true) [1e16; 1; 1; 1]%float
     ∧ ∃ phases,
         Binary64.getPhases (cardOf longGrid [1e16; 1; 1; 1]%float)
                            (mkTime 7 0) (mkTime 9 0) = Ok phases
         ∧ (F64.totalDurations [1e16; 1; 1; 1]%float - F64.totalPhases phases
            == 1)%Q
         ∧ ¬ (Qabs (F64.totalPhases phases
                    - F64.totalDurations [1e16; 1; 1; 1]%float)
              <= 1 # 1000000)%Q
         ∧ withinTolerance (sumPhases 0%float PrimFloat.add phases)
                           (sumDurations 0%float PrimFloat.add [1e16; 1; 1; 1]%float)
           = false).
Proof.
  split; [split; [|split]|split; [|split]].
  - apply knownStatesb_wellFormed; [vm_compute|]; reflexivity.
  - vm_compute. reflexivity.
  - intros H. vm_compute in H. by apply H.
  - apply knownStatesb_wellFormed; [vm_compute|]; reflexivity.
  - repeat constructor.
  - eexists. split; [vm_compute; reflexivity|].
    split; [by vm_compute|]. split; [|vm_compute; reflexivity].
    intros H. vm_compute in H. by apply H.
Qed.

(** ** The grid built by the parser *)

Lemma for_each_ind {A S} (body : S → A → result S) (Inv : list A → S → Prop) xs :
  (∀ pre x s s1, Inv pre s → body s x = Ok s1 → Inv (pre ++ [x])%list s1) →
  ∀ s s', Inv [] s → for_each xs body s = Ok s' → Inv xs s'.
Proof.
  intros Hbody.
  assert (∀ pre s s', Inv pre s → for_each xs body s = Ok s' → Inv (pre ++ xs)%list s')
    as Hgen.
  { induction xs as [|x xs IH]; intros pre s s' Hs; simpl.
    - intros [= <-]. by rewrite app_nil_r.
    - destruct (body s x) as [s1|] eqn:Hb; simpl; [|done].
      intros Hrun. replace (pre ++ x :: xs)%list with ((pre ++ [x]) ++ xs)%list
        by (by rewrite <- app_assoc).
      eapply IH; [|exact Hrun]. by eapply Hbody. }
  intros s s' Hs Hrun. by apply (Hgen [] s s').
Qed.

Lemma ma_set_states ma gMov t v :
  v ∈ ["G"; "Y"; "R"] →
  map_Forall (λ _ v, v ∈ ["G"; "Y"; "R"]) (ma_data ma) →
  map_Forall (λ _ v, v ∈ ["G"; "Y"; "R"]) (ma_data (ma_set ma gMov t v)).
Proof. intros Hv Hall. by apply map_Forall_insert_2. Qed.

(** Copying one filled row into the grid either fails or completes the row
    of its movement with states G, Y or R. *)
Lemma fillGrid_row_filled phasingData0 names n complete ma i movName ma' :
  gridFilled names n complete ma →
  fillGrid_row phasingData0 n ma (i, movName) = Ok ma' →
  gridFilled names n (complete ++ [movName])%list ma'.
Proof.
  intros (Hnames & Hn & Hvals & Hrows). unfold fillGrid_row.
  destruct (getitem phasingData0 i) as [row|]; simpl; [|done].
  destruct (fillPhaseInfo row) as [row'|]; simpl; [|done].
  intros Hrun.
  apply (for_each_ind _
           (λ pre m, ma_movements m = names ∧ ma_numIntervals m = n
                     ∧ map_Forall (λ _ v, v ∈ ["G"; "Y"; "R"]) (ma_data m)
                     ∧ (∀ key, is_Some (ma_data ma !! key) → is_Some (ma_data m !! key))
                     ∧ (∀ j, j ∈ pre → is_Some (ma_data m !! (movName, j))))
           _) in Hrun.
  - destruct Hrun as (Hnames' & Hn' & Hvals' & Hmono & Hset).
    split; [done|]. split; [done|]. split; [done|].
    intros g t Hg Ht. apply elem_of_app in Hg as [Hg|Hg].
    + apply Hmono. by apply Hrows.
    + apply list_elem_of_singleton in Hg as ->. apply Hset.
      unfold range. apply elem_of_seqZ. lia.
  - intros pre j m m1 (Hnames' & Hn' & Hvals' & Hmono & Hset).
    destruct (getitem row' (Z.to_nat (j - 1))) as [c|]; simpl; [|done].
    assert (∀ v, v ∈ ["G"; "Y"; "R"] →
              Ok (ma_set m movName j v) = Ok m1 →
              ma_movements m1 = names ∧ ma_numIntervals m1 = n
              ∧ map_Forall (λ _ v, v ∈ ["G"; "Y"; "R"]) (ma_data m1)
              ∧ (∀ key, is_Some (ma_data ma !! key) → is_Some (ma_data m1 !! key))
              ∧ (∀ j', j' ∈ (pre ++ [j])%list → is_Some (ma_data m1 !! (movName, j'))))
      as Hstep.
    { intros v Hv [= <-]. split; [done|]. split; [done|].
      split; [by apply ma_set_states|]. simpl. split.
      - intros key Hkey. apply lookup_insert_is_Some'. right. by apply Hmono.
      - intros j' Hj'. apply lookup_insert_is_Some'.
        apply elem_of_app in Hj' as [Hj'|Hj'].
        + right. by apply Hset.
        + apply list_elem_of_singleton in Hj' as ->. by left. }
    destruct (String.eqb _ "G"); [apply Hstep; apply list_elem_of_here|].
    destruct (String.eqb _ "Y");
      [apply Hstep; apply list_elem_of_further, list_elem_of_here|].
    destruct (String.eqb _ "R"); [apply Hstep|done].
    do 2 apply list_elem_of_further. apply list_elem_of_here.
  - split; [done|]. split; [done|]. split; [done|]. split; [done|].
    intros j Hj. by apply elem_of_nil in Hj.
Qed.

(** Whenever [getPhasingData] returns a grid, the grid is well formed for
    the durations of the card: each of its movements has a state G, Y or
    R in each interval, and the number of intervals is the number of
    durations of the first period. *)
Lemma getPhasingData_wellFormed {D} str_of_float (sheet : Sheet D)
    (signalData : SignalData D) ma :
  getPhasingData str_of_float sheet signalData = Done ma →
  (∀ gMov t, gMov ∈ ma_movements ma → 1 ≤ t ≤ Z.of_nat (ma_numIntervals ma) →
             ma_get ma gMov t ∈ ["G"; "Y"; "R"])
  ∧ getNumTimeIntervals signalData = Some (ma_numIntervals ma)
  ∧ (1 ≤ ma_numIntervals ma)%nat.
Proof.
  unfold getPhasingData.
  destruct (phaseSeqCell signalData) as [[startX startY]|]; simpl; [|done].
  destruct (sigInterCell signalData) as [[endX endY]|]; simpl; [|done].
  destruct (truthyZ (colPhaseData signalData)); simpl; [|done].
  destruct (colPhaseData signalData) as [c0|]; simpl; [|done].
  destruct (truthyZ (lastColPhaseData signalData)); simpl; [|done].
  destruct (lastColPhaseData signalData) as [c1|]; simpl; [|done].
  destruct (for_each _ _ _) as [[names rows]|]; simpl; [|done].
  destruct (head rows) as [row0|]; simpl; [|done].
  destruct (Nat.eqb_spec (length row0) 0) as [|Hne]; [done|].
  destruct (length rows <=? 1)%nat; [done|].
  destruct (raggedRows rows); [done|].
  destruct (getNumTimeIntervals signalData) as [n|]; [|done].
  destruct (Nat.eqb_spec n (length row0)) as [Hnum|]; simpl; [|done].
  rewrite Hnum.
  destruct (for_each _ _ _) as [ma'|] eqn:Hrun; simpl; [|done].
  intros [= ->].
  apply (for_each_ind _
           (λ pre m, gridFilled names (length row0) pre.*2 m) _) in Hrun.
  - destruct Hrun as (Hnames & Hn & Hvals & Hrows).
    rewrite Hn. split; [|split; [done|lia]].
    intros g t Hg Ht. rewrite Hnames in Hg.
    destruct (Hrows g t) as [v Hv]; [|done|].
    + unfold getElementsOfDimention0. simpl.
      apply list_elem_of_fmap. apply list_elem_of_lookup in Hg as [i Hi].
      exists (i, g). split; [done|]. apply list_elem_of_lookup. exists i.
      by rewrite list_lookup_imap, Hi.
    + unfold ma_get. rewrite Hv. simpl. by apply (Hvals _ _ Hv).
  - intros pre [i movName] m m1 Hm Hstep. rewrite fmap_app. simpl.
    by eapply fillGrid_row_filled.
  - split; [done|]. split; [done|]. split; [apply map_Forall_empty|].
    intros g t Hg. by apply elem_of_nil in Hg.
Qed.

(** So a card produced by the parser never drives the synthesizer into
    its last branch: in exact arithmetic [getPhases] returns on every card
    with two intervals or more whose grid comes from [getPhasingData] and
    whose selected period has as many durations as the first one. *)
Lemma getPhases_on_parsed_card str_of_float (sheet : Sheet Qc)
    (parsed sd : SignalData Qc) (startHour endHour : Time) ma timing :
  getPhasingData str_of_float sheet parsed = Done ma →
  phasingData sd = Some ma →
  selectCSO sd startHour endHour = Some timing →
  length (times timing) = ma_numIntervals ma →
  (2 ≤ ma_numIntervals ma)%nat →
  ∃ phases,
    Exact.getPhases sd startHour endHour = Ok phases
    ∧ sumPhases 0%Qc Qcplus phases = sumDurations 0%Qc Qcplus (times timing).
Proof.
  intros Hparse Hma Hsel Hlen Hn. unfold Exact.getPhases.
  rewrite (getPhases_unfold _ _ _ _ _ _ _ Hma Hsel).
  apply synthesize_accounts; [|done].
  split; [|done].
  by destruct (getPhasingData_wellFormed str_of_float sheet parsed ma Hparse).
Qed.

(** ** The fallback branch of the synthesizer *)





(** The branch is the only source of that error: whenever [nextPhase]
    fails, it fails with [NameError]. *)
Lemma nextPhase_Raise {D} (dzero : D) dadd cG cY cR dur p phases e :
  nextPhase dzero dadd cG cY cR dur p phases = Raise e → e = NameError.
Proof.
  unfold nextPhase. intros H.
  repeat (match type of H with
          | (if ?b then _ else _) = _ => destruct b
          end; try discriminate).
  by inversion H.
Qed.

(** ** Time-period selector *)

Lemma Time_ltb_lt a b : Time_ltb a b = true ↔ Time_lt a b.
Proof.
  unfold Time_ltb, Time_lt.
  rewrite orb_true_iff, andb_true_iff, !Z.ltb_lt, Z.eqb_eq. tauto.
Qed.

Lemma Time_leb_le a b : Time_leb a b = true ↔ Time_le a b.
Proof.
  unfold Time_leb, Time_ltb, Time_eqb, Time_le.
  rewrite !orb_true_iff, !andb_true_iff, !Z.ltb_lt, !Z.eqb_eq. lia.
Qed.

Lemma inOperation_inForce {D} query (st : ExcelSignalTiming D) :
  inOperation query st = true ↔ inForce query st.
Proof.
  unfold inOperation, inForce.
  rewrite !andb_true_iff, !Time_leb_le, Time_ltb_lt. tauto.
Qed.

Lemma isAllOtherTimes_allOtherTimes {D} (st : ExcelSignalTiming D) :
  isAllOtherTimes st = true ↔ allOtherTimes st.
Proof.
  unfold isAllOtherTimes, allOtherTimes.
  by rewrite andb_true_iff, !bool_decide_eq_true.
Qed.

Lemma isFullDay_fullDay {D} (st : ExcelSignalTiming D) :
  isFullDay st = true ↔ fullDay st.
Proof.
  unfold isFullDay, fullDay.
  by rewrite andb_true_iff, !bool_decide_eq_true.
Qed.

Section ReturnFirst.

Context {A : Type} (cond : A → bool) (P : A → Prop).
Hypothesis cond_P : ∀ x, cond x = true ↔ P x.

Lemma returnFirst_firstSuch l x :
  firstSuch P l x → returnFirst cond l = Some x.
Proof.
  intros (l1 & l2 & -> & Hx & Hl1).
  induction Hl1 as [|y l1 Hy _ IH]; simpl.
  - apply cond_P in Hx. by rewrite Hx.
  - destruct (cond y) eqn:Hc; [|exact IH].
    apply cond_P in Hc. contradiction.
Qed.

Lemma returnFirst_none l :
  Forall (λ y, ¬ P y) l → returnFirst cond l = None.
Proof.
  induction 1 as [|y l Hy _ IH]; simpl; [done|].
  destruct (cond y) eqn:Hc; [|exact IH].
  apply cond_P in Hc. contradiction.
Qed.

Lemma returnFirst_Some_inv l x :
  returnFirst cond l = Some x → firstSuch P l x.
Proof.
  induction l as [|y l IH]; simpl; [done|].
  destruct (cond y) eqn:Hc.
  - intros [= ->]. exists [], l. split; [done|]. split; [by apply cond_P | constructor].
  - intros (l1 & l2 & -> & Hx & Hl1)%IH.
    exists (y :: l1), l2. split; [done|]. split; [done|].
    constructor; [|done]. rewrite <- cond_P. by rewrite Hc.
Qed.

End ReturnFirst.

(** C4: [selectCSO] returns the first period in force at the query start
    (recorded start <= query start <= recorded end, end strictly after
    start); when there is none, the first period with start = end = 0:00;
    when there is none either, the first period with start 0:00 and end
    23:59; and otherwise [None]. *)
Theorem selectCSO_three_tiers {D} (card : SignalData D) (startTime0 endTime0 : Time) :
  let periods := iterSignalTiming card in
  (∀ st, firstSuch (inForce startTime0) periods st →
         selectCSO card startTime0 endTime0 = Some st)
  ∧ (Forall (λ p, ¬ inForce startTime0 p) periods →
     ∀ st, firstSuch allOtherTimes periods st →
           selectCSO card startTime0 endTime0 = Some st)
  ∧ (Forall (λ p, ¬ inForce startTime0 p) periods →
     Forall (λ p, ¬ allOtherTimes p) periods →
     ∀ st, firstSuch fullDay periods st →
           selectCSO card startTime0 endTime0 = Some st)
  ∧ (Forall (λ p, ¬ inForce startTime0 p) periods →
     Forall (λ p, ¬ allOtherTimes p) periods →
     Forall (λ p, ¬ fullDay p) periods →
     selectCSO card startTime0 endTime0 = None).
Proof.
  intros periods. unfold selectCSO. fold periods.
  pose proof (returnFirst_firstSuch _ _ (@inOperation_inForce D startTime0)) as F1.
  pose proof (returnFirst_none _ _ (@inOperation_inForce D startTime0)) as N1.
  pose proof (returnFirst_firstSuch _ _ (@isAllOtherTimes_allOtherTimes D)) as F2.
  pose proof (returnFirst_none _ _ (@isAllOtherTimes_allOtherTimes D)) as N2.
  pose proof (returnFirst_firstSuch _ _ (@isFullDay_fullDay D)) as F3.
  pose proof (returnFirst_none _ _ (@isFullDay_fullDay D)) as N3.
  repeat split.
  - intros st H. by rewrite (F1 _ _ H).
  - intros H1 st H. by rewrite (N1 _ H1), (F2 _ _ H).
  - intros H1 H2 st H. by rewrite (N1 _ H1), (N2 _ H2), (F3 _ _ H).
  - intros H1 H2 H3. by rewrite (N1 _ H1), (N2 _ H2), (N3 _ H3).
Qed.

Lemma selectCSO_three_tiers_witness :
  selectCSO (cardOf mainCrossGrid mainCrossTimes) (mkTime 7 0) (mkTime 9 0)
  = Some {| cso := PyStr "111"; cycle := PyNone; offset := PyInt 0;
            isActuated := false; startTime := mkTime 0 0;
            endTime := mkTime 23 59; times := mainCrossTimes |}.
Proof.
  apply (proj1 (selectCSO_three_tiers (cardOf mainCrossGrid mainCrossTimes)
                  (mkTime 7 0) (mkTime 9 0))).
  exists [], []. split; [reflexivity|]. split; [|constructor].
  unfold inForce, Time_le, Time_lt; simpl. lia.
Defined.

(** Whatever [selectCSO] returns is one of the three tiers, and [None]
    leaves no candidate. *)
Lemma selectCSO_inv {D} (card : SignalData D) (startTime0 endTime0 : Time) :
  let periods := iterSignalTiming card in
  match selectCSO card startTime0 endTime0 with
  | Some st =>
    firstSuch (inForce startTime0) periods st
    ∨ (Forall (λ p, ¬ inForce startTime0 p) periods
       ∧ (firstSuch allOtherTimes periods st
          ∨ (Forall (λ p, ¬ allOtherTimes p) periods
             ∧ firstSuch fullDay periods st)))
  | None =>
    Forall (λ p, ¬ inForce startTime0 p) periods
    ∧ Forall (λ p, ¬ allOtherTimes p) periods
    ∧ Forall (λ p, ¬ fullDay p) periods
  end.
Proof.
  intros periods. unfold selectCSO. fold periods.
  assert (None_inv : ∀ (cond : ExcelSignalTiming D → bool) P,
             (∀ x, cond x = true ↔ P x) →
             returnFirst cond periods = None → Forall (λ y, ¬ P y) periods).
  { intros cond P HP. induction periods as [|y l IH]; simpl; [constructor|].
    destruct (cond y) eqn:Hc; [done|]. intros H. constructor; [|by apply IH].
    rewrite <- HP. by rewrite Hc. }
  destruct (returnFirst (inOperation startTime0) periods) eqn:E1.
  { left. by eapply returnFirst_Some_inv; [apply inOperation_inForce|]. }
  apply (None_inv _ _ (inOperation_inForce startTime0)) in E1.
  destruct (returnFirst isAllOtherTimes periods) eqn:E2.
  { right. split; [done|]. left.
    by eapply returnFirst_Some_inv; [apply isAllOtherTimes_allOtherTimes|]. }
  apply (None_inv _ _ isAllOtherTimes_allOtherTimes) in E2.
  destruct (returnFirst isFullDay periods) eqn:E3.
  { right. split; [done|]. right. split; [done|].
    by eapply returnFirst_Some_inv; [apply isFullDay_fullDay|]. }
  apply (None_inv _ _ isFullDay_fullDay) in E3. done.
Qed.

(** The method of the same name on [SignalData], which nothing calls, is
    a different selector: it accepts a period whose end does not follow
    its start, and returns the key of the period. *)
Lemma SignalData_selectCSO_differs :
  let sevenToSeven : ExcelSignalTiming float :=
    set_startEnd (mkTime 7 0) (mkTime 7 0) ExcelSignalTiming_init in
  let card := {| topLeftCell := None; phaseSeqCell := None; sigInterCell := None;
                 colPhaseData := None; lastColPhaseData := None;
                 signalTiming := [("211", sevenToSeven)];
                 phasingData := None |} in
  selectCSO card (mkTime 7 0) (mkTime 9 0) = None
  ∧ SignalData_selectCSO card (mkTime 7 0) (mkTime 9 0) = Some "211".
Proof. split; reflexivity. Qed.

(** ** Resolution of FREE and dashed codes *)

Import Py.

Lemma matchFreeCso_last keys acc lastKey :
  last keys = Some lastKey → matchFreeCso keys acc = (true, lastKey).
Proof.
  unfold matchFreeCso. revert acc.
  induction keys as [|key keys IH]; intros acc Hlast; [done|].
  simpl. destruct keys as [|key' keys'].
  - simpl in *. inversion Hlast; subst. by destruct (String.eqb _ _).
  - apply IH. exact Hlast.
Qed.

Lemma matchFirstCharacter_none keys strCsoSub acc :
  Forall (λ key, take 1 key ≠ strCsoSub) keys →
  matchFirstCharacter keys strCsoSub acc = acc.
Proof.
  unfold matchFirstCharacter. intros H. revert acc.
  induction H as [|key keys Hkey _ IH]; intros acc; [done|].
  simpl. destruct (String.eqb_spec (take 1 key) strCsoSub); [done | apply IH].
Qed.

(** What the code does with a code whose first cell starts with F or a dash
    and matches no key on the first character: it is merged into the last
    key of the iteration, whether or not a key starting with 1 exists. *)
Lemma resolveCso_free_last {D} sof (sheet : Sheet D) keys k y cso0 c rest lastKey :
  String.concat "" (List.firstn 1 cso0) = String c rest →
  c = "F"%char ∨ c = "-"%char →
  Forall (λ key, take 1 key ≠ String c rest) keys →
  last keys = Some lastKey →
  resolveCso sof sheet keys k y cso0 = Ok (CsoFound lastKey).
Proof.
  intros Hsub Hc Hkeys Hlast. unfold resolveCso. rewrite Hsub.
  destruct (String.eqb_spec (String.concat "" cso0) "") as [Hempty|_].
  { destruct cso0 as [|s0 cso1]; [done|]. simpl in Hsub. subst s0.
    destruct cso1; simpl in Hempty; discriminate. }
  rewrite (matchFirstCharacter_none _ _ _ Hkeys). simpl.
  rewrite (matchFreeCso_last _ _ _ Hlast).
  by destruct Hc as [-> | ->].
Qed.

(** C5: with the periods 111 and 211 on the card, in that iteration order,
    the code FREE is merged into 211 although a period beginning with 1
    exists. *)
Theorem resolveCso_FREE_ignores_period_1 {D} sof (sheet : Sheet D) (k y : Z) :
  resolveCso sof sheet ["111"; "211"] k y ["FREE"] = Ok (CsoFound "211")
  ∧ resolveCso sof sheet ["111"; "211"] k y ["-"; "-"; "-"] = Ok (CsoFound "211").
Proof. split; reflexivity. Qed.

(** ** Codes ending in a double dash *)

Lemma endswith_dashes_not_free strCso :
  endswith strCso "--" = true →
  (String.eqb strCso "FREE" || String.eqb strCso "free") = false.
Proof.
  intros H.
  destruct (String.eqb_spec strCso "FREE") as [->|_]; [done|].
  destruct (String.eqb_spec strCso "free") as [->|_]; done.
Qed.

(** A code ending in a double dash whose length is not 4 is left to the
    general branch: with the cycle cell "--" the cycle is unset and the
    period actuated; the offset is 0 when the offset text contains a dash
    (as it does when the offset cell is missing), and the parsed offset
    text otherwise. *)
Lemma classifyCso_double_dash_other_lengths {D} (float_of_str : string → option D)
    (strCso strOffset : string) :
  endswith strCso "--" = true →
  String.length strCso ≠ 4%nat →
  classifyCso float_of_str strCso "--" strOffset =
    if contains "-" strOffset then
      Ok {| cso := PyStr strCso; cycle := PyNone; offset := PyInt 0;
            isActuated := true; startTime := mkTime 23 59;
            endTime := mkTime 23 59; times := [] |}
    else
      match float_of_str strOffset with
      | Some x =>
        Ok {| cso := PyStr strCso; cycle := PyNone; offset := PyFloat x;
              isActuated := true; startTime := mkTime 23 59;
              endTime := mkTime 23 59; times := [] |}
      | None => Raise ParsingCardError
      end.
Proof.
  intros Hend Hlen. unfold classifyCso.
  rewrite Hend, (endswith_dashes_not_free _ Hend).
  replace (String.eqb "--" "--") with true by reflexivity.
  rewrite andb_false_r.
  destruct (Nat.eqb_spec (String.length strCso) 4) as [|_]; [done|].
  simpl. destruct (contains "-" strOffset); [reflexivity|].
  simpl. unfold float_str. destruct (float_of_str strOffset); reflexivity.
Qed.

(** The sibling branch, for a code of three characters ending in a double
    dash whose cycle cell is not "--": offset 0, cycle 0 and actuated,
    without any call to [float]. *)
Lemma classifyCso_double_dash_length_3 {D} (float_of_str : string → option D)
    (strCso strCycle strOffset : string) :
  endswith strCso "--" = true →
  String.length strCso = 3%nat →
  strCycle ≠ "--" →
  classifyCso float_of_str strCso strCycle strOffset =
    Ok {| cso := PyStr strCso; cycle := PyInt 0; offset := PyInt 0;
          isActuated := true; startTime := mkTime 23 59;
          endTime := mkTime 23 59; times := [] |}.
Proof.
  intros Hend Hlen Hcycle. unfold classifyCso.
  assert (endswith strCso "-" = true) as Hend1.
  { destruct strCso as [|a [|b [|c [|d s]]]]; try done.
    revert Hend. unfold endswith. cbv [String.rev String.rev_app].
    cbn [String.prefix]. destruct (ascii_dec "-" c); done. }
  rewrite Hend1, Hend, Hlen.
  destruct (String.eqb_spec strCycle "--") as [|_]; [done|]. reflexivity.
Qed.

(** C6: a code of four characters ending in a double dash, with the cycle
    cell "--", enters the branch written for this very case.  The branch
    sets the offset to 0 and then passes "--" to [float], outside any
    [try]: since [float("--")] is a [ValueError], the row ends in that
    exception, neither in a period with the cycle unset and actuated nor
    in the card-level parsing failure. *)
Theorem classifyCso_double_dash_ValueError {D} (float_of_str : string → option D)
    (strCso strOffset : string) :
  float_of_str "--" = None →
  endswith strCso "--" = true →
  String.length strCso = 4%nat →
  classifyCso float_of_str strCso "--" strOffset = Raise ValueError.
Proof.
  intros Hfloat Hend Hlen. unfold classifyCso.
  rewrite Hend, Hlen.
  replace (String.eqb "--" "--") with true by reflexivity.
  rewrite andb_false_r. simpl.
  unfold float_str. by rewrite Hfloat.
Qed.

Lemma classifyCso_double_dash_ValueError_witness :
  Exact.classifyCso "11--" "--" "5" = Raise ValueError.
Proof.
  apply (classifyCso_double_dash_ValueError Exact.float_of_str "11--" "5");
    reflexivity.
Defined.

(** The same row in a table of periods: the exception leaves
    [getSignalIntervalData], which has no handler for it. *)
Lemma getSignalIntervalData_double_dash_row :
  Exact.parseCsoRow [CText "11--"; CText "--"; CText "5"] = Raise ValueError
  ∧ TimingSamples.getSignalIntervalData 10 TimingSamples.dashedSheet
                                        TimingSamples.timingCard
    = Fail (Std ValueError).
Proof. split; vm_compute; reflexivity. Qed.

(** ** The weekday gate of the operating times *)

Section Weekday.

Context {D : Type} (str_of_float : D → string).
Variable sheet : Sheet D.
Variables row colCycle : Z.

Lemma checkForWeekdayPlan_value thurs fri :
  sheet row (colCycle - 3) = Some thurs →
  sheet row (colCycle - 2) = Some fri →
  let ThursValue := strip (py_str str_of_float thurs) in
  let FriValue := strip (py_str str_of_float fri) in
  checkForWeekdayPlan str_of_float sheet row colCycle =
    Ok (bool_decide ((ThursValue = "X" ∧ FriValue = "X")
                     ∨ (ThursValue = "x" ∧ FriValue = "x"))).
Proof.
  intros Ht Hf. unfold checkForWeekdayPlan, cell_value. rewrite Ht, Hf. simpl.
  destruct (String.eqb_spec (strip (py_str str_of_float thurs)) "X") as [HtX|HtX];
  destruct (String.eqb_spec (strip (py_str str_of_float fri)) "X") as [HfX|HfX];
  destruct (String.eqb_spec (strip (py_str str_of_float thurs)) "x") as [Htx|Htx];
  destruct (String.eqb_spec (strip (py_str str_of_float fri)) "x") as [Hfx|Hfx];
  simpl; f_equal; symmetry;
  first [ apply bool_decide_eq_true; tauto
        | apply bool_decide_eq_false; intros [[? ?]|[? ?]]; congruence ].
Qed.

Variable readClockTimes :
  cell D → timesFlags → ExcelSignalTiming D → result (timesFlags * ExcelSignalTiming D).

(** On a row that is not a weekday plan a non-blank cell sets the
    sentinel and a blank cell changes nothing. *)
Lemma setTimes_body_not_weekday c v fl timing :
  checkForWeekdayPlan str_of_float sheet row colCycle = Ok false →
  sheet row c = Some v →
  setTimes_body str_of_float readClockTimes sheet row colCycle (fl, timing) c =
    if nonBlankAt str_of_float sheet row c
    then Ok ({| hasAllOtherTimes := hasAllOtherTimes fl; gotStartTime := true;
                gotStartTime2 := gotStartTime2 fl |},
             set_startEnd (mkTime 23 59) (mkTime 23 59) timing)
    else Ok (fl, timing).
Proof.
  intros Hcheck Hv. unfold setTimes_body, cell_value, nonBlankAt.
  rewrite Hv. simpl.
  destruct (String.eqb (strip (py_str str_of_float v)) ""); simpl; [done|].
  by rewrite Hcheck.
Qed.

(** So the loop of [setTimes] ends with the sentinel as soon as one
    scanned cell is not blank, and with the record it started from
    otherwise. *)
Lemma setTimes_loop_not_weekday cols :
  checkForWeekdayPlan str_of_float sheet row colCycle = Ok false →
  Forall (λ c, is_Some (sheet row c)) cols →
  ∀ fl timing, ∃ fl',
    for_each cols (setTimes_body str_of_float readClockTimes sheet row colCycle)
             (fl, timing)
    = Ok (fl', if existsb (nonBlankAt str_of_float sheet row) cols
               then set_startEnd (mkTime 23 59) (mkTime 23 59) timing
               else timing).
Proof.
  intros Hcheck Hcols. induction Hcols as [|c cols [v Hv] _ IH]; intros fl timing.
  - by exists fl.
  - cbn [for_each existsb].
    rewrite (setTimes_body_not_weekday c v fl timing Hcheck Hv).
    destruct (nonBlankAt str_of_float sheet row c); simpl.
    + destruct (IH {| hasAllOtherTimes := hasAllOtherTimes fl; gotStartTime := true;
                      gotStartTime2 := gotStartTime2 fl |}
                   (set_startEnd (mkTime 23 59) (mkTime 23 59) timing))
        as (fl' & ->).
      exists fl'. by destruct (existsb _ cols).
    + apply IH.
Qed.

End Weekday.

(** C7, as the code has it: a row is a weekday plan exactly when the cells
    three and two columns left of the cycle column, stripped, are both X
    or both x; on a row that is not, [setTimes] leaves start = end = 23:59
    as soon as one scanned cell of the row is not blank. *)
Theorem weekday_gate {D} (str_of_float : D → string)
    (readClockTimes : cell D → timesFlags → ExcelSignalTiming D →
                      result (timesFlags * ExcelSignalTiming D))
    (sheet : Sheet D) (row colCycle firstColumn colPhaseData0 : Z)
    (thurs fri : cell D) (timing : ExcelSignalTiming D) :
  sheet row (colCycle - 3) = Some thurs →
  sheet row (colCycle - 2) = Some fri →
  (∀ c, firstColumn ≤ c < colPhaseData0 → is_Some (sheet row c)) →
  let ThursValue := strip (py_str str_of_float thurs) in
  let FriValue := strip (py_str str_of_float fri) in
  (checkForWeekdayPlan str_of_float sheet row colCycle = Ok true
   ↔ (ThursValue = "X" ∧ FriValue = "X") ∨ (ThursValue = "x" ∧ FriValue = "x"))
  ∧ (checkForWeekdayPlan str_of_float sheet row colCycle = Ok false
     ↔ ¬ ((ThursValue = "X" ∧ FriValue = "X") ∨ (ThursValue = "x" ∧ FriValue = "x")))
  ∧ (checkForWeekdayPlan str_of_float sheet row colCycle = Ok false →
     (∃ c, firstColumn ≤ c < colPhaseData0
           ∧ nonBlankAt str_of_float sheet row c = true) →
     ∃ timing',
       setTimes str_of_float readClockTimes sheet firstColumn colPhaseData0
                row colCycle timing = Ok timing'
       ∧ startTime timing' = mkTime 23 59 ∧ endTime timing' = mkTime 23 59).
Proof.
  intros Ht Hf Hcols ThursValue FriValue.
  pose proof (checkForWeekdayPlan_value str_of_float sheet row colCycle thurs fri Ht Hf)
    as Hvalue. cbv zeta in Hvalue. fold ThursValue FriValue in Hvalue.
  split; [|split].
  - rewrite Hvalue.
    split; [intros [= H]; by apply bool_decide_eq_true in H
           | intros H; f_equal; by apply bool_decide_eq_true].
  - rewrite Hvalue.
    split; [intros [= H]; by apply bool_decide_eq_false in H
           | intros H; f_equal; by apply bool_decide_eq_false].
  - intros Hcheck (c & Hc & Hnb). unfold setTimes.
    destruct (setTimes_loop_not_weekday str_of_float sheet row colCycle readClockTimes
                (range firstColumn colPhaseData0) Hcheck)
      with (fl := {| hasAllOtherTimes := false; gotStartTime := false;
                     gotStartTime2 := false |}) (timing := timing)
      as (fl' & ->).
    { apply Forall_forall. intros c' Hc'. apply Hcols.
      unfold range in Hc'. apply elem_of_seqZ in Hc'. lia. }
    simpl. eexists. split; [reflexivity|].
    assert (existsb (nonBlankAt str_of_float sheet row) (range firstColumn colPhaseData0)
            = true) as ->.
    { apply existsb_exists. exists c. split; [|done].
      apply list_elem_of_In. unfold range. apply elem_of_seqZ. lia. }
    done.
Qed.

Lemma weekday_gate_witness :
  ∃ timing',
    setTimes Exact.str_of_float noClockTimes mixedCaseSheet 0 3 5 3 morningPeak
    = Ok timing'
    ∧ startTime timing' = mkTime 23 59 ∧ endTime timing' = mkTime 23 59.
Proof.
  refine (proj2 (proj2 (weekday_gate Exact.str_of_float noClockTimes mixedCaseSheet
                          5 3 0 3 (CText "X") (CText "x") morningPeak _ _ _)) _ _).
  - reflexivity.
  - reflexivity.
  - intros c _. unfold mixedCaseSheet. by repeat destruct (_ =? _).
  - reflexivity.
  - exists 0. split; [lia | reflexivity].
Defined.

(** A case-insensitive gate fails twice: cells X and x, equal to X when
    case is ignored, do not make a weekday plan; and a row that is not a
    weekday plan and has no text in the scanned columns keeps the times its
    period had. *)
Lemma weekday_gate_counterexample :
  (upper (strip (py_str Exact.str_of_float (CText "X"))) = "X"
   ∧ upper (strip (py_str Exact.str_of_float (CText "x"))) = "X"
   ∧ checkForWeekdayPlan Exact.str_of_float mixedCaseSheet 5 3 = Ok false)
  ∧ (checkForWeekdayPlan Exact.str_of_float blankSheet 5 3 = Ok false
     ∧ setTimes Exact.str_of_float noClockTimes blankSheet 0 3 5 3 morningPeak
       = Ok morningPeak
     ∧ startTime morningPeak = mkTime 7 0).
Proof. repeat split. Qed.

(** ** Movement classification and iteration order *)

Import Classifier.


Lemma existsb_Permutation {A} (f : A → bool) l l' :
  l ≡ₚ l' → existsb f l = existsb f l'.
Proof.
  induction 1 as [|x l l' _ IH|x y l|l1 l2 l3 _ IH1 _ IH2]; simpl.
  - done.
  - by rewrite IH.
  - destruct (f x), (f y); done.
  - by rewrite IH1.
Qed.

Lemma appendOnFirstHit_existsb gMovName dir dirIndicators result0 :
  appendOnFirstHit gMovName dir dirIndicators result0 =
  dirEntry result0 (dirSummary gMovName (dir, dirIndicators)).
Proof.
  unfold dirEntry, dirSummary. simpl.
  induction dirIndicators as [|indicator rest IH]; simpl; [done|].
  by destruct (directionHit gMovName indicator).
Qed.

(** [getDirections] reads each entry through its summary only. *)
Lemma getDirections_items_summary items gMovName :
  getDirections_items items gMovName =
  foldl dirEntry [] (dirSummary gMovName <$> items).
Proof.
  unfold getDirections_items. generalize (@nil string).
  induction items as [|[dir inds] items IH]; intros result0; simpl; [done|].
  by rewrite appendOnFirstHit_existsb, IH.
Qed.

Lemma copies_add k1 k2 dir :
  copies (k1 + k2) dir = (copies k1 dir ++ copies k2 dir)%list.
Proof. unfold copies. by rewrite replicate_add, concat_app. Qed.

Lemma copies_1 dir : copies 1 dir = dir.
Proof. unfold copies. simpl. by rewrite app_nil_r. Qed.

Lemma copies_snoc k dir : (copies k dir ++ dir)%list = copies (S k) dir.
Proof.
  replace (S k) with (k + 1)%nat by lia. by rewrite copies_add, copies_1.
Qed.

Lemma turnType_body_right gMovName addRightToThru indicator result0 thruadded :
  turnType_body gMovName addRightToThru TURN_RIGHT (result0, thruadded) indicator =
  ((result0 ++ copies ((if contains indicator gMovName then 1 else 0)
                       + (if thruadded && addRightToThru then 1 else 0))
                      TURN_RIGHT)%list,
   thruadded).
Proof.
  unfold turnType_body. cbn [fst snd].
  replace (bool_decide (TURN_RIGHT = TURN_THRU)) with false by reflexivity.
  replace (bool_decide (TURN_RIGHT = TURN_RIGHT)) with true by reflexivity.
  destruct (contains indicator gMovName), thruadded, addRightToThru; cbn [fst snd andb];
    rewrite ?copies_add, ?copies_1; unfold copies; simpl;
    rewrite ?app_nil_r, <- ?app_assoc; reflexivity.
Qed.

Lemma turnType_body_other gMovName addRightToThru dir indicator result0 thruadded :
  dir ≠ TURN_RIGHT →
  turnType_body gMovName addRightToThru dir (result0, thruadded) indicator =
  ((result0 ++ copies (if contains indicator gMovName then 1 else 0) dir)%list,
   thruadded || (bool_decide (dir = TURN_THRU) && contains indicator gMovName)).
Proof.
  intros Hdir. unfold turnType_body. cbn [fst snd].
  rewrite (bool_decide_eq_false_2 _ Hdir).
  destruct (contains indicator gMovName); cbn [fst snd andb].
  - rewrite copies_1, andb_true_r.
    by destruct (bool_decide (dir = TURN_THRU)), thruadded.
  - unfold copies. simpl. by rewrite app_nil_r, andb_false_r, orb_false_r.
Qed.

(** The inner loop of [groupMovementToTurnType] only adds copies of the
    codes of its entry: as many as indicators occur in the label, plus one
    per indicator when the entry is RIGHT and THRU was seen before. *)
Lemma turnType_fold gMovName addRightToThru dir inds st :
  foldl (turnType_body gMovName addRightToThru dir) st inds =
  turnEntry addRightToThru st (turnSummary gMovName (dir, inds)).
Proof.
  unfold turnEntry, turnSummary, hits. cbn [fst snd]. revert st.
  destruct (decide (dir = TURN_RIGHT)) as [->|Hdir].
  - replace (bool_decide (TURN_RIGHT = TURN_THRU)) with false by reflexivity.
    replace (bool_decide (TURN_RIGHT = TURN_RIGHT)) with true by reflexivity.
    induction inds as [|indicator inds IH]; intros [result0 thruadded];
      cbn [foldl].
    + cbn. rewrite orb_false_r. f_equal.
      destruct (thruadded && addRightToThru); by rewrite app_nil_r.
    + rewrite turnType_body_right, IH. cbn [fst snd andb orb length].
      rewrite filter_cons. rewrite !orb_false_r. f_equal.
      rewrite <- app_assoc, <- copies_add. do 2 f_equal.
      destruct (contains indicator gMovName), (thruadded && addRightToThru);
        repeat case_decide; try done; simpl; lia.
  - rewrite (bool_decide_eq_false_2 _ Hdir). cbn [andb].
    induction inds as [|indicator inds IH]; intros [result0 thruadded];
      cbn [foldl].
    + cbn. by rewrite app_nil_r, andb_false_r, orb_false_r.
    + rewrite (turnType_body_other _ _ _ _ _ _ Hdir), IH. cbn [fst snd].
      rewrite filter_cons. rewrite <- app_assoc, <- copies_add.
      destruct (contains indicator gMovName); repeat case_decide; try done;
        cbn [length]; rewrite ?Nat.add_0_r, ?Nat.add_0_l, ?andb_false_r, ?orb_false_r;
        try done.
      f_equal. destruct (bool_decide (dir = TURN_THRU)), thruadded; cbn; try done.
      all: by destruct (0 <? _)%nat.
Qed.

(** [groupMovementToTurnType] reads each entry through its summary only. *)
Lemma groupMovementToTurnType_items_summary items gMovName addRightToThru :
  groupMovementToTurnType_items items gMovName addRightToThru =
  (foldl (turnEntry addRightToThru) ([], false) (turnSummary gMovName <$> items)).1.
Proof.
  unfold groupMovementToTurnType_items. f_equal.
  generalize (@nil string, false).
  induction items as [|[dir inds] items IH]; intros st; simpl; [done|].
  by rewrite turnType_fold, IH.
Qed.

(** Reordering a dictionary permutes the summaries of its entries. *)
Lemma reordered_summary {K S} (summary : K * list string → S)
    (items items' : list (K * list string)) :
  (∀ e e', e.1 = e'.1 → e.2 ≡ₚ e'.2 → summary e = summary e') →
  reordered items items' →
  summary <$> items ≡ₚ summary <$> items'.
Proof.
  intros Hsummary (mid & Hmid & Hperm). rewrite <- Hperm. clear Hperm.
  induction Hmid as [|e e' items mid [Hkey Hinds] _ IH]; simpl; [done|].
  rewrite (Hsummary e e' Hkey Hinds). by apply perm_skip.
Qed.

Lemma dirSummary_reorder gMovName (e e' : string * list string) :
  e.1 = e'.1 → e.2 ≡ₚ e'.2 → dirSummary gMovName e = dirSummary gMovName e'.
Proof.
  intros Hkey Hinds. unfold dirSummary.
  by rewrite Hkey, (existsb_Permutation _ _ _ Hinds).
Qed.

Lemma turnSummary_reorder gMovName (e e' : list string * list string) :
  e.1 = e'.1 → e.2 ≡ₚ e'.2 → turnSummary gMovName e = turnSummary gMovName e'.
Proof.
  intros Hkey Hinds. unfold turnSummary, hits. by rewrite Hkey, Hinds.
Qed.



Lemma reordered_refl {K} (items : list (K * list string)) : reordered items items.
Proof.
  exists items. split; [|done].
  induction items; constructor; [done | assumption].
Qed.







(** ** Command-line guard *)

Import Main.

(** C9, as the code has it: the usage message and exit code 2 come
    whenever fewer than five positional arguments are given ([sys.argv],
    which counts the script name, is shorter than 6); with five or more
    the guard lets the process go on and prints nothing. *)
Theorem checkArguments_spec (argv : list string) :
  ((length (positional argv) < 5)%nat →
   checkArguments argv = ([USAGE], Raise (SystemExit 2)))
  ∧ ((5 ≤ length (positional argv))%nat → checkArguments argv = ([], Ok ())).
Proof.
  unfold checkArguments, positional.
  destruct argv as [|script args]; simpl.
  - split; [done | lia].
  - split; intros H.
    + destruct (Nat.ltb_spec (S (length args)) 6); [done | lia].
    + destruct (Nat.ltb_spec (S (length args)) 6); [lia | done].
Qed.

Lemma checkArguments_spec_witness :
  checkArguments ["importExcelSignals.py"; "."; "sf"; "cards"]
  = ([USAGE], Raise (SystemExit 2))
  ∧ checkArguments ["importExcelSignals.py"; "."; "sf"; "cards"; "15:30"; "18:30"]
    = ([], Ok ()).
Proof.
  split.
  - apply (proj1 (checkArguments_spec _)). simpl. lia.
  - apply (proj2 (checkArguments_spec _)). simpl. lia.
Defined.

(** With exactly five positional arguments, fewer than six, the guard
    does not exit. *)
Lemma checkArguments_five_positional :
  ¬ (∀ argv : list string,
       (length (positional argv) < 6)%nat →
       checkArguments argv = ([USAGE], Raise (SystemExit 2))).
Proof.
  intros H.
  specialize (H ["importExcelSignals.py"; "."; "sf"; "cards"; "15:30"; "18:30"]).
  simpl in H. discriminate H. lia.
Qed.

(** ** Filling the blanks of a state row *)

Lemma getitem_lookup {A} (l : list A) i x : l !! i = Some x → getitem l i = Ok x.
Proof. unfold getitem. by intros ->. Qed.

Lemma getitem_lt {A} (l : list A) i :
  (i < length l)%nat → ∃ x, l !! i = Some x ∧ getitem l i = Ok x.
Proof.
  intros H. destruct (lookup_lt_is_Some_2 l i H) as [x Hx].
  exists x. split; [done | by apply getitem_lookup].
Qed.

Section FillForward.

Variable orig : list string.

Lemma forwardInv_start : forwardInv orig 0 orig.
Proof.
  split; [done|]. split; [done|].
  intros j k Hjk Hk Hj. by replace k with j by lia.
Qed.

Lemma fillForward_body_inv i cur :
  (S i < length orig)%nat → forwardInv orig i cur →
  ∃ cur', fillForward_body cur (S i) = Ok cur' ∧ forwardInv orig (S i) cur'.
Proof.
  intros Hi (Hlen & Hafter & Hfilled). unfold fillForward_body.
  destruct (getitem_lt cur (S i)) as (a & Ha & ->); [lia|].
  destruct (getitem_lt cur i) as (b & Hb & Hgb); [lia|].
  simpl. replace (i - 0)%nat with i by lia.
  assert (Hkeep : (a ≠ "" ∨ b = "") → forwardInv orig (S i) cur).
  { intros Hab. split; [done|]. split; [intros k Hk; apply Hafter; lia|].
    intros j k Hjk Hk Hj.
    destruct (decide (k = S i)) as [->|Hne]; [|apply (Hfilled j); [done|lia|done]].
    destruct (decide (j = S i)) as [->|Hnej].
    - destruct Hj as (x & Hx & Hxne). exists x. split; [|done].
      rewrite Hafter by lia. done.
    - assert (filledAt cur i) as (x & Hx & Hxne) by (apply (Hfilled j); [lia|lia|done]).
      rewrite Hb in Hx. inversion Hx; subst x.
      destruct Hab as [Hane|Hbe]; [|done]. by exists a. }
  destruct (String.eqb_spec a "") as [->|Hane].
  - rewrite Hgb. simpl. destruct (String.eqb_spec b "") as [->|Hbne]; simpl.
    + eexists; split; [done|]. apply Hkeep. by right.
    + eexists; split; [done|]. split; [by rewrite length_insert|].
      split.
      * intros k Hk. rewrite list_lookup_insert_ne by lia. apply Hafter. lia.
      * intros j k Hjk Hk Hj.
        destruct (decide (k = S i)) as [->|Hne].
        -- exists b. split; [|done]. apply list_lookup_insert_eq. lia.
        -- destruct (Hfilled j k) as (x & Hx & Hxne); [done|lia|done|].
           exists x. split; [|done]. by rewrite list_lookup_insert_ne by lia.
  - simpl. eexists; split; [done|]. apply Hkeep. by left.
Qed.

Lemma fillForward_steps len start cur :
  (start + len < length orig)%nat ∨ len = 0%nat →
  forwardInv orig start cur →
  ∃ cur', for_each (seq (S start) len) fillForward_body cur = Ok cur'
          ∧ forwardInv orig (start + len) cur'.
Proof.
  revert start cur. induction len as [|len IH]; intros start cur Hlen Hinv; simpl.
  - exists cur. by rewrite Nat.add_0_r.
  - destruct Hlen as [Hlen|]; [|done].
    destruct (fillForward_body_inv start cur) as (cur1 & -> & Hinv1); [lia|done|].
    simpl. destruct (IH (S start) cur1) as (cur' & Hrun & Hinv'); [left; lia|done|].
    exists cur'. split; [done|]. by replace (start + S len)%nat with (S start + len)%nat by lia.
Qed.

End FillForward.

(** The forward pass never leaves the row and propagates non-blank cells
    to the end. *)
Lemma fillForward_last (phaseInfo : list string) :
  hasState phaseInfo →
  ∃ filled, fillForward phaseInfo = Ok filled
            ∧ length filled = length phaseInfo
            ∧ filledAt filled (length phaseInfo - 1).
Proof.
  intros (x & Hin & Hx). apply list_elem_of_lookup in Hin as [j Hj].
  pose proof (lookup_lt_Some _ _ _ Hj) as Hjlt.
  unfold fillForward.
  destruct (fillForward_steps phaseInfo (length phaseInfo - 1) 0 phaseInfo)
    as (filled & Hrun & Hlen & _ & Hfilled).
  { left. lia. }
  { apply forwardInv_start. }
  exists filled. split; [done|]. split; [done|].
  apply (Hfilled j); [lia|lia|]. by exists x.
Qed.

(** The backward pass stays in range as soon as the last cell is not
    blank. *)
Lemma fillBackward_in_range (filled : list string) :
  filledAt filled (length filled - 1) →
  ∃ result0, fillBackward filled = Ok result0.
Proof.
  intros Hlast. unfold fillBackward.
  set (n := length filled).
  destruct (for_each_total fillBackward_body
              (λ cur, length cur = n ∧ filledAt cur (n - 1))
              (λ i, (i < n)%nat) (rev (seq 0 n))) with (s := filled)
    as (result0 & Hrun & _); [| |done|by exists result0].
  - intros cur i Hi (Hlen & x & Hx & Hxne). unfold fillBackward_body.
    destruct (getitem_lt cur i) as (a & Ha & ->); [lia|]. simpl.
    destruct (String.eqb_spec a "") as [->|Hane]; [|by eexists; split; [done|]; split; [|exists x]].
    assert (i ≠ (n - 1)%nat) as Hne by (intros ->; congruence).
    destruct (getitem_lt cur (i + 1)) as (b & Hb & ->); [lia|]. simpl.
    destruct (String.eqb_spec b ""); simpl.
    + eexists; split; [done|]. split; [done | by exists x].
    + eexists; split; [done|]. split; [by rewrite length_insert|].
      exists x. split; [|done]. by rewrite list_lookup_insert_ne.
  - apply Forall_forall. intros i Hi. apply list_elem_of_In in Hi.
    apply in_rev, in_seq in Hi. lia.
Qed.

Lemma not_all_blank_hasState (l : list string) :
  l ≠ replicate (length l) "" → hasState l.
Proof.
  induction l as [|x l IH]; simpl; [done|].
  intros H. destruct (decide (x = "")) as [->|Hx].
  - destruct IH as (y & Hy & Hne); [congruence|].
    exists y. split; [by right | done].
  - exists x. split; [by left | done].
Qed.

(** C10: [fillPhaseInfo] stays in range on every row with a non-blank
    cell: the forward pass leaves the last cell non-blank, so the read of
    [phaseInfo[i + 1]] at the last index is never evaluated; and every row
    that [getPhasingData] keeps, and later passes to [fillPhaseInfo] under
    the index of its movement name, has such a cell, the blank rows being
    dropped when they are read. *)
Theorem fillPhaseInfo_in_range :
  (∀ phaseInfo : list string,
     hasState phaseInfo →
     ∃ filled result0,
       fillForward phaseInfo = Ok filled
       ∧ filledAt filled (length filled - 1)
       ∧ fillPhaseInfo phaseInfo = Ok result0)
  ∧ (∀ D str_of_float (sheet : Sheet D) (startY colPhaseData0 lastCol : Z)
       (rowIndices : list Z) movementNames phasingData0,
       for_each rowIndices
                (getPhasingData_row str_of_float sheet startY colPhaseData0 lastCol)
                ([], []) = Ok (movementNames, phasingData0) →
       length movementNames = length phasingData0
       ∧ Forall (λ row, hasState row ∧ is_ok (fillPhaseInfo row) = true)
                phasingData0).
Proof.
  assert (Hfill : ∀ phaseInfo : list string,
             hasState phaseInfo →
             ∃ filled result0,
               fillForward phaseInfo = Ok filled
               ∧ filledAt filled (length filled - 1)
               ∧ fillPhaseInfo phaseInfo = Ok result0).
  { intros phaseInfo Hstate.
    destruct (fillForward_last phaseInfo Hstate) as (filled & Hfwd & Hlen & Hlast).
    rewrite <- Hlen in Hlast.
    destruct (fillBackward_in_range filled Hlast) as (result0 & Hbwd).
    exists filled, result0. split; [done|]. split; [done|].
    unfold fillPhaseInfo. by rewrite Hfwd. }
  split; [exact Hfill|].
  intros D sof sheet startY c0 c1 rowIndices names rows Hrun.
  apply (for_each_preserves _
           (λ st : list string * list (list string),
              length st.1 = length st.2
              ∧ Forall (λ row, hasState row ∧ is_ok (fillPhaseInfo row) = true) st.2)
           _) in Hrun; [done| |by split; [|constructor]].
  intros st i st' [Hlen Hst]. unfold getPhasingData_row.
  destruct (cell_value sheet i startY) as [v|]; simpl; [|done].
  destruct (skippedMovement _); [by intros [= <-]|].
  destruct (readStates _ _ _ _ _) as [[row|]|]; simpl; [|by intros [= <-]|done].
  case_bool_decide as Hblank; [by intros [= <-]|].
  intros [= <-]. simpl. split; [rewrite !length_app; simpl; lia|].
  apply Forall_app. split; [done|].
  constructor; [|done].
  pose proof (not_all_blank_hasState row Hblank) as Hstate.
  split; [done|]. destruct (Hfill row Hstate) as (? & ? & _ & _ & ->). done.
Qed.

Lemma fillPhaseInfo_in_range_witness :
  ∃ filled result0,
    fillForward [""; "G"; ""; "Y"; "R"; ""; ""] = Ok filled
    ∧ filledAt filled (length filled - 1)
    ∧ fillPhaseInfo [""; "G"; ""; "Y"; "R"; ""; ""] = Ok result0.
Proof.
  apply (proj1 fillPhaseInfo_in_range).
  exists "G". split; [|done]. apply list_elem_of_further, list_elem_of_here.
Defined.

(** The guard matters: on a row that is entirely blank the backward pass
    reads past the end. *)
Lemma fillPhaseInfo_blank_row : fillPhaseInfo [""; ""; ""] = Raise IndexError.
Proof. reflexivity. Qed.

(** * Further properties *)

From Stdlib Require Lqa.

(** ** Locating the sections of a card *)

Section LocatorFacts.

Context {D : Type} (str_of_float : D → string).

Lemma firstNonBlank_spec (sheet : Sheet D) cells :
  match firstNonBlank str_of_float sheet cells with
  | Ok c => ∃ pre post, cells = (pre ++ c :: post)%list
                        ∧ nonBlankAt str_of_float sheet c.1 c.2 = true
                        ∧ Forall (blankAt str_of_float sheet) pre
  | Raise e =>
    (e = ParsingCardError ∧ Forall (blankAt str_of_float sheet) cells)
    ∨ (e = IndexError
       ∧ ∃ pre c post, cells = (pre ++ c :: post)%list ∧ missingAt sheet c
                       ∧ Forall (blankAt str_of_float sheet) pre)
  end.
Proof.
  induction cells as [|[i j] rest IH]; simpl.
  - left. by split.
  - unfold cell_value. destruct (sheet i j) as [v|] eqn:Hv; simpl.
    + destruct (String.eqb_spec (strip (py_str str_of_float v)) "") as [Hb|Hb]; simpl.
      * assert (blankAt str_of_float sheet (i, j)) as Hblank by (by exists v).
        destruct (firstNonBlank str_of_float sheet rest) as [c|e].
        -- destruct IH as (pre & post & -> & Hc & Hpre).
           exists ((i, j) :: pre), post. split; [done|]. split; [done|].
           by constructor.
        -- destruct IH as [[-> Hall]|[-> (pre & c & post & -> & Hc & Hpre)]].
           ++ left. split; [done|]. by constructor.
           ++ right. split; [done|]. exists ((i, j) :: pre), c, post.
              split; [done|]. split; [done|]. by constructor.
      * exists [], rest. split; [done|]. split; [|constructor].
        unfold nonBlankAt. simpl. rewrite Hv.
        by destruct (String.eqb_spec (strip (py_str str_of_float v)) "").
    + right. split; [done|]. exists [], (i, j), rest.
      split; [done|]. split; [done|constructor].
Qed.

End LocatorFacts.

Lemma visitedBeforeb_spec a b : visitedBeforeb a b = true ↔ visitedBefore a b.
Proof. unfold visitedBeforeb, visitedBefore. destruct a, b; simpl. lia. Qed.

Lemma visitedInOrder_split cells pre c post x :
  visitedInOrder cells = true → cells = (pre ++ c :: post)%list →
  x ∈ cells → visitedBefore x c → x ∈ pre.
Proof.
  intros Hsorted -> Hx Hbefore. revert Hsorted Hx.
  induction pre as [|p pre IH]; simpl; intros Hsorted Hx.
  - apply andb_true_iff in Hsorted as [Hall _].
    apply elem_of_cons in Hx as [->|Hx].
    + unfold visitedBefore in Hbefore. lia.
    + rewrite forallb_forall in Hall. apply list_elem_of_In in Hx.
      apply Hall, visitedBeforeb_spec in Hx.
      unfold visitedBefore in *. lia.
  - apply andb_true_iff in Hsorted as [_ Hrest].
    apply elem_of_cons in Hx as [->|Hx]; [apply list_elem_of_here|].
    apply list_elem_of_further. by apply IH.
Qed.

Lemma topLeftWindow_inWindow c : c ∈ topLeftWindow ↔ inWindow c.
Proof.
  destruct c as [i j]. unfold topLeftWindow, inWindow.
  rewrite list_elem_of_bind. split.
  - intros (i' & Hj & Hi). apply list_elem_of_bind in Hj as (j' & Hc & Hj).
    apply list_elem_of_singleton in Hc as [= -> ->].
    apply elem_of_seqZ in Hi, Hj. unfold MAX_RANGE in *. simpl. lia.
  - intros [Hi Hj]. unfold MAX_RANGE in *. simpl in Hi, Hj.
    exists i. split; [|apply elem_of_seqZ; lia].
    apply list_elem_of_bind. exists j. split; [apply list_elem_of_here|].
    apply elem_of_seqZ. lia.
Qed.

(** X1: [findTopLeftCell] returns the first cell, in the order of its two
    loops over the 10 x 10 window, that holds more than white space; it
    raises [ParsingCardError] when the hundred cells are blank, and the
    [IndexError] of the reader when the window leaves the sheet before a
    non-blank cell is met. *)
Theorem findTopLeftCell_spec {D} (str_of_float : D → string) (sheet : Sheet D) :
  match findTopLeftCell str_of_float sheet with
  | Ok c =>
    inWindow c ∧ nonBlankAt str_of_float sheet c.1 c.2 = true
    ∧ ∀ c', inWindow c' → visitedBefore c' c → blankAt str_of_float sheet c'
  | Raise e =>
    (e = ParsingCardError ∧ ∀ c', inWindow c' → blankAt str_of_float sheet c')
    ∨ (e = IndexError
       ∧ ∃ c, inWindow c ∧ missingAt sheet c
              ∧ ∀ c', inWindow c' → visitedBefore c' c → blankAt str_of_float sheet c')
  end.
Proof.
  unfold findTopLeftCell.
  pose proof (firstNonBlank_spec str_of_float sheet topLeftWindow) as Hspec.
  assert (Hsorted : visitedInOrder topLeftWindow = true) by (vm_compute; reflexivity).
  assert (Hbefore : ∀ pre c post, topLeftWindow = (pre ++ c :: post)%list →
             Forall (blankAt str_of_float sheet) pre →
             inWindow c ∧ ∀ c', inWindow c' → visitedBefore c' c →
                                blankAt str_of_float sheet c').
  { intros pre c post Hsplit Hpre. split.
    - apply topLeftWindow_inWindow. rewrite Hsplit.
      apply elem_of_app. right. apply list_elem_of_here.
    - intros c' Hin Hlt. rewrite Forall_forall in Hpre. apply Hpre.
      eapply visitedInOrder_split; [exact Hsorted|exact Hsplit| |done].
      by apply topLeftWindow_inWindow. }
  destruct (firstNonBlank str_of_float sheet topLeftWindow) as [c|e].
  - destruct Hspec as (pre & post & Hsplit & Hc & Hpre).
    destruct (Hbefore pre c post Hsplit Hpre) as [Hin Hall]. done.
  - destruct Hspec as [[-> Hall]|[-> (pre & c & post & Hsplit & Hc & Hpre)]].
    + left. split; [done|]. intros c' Hin. rewrite Forall_forall in Hall.
      by apply Hall, topLeftWindow_inWindow.
    + right. split; [done|]. exists c.
      destruct (Hbefore pre c post Hsplit Hpre) as [Hin Hall]. done.
Qed.

Section ColumnScan.

Context {D : Type} (str_of_float : D → string).
Variable test : string → bool.
Variable sheet : Sheet D.
Variable anchor : Z * Z.

Local Abbreviation testCell := (λ v : cell D, test (py_str str_of_float v)).

(** The scan of the rows [a], [a + 1], ... of the anchor column. *)
Lemma scanColumn_from (len : nat) (a : Z) :
  match scanColumn str_of_float test sheet anchor (seqZ a (Z.of_nat len)) with
  | Found cell0 =>
    ∃ row, a ≤ row < a + Z.of_nat len ∧ cell0 = (anchor.1 + row, anchor.2)
           ∧ meetsAt testCell sheet cell0
           ∧ ∀ r, a ≤ r < row → failsAt testCell sheet (anchor.1 + r, anchor.2)
  | RanOut =>
    ∃ row, a ≤ row < a + Z.of_nat len ∧ missingAt sheet (anchor.1 + row, anchor.2)
           ∧ ∀ r, a ≤ r < row → failsAt testCell sheet (anchor.1 + r, anchor.2)
  | NotFound =>
    ∀ r, a ≤ r < a + Z.of_nat len → failsAt testCell sheet (anchor.1 + r, anchor.2)
  end.
Proof.
  revert a. induction len as [|len IH]; intros a.
  - simpl. intros r Hr. lia.
  - rewrite Nat2Z.inj_succ, seqZ_cons by lia. simpl.
    replace (Z.pred (Z.succ (Z.of_nat len))) with (Z.of_nat len) by lia.
    unfold cell_value. destruct (sheet (anchor.1 + a) anchor.2) as [v|] eqn:Hv; simpl.
    + destruct (test (py_str str_of_float v)) eqn:Ht.
      * exists a. split; [lia|]. split; [done|]. split; [by exists v|].
        intros r Hr. lia.
      * assert (failsAt testCell sheet (anchor.1 + a, anchor.2)) as Hfail by (by exists v).
        specialize (IH (Z.succ a)).
        destruct (scanColumn str_of_float test sheet anchor
                    (seqZ (Z.succ a) (Z.of_nat len))) as [cell0| |].
        -- destruct IH as (row & Hrow & -> & Hmeets & Hbefore).
           exists row. split; [lia|]. split; [done|]. split; [done|].
           intros r Hr. destruct (decide (r = a)) as [->|Hne]; [done|].
           apply Hbefore. lia.
        -- destruct IH as (row & Hrow & Hmiss & Hbefore).
           exists row. split; [lia|]. split; [done|].
           intros r Hr. destruct (decide (r = a)) as [->|Hne]; [done|].
           apply Hbefore. lia.
        -- intros r Hr. destruct (decide (r = a)) as [->|Hne]; [done|].
           apply IH. lia.
    + exists a. split; [lia|]. split; [done|]. intros r Hr. lia.
Qed.

Lemma scanColumn_spec (n : nat) :
  match scanColumn str_of_float test sheet anchor (range 0 (Z.of_nat n)) with
  | Found cell0 => firstHit str_of_float test sheet anchor (Z.of_nat n) cell0
  | RanOut => cutShort str_of_float test sheet anchor (Z.of_nat n)
  | NotFound => noHit str_of_float test sheet anchor (Z.of_nat n)
  end.
Proof.
  unfold range. replace (Z.of_nat n - 0) with (Z.of_nat n) by lia.
  pose proof (scanColumn_from n 0) as H.
  destruct (scanColumn _ _ _ _ _) as [cell0| |]; unfold firstHit, cutShort, noHit.
  - destruct H as (row & Hrow & Hc & Hm & Hb). exists row.
    split; [lia|]. split; [done|]. split; [done|]. intros r Hr. apply Hb. lia.
  - destruct H as (row & Hrow & Hm & Hb). exists row.
    split; [lia|]. split; [done|]. intros r Hr. apply Hb. lia.
  - intros r Hr. apply H. lia.
Qed.

End ColumnScan.

(** X2: on a sheet whose text cells are ASCII, [findStreet],
    [findSignalIntervals] and [findPedestrianPhase] scan the anchor column
    downwards over 40, 80 and 60 rows and return the first cell whose text
    meets their keyword test.  When the column ends before such a cell the
    three return [None]; when none of the rows meets the test the first
    two raise [ParsingCardError] and the third returns [None].  No other
    exception leaves them on such a sheet. *)
Theorem columnScans_spec {D} (str_of_float : D → string) (sheet : Sheet D)
    (topLeftCell0 : Z * Z) :
  asciiSheet sheet →
  match findStreet str_of_float sheet topLeftCell0 with
  | Ok (Some cell0) => firstHit str_of_float isStreetKeyword sheet topLeftCell0 40 cell0
  | Ok None => cutShort str_of_float isStreetKeyword sheet topLeftCell0 40
  | Raise e => e = ParsingCardError
               ∧ noHit str_of_float isStreetKeyword sheet topLeftCell0 40
  end
  ∧ match findSignalIntervals str_of_float sheet topLeftCell0 with
    | Ok (Some cell0) =>
      firstHit str_of_float isIntervalKeyword sheet topLeftCell0 80 cell0
    | Ok None => cutShort str_of_float isIntervalKeyword sheet topLeftCell0 80
    | Raise e => e = ParsingCardError
                 ∧ noHit str_of_float isIntervalKeyword sheet topLeftCell0 80
    end
  ∧ match findPedestrianPhase str_of_float sheet topLeftCell0 with
    | Some cell0 =>
      firstHit str_of_float isPedestrianKeyword sheet topLeftCell0 60 cell0
    | None => cutShort str_of_float isPedestrianKeyword sheet topLeftCell0 60
              ∨ noHit str_of_float isPedestrianKeyword sheet topLeftCell0 60
    end.
Proof.
  intros _. unfold findStreet, findSignalIntervals, findPedestrianPhase.
  pose proof (scanColumn_spec str_of_float isStreetKeyword sheet topLeftCell0 40) as H1.
  pose proof (scanColumn_spec str_of_float isIntervalKeyword sheet topLeftCell0 80) as H2.
  pose proof (scanColumn_spec str_of_float isPedestrianKeyword sheet topLeftCell0 60) as H3.
  change (Z.of_nat 40) with 40 in H1. change (Z.of_nat 80) with 80 in H2.
  change (Z.of_nat 60) with 60 in H3.
  split; [|split].
  - by destruct (scanColumn _ isStreetKeyword _ _ _).
  - by destruct (scanColumn _ isIntervalKeyword _ _ _).
  - destruct (scanColumn _ isPedestrianKeyword _ _ _); [done|by left|by right].
Qed.

Lemma columnScans_spec_witness :
  asciiSheet Samples.phasingSheet
  ∧ firstHit Exact.str_of_float isStreetKeyword Samples.phasingSheet (0, 0) 40 (0, 0)
  ∧ firstHit Exact.str_of_float isIntervalKeyword Samples.phasingSheet (0, 0) 80 (3, 0)
  ∧ noHit Exact.str_of_float isPedestrianKeyword Samples.phasingSheet (0, 0) 60.
Proof.
  assert (asciiSheet Samples.phasingSheet) as Hascii.
  { intros r c s H. unfold Samples.phasingSheet in H.
    repeat match type of H with
           | context [if ?b then _ else _] => destruct b
           end; by simplify_eq. }
  split; [exact Hascii|].
  pose proof (columnScans_spec Exact.str_of_float Samples.phasingSheet (0, 0) Hascii)
    as (Hstreet & Hintervals & Hped).
  replace (findStreet Exact.str_of_float Samples.phasingSheet (0, 0))
    with (Ok (Some (0, 0)) : result (option (Z * Z))) in Hstreet
    by (vm_compute; reflexivity).
  replace (findSignalIntervals Exact.str_of_float Samples.phasingSheet (0, 0))
    with (Ok (Some (3, 0)) : result (option (Z * Z))) in Hintervals
    by (vm_compute; reflexivity).
  replace (findPedestrianPhase Exact.str_of_float Samples.phasingSheet (0, 0))
    with (None : option (Z * Z)) in Hped by (vm_compute; reflexivity).
  split; [exact Hstreet|]. split; [exact Hintervals|].
  destruct Hped as [Hcut|Hno]; [|exact Hno].
  destruct Hcut as (row & _ & Hmiss & _). discriminate Hmiss.
Defined.

Section FirstColumn.

Context {D : Type} (float_eqb : D → D → bool) (float_of_int : Z → D).
Variable sheet : Sheet D.
Variable startX : Z.

Local Abbreviation one := (isOne float_eqb float_of_int).

Lemma firstColumnOfOne_from (len : nat) (a : Z) :
  match firstColumnOfOne float_eqb float_of_int sheet startX (seqZ a (Z.of_nat len)) with
  | Ok col =>
    a ≤ col < a + Z.of_nat len ∧ meetsAt one sheet (startX, col)
    ∧ ∀ c, a ≤ c < col → failsAt one sheet (startX, c)
  | Raise e =>
    (e = ParsingCardError
     ∧ ∀ c, a ≤ c < a + Z.of_nat len → failsAt one sheet (startX, c))
    ∨ (e = IndexError
       ∧ ∃ col, a ≤ col < a + Z.of_nat len ∧ missingAt sheet (startX, col)
                ∧ ∀ c, a ≤ c < col → failsAt one sheet (startX, c))
  end.
Proof.
  revert a. induction len as [|len IH]; intros a.
  - simpl. left. split; [done|]. intros c Hc. lia.
  - rewrite Nat2Z.inj_succ, seqZ_cons by lia. simpl.
    replace (Z.pred (Z.succ (Z.of_nat len))) with (Z.of_nat len) by lia.
    unfold cell_value. destruct (sheet startX a) as [v|] eqn:Hv; simpl.
    + destruct (isOne float_eqb float_of_int v) eqn:Ht.
      * split; [lia|]. split; [by exists v|]. intros c Hc. lia.
      * assert (failsAt one sheet (startX, a)) as Hfail by (by exists v).
        specialize (IH (Z.succ a)).
        destruct (firstColumnOfOne _ _ _ _ _) as [col|e].
        -- destruct IH as (Hcol & Hmeets & Hbefore).
           split; [lia|]. split; [done|].
           intros c Hc. destruct (decide (c = a)) as [->|Hne]; [done|].
           apply Hbefore. lia.
        -- destruct IH as [[-> Hall]|[-> (col & Hcol & Hmiss & Hbefore)]].
           ++ left. split; [done|].
              intros c Hc. destruct (decide (c = a)) as [->|Hne]; [done|].
              apply Hall. lia.
           ++ right. split; [done|]. exists col. split; [lia|]. split; [done|].
              intros c Hc. destruct (decide (c = a)) as [->|Hne]; [done|].
              apply Hbefore. lia.
    + right. split; [done|]. exists a. split; [lia|]. split; [done|].
      intros c Hc. lia.
Qed.

End FirstColumn.

(** X3: [getFirstColumnOfPhasingData] looks at the nine cells to the right
    of the STREET cell, in its row, and records the column of the first one
    equal to the number 1 (a text is never equal to it), leaving the other
    fields of the card as they are.  It raises [ParsingCardError] when the
    STREET cell is not known or none of the nine cells is 1, and the
    [IndexError] of the reader when the row ends before. *)
Theorem getFirstColumnOfPhasingData_spec {D} (float_eqb : D → D → bool)
    (float_of_int : Z → D) (sheet : Sheet D) (signalData : SignalData D) :
  match getFirstColumnOfPhasingData float_eqb float_of_int sheet signalData with
  | Ok signalData' =>
    ∃ startX startY col,
      phaseSeqCell signalData = Some (startX, startY)
      ∧ colPhaseData signalData' = Some col
      ∧ startY + 1 ≤ col ≤ startY + 9
      ∧ meetsAt (isOne float_eqb float_of_int) sheet (startX, col)
      ∧ (∀ c, startY + 1 ≤ c < col →
              failsAt (isOne float_eqb float_of_int) sheet (startX, c))
      ∧ topLeftCell signalData' = topLeftCell signalData
      ∧ phaseSeqCell signalData' = phaseSeqCell signalData
      ∧ sigInterCell signalData' = sigInterCell signalData
      ∧ lastColPhaseData signalData' = lastColPhaseData signalData
      ∧ signalTiming signalData' = signalTiming signalData
      ∧ phasingData signalData' = phasingData signalData
  | Raise e =>
    (e = ParsingCardError
     ∧ (phaseSeqCell signalData = None
        ∨ ∃ startX startY,
            phaseSeqCell signalData = Some (startX, startY)
            ∧ ∀ c, startY + 1 ≤ c ≤ startY + 9 →
                   failsAt (isOne float_eqb float_of_int) sheet (startX, c)))
    ∨ (e = IndexError
       ∧ ∃ startX startY col,
           phaseSeqCell signalData = Some (startX, startY)
           ∧ startY + 1 ≤ col ≤ startY + 9 ∧ missingAt sheet (startX, col)
           ∧ ∀ c, startY + 1 ≤ c < col →
                  failsAt (isOne float_eqb float_of_int) sheet (startX, c))
  end.
Proof.
  unfold getFirstColumnOfPhasingData.
  destruct (phaseSeqCell signalData) as [[startX startY]|] eqn:Hseq; simpl;
    [|left; split; [done|by left]].
  unfold range, NUM_COL_TO_SEARCH.
  replace (startY + 10 - (startY + 1)) with (Z.of_nat 9) by lia.
  pose proof (firstColumnOfOne_from float_eqb float_of_int sheet startX 9 (startY + 1)) as H.
  destruct (firstColumnOfOne _ _ _ _ _) as [col|e]; simpl.
  - destruct H as (Hcol & Hmeets & Hbefore).
    exists startX, startY, col. repeat (split; [done || lia|]). done.
  - destruct H as [[-> Hall]|[-> (col & Hcol & Hmiss & Hbefore)]].
    + left. split; [done|]. right. exists startX, startY. split; [done|].
      intros c Hc. apply Hall. lia.
    + right. split; [done|]. exists startX, startY, col.
      split; [done|]. split; [lia|]. done.
Qed.

(** ** Periods that cover the requested time span *)

Lemma Time_le_trans a b c : Time_le a b → Time_le b c → Time_le a c.
Proof. unfold Time_le. lia. Qed.

Lemma count_positive {A} (cond : A → bool) l (n0 : nat) :
  (n0 < foldl (λ n x, if cond x then S n else n) n0 l)%nat →
  ∃ x, x ∈ l ∧ cond x = true.
Proof.
  revert n0. induction l as [|y l IH]; simpl; intros n0 H; [lia|].
  destruct (cond y) eqn:Hy.
  - exists y. split; [apply list_elem_of_here|done].
  - destruct (IH n0 H) as (x & Hx & Hc). exists x.
    split; [by apply list_elem_of_further|done].
Qed.

Lemma returnFirst_is_Some {A} (cond : A → bool) l x :
  x ∈ l → cond x = true → is_Some (returnFirst cond l).
Proof.
  induction l as [|y l IH]; simpl; intros Hx Hc; [by apply elem_of_nil in Hx|].
  destruct (cond y) eqn:Hy; [by eexists|].
  apply elem_of_cons in Hx as [->|Hx]; [congruence|by apply IH].
Qed.

(** X4: when [checkNumberofTimes] counts a period for a time span whose
    start is not after its end, [selectCSO] returns for the same span the
    first period in force at the start of the span: it does not fall back
    on an all-other-times or a full-day period. *)
Theorem checkNumberofTimes_selectCSO {D} (card : SignalData D)
    (startTime0 endTime0 : Time) :
  Time_le startTime0 endTime0 →
  (0 < checkNumberofTimes card startTime0 endTime0)%nat →
  ∃ st, selectCSO card startTime0 endTime0 = Some st
        ∧ firstSuch (inForce startTime0) (iterSignalTiming card) st.
Proof.
  intros Hspan Hcount. unfold checkNumberofTimes in Hcount.
  apply (count_positive
           (λ st, Time_leb (startTime st) startTime0
                  && Time_leb endTime0 (endTime st)
                  && Time_ltb (startTime st) (endTime st))) in Hcount
    as (x & Hx & Hc).
  rewrite !andb_true_iff, !Time_leb_le, Time_ltb_lt in Hc.
  destruct Hc as [[Hstart Hend] Hlt].
  assert (inOperation startTime0 x = true) as Hop.
  { apply inOperation_inForce. split; [done|]. split; [|done].
    by eapply Time_le_trans. }
  destruct (returnFirst_is_Some _ _ _ Hx Hop) as [st Hst].
  exists st. unfold selectCSO. rewrite Hst. split; [done|].
  eapply returnFirst_Some_inv; [|exact Hst]. apply inOperation_inForce.
Qed.

Lemma checkNumberofTimes_selectCSO_witness :
  ∃ st, selectCSO (cardOf mainCrossGrid mainCrossTimes) (mkTime 7 30) (mkTime 8 30)
        = Some st
        ∧ firstSuch (inForce (mkTime 7 30))
                    (iterSignalTiming (cardOf mainCrossGrid mainCrossTimes)) st.
Proof.
  apply (checkNumberofTimes_selectCSO (cardOf mainCrossGrid mainCrossTimes)
           (mkTime 7 30) (mkTime 8 30)).
  - unfold Time_le. simpl. lia.
  - vm_compute. lia.
Defined.

(** ** Directions of a link *)

(** X5: a link and the link of the reverse orientation (180 degrees apart,
    both within [0, 360)) have opposite possible directions: north- or
    southbound first, east- or westbound second. *)
Theorem getPossibleLinkDirections_reverse (orientation : Q) :
  (0 <= orientation)%Q → (orientation < 180)%Q →
  getPossibleLinkDirections (orientation + 180)
  = opposite <$> getPossibleLinkDirections orientation
  ∧ getPossibleLinkDirections orientation
    = opposite <$> getPossibleLinkDirections (orientation + 180)
  ∧ length (getPossibleLinkDirections orientation) = 2%nat.
Proof.
  intros H0 H180. unfold getPossibleLinkDirections.
  assert (Hb : ∀ a b : Q, Qle_bool a b = true ↔ (a <= b)%Q) by apply Qle_bool_iff.
  destruct (Qle_bool 270 orientation) eqn:E1;
    destruct (Qle_bool 90 orientation) eqn:E2;
    destruct (Qle_bool 0 orientation) eqn:E3;
    destruct (Qle_bool 180 orientation) eqn:E4;
    destruct (Qle_bool 270 (orientation + 180)) eqn:E5;
    destruct (Qle_bool 90 (orientation + 180)) eqn:E6;
    destruct (Qle_bool 0 (orientation + 180)) eqn:E7;
    destruct (Qle_bool 180 (orientation + 180)) eqn:E8;
    simpl; try done;
    repeat match goal with
           | H : Qle_bool _ _ = true |- _ => apply Hb in H
           | H : Qle_bool _ _ = false |- _ =>
             apply not_true_iff_false in H; rewrite Hb in H
           end;
    exfalso; Lqa.lra.
Qed.

Lemma getPossibleLinkDirections_reverse_witness :
  getPossibleLinkDirections (45 + 180)
  = opposite <$> getPossibleLinkDirections 45
  ∧ getPossibleLinkDirections 45
    = opposite <$> getPossibleLinkDirections (45 + 180)
  ∧ length (getPossibleLinkDirections 45) = 2%nat.
Proof.
  apply (getPossibleLinkDirections_reverse 45); [by vm_compute|by vm_compute].
Defined.

(** ** Street names of an intersection *)

Import StreetNames.

Lemma contains_cons_false alt c s :
  contains alt (String c s) = false →
  String.prefix alt (String c s) = false ∧ contains alt s = false.
Proof. simpl. intros H. apply orb_false_iff in H. done. Qed.

Lemma separatorFree_tail c s : separatorFree (String c s) → separatorFree s.
Proof.
  unfold separatorFree. intros Hall. eapply Forall_impl; [exact Hall|].
  intros alt H. by apply contains_cons_false in H as [_ H].
Qed.

Lemma prefix_String a s1 b s2 :
  String.prefix (String a s1) (String b s2) = Ascii.eqb a b && String.prefix s1 s2.
Proof.
  cbn [String.prefix]. destruct (ascii_dec a b) as [->|Hne].
  - by rewrite Ascii.eqb_refl.
  - apply Ascii.eqb_neq in Hne. by rewrite Hne.
Qed.

Lemma append_nil_l s : "" +:+ s = s.
Proof. reflexivity. Qed.

Lemma append_String c a s : String c a +:+ s = String c (a +:+ s).
Proof. reflexivity. Qed.

Lemma prefix_nil s : String.prefix "" s = true.
Proof. by destruct s. Qed.

Lemma prefix_app_false p a rest :
  String.prefix p a = false →
  rest = "" ∨ (∃ b, rest = String "/" b) →
  Forall (λ c, c ≠ "/"%char) (list_ascii_of_string p) →
  String.prefix p (a +:+ rest) = false.
Proof.
  revert a. induction p as [|x p IH]; intros a Hp Hrest Hchars.
  - by destruct a.
  - apply Forall_cons in Hchars as [Hx Hchars]. destruct a as [|y a].
    + rewrite append_nil_l. destruct Hrest as [->|[b ->]]; [done|].
      rewrite prefix_String. apply Ascii.eqb_neq in Hx. by rewrite Hx.
    + rewrite append_String, prefix_String in *.
      destruct (Ascii.eqb x y); [|done]. simpl in *. by apply IH.
Qed.

Lemma matchAt_inside c a rest :
  separatorFree (String c a) → rest = "" ∨ (∃ b, rest = String "/" b) →
  matchAt separators (String c a +:+ rest) = None.
Proof.
  intros Hfree Hrest. unfold separatorFree, separators in Hfree.
  assert (Hno : Forall (λ alt, String.prefix alt (String c a +:+ rest) = false)
                       separators).
  { unfold separators.
    repeat match goal with
           | H : Forall _ (_ :: _) |- _ => apply Forall_cons in H as [? H]
           end.
    repeat match goal with
           | H : contains _ (String _ _) = false |- _ =>
             apply contains_cons_false in H as [H _]
           end.
    repeat (apply Forall_cons; split;
            [apply prefix_app_false; [done|done|by repeat constructor]|]).
    apply Forall_cons; split; [|constructor].
    rewrite append_String, prefix_String, prefix_nil in *. done. }
  unfold matchAt. induction Hno as [|alt alts Halt _ IH]; [done|].
  cbn [List.find]. by rewrite Halt.
Qed.

Lemma append_nil_r s : s +:+ "" = s.
Proof. induction s as [|c s IH]; [done|]. by rewrite append_String, IH. Qed.

Lemma append_assoc s1 s2 s3 : (s1 +:+ s2) +:+ s3 = s1 +:+ (s2 +:+ s3).
Proof. induction s1 as [|c s1 IH]; [done|]. by rewrite !append_String, IH. Qed.

Lemma re_split_go_0 alternatives c s cur :
  re_split_go alternatives (String c s) 0 cur
  = match matchAt alternatives (String c s) with
    | Some alt => cur :: re_split_go alternatives s (String.length alt - 1) ""
    | None => re_split_go alternatives s 0 (cur +:+ String c "")
    end.
Proof. reflexivity. Qed.

(** A piece without separator is read to its end. *)
Lemma re_split_go_piece a rest cur :
  separatorFree a → rest = "" ∨ (∃ b, rest = String "/" b) →
  re_split_go separators (a +:+ rest) 0 cur
  = re_split_go separators rest 0 (cur +:+ a).
Proof.
  revert cur. induction a as [|c a IH]; intros cur Hfree Hrest.
  - by rewrite append_nil_l, append_nil_r.
  - pose proof (matchAt_inside c a rest Hfree Hrest) as Hm.
    rewrite append_String in *. rewrite re_split_go_0, Hm.
    rewrite IH; [|by eapply separatorFree_tail|done].
    by rewrite append_assoc.
Qed.

(** A slash ends the piece being read. *)
Lemma re_split_go_slash b cur :
  re_split_go separators (String "/" b) 0 cur
  = cur :: re_split_go separators b 0 "".
Proof.
  rewrite re_split_go_0. unfold matchAt, separators. cbn [List.find].
  rewrite !prefix_String, prefix_nil. simpl. done.
Qed.

Lemma re_split_go_join p ps cur :
  Forall separatorFree (p :: ps) →
  re_split_go separators (String.concat "/" (p :: ps)) 0 cur = (cur +:+ p) :: ps.
Proof.
  revert p cur. induction ps as [|q ps IH]; intros p cur Hfree.
  - apply Forall_cons in Hfree as [Hp _]. cbn [String.concat].
    rewrite <- (append_nil_r p) at 1.
    rewrite re_split_go_piece by (done || by left). done.
  - apply Forall_cons in Hfree as [Hp Hfree].
    change (String.concat "/" (p :: q :: ps))
      with (p +:+ String "/" (String.concat "/" (q :: ps))).
    rewrite re_split_go_piece by (done || right; by eexists).
    rewrite re_split_go_slash, IH by done. done.
Qed.

Lemma upper_append a b : upper (a +:+ b) = upper a +:+ upper b.
Proof. induction a as [|c a IH]; [done|]. rewrite !append_String. simpl. by rewrite IH. Qed.

Lemma upper_concat_slash ps :
  upper (String.concat "/" ps) = String.concat "/" (upper <$> ps).
Proof.
  induction ps as [|p [|q ps] IH]; [done|done|].
  change (String.concat "/" (p :: q :: ps))
    with (p +:+ String "/" (String.concat "/" (q :: ps))).
  rewrite upper_append.
  change (upper (String "/" (String.concat "/" (q :: ps))))
    with (String "/" (upper (String.concat "/" (q :: ps)))).
  rewrite IH. done.
Qed.

(** The names of an intersection written as pieces joined by slashes are
    the pieces, in upper case, stripped and sorted. *)
Lemma extractStreetNames_pieces (pieces : list string) :
  pieces ≠ [] →
  Forall (λ p, separatorFree (upper p)) pieces →
  extractStreetNames (String.concat "/" pieces)
  = sorted ((λ p, strip (upper p)) <$> pieces).
Proof.
  intros Hne Hfree. unfold extractStreetNames, re_split.
  rewrite upper_concat_slash.
  destruct pieces as [|p ps]; [done|]. rewrite fmap_cons.
  rewrite re_split_go_join.
  - rewrite append_nil_l. f_equal. rewrite !fmap_cons. f_equal.
    by rewrite <- list_fmap_compose.
  - rewrite <- fmap_cons. by apply Forall_fmap.
Qed.

Lemma ascii_compare_N a b : Ascii.compare a b = N.compare (N_of_ascii a) (N_of_ascii b).
Proof. reflexivity. Qed.

Lemma leb_String c1 s1 c2 s2 :
  String.leb (String c1 s1) (String c2 s2)
  = match Ascii.compare c1 c2 with
    | Lt => true
    | Eq => String.leb s1 s2
    | Gt => false
    end.
Proof. unfold String.leb. simpl. by destruct (Ascii.compare c1 c2). Qed.

Lemma leb_trans s1 s2 s3 :
  String.leb s1 s2 = true → String.leb s2 s3 = true → String.leb s1 s3 = true.
Proof.
  revert s2 s3. induction s1 as [|c1 s1 IH]; intros [|c2 s2] [|c3 s3]; try done.
  rewrite !leb_String, !ascii_compare_N.
  destruct (N.compare_spec (N_of_ascii c1) (N_of_ascii c2)) as [E12|L12|G12]; [| |done];
    destruct (N.compare_spec (N_of_ascii c2) (N_of_ascii c3)) as [E23|L23|G23]; try done;
    destruct (N.compare_spec (N_of_ascii c1) (N_of_ascii c3)) as [E13|L13|G13];
    try done; try lia.
  apply IH.
Qed.

Lemma insertSorted_comm x y l :
  insertSorted x (insertSorted y l) = insertSorted y (insertSorted x l).
Proof.
  induction l as [|z l IH]; simpl.
  - destruct (String.leb x y) eqn:Exy, (String.leb y x) eqn:Eyx; try done.
    + by rewrite (String.leb_antisym _ _ Exy Eyx).
    + destruct (String.leb_total x y); congruence.
  - destruct (String.leb y z) eqn:Eyz, (String.leb x z) eqn:Exz; simpl;
      rewrite ?Eyz, ?Exz.
    + destruct (String.leb x y) eqn:Exy, (String.leb y x) eqn:Eyx; simpl;
        rewrite ?Eyz, ?Exz; try done.
      * by rewrite (String.leb_antisym _ _ Exy Eyx).
      * destruct (String.leb_total x y); congruence.
    + destruct (String.leb x y) eqn:Exy; [|done].
      pose proof (leb_trans _ _ _ Exy Eyz). congruence.
    + destruct (String.leb y x) eqn:Eyx; [|done].
      pose proof (leb_trans _ _ _ Eyx Exz). congruence.
    + by rewrite IH.
Qed.

Lemma sorted_Permutation l l' : l ≡ₚ l' → sorted l = sorted l'.
Proof.
  intros Hperm. unfold sorted.
  apply (foldr_permutation_proper eq insertSorted []); [|done].
  intros x y b. apply insertSorted_comm.
Qed.

Lemma correction_body_overridden streetName new entry :
  correction_body streetName new entry
  = overridden streetName
      (if decide (applies streetName entry)
       then replace streetName entry.1 entry.2 else new).
Proof.
  unfold correction_body, overridden. destruct entry as [w r].
  destruct (decide (applies streetName (w, r))) as [Hin|Hout]; unfold applies in *;
    simpl in *.
  - rewrite Hin.
    by destruct (contains " TO " streetName), (endswith streetName " AV"),
               (endswith streetName " DR"), (String.eqb streetName "EMBARCADERO").
  - apply not_true_is_false in Hout. rewrite Hout.
    by destruct (contains " TO " streetName), (endswith streetName " AV"),
               (endswith streetName " DR"), (String.eqb streetName "EMBARCADERO").
Qed.

Lemma overridden_idemp streetName new :
  overridden streetName (overridden streetName new) = overridden streetName new.
Proof.
  unfold overridden.
  by destruct (contains " TO " streetName), (endswith streetName " AV"),
             (endswith streetName " DR"), (String.eqb streetName "EMBARCADERO").
Qed.

(** The loop over the corrections in closed form, when one correction at
    most applies: the correction that applies is made on the name as it
    was given, and the four tests have the last word. *)
Lemma foldl_correction_body streetName new items :
  items ≠ [] →
  (length (filter (applies streetName) items) ≤ 1)%nat →
  foldl (correction_body streetName) new items
  = overridden streetName
      match filter (applies streetName) items with
      | entry :: _ => replace streetName entry.1 entry.2
      | [] => new
      end.
Proof.
  induction items as [|entry items IH] using rev_ind; [done|].
  intros _ Hone. rewrite foldl_app. simpl.
  rewrite correction_body_overridden, filter_app in *.
  rewrite length_app in Hone. rewrite filter_cons, filter_nil in *.
  destruct (decide (applies streetName entry)) as [Hin|Hout].
  - simpl in Hone.
    destruct (filter (applies streetName) items) as [|e0 ?]; [done|simpl in Hone; lia].
  - rewrite app_nil_r in *. simpl in Hone. destruct items as [|e0 items]; [done|].
    rewrite IH by (done || lia). apply overridden_idemp.
Qed.

Lemma filter_at_most_one {A} (P : A → Prop) `{!∀ x, Decision (P x)} (l l' : list A) :
  l ≡ₚ l' → (length (filter P l) ≤ 1)%nat → filter P l' = filter P l.
Proof.
  intros Hperm Hone.
  assert (filter P l ≡ₚ filter P l') as Hf by (by rewrite Hperm).
  destruct (filter P l) as [|x [|y rest]]; [| |simpl in Hone; lia].
  - by apply Permutation_nil in Hf.
  - by apply Permutation_singleton_l in Hf.
Qed.

(** X7: the name that [cleanStreetName] returns does not depend on the
    order in which the dictionary of corrections is iterated, as long as
    one correction at most applies to the name. *)
Theorem cleanStreetName_order_independent (items : list (string * string))
    (streetName : string) :
  items ≡ₚ corrections →
  (length (filter (applies streetName) corrections) ≤ 1)%nat →
  cleanStreetName_items items streetName
  = cleanStreetName_items corrections streetName.
Proof.
  intros Hperm Hone. unfold cleanStreetName_items.
  assert (items ≠ []) as Hne.
  { intros ->. by apply Permutation_nil_l in Hperm. }
  assert (filter (applies streetName) items
          = filter (applies streetName) corrections) as Hf.
  { apply (filter_at_most_one _ corrections items); [by symmetry|done]. }
  rewrite !foldl_correction_body; [by rewrite Hf|done|done|done|by rewrite Hf].
Qed.

Lemma cleanStreetName_order_independent_witness :
  cleanStreetName_items (rev corrections) "THIRD STREET"
  = cleanStreetName_items corrections "THIRD STREET".
Proof.
  apply (cleanStreetName_order_independent (rev corrections) "THIRD STREET").
  - apply Permutation_sym, Permutation_rev.
  - vm_compute. lia.
Defined.

(** X6: for an intersection name made of pieces joined by slashes, none of
    which holds a separator once in upper case, [extractStreetNames]
    returns the pieces in upper case, stripped and sorted; and the street
    names and the internal name that [assignCardNames] computes are the
    same in whatever order the pieces are written. *)
Theorem assignCardNames_order_independent (items : list (string * string))
    (pieces pieces' : list string) :
  pieces ≠ [] →
  Forall (λ p, separatorFree (upper p)) pieces →
  pieces ≡ₚ pieces' →
  extractStreetNames (String.concat "/" pieces)
  = sorted ((λ p, strip (upper p)) <$> pieces)
  ∧ assignCardNames_items items (String.concat "/" pieces')
    = assignCardNames_items items (String.concat "/" pieces).
Proof.
  intros Hne Hfree Hperm.
  assert (pieces' ≠ []) as Hne'.
  { intros ->. by apply Permutation_nil_r in Hperm. }
  assert (Forall (λ p, separatorFree (upper p)) pieces') as Hfree'
    by (by rewrite <- Hperm).
  split; [by apply extractStreetNames_pieces|].
  unfold assignCardNames_items.
  rewrite !extractStreetNames_pieces by done.
  rewrite (sorted_Permutation ((λ p, strip (upper p)) <$> pieces')
                              ((λ p, strip (upper p)) <$> pieces)); [done|].
  by rewrite Hperm.
Qed.

Lemma assignCardNames_order_independent_witness :
  extractStreetNames (String.concat "/" ["Geary Blvd"; "3rd St"])
  = sorted ((λ p, strip (upper p)) <$> ["Geary Blvd"; "3rd St"])
  ∧ assignCardNames_items corrections (String.concat "/" ["3rd St"; "Geary Blvd"])
    = assignCardNames_items corrections (String.concat "/" ["Geary Blvd"; "3rd St"]).
Proof.
  apply (assignCardNames_order_independent corrections
           ["Geary Blvd"; "3rd St"] ["3rd St"; "Geary Blvd"]).
  - done.
  - repeat constructor.
  - apply perm_swap.
Defined.

Import Mapper.

Lemma removeIf_removeTimes tests g gm :
  for_each tests (λ gm test, removeIf test g gm) gm
  = removeTimes (length (filter (λ b, b = true) tests)) g gm.
Proof.
  revert gm. induction tests as [|[|] tests IH]; intros gm; [done| |].
  - rewrite filter_cons_True by done. simpl.
    destruct (list_remove g gm) as [gm'|]; simpl; [apply IH|done].
  - rewrite filter_cons_False by done. simpl. apply IH.
Qed.

Lemma expectedMovements_body_removeTimes ditems streetNames gm g :
  expectedMovements_body ditems streetNames gm g
  = removeTimes (removals ditems streetNames g) g gm.
Proof.
  unfold expectedMovements_body, removals.
  destruct (isUnmappedLabel g).
  - rewrite filter_cons_True by done. cbn [length removeTimes].
    change (removeIf true g gm) with (list_remove g gm).
    destruct (list_remove g gm) as [gm'|]; cbn [mbind result_bind]; [|done].
    apply removeIf_removeTimes.
  - rewrite filter_cons_False by done.
    change (removeIf false g gm) with (Ok gm). cbn [mbind result_bind].
    apply removeIf_removeTimes.
Qed.

Lemma list_remove_notin g l : g ∉ l → list_remove g l = Raise ValueError.
Proof.
  induction l as [|y l IH]; [done|]. intros Hnotin.
  apply not_elem_of_cons in Hnotin as [Hne Hnotin]. simpl.
  destruct (String.eqb_spec y g) as [->|_]; [done|]. by rewrite IH.
Qed.

Lemma filter_all {A} (P : A → Prop) `{!∀ x, Decision (P x)} (l : list A) :
  Forall P l → filter P l = l.
Proof.
  induction 1 as [|x l Hx _ IH]; [done|]. by rewrite filter_cons_True, IH.
Qed.

Lemma list_remove_in g l :
  NoDup l → g ∈ l → list_remove g l = Ok (filter (λ x, x ≠ g) l).
Proof.
  induction l as [|y l IH]; intros Hnodup Hin; [by apply elem_of_nil in Hin|].
  apply NoDup_cons in Hnodup as [Hy Hnodup]. simpl.
  destruct (String.eqb_spec y g) as [->|Hne].
  - rewrite filter_cons_False by (by intros H; apply H).
    f_equal. symmetry. apply filter_all.
    apply Forall_forall. by intros x Hx ->.
  - apply elem_of_cons in Hin as [->|Hin]; [done|].
    rewrite IH by done. simpl. by rewrite filter_cons_True.
Qed.

(** With distinct labels, removing a label twice or more fails. *)
Lemma removeTimes_spec k g gm :
  NoDup gm → g ∈ gm →
  removeTimes k g gm
  = match k with
    | 0%nat => Ok gm
    | 1%nat => Ok (filter (λ x, x ≠ g) gm)
    | _ => Raise ValueError
    end.
Proof.
  intros Hnodup Hin. destruct k as [|[|k]]; [done| |]; simpl;
    rewrite list_remove_in by done; simpl; [done|].
  rewrite list_remove_notin; [done|].
  intros Hg. apply list_elem_of_filter in Hg as [Hne _]. done.
Qed.

Lemma expectedMovements_loop ditems streetNames post :
  ∀ gm, NoDup gm → NoDup post → (∀ g, g ∈ post → g ∈ gm) →
  for_each post (expectedMovements_body ditems streetNames) gm
  = if decide (Exists (λ g, (2 ≤ removals ditems streetNames g)%nat) post)
    then Raise ValueError
    else Ok (filter (λ g, ¬ (g ∈ post ∧ removals ditems streetNames g ≠ 0%nat)) gm).
Proof.
  induction post as [|g post IH]; intros gm Hgm Hpost Hsub.
  - cbn [for_each]. rewrite decide_False by (by intros H; apply Exists_nil in H).
    f_equal. symmetry. apply filter_all. apply Forall_forall.
    intros x _ [Hx _]. by apply elem_of_nil in Hx.
  - apply NoDup_cons in Hpost as [Hg Hpost]. cbn [for_each].
    rewrite expectedMovements_body_removeTimes.
    rewrite removeTimes_spec by (done || apply Hsub, list_elem_of_here).
    destruct (removals ditems streetNames g) as [|[|k]] eqn:Hk;
      cbn [mbind result_bind].
    + rewrite IH by (done || intros x Hx; by apply Hsub, list_elem_of_further).
      destruct (decide (Exists _ post)) as [Hex|Hnex].
      * rewrite decide_True; [done|]. by apply Exists_cons; right.
      * rewrite decide_False.
        2:{ intros [H|H]%Exists_cons; [lia|done]. }
        f_equal. apply filter_ext_elem. intros x Hx. split.
        -- intros Hn [Hin Hr]. apply elem_of_cons in Hin as [->|Hin]; [done|].
           by apply Hn.
        -- intros Hn [Hin Hr]. apply Hn. split; [by apply list_elem_of_further|done].
    + rewrite IH.
      * destruct (decide (Exists _ post)) as [Hex|Hnex].
        -- rewrite decide_True; [done|]. by apply Exists_cons; right.
        -- rewrite decide_False.
           2:{ intros [H|H]%Exists_cons; [lia|done]. }
           f_equal. rewrite list_filter_filter. apply filter_ext_elem.
           intros x Hx. split.
           ++ intros [Hn Hne] [Hin Hr]. apply elem_of_cons in Hin as [->|Hin]; [done|].
              by apply Hn.
           ++ intros Hn. split.
              ** intros [Hin Hr]. apply Hn. split; [by apply list_elem_of_further|done].
              ** intros ->. apply Hn. split; [apply list_elem_of_here|lia].
      * by apply NoDup_filter.
      * done.
      * intros x Hx. apply list_elem_of_filter. split.
        -- by intros ->.
        -- by apply Hsub, list_elem_of_further.
    + rewrite decide_True; [done|]. apply Exists_cons. left. lia.
Qed.

(** X8: for distinct labels, the loop of [mapMovements] that computes the
    labels expected to be mapped either keeps exactly the labels that meet
    none of its six tests, or, as soon as one label meets two of them,
    ends in the [ValueError] of removing that label a second time. *)
Theorem expectedMovements_spec (ditems : list (string * list string))
    (streetNames groupMovements : list string) :
  NoDup groupMovements →
  expectedMovements ditems streetNames groupMovements
  = if decide (Exists (λ g, (2 ≤ removals ditems streetNames g)%nat) groupMovements)
    then Raise ValueError
    else Ok (filter (λ g, removals ditems streetNames g = 0%nat) groupMovements).
Proof.
  intros Hnodup. unfold expectedMovements.
  rewrite expectedMovements_loop by done.
  destruct (decide (Exists _ groupMovements)); [done|].
  f_equal. apply filter_ext_elem. intros x Hx. split.
  - intros Hn. destruct (decide (removals ditems streetNames x = 0%nat)); [done|].
    exfalso. by apply Hn.
  - intros H0 [_ Hr]. done.
Qed.

Lemma expectedMovements_spec_witness :
  let labels := ["BUSH ST. WB STREETCAR"; "MASON ST. NB"; "MASON ST. SB"] in
  expectedMovements Classifier.directionIndicators ["BUSH"; "MASON"] labels
  = if decide (Exists (λ g, (2 ≤ removals Classifier.directionIndicators
                                  ["BUSH"; "MASON"] g)%nat) labels)
    then Raise ValueError
    else Ok (filter (λ g, removals Classifier.directionIndicators
                            ["BUSH"; "MASON"] g = 0%nat) labels).
Proof.
  apply (expectedMovements_spec Classifier.directionIndicators ["BUSH"; "MASON"]).
  apply (bool_decide_eq_true_1 (NoDup _)). vm_compute. reflexivity.
Defined.

Lemma lastStateUpTo_S row k x :
  row !! S k = Some x →
  lastStateUpTo row (S k) = if decide (x = "") then lastStateUpTo row k else Some x.
Proof.
  intros Hx. unfold lastStateUpTo.
  rewrite (take_S_r row (S k) x Hx), filter_app, filter_cons, filter_nil.
  destruct (decide (x ≠ "")) as [Hne|He].
  - rewrite last_snoc. by rewrite decide_False.
  - rewrite app_nil_r. rewrite decide_True; [done|].
    by destruct (decide (x = "")).
Qed.

Lemma lastStateUpTo_0 row x :
  row !! 0%nat = Some x →
  lastStateUpTo row 0 = if decide (x = "") then None else Some x.
Proof.
  intros Hx. destruct row as [|y row]; [done|]. simpl in Hx. injection Hx as ->.
  unfold lastStateUpTo. simpl. rewrite take_0, filter_cons, filter_nil.
  destruct (decide (x ≠ "")) as [Hne|He].
  - by rewrite decide_False.
  - rewrite decide_True; [done|]. by destruct (decide (x = "")).
Qed.

Lemma lastStateUpTo_nonblank row k x : lastStateUpTo row k = Some x → x ≠ "".
Proof.
  unfold lastStateUpTo. intros H.
  assert (x ∈ filter (λ x, x ≠ "") (firstn (S k) row)) as Hin.
  { apply last_Some in H as [l' ->]. apply elem_of_app. right. apply list_elem_of_here. }
  by apply list_elem_of_filter in Hin as [Hne _].
Qed.

Section ForwardPass.

Variable row : list string.

Lemma forwardState_start : row ≠ [] → forwardState row 0 row.
Proof.
  intros Hne. split; [done|]. split; [done|].
  intros k Hk Hlt. replace k with 0%nat by lia.
  destruct row as [|x r]; [done|]. simpl.
  rewrite (lastStateUpTo_0 (x :: r) x) by done.
  by destruct (decide (x = "")) as [->|].
Qed.

Lemma fillForward_body_state i cur :
  (S i < length row)%nat → forwardState row i cur →
  ∃ cur', fillForward_body cur (S i) = Ok cur' ∧ forwardState row (S i) cur'.
Proof.
  intros Hi (Hlen & Hafter & Hdone). unfold fillForward_body.
  destruct (lookup_lt_is_Some_2 row (S i) Hi) as [x Hx].
  assert (cur !! S i = Some x) as Ha by (rewrite Hafter by lia; done).
  rewrite (getitem_lookup _ _ _ Ha). cbn [mbind result_bind].
  replace (S i - 1)%nat with i by lia.
  assert (cur !! i = Some (default "" (lastStateUpTo row i))) as Hb
    by (apply Hdone; lia).
  pose proof (lastStateUpTo_S row i x Hx) as HS.
  assert (∀ cur' v, length cur' = length row →
            (∀ k, k ≠ S i → cur' !! k = cur !! k) →
            cur' !! S i = Some v →
            v = default "" (lastStateUpTo row (S i)) →
            forwardState row (S i) cur') as Hfinish.
  { intros cur' v Hlen' Hsame Hv Hval. split; [done|]. split.
    - intros k Hk. rewrite Hsame by lia. apply Hafter. lia.
    - intros k Hk Hlt. destruct (decide (k = S i)) as [->|Hne].
      + by rewrite Hv, Hval.
      + rewrite Hsame by done. apply Hdone; [lia|done]. }
  destruct (String.eqb_spec x "") as [->|Hxne].
  - rewrite (getitem_lookup _ _ _ Hb). cbn [mbind result_bind].
    rewrite decide_True in HS by done.
    destruct (String.eqb_spec (default "" (lastStateUpTo row i)) "") as [Hbe|Hbne];
      cbn [negb].
    + eexists. split; [done|]. apply (Hfinish cur ""); [done|done|done|].
      by rewrite HS, Hbe.
    + eexists. split; [done|].
      apply (Hfinish _ (default "" (lastStateUpTo row i))).
      * by rewrite length_insert.
      * intros k Hk. by rewrite list_lookup_insert_ne.
      * apply list_lookup_insert_eq. lia.
      * by rewrite HS.
  - eexists. split; [done|]. apply (Hfinish cur x); [done|done|done|].
    rewrite HS. by rewrite decide_False.
Qed.

Lemma fillForward_state len start cur :
  (start + len < length row)%nat ∨ len = 0%nat →
  forwardState row start cur →
  ∃ cur', for_each (seq (S start) len) fillForward_body cur = Ok cur'
          ∧ forwardState row (start + len) cur'.
Proof.
  revert start cur. induction len as [|len IH]; intros start cur Hlen Hinv.
  - exists cur. by rewrite Nat.add_0_r.
  - destruct Hlen as [Hlen|]; [|done]. cbn [seq for_each].
    destruct (fillForward_body_state start cur) as (cur1 & -> & Hinv1); [lia|done|].
    cbn [mbind result_bind].
    destruct (IH (S start) cur1) as (cur' & Hrun & Hinv'); [left; lia|done|].
    exists cur'. split; [done|].
    by replace (start + S len)%nat with (S start + len)%nat by lia.
Qed.

End ForwardPass.
Lemma firstState_hasState row : hasState row → ∃ y, firstState row = Some y ∧ y ≠ "".
Proof.
  intros (x & Hin & Hx). unfold firstState.
  assert (x ∈ filter (λ x, x ≠ "") row) as Hf by (by apply list_elem_of_filter).
  destruct (filter (λ x, x ≠ "") row) as [|y l] eqn:E; [by apply elem_of_nil in Hf|].
  exists y. split; [done|].
  assert (y ∈ filter (λ x, x ≠ "") row) as Hy by (rewrite E; apply list_elem_of_here).
  by apply list_elem_of_filter in Hy as [Hne _].
Qed.

Lemma filledState_nonblank row k : hasState row → filledState row k ≠ "".
Proof.
  intros Hs. unfold filledState.
  destruct (lastStateUpTo row k) as [x|] eqn:E; simpl.
  - by eapply lastStateUpTo_nonblank.
  - by destruct (firstState_hasState row Hs) as (y & -> & Hy).
Qed.

Lemma filledState_in row k : hasState row → filledState row k ∈ row.
Proof.
  intros Hs. unfold filledState.
  destruct (lastStateUpTo row k) as [x|] eqn:E; simpl.
  - unfold lastStateUpTo in E. apply last_Some in E as [l' E].
    assert (x ∈ filter (λ x, x ≠ "") (firstn (S k) row)) as Hin.
    { rewrite E. apply elem_of_app. right. apply list_elem_of_here. }
    apply list_elem_of_filter in Hin as [_ Hin].
    rewrite <- (take_drop (S k) row). apply elem_of_app. by left.
  - destruct (firstState_hasState row Hs) as (y & Hy & _). rewrite Hy. simpl.
    unfold firstState in Hy.
    destruct (filter (λ x, x ≠ "") row) as [|z l] eqn:Ef; [done|].
    injection Hy as ->.
    assert (y ∈ filter (λ x, x ≠ "") row) as Hin by (rewrite Ef; apply list_elem_of_here).
    by apply list_elem_of_filter in Hin as [_ Hin].
Qed.

Lemma filledState_keeps row k x :
  row !! k = Some x → x ≠ "" → filledState row k = x.
Proof.
  intros Hk Hx. unfold filledState. destruct k as [|k].
  - rewrite (lastStateUpTo_0 row x Hk). by rewrite decide_False.
  - rewrite (lastStateUpTo_S row k x Hk). by rewrite decide_False.
Qed.

(** Where no state precedes, the next state is the first of the row. *)
Lemma firstState_next row i x :
  lastStateUpTo row i = None → row !! S i = Some x → x ≠ "" →
  firstState row = Some x.
Proof.
  unfold lastStateUpTo, firstState. intros Hnone Hx Hne.
  apply last_None in Hnone.
  rewrite <- (take_drop (S i) row), filter_app, Hnone. simpl.
  rewrite (drop_S row x (S i) Hx), filter_cons_True by done. done.
Qed.

Lemma filledState_blank_step row i :
  (S i < length row)%nat → lastStateUpTo row i = None →
  filledState row (S i) = filledState row i.
Proof.
  intros Hi Hnone. destruct (lookup_lt_is_Some_2 row (S i) Hi) as [x Hx].
  unfold filledState. rewrite (lastStateUpTo_S row i x Hx), Hnone. simpl.
  destruct (decide (x = "")) as [->|Hne]; [done|]. simpl.
  by rewrite (firstState_next row i x).
Qed.

Lemma lastStateUpTo_None_later row i j x :
  lastStateUpTo row i = None → row !! j = Some x → x ≠ "" → (i < j)%nat.
Proof.
  unfold lastStateUpTo. intros Hnone Hj Hx. apply last_None in Hnone.
  destruct (decide (i < j)%nat) as [|Hge]; [done|]. exfalso.
  assert (x ∈ filter (λ x, x ≠ "") (firstn (S i) row)) as Hin.
  { apply list_elem_of_filter. split; [done|].
    apply list_elem_of_lookup. exists j. rewrite lookup_take_lt by lia. done. }
  rewrite Hnone in Hin. by apply elem_of_nil in Hin.
Qed.

Section BackwardPass.

Variables row fwd : list string.
Hypothesis row_hasState : hasState row.
Hypothesis fwd_forward : forwardState row (length row - 1) fwd.

Lemma fillBackward_body_state i cur :
  (i < length row)%nat → backwardState row fwd (S i) cur →
  ∃ cur', fillBackward_body cur i = Ok cur' ∧ backwardState row fwd i cur'.
Proof.
  intros Hi (Hlen & Hbefore & Hdone). unfold fillBackward_body.
  destruct fwd_forward as (_ & _ & Hfwd).
  assert (cur !! i = Some (default "" (lastStateUpTo row i))) as Ha.
  { rewrite Hbefore by lia. apply Hfwd; lia. }
  rewrite (getitem_lookup _ _ _ Ha). cbn [mbind result_bind].
  assert (∀ cur', length cur' = length row →
            (∀ k, k ≠ i → cur' !! k = cur !! k) →
            cur' !! i = Some (filledState row i) →
            backwardState row fwd i cur') as Hfinish.
  { intros cur' Hlen' Hsame Hv. split; [done|]. split.
    - intros k Hk. rewrite Hsame by lia. apply Hbefore. lia.
    - intros k Hk Hlt. destruct (decide (k = i)) as [->|Hne]; [done|].
      rewrite Hsame by done. apply Hdone; [lia|done]. }
  destruct (lastStateUpTo row i) as [x|] eqn:Elast; simpl in *.
  - pose proof (lastStateUpTo_nonblank row i x Elast) as Hx.
    destruct (String.eqb_spec x "") as [|_]; [done|].
    eexists. split; [done|]. apply Hfinish; [done|done|].
    rewrite Ha. unfold filledState. by rewrite Elast.
  - destruct row_hasState as (x & Hin & Hx).
    apply list_elem_of_lookup in Hin as [j Hj].
    pose proof (lastStateUpTo_None_later row i j x Elast Hj Hx) as Hij.
    pose proof (lookup_lt_Some _ _ _ Hj) as Hjlt.
    assert (cur !! (i + 1)%nat = Some (filledState row (S i))) as Hb.
    { replace (i + 1)%nat with (S i) by lia. apply Hdone; lia. }
    rewrite (getitem_lookup _ _ _ Hb). cbn [mbind result_bind].
    pose proof (filledState_nonblank row (S i) row_hasState) as Hne.
    destruct (String.eqb_spec (filledState row (S i)) "") as [|_]; [done|].
    cbn [negb]. eexists. split; [done|]. apply Hfinish.
    + by rewrite length_insert.
    + intros k Hk. by rewrite list_lookup_insert_ne.
    + rewrite list_lookup_insert_eq by lia.
      by rewrite filledState_blank_step by (done || lia).
Qed.

Lemma fillBackward_state m cur :
  (m ≤ length row)%nat → backwardState row fwd m cur →
  ∃ cur', for_each (rev (seq 0 m)) fillBackward_body cur = Ok cur'
          ∧ backwardState row fwd 0 cur'.
Proof.
  revert cur. induction m as [|m IH]; intros cur Hm Hinv.
  - by exists cur.
  - rewrite seq_S, rev_app_distr. cbn [rev app for_each Nat.add].
    destruct (fillBackward_body_state m cur) as (cur1 & -> & Hinv1); [lia|done|].
    cbn [mbind result_bind]. apply IH; [lia|done].
Qed.

End BackwardPass.

(** The two passes together: every cell of the filled row holds the
    nearest state to its left, or the first state of the row. *)
Lemma fillPhaseInfo_cells (phaseInfo : list string) :
  hasState phaseInfo →
  ∃ filled,
    fillPhaseInfo phaseInfo = Ok filled
    ∧ length filled = length phaseInfo
    ∧ (∀ k, (k < length phaseInfo)%nat →
            filled !! k = Some (filledState phaseInfo k)).
Proof.
  intros Hs.
  assert (phaseInfo ≠ []) as Hne.
  { destruct Hs as (x & Hin & _). intros ->. by apply elem_of_nil in Hin. }
  destruct (fillForward_state phaseInfo (length phaseInfo - 1) 0 phaseInfo)
    as (fwd & Hfwd & Hinv).
  { left. destruct phaseInfo; [done|]. simpl. lia. }
  { by apply forwardState_start. }
  simpl in Hinv.
  destruct (fillBackward_state phaseInfo fwd Hs Hinv (length phaseInfo) fwd)
    as (filled & Hbwd & Hlen & _ & Hall).
  { done. }
  { destruct Hinv as (Hlen & _). split; [done|]. split; [done|]. intros k Hk Hlt. lia. }
  exists filled. unfold fillPhaseInfo, fillForward, fillBackward.
  rewrite Hfwd. cbn [mbind result_bind].
  replace (length fwd) with (length phaseInfo) by (by destruct Hinv as [-> _]).
  rewrite Hbwd. split; [done|]. split; [done|].
  intros k Hk. apply Hall; [lia|done].
Qed.

(** X9: on a row that holds at least one state, [fillPhaseInfo] returns a
    row of the same length in which every cell holds the nearest state to
    its left in the row given, or, when there is none, the first state of
    that row: the cells that held a state keep it, no cell stays blank and
    no state is invented. *)
Theorem fillPhaseInfo_fills (phaseInfo : list string) :
  hasState phaseInfo →
  ∃ filled,
    fillPhaseInfo phaseInfo = Ok filled
    ∧ length filled = length phaseInfo
    ∧ (∀ k, (k < length phaseInfo)%nat →
            filled !! k = Some (filledState phaseInfo k))
    ∧ (∀ k x, phaseInfo !! k = Some x → x ≠ "" → filled !! k = Some x)
    ∧ (∀ x, x ∈ filled → x ≠ "" ∧ x ∈ phaseInfo).
Proof.
  intros Hs.
  destruct (fillPhaseInfo_cells phaseInfo Hs) as (filled & Hrun & Hlen & Hcells).
  exists filled. split; [done|]. split; [done|]. split; [done|]. split.
  - intros k x Hk Hx. rewrite Hcells by (by eapply lookup_lt_Some).
    by rewrite (filledState_keeps phaseInfo k x).
  - intros x Hin. apply list_elem_of_lookup in Hin as [k Hk].
    pose proof (lookup_lt_Some _ _ _ Hk) as Hlt. rewrite Hlen in Hlt.
    rewrite Hcells in Hk by done. injection Hk as <-.
    split; [by apply filledState_nonblank|by apply filledState_in].
Qed.

Lemma fillPhaseInfo_fills_witness :
  let row := [""; "G"; ""; "Y"; "R"; ""; ""] in
  ∃ filled,
    fillPhaseInfo row = Ok filled
    ∧ length filled = length row
    ∧ (∀ k, (k < length row)%nat → filled !! k = Some (filledState row k))
    ∧ (∀ k x, row !! k = Some x → x ≠ "" → filled !! k = Some x)
    ∧ (∀ x, x ∈ filled → x ≠ "" ∧ x ∈ row).
Proof.
  apply (fillPhaseInfo_fills [""; "G"; ""; "Y"; "R"; ""; ""]).
  exists "G". split; [|done]. apply list_elem_of_further, list_elem_of_here.
Defined.

Lemma for_each_raise {A S} (body : S → A → result S) xs s e :
  for_each xs body s = Raise e → ∃ s' x, x ∈ xs ∧ body s' x = Raise e.
Proof.
  revert s. induction xs as [|x xs IH]; intros s; [done|]. simpl.
  destruct (body s x) as [s1|e1] eqn:Hb; simpl.
  - intros (s' & y & Hy & Hr)%IH. exists s', y. split; [by right|done].
  - intros [= ->]. exists s, x. split; [by left|done].
Qed.

Section GridRows.

Context {D : Type} (str_of_float : D → string).
Variable sheet : Sheet D.

Local Abbreviation states := (["" ; "G"; "Y"; "R"] : list string).

Lemma readStates_inv i cols acc :
  Forall (λ c, c ∈ states) acc →
  match readStates str_of_float sheet i cols acc with
  | Ok (Some row) => Forall (λ c, c ∈ states) row
  | Ok None => True
  | Raise e => e = IndexError ∧ ∃ r c, sheet r c = None
  end.
Proof.
  revert acc. induction cols as [|j cols IH]; intros acc Hacc; [done|].
  cbn [readStates]. unfold cell_value.
  destruct (sheet i j) as [v|] eqn:Hv; cbn [from_option mbind result_bind];
    [|by split; [|exists i, j]].
  assert (∀ s, s ∈ states → Forall (λ c, c ∈ states) (acc ++ [s])%list) as Hsnoc.
  { intros s Hs. apply Forall_app. split; [done|]. by constructor. }
  destruct (String.eqb _ ""); [apply IH, Hsnoc; set_solver|].
  destruct (inlist _ intervalStateGreen); [apply IH, Hsnoc; set_solver|].
  destruct (inlist _ intervalStateYellow); [apply IH, Hsnoc; set_solver|].
  destruct (_ || _); [apply IH, Hsnoc; set_solver|done].
Qed.

Lemma getPhasingData_row_inv startY c0 c1 st i :
  length st.1 = length st.2 →
  Forall (λ row, hasState row ∧ Forall (λ c, c ∈ states) row) st.2 →
  match getPhasingData_row str_of_float sheet startY c0 c1 st i with
  | Ok st' =>
    length st'.1 = length st'.2
    ∧ Forall (λ row, hasState row ∧ Forall (λ c, c ∈ states) row) st'.2
  | Raise e => e = IndexError ∧ ∃ r c, sheet r c = None
  end.
Proof.
  intros Hlen Hrows. unfold getPhasingData_row, cell_value.
  destruct (sheet i startY) as [v|] eqn:Hv; cbn [from_option mbind result_bind];
    [|by split; [|exists i, startY]].
  destruct (skippedMovement _); [done|].
  pose proof (readStates_inv i (range c0 (c1 + 1)) [] (Forall_nil_2 _)) as Hread.
  destruct (readStates _ _ _ _ _) as [[row|]|e]; cbn [mbind result_bind]; [|done|done].
  case_bool_decide as Hblank; [done|].
  cbn [fst snd]. split; [rewrite !length_app; simpl; lia|].
  apply Forall_app. split; [done|]. constructor; [|done].
  split; [by apply not_all_blank_hasState|done].
Qed.

Lemma getPhasingData_rows startY c0 c1 rowIndices :
  match for_each rowIndices (getPhasingData_row str_of_float sheet startY c0 c1)
                 ([], []) with
  | Ok st' =>
    length st'.1 = length st'.2
    ∧ Forall (λ row, hasState row ∧ Forall (λ c, c ∈ states) row) st'.2
  | Raise e => e = IndexError ∧ ∃ r c, sheet r c = None
  end.
Proof.
  assert (∀ st, length st.1 = length st.2 →
            Forall (λ row, hasState row ∧ Forall (λ c, c ∈ states) row) st.2 →
            match for_each rowIndices
                    (getPhasingData_row str_of_float sheet startY c0 c1) st with
            | Ok st' =>
              length st'.1 = length st'.2
              ∧ Forall (λ row, hasState row ∧ Forall (λ c, c ∈ states) row) st'.2
            | Raise e => e = IndexError ∧ ∃ r c, sheet r c = None
            end) as Hgen.
  { induction rowIndices as [|i rest IH]; intros st Hlen Hrows; [done|].
    cbn [for_each].
    pose proof (getPhasingData_row_inv startY c0 c1 st i Hlen Hrows) as Hrow.
    destruct (getPhasingData_row _ _ _ _ _ _ _) as [st1|e];
      cbn [mbind result_bind]; [|done].
    destruct Hrow as [Hlen1 Hrows1]. by apply IH. }
  by apply Hgen.
Qed.

End GridRows.

Lemma raggedRows_lengths (rows : list (list string)) row0 :
  raggedRows rows = false → head rows = Some row0 →
  Forall (λ row, length row = length row0) rows.
Proof.
  revert row0. induction rows as [|r1 rows IH]; intros row0 Hrag Hhead; [done|].
  simpl in Hhead. injection Hhead as ->. constructor; [done|].
  destruct rows as [|r2 rows]; [done|].
  cbn [raggedRows] in Hrag. apply orb_false_iff in Hrag as [Hlen Hrag].
  apply negb_false_iff, Nat.eqb_eq in Hlen.
  rewrite Hlen. by apply IH.
Qed.

Lemma upper_strip_state c : c ∈ ["G"; "Y"; "R"] → upper (strip c) = c.
Proof. intros H. repeat (apply elem_of_cons in H as [->|H]; [done|]). by apply elem_of_nil in H. Qed.

(** Copying a row that holds a state, and nothing but states and blanks,
    never fails. *)
Lemma fillGrid_row_total rows n ma i movName row :
  rows !! i = Some row → hasState row →
  Forall (λ c, c ∈ ["" ; "G"; "Y"; "R"]) row → length row = n →
  is_ok (fillGrid_row rows n ma (i, movName)) = true.
Proof.
  intros Hi Hs Hcells Hlen. unfold fillGrid_row.
  rewrite (getitem_lookup _ _ _ Hi). cbn [mbind result_bind].
  destruct (fillPhaseInfo_cells row Hs) as (filled & -> & Hflen & Hvals).
  cbn [mbind result_bind].
  match goal with
  | |- is_ok (for_each ?xs ?body ?s0) = true =>
    destruct (for_each_total body (λ _, True) (λ j, 1 ≤ j ≤ Z.of_nat n) xs)
      with (s := s0) as (ma' & Hrun & _); [| |done|by rewrite Hrun]
  end.
  - intros m j Hj _.
    destruct (getitem_lt filled (Z.to_nat (j - 1))) as (c & Hc & ->); [lia|].
    cbn [mbind result_bind].
    assert (c ∈ ["G"; "Y"; "R"]) as Hstate.
    { rewrite Hvals in Hc by lia. injection Hc as <-.
      pose proof (filledState_nonblank row (Z.to_nat (j - 1)) Hs) as Hne.
      pose proof (filledState_in row (Z.to_nat (j - 1)) Hs) as Hrow.
      rewrite Forall_forall in Hcells. specialize (Hcells _ Hrow).
      apply elem_of_cons in Hcells as [Hcells|Hcells]; done. }
    rewrite (upper_strip_state c Hstate).
    repeat (apply elem_of_cons in Hstate as [->|Hstate]; [by eexists|]).
    by apply elem_of_nil in Hstate.
  - apply Forall_forall. intros j Hj. unfold range in Hj.
    apply elem_of_seqZ in Hj. lia.
Qed.

(** Once the rows have passed the checks, the loop that fills the grid
    returns. *)
Lemma fillGrid_total (names : list string) (rows : list (list string)) (n : nat) :
  length names = length rows →
  Forall (λ row, hasState row ∧ Forall (λ c, c ∈ ["" ; "G"; "Y"; "R"]) row) rows →
  Forall (λ row, length row = n) rows →
  let ma := {| ma_movements := names; ma_numIntervals := n; ma_data := ∅ |} in
  ∃ ma', for_each (imap (λ i movName, (i, movName)) (getElementsOfDimention0 ma))
                  (fillGrid_row rows n) ma = Ok ma'
         ∧ ma_movements ma' = names ∧ ma_numIntervals ma' = n.
Proof.
  intros Hlen Hrows Hlens ma.
  destruct (for_each_total (fillGrid_row rows n)
              (λ m, ∃ complete, gridFilled names n complete m)
              (λ entry : nat * string, (entry.1 < length rows)%nat)
              (imap (λ i movName, (i, movName)) (getElementsOfDimention0 ma)))
    with (s := ma) as (ma' & Hrun & (complete & Hn & Hi & _)).
  - intros m [i movName] Hi [complete Hm]. simpl in Hi.
    destruct (lookup_lt_is_Some_2 rows i Hi) as [row Hrow].
    rewrite Forall_forall in Hrows, Hlens.
    assert (row ∈ rows) as Hin by (apply list_elem_of_lookup; by eexists).
    destruct (Hrows row Hin) as [Hs Hcells].
    pose proof (fillGrid_row_total rows n m i movName row Hrow Hs Hcells
                  (Hlens row Hin)) as Hok.
    destruct (fillGrid_row rows n m (i, movName)) as [m'|] eqn:Hstep; [|done].
    exists m'. split; [done|]. exists (complete ++ [movName])%list.
    by eapply fillGrid_row_filled.
  - apply Forall_forall. intros [i movName] Hin.
    apply list_elem_of_lookup in Hin as [k Hk].
    rewrite list_lookup_imap in Hk. unfold getElementsOfDimention0 in Hk. simpl in Hk.
    destruct (names !! k) eqn:Hnk; [|done]. injection Hk as <- <-. simpl.
    rewrite <- Hlen. by eapply lookup_lt_Some.
  - exists []. split; [done|]. split; [done|]. split; [apply map_Forall_empty|].
    intros g t Hg. by apply elem_of_nil in Hg.
  - by exists ma'.
Qed.

Lemma getNumTimeIntervals_None {D} (signalData : SignalData D) :
  getNumTimeIntervals signalData = None → signalTiming signalData = [].
Proof.
  unfold getNumTimeIntervals, iterSignalTiming.
  by destruct (signalTiming signalData).
Qed.

(** X10: on a sheet whose text cells are ASCII, the only failures of
    [getPhasingData] are [ParsingCardError], the [IndexError] of the
    reader on a cell that the sheet lacks and, on a card without any
    period, the [TypeError] of the message that cannot be formatted.  Once
    the rows read have passed its checks (two rows at least, of equal
    lengths, with as many cells as the first period has durations) the
    grid is always built: [fillPhaseInfo] stays within each row, every
    index is in range, and neither the failure on a phase status that
    cannot be interpreted nor the one on a number of intervals that is
    zero can occur. *)
Theorem getPhasingData_failures {D} (str_of_float : D → string) (sheet : Sheet D)
    (signalData : SignalData D) :
  asciiSheet sheet →
  (∀ e, getPhasingData str_of_float sheet signalData = Fail e →
        e = Std ParsingCardError
        ∨ (e = Std IndexError ∧ ∃ r c, sheet r c = None)
        ∨ (e = TypeError ∧ signalTiming signalData = []))
  ∧ getPhasingData str_of_float sheet signalData ≠ OutOfFuel
  ∧ (∀ startX startY endX endY c0 c1 names rows row0,
       phaseSeqCell signalData = Some (startX, startY) →
       sigInterCell signalData = Some (endX, endY) →
       colPhaseData signalData = Some c0 → c0 ≠ 0 →
       lastColPhaseData signalData = Some c1 → c1 ≠ 0 →
       for_each (range (startX + 1) endX)
                (getPhasingData_row str_of_float sheet startY c0 c1) ([], [])
       = Ok (names, rows) →
       head rows = Some row0 → (2 ≤ length rows)%nat → raggedRows rows = false →
       getNumTimeIntervals signalData = Some (length row0) →
       ∃ ma, getPhasingData str_of_float sheet signalData = Done ma
             ∧ ma_movements ma = names ∧ ma_numIntervals ma = length row0).
Proof.
  intros _.
  assert (Hfilled : ∀ startY c0 c1 rowIndices names rows row0,
       for_each rowIndices
                (getPhasingData_row str_of_float sheet startY c0 c1) ([], [])
       = Ok (names, rows) →
       head rows = Some row0 → raggedRows rows = false →
       length row0 ≠ 0%nat
       ∧ ∃ ma, for_each (imap (λ i movName, (i, movName)) names)
                        (fillGrid_row rows (length row0))
                        {| ma_movements := names; ma_numIntervals := length row0;
                           ma_data := ∅ |} = Ok ma
               ∧ ma_movements ma = names ∧ ma_numIntervals ma = length row0).
  { intros startY c0 c1 rowIndices names rows row0 Hloop Hhead Hrag.
    pose proof (getPhasingData_rows str_of_float sheet startY c0 c1 rowIndices)
      as Hinv.
    rewrite Hloop in Hinv. destruct Hinv as [Hlen Hrows]. simpl in Hlen, Hrows.
    pose proof (raggedRows_lengths rows row0 Hrag Hhead) as Hlens.
    split.
    - destruct rows as [|r rows]; [done|]. simpl in Hhead. injection Hhead as ->.
      apply Forall_cons in Hrows as [[(x & Hin & _) _] _].
      destruct row0; [by apply elem_of_nil in Hin|done].
    - exact (fillGrid_total names rows (length row0) Hlen Hrows Hlens). }
  split; [|split].
  - intros e. unfold getPhasingData.
    destruct (phaseSeqCell signalData) as [[startX startY]|];
      cbn [from_option lift mbind outcome_bind]; [|intros [= <-]; by left].
    destruct (sigInterCell signalData) as [[endX endY]|];
      cbn [from_option lift mbind outcome_bind]; [|intros [= <-]; by left].
    destruct (truthyZ (colPhaseData signalData));
      cbn [lift mbind outcome_bind]; [|intros [= <-]; by left].
    destruct (colPhaseData signalData) as [c0|];
      cbn [from_option lift mbind outcome_bind]; [|intros [= <-]; by left].
    destruct (truthyZ (lastColPhaseData signalData));
      cbn [lift mbind outcome_bind]; [|intros [= <-]; by left].
    destruct (lastColPhaseData signalData) as [c1|];
      cbn [from_option lift mbind outcome_bind]; [|intros [= <-]; by left].
    pose proof (getPhasingData_rows str_of_float sheet startY c0 c1
                  (range (startX + 1) endX)) as Hinv.
    destruct (for_each (range (startX + 1) endX)
                (getPhasingData_row str_of_float sheet startY c0 c1) ([], []))
      as [[names rows]|e'] eqn:Hloop; cbn [lift mbind outcome_bind];
      [|intros [= <-]; destruct Hinv as [-> Hmiss]; right; by left].
    destruct (head rows) as [row0|] eqn:Hhead;
      cbn [from_option lift mbind outcome_bind]; [|intros [= <-]; by left].
    destruct (length row0 =? 0)%nat; [intros [= <-]; by left|].
    destruct (length rows <=? 1)%nat; [intros [= <-]; by left|].
    destruct (raggedRows rows) eqn:Hrag; [intros [= <-]; by left|].
    destruct (getNumTimeIntervals signalData) as [n|] eqn:Hnum;
      [|intros [= <-]; right; right; split; [done|];
        by apply getNumTimeIntervals_None].
    destruct (n =? length row0)%nat; cbn [negb]; [|intros [= <-]; by left].
    destruct (Hfilled startY c0 c1 _ names rows row0 Hloop Hhead Hrag)
      as (_ & ma & Hfill & _).
    unfold getElementsOfDimention0. cbn [ma_movements].
    by rewrite Hfill.
  - unfold getPhasingData.
    repeat match goal with
           | |- context [lift ?m] => destruct m as [?|?]; cbn [lift mbind outcome_bind];
                                     [|done]
           | |- (let '(_, _) := ?p in _) ≠ _ => destruct p
           | |- (if ?b then _ else _) ≠ _ => destruct b; [done|]
           | |- match ?o with Some _ => _ | None => _ end ≠ _ => destruct o; [|done]
           end.
    all: try done.
  - intros startX startY endX endY c0 c1 names rows row0
           Hseq Hint Hc0 Hc0ne Hc1 Hc1ne Hloop Hhead Htwo Hrag Hnum.
    destruct (Hfilled startY c0 c1 _ names rows row0 Hloop Hhead Hrag)
      as (Hn & ma & Hfill & Hnames & Hcount).
    exists ma. split; [|done]. unfold getPhasingData.
    rewrite Hseq, Hint, Hc0, Hc1. cbn [from_option lift mbind outcome_bind truthyZ].
    apply Z.eqb_neq in Hc0ne, Hc1ne. rewrite Hc0ne, Hc1ne.
    cbn [negb lift mbind outcome_bind]. rewrite Hloop. cbn [lift mbind outcome_bind].
    rewrite Hhead. cbn [from_option lift mbind outcome_bind].
    apply Nat.eqb_neq in Hn. rewrite Hn.
    destruct (Nat.leb_spec (length rows) 1) as [|_]; [lia|].
    rewrite Hrag, Hnum, Nat.eqb_refl. cbn [negb].
    unfold getElementsOfDimention0. cbn [ma_movements].
    by rewrite Hfill.
Qed.

Import Samples.

Lemma phasingSheet_ascii : asciiSheet phasingSheet.
Proof.
  intros r c s H. unfold phasingSheet in H.
  repeat match type of H with
         | context [if ?b then _ else _] => destruct b
         end; by simplify_eq.
Qed.

Lemma getPhasingData_failures_witness :
  ∃ ma, getPhasingData Exact.str_of_float phasingSheet phasingCard = Done ma
        ∧ ma_movements ma = ["MAIN EB"; "CROSS NB"]
        ∧ ma_numIntervals ma = length ["G"; ""].
Proof.
  apply (proj2 (proj2 (getPhasingData_failures Exact.str_of_float phasingSheet
                         phasingCard phasingSheet_ascii))
           0 0 3 0 1 2 ["MAIN EB"; "CROSS NB"] [["G"; ""]; ["R"; "G"]] ["G"; ""]);
    try done.
Defined.

(** ** More on the phase synthesizer *)

(** X11: in any arithmetic of the durations, binary64 included,
    [getPhases] returns on every card whose selected period is well
    formed: one phase at least and N at most when the grid has N >= 2
    intervals, and no phase at all when it has a single interval. *)
Theorem getPhases_returns {D} (dzero : D) (dadd : D → D → D) (sd : SignalData D)
    (startHour endHour : Time) ma timing :
  phasingData sd = Some ma →
  selectCSO sd startHour endHour = Some timing →
  wellFormed ma (times timing) →
  (1 ≤ ma_numIntervals ma)%nat →
  ∃ phases,
    getPhases dzero dadd sd startHour endHour = Ok phases
    ∧ (length phases ≤ ma_numIntervals ma)%nat
    ∧ (phases = [] ↔ ma_numIntervals ma = 1%nat).
Proof.
  intros Hma Hsel Hwf Hn. rewrite (getPhases_unfold _ _ _ _ _ _ _ Hma Hsel).
  destruct (decide (ma_numIntervals ma = 1%nat)) as [H1|H1].
  - exists []. destruct Hwf as [_ Hlen]. unfold synthesize, getElementsOfDimention1.
    rewrite H1 in *. destruct (times timing) as [|d [|? ?]]; try done.
    split; [done|]. split; [simpl; lia|done].
  - destruct (synthesize_inv dzero dadd ma
                (λ phases _ seen, (length phases < length seen)%nat))
      with (durations := times timing) as (p' & phases' & -> & Hcount).
    + intros movs d. simpl. lia.
    + intros cG cY d p phases p' phases' seen Hlt Hstep.
      destruct Hstep; rewrite ?length_app; simpl; lia.
    + done.
    + lia.
    + exists (phases' ++ [p'])%list. split; [done|].
      destruct Hwf as [_ Hlen]. rewrite length_app. simpl. split; [lia|].
      split; [|done]. intros Hnil. by destruct phases'.
Qed.

Lemma getPhases_returns_witness :
  ∃ phases,
    Binary64.getPhases (cardOf mainCrossGrid mainCrossTimes) (mkTime 7 0) (mkTime 9 0)
    = Ok phases
    ∧ (length phases ≤ ma_numIntervals mainCrossGrid)%nat
    ∧ (phases = [] ↔ ma_numIntervals mainCrossGrid = 1%nat).
Proof.
  apply (getPhases_returns 0%float PrimFloat.add (cardOf mainCrossGrid mainCrossTimes)
           (mkTime 7 0) (mkTime 9 0) mainCrossGrid
           {| cso := PyStr "111"; cycle := PyNone; offset := PyInt 0;
              isActuated := false; startTime := mkTime 0 0;
              endTime := mkTime 23 59; times := mainCrossTimes |}).
  - reflexivity.
  - reflexivity.
  - apply knownStatesb_wellFormed; [vm_compute|]; reflexivity.
  - simpl. lia.
Defined.

(** X12: the durations of a period beyond the number of intervals of the
    grid are ignored by the synthesizer. *)
Theorem synthesize_ignores_extra {D} (dzero : D) (dadd : D → D → D)
    (ma : MultiArray) (durations extra : list D) :
  length durations = ma_numIntervals ma →
  synthesize dzero dadd ma (durations ++ extra)
  = synthesize dzero dadd ma durations.
Proof.
  intros Hlen. unfold synthesize, getElementsOfDimention1.
  destruct (last (seqZ 1 (Z.of_nat (ma_numIntervals ma)))) as [lastIndex|];
    cbn [from_option mbind result_bind]; [|done].
  replace (zip (seqZ 1 (Z.of_nat (ma_numIntervals ma))) (durations ++ extra))
    with (zip (seqZ 1 (Z.of_nat (ma_numIntervals ma))) durations); [done|].
  rewrite <- (app_nil_r (seqZ 1 (Z.of_nat (ma_numIntervals ma)))) at 2.
  rewrite zip_with_app by (rewrite length_seqZ; lia).
  by rewrite app_nil_r.
Qed.

(** ** More on the timing-table parser *)

(** X13: whenever the cycle, offset and actuation of a row are read
    without failure, the record carries the code of the row, an offset
    that is the integer 0 or the number parsed from the offset cell, and
    a cycle that is a parsed number exactly when the period is not
    actuated (an actuated period holds 0, the default -1 or None); its
    operating times are still the 23:59 of a fresh record and it has no
    durations yet. *)
Theorem classifyCso_invariants {D} (float_of_str : string → option D)
    (strCso strCycle strOffset : string) (st : ExcelSignalTiming D) :
  classifyCso float_of_str strCso strCycle strOffset = Ok st →
  cso st = PyStr strCso
  ∧ (offset st = PyInt 0
     ∨ ∃ x, offset st = PyFloat x ∧ float_of_str strOffset = Some x)
  ∧ (isActuated st = false ↔ ∃ x, cycle st = PyFloat x)
  ∧ (∀ x, cycle st = PyFloat x → float_of_str strCycle = Some x)
  ∧ times st = [] ∧ startTime st = mkTime 23 59 ∧ endTime st = mkTime 23 59.
Proof.
  unfold classifyCso, float_str, catch.
  assert (Hdone : ∀ st0 : ExcelSignalTiming D,
            cso st0 = PyStr strCso →
            (offset st0 = PyInt 0
             ∨ ∃ x, offset st0 = PyFloat x ∧ float_of_str strOffset = Some x) →
            (isActuated st0 = false ↔ ∃ x, cycle st0 = PyFloat x) →
            (∀ x, cycle st0 = PyFloat x → float_of_str strCycle = Some x) →
            times st0 = [] → startTime st0 = mkTime 23 59 →
            endTime st0 = mkTime 23 59 →
            Ok st0 = Ok st →
            cso st = PyStr strCso
            ∧ (offset st = PyInt 0
               ∨ ∃ x, offset st = PyFloat x ∧ float_of_str strOffset = Some x)
            ∧ (isActuated st = false ↔ ∃ x, cycle st = PyFloat x)
            ∧ (∀ x, cycle st = PyFloat x → float_of_str strCycle = Some x)
            ∧ times st = [] ∧ startTime st = mkTime 23 59
            ∧ endTime st = mkTime 23 59).
  { by intros st0 ? ? ? ? ? ? ? [= <-]. }
  destruct (endswith strCso "-" && (String.length strCso =? 3)%nat
            && negb (String.eqb strCycle "--")).
  { destruct (endswith strCso "--").
    - apply Hdone; simpl; try done; [by left|split; [done|by intros [x Hx]]].
    - destruct (float_of_str strCycle) as [c|] eqn:Hc; simpl; [|done].
      apply Hdone; simpl; try done;
        [by left|split; [by eexists|done]|by intros x [= <-]]. }
  destruct (endswith strCso "--" && (String.length strCso =? 4)%nat
            && String.eqb strCycle "--").
  { destruct (float_of_str strCycle) as [c|] eqn:Hc; simpl; [|done].
    apply Hdone; simpl; try done;
      [by left|split; [by eexists|done]|by intros x [= <-]]. }
  destruct (String.eqb strCso "FREE" || String.eqb strCso "free").
  { apply Hdone; simpl; try done; [by left|split; [done|by intros [x Hx]]]. }
  destruct (contains "-" strCycle).
  - simpl. destruct (contains "-" strOffset); simpl.
    + apply Hdone; simpl; try done; [by left|split; [done|by intros [x Hx]]].
    + destruct (float_of_str strOffset) as [o|] eqn:Ho; simpl; [|done].
      apply Hdone; simpl; try done;
        [right; by eexists|split; [done|by intros [x Hx]]].
  - destruct (float_of_str strCycle) as [c|] eqn:Hc; simpl; [|done].
    destruct (contains "-" strOffset); simpl.
    + apply Hdone; simpl; try done;
        [by left|split; [by eexists|done]|by intros x [= <-]].
    + destruct (float_of_str strOffset) as [o|] eqn:Ho; simpl; [|done].
      apply Hdone; simpl; try done;
        [right; by eexists|split; [by eexists|done]|by intros x [= <-]].
Qed.

Lemma classifyCso_invariants_witness :
  ∃ st, Exact.classifyCso "211" "60" "25" = Ok st
        ∧ cso st = PyStr "211"
        ∧ (offset st = PyInt 0
           ∨ ∃ x, offset st = PyFloat x ∧ Exact.float_of_str "25" = Some x)
        ∧ (isActuated st = false ↔ ∃ x, cycle st = PyFloat x)
        ∧ (∀ x, cycle st = PyFloat x → Exact.float_of_str "60" = Some x)
        ∧ times st = [] ∧ startTime st = mkTime 23 59 ∧ endTime st = mkTime 23 59.
Proof.
  eexists. split; [reflexivity|].
  apply (classifyCso_invariants Exact.float_of_str "211" "60" "25"). reflexivity.
Defined.

Lemma matchFirstCharacter_key keys strCsoSub acc :
  matchFirstCharacter keys strCsoSub acc = acc
  ∨ ∃ key, key ∈ keys ∧ matchFirstCharacter keys strCsoSub acc = (true, key).
Proof.
  unfold matchFirstCharacter. revert acc.
  induction keys as [|k keys IH]; intros acc; [by left|]. simpl.
  destruct (String.eqb (take 1 k) strCsoSub).
  - destruct (IH (true, k)) as [->|(key & Hkey & ->)].
    + right. exists k. split; [apply list_elem_of_here|done].
    + right. exists key. split; [by apply list_elem_of_further|done].
  - destruct (IH acc) as [->|(key & Hkey & ->)]; [by left|].
    right. exists key. split; [by apply list_elem_of_further|done].
Qed.

Lemma matchFreeCso_key keys acc :
  matchFreeCso keys acc = acc
  ∨ ∃ key, key ∈ keys ∧ matchFreeCso keys acc = (true, key).
Proof.
  unfold matchFreeCso. revert acc.
  induction keys as [|k keys IH]; intros acc; [by left|]. simpl.
  assert ((if String.eqb (take 1 k) "1" then (true, k) else (true, k)) = (true, k))
    as -> by (by destruct (String.eqb _ _)).
  destruct (IH (true, k)) as [->|(key & Hkey & ->)].
  - right. exists k. split; [apply list_elem_of_here|done].
  - right. exists key. split; [by apply list_elem_of_further|done].
Qed.

Lemma lookupTiming_key {D} key (timings : list (string * ExcelSignalTiming D)) :
  key ∈ timings.*1 →
  ∃ timing, lookupTiming key timings = Ok timing ∧ (key, timing) ∈ timings.
Proof.
  induction timings as [|[k v] timings IH]; intros Hin; [by apply elem_of_nil in Hin|].
  simpl. destruct (String.eqb_spec k key) as [->|Hne].
  - exists v. split; [done|apply list_elem_of_here].
  - apply elem_of_cons in Hin as [Heq|Hin]; [by simpl in Heq|].
    destruct (IH Hin) as (timing & -> & Ht). exists timing.
    split; [done|by apply list_elem_of_further].
Qed.

Lemma storeTiming_keys {D} key v (timings : list (string * ExcelSignalTiming D)) :
  (storeTiming key v timings).*1 = timings.*1.
Proof.
  induction timings as [|[k v0] timings IH]; [done|]. simpl.
  destruct (String.eqb k key); simpl; [done|]. by f_equal.
Qed.

(** X14: the code that [getOperationTimes] resolves for a row is always a
    key of the dictionary of periods, so the lookup of its period never
    fails; and a row leaves the keys of the dictionary, and their order,
    as they are. *)
Theorem getOperationTimes_row_keys {D} (str_of_float : D → string)
    (int_of_float : D → result Z) (float_bool : D → bool)
    (readClockTimes : cell D → timesFlags → ExcelSignalTiming D
                      → result (timesFlags * ExcelSignalTiming D))
    (sheet : Sheet D) (firstColumn colPhaseData0 y k : Z)
    (timings : list (string * ExcelSignalTiming D)) :
  (∀ cso0 key,
     resolveCso str_of_float sheet timings.*1 k y cso0 = Ok (CsoFound key) →
     ∃ timing, lookupTiming key timings = Ok timing ∧ (key, timing) ∈ timings)
  ∧ (∀ timings',
       getOperationTimes_row str_of_float int_of_float float_bool readClockTimes
         sheet firstColumn colPhaseData0 y timings k = Ok timings' →
       timings'.*1 = timings.*1).
Proof.
  split.
  - intros cso0 key Hres. apply lookupTiming_key.
    unfold resolveCso in Hres.
    destruct (String.eqb (String.concat "" cso0) ""); [done|].
    set (sub := String.concat "" (List.firstn 1 cso0)) in *.
    destruct (matchFirstCharacter_key timings.*1 sub (false, String.concat "" cso0))
      as [Hsame|(key1 & Hkey1 & Hfound)].
    + rewrite Hsame in Hres. cbn [negb] in Hres.
      destruct (String.get 0 sub) as [c|]; cbn [from_option mbind result_bind] in Hres;
        [|done].
      destruct (Ascii.eqb c "F" || Ascii.eqb c "-").
      * cbn [mbind result_bind] in Hres.
        destruct (matchFreeCso_key timings.*1 (false, String.concat "" cso0))
          as [Hsame2|(key2 & Hkey2 & Hfound2)].
        -- by rewrite Hsame2 in Hres.
        -- rewrite Hfound2 in Hres. by injection Hres as <-.
      * destruct (cell_value sheet k (y - 11)); cbn [mbind result_bind] in Hres;
          [|done].
        by destruct (String.eqb _ "P").
    + rewrite Hfound in Hres. cbn [negb mbind result_bind] in Hres.
      by injection Hres as <-.
  - intros timings'. unfold getOperationTimes_row.
    destruct (readCso _ _ _ _ _ _) as [cso0|]; cbn [mbind result_bind]; [|done].
    destruct (resolveCso _ _ _ _ _ _) as [[| |key]|]; cbn [mbind result_bind];
      try done; try (by intros [= <-]).
    destruct (lookupTiming key timings) as [timing|]; cbn [mbind result_bind]; [|done].
    destruct (setTimes _ _ _ _ _ _ _ _) as [timing'|]; cbn [mbind result_bind]; [|done].
    intros [= <-]. apply storeTiming_keys.
Qed.

(** ** More on the movement classifier *)

Import Classifier.

Lemma foldl_dirEntry result0 (ss : list (string * bool)) :
  foldl dirEntry result0 ss
  = (result0 ++ (filter (λ s, s.2 = true) ss).*1)%list.
Proof.
  revert result0. induction ss as [|[dir b] ss IH]; intros result0; simpl.
  - by rewrite app_nil_r.
  - rewrite IH. unfold dirEntry. simpl. destruct b.
    + rewrite filter_cons_True by done. simpl. by rewrite <- app_assoc.
    + by rewrite filter_cons_False by done.
Qed.

Lemma foldl_turnEntry_false st (ss : list (list string * nat * nat)) :
  (foldl (turnEntry false) st ss).1
  = (st.1 ++ (ss ≫= λ s, copies s.1.2 s.1.1))%list.
Proof.
  revert st. induction ss as [|[[dir h] n] ss IH]; intros st; simpl.
  - by rewrite app_nil_r.
  - rewrite IH. simpl. rewrite andb_false_r, Nat.add_0_r.
    by rewrite <- app_assoc.
Qed.

(** X15: for every label, the directions that [getDirections] returns,
    and the turn types that [groupMovementToTurnType] returns when the
    right turns are not added to the through movements, are the same up
    to their order in whatever order the two dictionaries, and the
    indicators within their entries, are iterated: the tests of the form
    [x in result] made on them do not depend on that order. *)
Theorem classification_order_independent (ditems : list (string * list string))
    (items : list (list string * list string)) (gMovName : string) :
  reordered directionIndicators ditems →
  reordered turnIndicators items →
  getDirections_items ditems gMovName
  ≡ₚ getDirections_items directionIndicators gMovName
  ∧ groupMovementToTurnType_items items gMovName false
    ≡ₚ groupMovementToTurnType_items turnIndicators gMovName false
  ∧ (∀ x, inlist x (getDirections_items ditems gMovName)
          = inlist x (getDirections_items directionIndicators gMovName))
  ∧ (∀ x, inlist x (groupMovementToTurnType_items items gMovName false)
          = inlist x (groupMovementToTurnType_items turnIndicators gMovName false)).
Proof.
  intros Hd Ht.
  assert (getDirections_items ditems gMovName
          ≡ₚ getDirections_items directionIndicators gMovName) as Hdirs.
  { apply (reordered_summary (dirSummary gMovName) _ _
             (dirSummary_reorder gMovName)) in Hd.
    rewrite !getDirections_items_summary, !foldl_dirEntry. cbn [app].
    by rewrite Hd. }
  assert (groupMovementToTurnType_items items gMovName false
          ≡ₚ groupMovementToTurnType_items turnIndicators gMovName false) as Hturns.
  { apply (reordered_summary (turnSummary gMovName) _ _
             (turnSummary_reorder gMovName)) in Ht.
    rewrite !groupMovementToTurnType_items_summary, !foldl_turnEntry_false.
    cbn [fst app]. by rewrite Ht. }
  split; [done|]. split; [done|]. split.
  - intros x. unfold inlist. apply bool_decide_ext. by rewrite Hdirs.
  - intros x. unfold inlist. apply bool_decide_ext. by rewrite Hturns.
Qed.

Lemma classification_order_independent_witness :
  let label := "MARKET ST. E/B LEFT TURN" in
  getDirections_items directionIndicators label
  ≡ₚ getDirections_items directionIndicators label
  ∧ groupMovementToTurnType_items rightTurnsFirst label false
    ≡ₚ groupMovementToTurnType_items turnIndicators label false
  ∧ (∀ x, inlist x (getDirections_items directionIndicators label)
          = inlist x (getDirections_items directionIndicators label))
  ∧ (∀ x, inlist x (groupMovementToTurnType_items rightTurnsFirst label false)
          = inlist x (groupMovementToTurnType_items turnIndicators label false)).
Proof.
  apply (classification_order_independent directionIndicators rightTurnsFirst
           "MARKET ST. E/B LEFT TURN").
  - apply reordered_refl.
  - exists turnIndicators. split.
    + repeat constructor.
    + unfold turnIndicators, rightTurnsFirst.
      etransitivity; [apply perm_swap|]. etransitivity; [apply perm_skip, perm_swap|].
      apply perm_swap.
Defined.

Lemma synthesize_ignores_extra_witness :
  Binary64.synthesize mainCrossGrid (mainCrossTimes ++ [4%float; 2%float])
  = Binary64.synthesize mainCrossGrid mainCrossTimes.
Proof.
  apply (synthesize_ignores_extra 0%float PrimFloat.add mainCrossGrid mainCrossTimes
           [4%float; 2%float]).
  reflexivity.
Defined.

Lemma getOperationTimes_row_keys_witness :
  ∃ timing,
    lookupTiming "211" (signalTiming (cardOf mainCrossGrid mainCrossTimesExact)
                        ++ [("211", morningPeak)])
    = Ok timing
    ∧ ("211", timing) ∈ (signalTiming (cardOf mainCrossGrid mainCrossTimesExact)
                         ++ [("211", morningPeak)])%list.
Proof.
  apply (proj1 (getOperationTimes_row_keys Exact.str_of_float Exact.int_of_float
                  Exact.float_bool noClockTimes blankSheet 0 3 3 1
                  (signalTiming (cardOf mainCrossGrid mainCrossTimesExact)
                   ++ [("211", morningPeak)]))
           ["2"; "1"; "1"] "211").
  reflexivity.
Defined.

(** ** Clock times of a period *)

Lemma eqb_digit c x : isdigit c = false → isdigit x = true → Ascii.eqb c x = false.
Proof.
  intros Hc Hx. destruct (Ascii.eqb_spec c x) as [->|]; [congruence|done].
Qed.

Lemma isspace_digit x : isdigit x = true → isspace x = false.
Proof.
  unfold isdigit, isspace. cbv zeta. intros H.
  apply andb_true_iff in H as [H1 H2].
  apply Nat.leb_le in H1, H2.
  apply orb_false_iff. split.
  - apply andb_false_iff. right. apply Nat.leb_gt. lia.
  - apply Nat.eqb_neq. lia.
Qed.

Lemma digit_isdigit n : 0 ≤ n < 10 → isdigit (digit n) = true.
Proof.
  intros H.
  assert (n = 0 ∨ n = 1 ∨ n = 2 ∨ n = 3 ∨ n = 4 ∨ n = 5 ∨ n = 6 ∨ n = 7
          ∨ n = 8 ∨ n = 9) as Hn by lia.
  repeat destruct Hn as [->|Hn]; try reflexivity. by subst.
Qed.

Lemma prefix_mentions c p s :
  String.prefix p s = true → mentions c p = true → mentions c s = true.
Proof.
  revert s. induction p as [|a p IH]; intros s Hp Hc; [done|].
  destruct s as [|b s]; [done|].
  rewrite prefix_String in Hp. apply andb_true_iff in Hp as [Hab Hp].
  apply Ascii.eqb_eq in Hab as ->.
  cbn [mentions] in *. apply orb_true_iff in Hc as [Hc|Hc].
  - by rewrite Hc.
  - rewrite (IH s Hp Hc). by rewrite orb_true_r.
Qed.

Lemma contains_absent c p s :
  mentions c p = true → mentions c s = false → contains p s = false.
Proof.
  intros Hp. induction s as [|x s IH]; intros Hs.
  - destruct p; [done|]. reflexivity.
  - cbn [contains]. cbn [mentions] in Hs. apply orb_false_iff in Hs as [Hx Hs].
    rewrite (IH Hs), orb_false_r.
    destruct (String.prefix p (String x s)) eqn:E; [|done].
    pose proof (prefix_mentions c _ _ E Hp) as H. cbn [mentions] in H.
    rewrite Hx, Hs in H. done.
Qed.

Lemma contains_char c s : contains (String c "") s = mentions c s.
Proof.
  induction s as [|x s IH]; [done|].
  cbn [contains mentions]. by rewrite prefix_String, prefix_nil, andb_true_r, IH.
Qed.

Lemma contains_skip c p x s :
  Ascii.eqb c x = false →
  contains (String c p) (String x s) = contains (String c p) s.
Proof. intros H. cbn [contains]. by rewrite prefix_String, H. Qed.

Lemma contains_here p s : String.prefix p s = true → contains p s = true.
Proof. intros H. destruct s; cbn [contains]; by rewrite H. Qed.

Lemma index_skip c p x s :
  Ascii.eqb c x = false →
  String.index 0 (String c p) (String x s) = S <$> String.index 0 (String c p) s.
Proof.
  intros H. cbn [String.index].
  change ((if String.prefix (String c p) (String x s) then Some 0%nat
           else match String.index 0 (String c p) s with
                | Some n => Some (S n) | None => None end)
          = S <$> String.index 0 (String c p) s).
  rewrite prefix_String, H. cbn [andb]. by destruct (String.index 0 (String c p) s).
Qed.

Lemma index_here p x s :
  String.prefix p (String x s) = true → String.index 0 p (String x s) = Some 0%nat.
Proof.
  intros H. cbn [String.index].
  change ((if String.prefix p (String x s) then Some 0%nat
           else match String.index 0 p s with
                | Some n => Some (S n) | None => None end) = Some 0%nat).
  by rewrite H.
Qed.

Ltac digits_eqb :=
  repeat match goal with
  | H : isdigit ?x = true |- context [Ascii.eqb ?c ?x] =>
    rewrite (eqb_digit c x eq_refl H)
  end.

(** [contains p s = false] because the character [c] of [p] is not in [s]. *)
Ltac absent c :=
  apply (contains_absent c);
  [reflexivity
  |repeat match goal with x := _ |- _ => subst x end;
   cbn [mentions]; digits_eqb; reflexivity].

Ltac neq_solve := first [reflexivity|apply eqb_digit; [reflexivity|assumption]].

(** [contains p s = true] at the first position where [p] can start. *)
Ltac present :=
  repeat match goal with x := _ |- _ => subst x end;
  repeat (rewrite contains_skip by neq_solve);
  apply contains_here; reflexivity.

(** [find s p] at the first position where [p] can start. *)
Ltac find_at :=
  repeat match goal with x := _ |- _ => subst x end;
  unfold StreetNames.find;
  repeat (rewrite index_skip by neq_solve);
  rewrite index_here by reflexivity; reflexivity.

(** Case analysis on the outcomes of [int] and of the constructor of times
    in a chain of binds. *)
Ltac run_binds nt simp :=
  repeat first
    [ reflexivity
    | progress simp
    | match goal with
      | |- context [from_option Done ?d (?f ?s)] =>
        destruct (f s); cbn [from_option mbind outcome_bind]
      | |- context [mbind _ (nt ?a ?b)] =>
        destruct (nt a b); cbn [mbind outcome_bind]
      end ].

Section ClockFacts.

Context {D : Type}.
Variable newTime : Z → Z → outcome Time.
Variable int_of_str : string → option Z.

Lemma clockText_hhmm_dash x1 x2 x3 x4 y1 y2 y3 y4 flags (timing : ExcelSignalTiming D) :
  isdigit x1 = true → isdigit x2 = true → isdigit x3 = true → isdigit x4 = true →
  isdigit y1 = true → isdigit y2 = true → isdigit y3 = true → isdigit y4 = true →
  gotStartTime flags = false →
  clockText newTime int_of_str
    (String x1 (String x2 (String x3 (String x4 (String "-"
      (String y1 (String y2 (String y3 (String y4 "")))))))))
    flags timing
  = (startTime1 ← int int_of_str (String x1 (String x2 ""));
     startTime2 ← int int_of_str (String x3 (String x4 ""));
     endTime1 ← int int_of_str (String y1 (String y2 ""));
     endTime2 ← int int_of_str (String y3 (String y4 ""));
     s ← newTime startTime1 startTime2;
     e ← newTime endTime1 endTime2;
     Done (set_gotStartTime flags, set_startEnd s e timing)).
Proof.
  intros Hx1 Hx2 Hx3 Hx4 Hy1 Hy2 Hy3 Hy4 Hflags.
  set (txt := String x1 _).
  assert (contains "event" txt = false) as He1 by absent "e"%char.
  assert (contains "Event" txt = false) as He2 by absent "E"%char.
  assert (contains "Game" txt = false) as He3 by absent "G"%char.
  assert (contains "TIMES" txt = false) as He4 by absent "T"%char.
  assert (contains "Times" txt = false) as He5 by absent "T"%char.
  assert (contains ":" txt = false) as Hc by absent ":"%char.
  assert (contains " - " txt = false) as Hs by absent " "%char.
  assert (contains "-" txt = true) as Hd.
  { rewrite contains_char. subst txt. cbn [mentions]. digits_eqb. reflexivity. }
  assert (strip txt = txt) as Hstrip.
  { subst txt. unfold strip. cbn [lstrip]. rewrite (isspace_digit x1 Hx1).
    cbn. rewrite (isspace_digit y4 Hy4). cbn. reflexivity. }
  unfold clockText. rewrite He1, He2, He3, He4, He5, Hflags, Hd, Hc, Hs.
  cbn [orb andb negb].
  assert (clockByPosition newTime int_of_str txt 5 7 false flags timing
          = (startTime1 ← int int_of_str (String x1 (String x2 ""));
             startTime2 ← int int_of_str (String x3 (String x4 ""));
             endTime1 ← int int_of_str (String y1 (String y2 ""));
             endTime2 ← int int_of_str (String y3 (String y4 ""));
             s ← newTime startTime1 startTime2;
             e ← newTime endTime1 endTime2;
             Done (txt, set_gotStartTime flags, set_startEnd s e timing))) as ->.
  { unfold clockByPosition. rewrite Hstrip. reflexivity. }
  unfold int.
  run_binds newTime ltac:(rewrite ?Hs, ?Hd, ?Hc; cbn [andb negb mbind outcome_bind]).
Qed.


Lemma clockText_hhmm_spaced x1 x2 x3 x4 y1 y2 y3 y4 flags (timing : ExcelSignalTiming D) :
  isdigit x1 = true → isdigit x2 = true → isdigit x3 = true → isdigit x4 = true →
  isdigit y1 = true → isdigit y2 = true → isdigit y3 = true → isdigit y4 = true →
  gotStartTime flags = false →
  clockText newTime int_of_str
    (String x1 (String x2 (String x3 (String x4 (String " " (String "-" (String " "
      (String y1 (String y2 (String y3 (String y4 "")))))))))))
    flags timing
  = (startTime1 ← int int_of_str (String x1 (String x2 ""));
     startTime2 ← int int_of_str (String x3 (String x4 ""));
     endTime1 ← int int_of_str (String y1 (String y2 ""));
     endTime2 ← int int_of_str (String y3 (String y4 ""));
     s ← newTime startTime1 startTime2;
     e ← (if endTime1 =? 24 then newTime 23 59 else newTime endTime1 endTime2);
     Done (set_gotStartTime flags, set_startEnd s e timing)).
Proof.
  intros Hx1 Hx2 Hx3 Hx4 Hy1 Hy2 Hy3 Hy4 Hflags.
  set (txt := String x1 _).
  assert (contains "event" txt = false) as He1 by absent "e"%char.
  assert (contains "Event" txt = false) as He2 by absent "E"%char.
  assert (contains "Game" txt = false) as He3 by absent "G"%char.
  assert (contains "TIMES" txt = false) as He4 by absent "T"%char.
  assert (contains "Times" txt = false) as He5 by absent "T"%char.
  assert (contains ":" txt = false) as Hc by absent ":"%char.
  assert (contains " - " txt = true) as Hs by present.
  assert (contains "-" txt = true) as Hd by present.
  assert (strip txt = txt) as Hstrip.
  { subst txt. unfold strip. cbn [lstrip]. rewrite (isspace_digit x1 Hx1).
    cbn. rewrite (isspace_digit y4 Hy4). cbn. reflexivity. }
  unfold clockText. rewrite He1, He2, He3, He4, He5, Hflags, Hd, Hc, Hs.
  cbn [orb andb negb mbind outcome_bind].
  rewrite Hs, Hc. cbn [andb negb].
  assert (clockByPosition newTime int_of_str txt 7 9 true flags timing
          = (startTime1 ← int int_of_str (String x1 (String x2 ""));
             startTime2 ← int int_of_str (String x3 (String x4 ""));
             endTime1 ← int int_of_str (String y1 (String y2 ""));
             endTime2 ← int int_of_str (String y3 (String y4 ""));
             s ← newTime startTime1 startTime2;
             e ← (if endTime1 =? 24 then newTime 23 59
                  else newTime endTime1 endTime2);
             Done (txt, set_gotStartTime flags, set_startEnd s e timing))) as ->.
  { unfold clockByPosition. rewrite Hstrip.
    replace (take 2 txt) with (String x1 (String x2 "")) by reflexivity.
    replace (String.substring 2 2 txt) with (String x3 (String x4 "")) by reflexivity.
    replace (String.substring 7 2 txt) with (String y1 (String y2 "")) by reflexivity.
    replace (slice_from 9 txt) with (String y3 (String y4 "")) by reflexivity.
    unfold int.
    destruct (int_of_str (String x1 (String x2 ""))); [|done].
    destruct (int_of_str (String x3 (String x4 ""))); [|done].
    destruct (int_of_str (String y1 (String y2 ""))) as [e1|]; [|done].
    destruct (int_of_str (String y3 (String y4 ""))); [|done].
    cbn [from_option mbind outcome_bind andb].
    by destruct (e1 =? 24). }
  unfold int.
  destruct (int_of_str (String x1 (String x2 ""))) as [h1|]; [|reflexivity].
  destruct (int_of_str (String x3 (String x4 ""))) as [m1|]; [|reflexivity].
  destruct (int_of_str (String y1 (String y2 ""))) as [e1|]; [|reflexivity].
  destruct (int_of_str (String y3 (String y4 ""))) as [e2|]; [|reflexivity].
  cbn [from_option mbind outcome_bind].
  destruct (newTime h1 m1); [|reflexivity..]. cbn [mbind outcome_bind].
  destruct (if e1 =? 24 then newTime 23 59 else newTime e1 e2); [|reflexivity..].
  cbn [mbind outcome_bind]. rewrite Hd, Hc. reflexivity.
Qed.

Lemma clockBySeparator_colons x1 x2 x3 x4 y1 y2 y3 y4 (sep : string) cellValue
    stopval before after flags (timing : ExcelSignalTiming D) :
  isdigit x1 = true → isdigit x2 = true → isdigit x3 = true → isdigit x4 = true →
  isdigit y1 = true → isdigit y2 = true → isdigit y3 = true → isdigit y4 = true →
  StreetNames.upto (stopval - before) cellValue
  = String x1 (String x2 (String ":" (String x3 (String x4 "")))) →
  slice_from (Z.to_nat (stopval + after)) cellValue
  = String y1 (String y2 (String ":" (String y3 (String y4 "")))) →
  clockBySeparator newTime int_of_str cellValue stopval before after flags timing
  = (startTime1 ← int int_of_str (String x1 (String x2 ""));
     startTime2 ← int int_of_str (String x3 (String x4 ""));
     s ← newTime startTime1 startTime2;
     endTime1 ← int int_of_str (String y1 (String y2 ""));
     endTime2 ← int int_of_str (String y3 (String y4 ""));
     e ← newTime endTime1 endTime2;
     Done (flags, set_startEnd s e timing)).
Proof.
  intros Hx1 Hx2 Hx3 Hx4 Hy1 Hy2 Hy3 Hy4 Hstart Hend.
  unfold clockBySeparator. rewrite Hstart, Hend. cbv zeta.
  assert (StreetNames.find
            (String x1 (String x2 (String ":" (String x3 (String x4 ""))))) ":" = 2)
    as -> by find_at.
  assert (StreetNames.find
            (String y1 (String y2 (String ":" (String y3 (String y4 ""))))) ":" = 2)
    as -> by find_at.
  reflexivity.
Qed.

Lemma clockText_colon_dash x1 x2 x3 x4 y1 y2 y3 y4 flags (timing : ExcelSignalTiming D) :
  isdigit x1 = true → isdigit x2 = true → isdigit x3 = true → isdigit x4 = true →
  isdigit y1 = true → isdigit y2 = true → isdigit y3 = true → isdigit y4 = true →
  gotStartTime flags = false →
  clockText newTime int_of_str
    (String x1 (String x2 (String ":" (String x3 (String x4 (String "-"
      (String y1 (String y2 (String ":" (String y3 (String y4 "")))))))))))
    flags timing
  = (startTime1 ← int int_of_str (String x1 (String x2 ""));
     startTime2 ← int int_of_str (String x3 (String x4 ""));
     s ← newTime startTime1 startTime2;
     endTime1 ← int int_of_str (String y1 (String y2 ""));
     endTime2 ← int int_of_str (String y3 (String y4 ""));
     e ← newTime endTime1 endTime2;
     Done (flags, set_startEnd s e timing)).
Proof.
  intros Hx1 Hx2 Hx3 Hx4 Hy1 Hy2 Hy3 Hy4 Hflags.
  set (txt := String x1 _).
  assert (contains "event" txt = false) as He1 by absent "e"%char.
  assert (contains "Event" txt = false) as He2 by absent "E"%char.
  assert (contains "Game" txt = false) as He3 by absent "G"%char.
  assert (contains "TIMES" txt = false) as He4 by absent "T"%char.
  assert (contains "Times" txt = false) as He5 by absent "T"%char.
  assert (contains ":" txt = true) as Hc by present.
  assert (contains " - " txt = false) as Hs by absent " "%char.
  assert (contains "-" txt = true) as Hd by present.
  assert (StreetNames.find txt "-" = 5) as Hf by find_at.
  unfold clockText. rewrite He1, He2, He3, He4, He5, Hflags, Hd, Hc, Hs.
  cbn [orb andb negb mbind outcome_bind].
  rewrite ?Hd, ?Hc, ?Hs. cbn [orb andb negb mbind outcome_bind].
  rewrite ?Hd, ?Hc, ?Hf. cbn [andb].
  by apply clockBySeparator_colons.
Qed.

Lemma clockText_colon_word (w1 w2 : ascii) x1 x2 x3 x4 y1 y2 y3 y4 flags
    (timing : ExcelSignalTiming D) :
  (w1 = "T"%char ∧ w2 = "O"%char) ∨ (w1 = "t"%char ∧ w2 = "o"%char) →
  isdigit x1 = true → isdigit x2 = true → isdigit x3 = true → isdigit x4 = true →
  isdigit y1 = true → isdigit y2 = true → isdigit y3 = true → isdigit y4 = true →
  gotStartTime flags = false →
  clockText newTime int_of_str
    (String x1 (String x2 (String ":" (String x3 (String x4 (String " "
      (String w1 (String w2 (String " "
        (String y1 (String y2 (String ":" (String y3 (String y4 ""))))))))))))))
    flags timing
  = (startTime1 ← int int_of_str (String x1 (String x2 ""));
     startTime2 ← int int_of_str (String x3 (String x4 ""));
     s ← newTime startTime1 startTime2;
     endTime1 ← int int_of_str (String y1 (String y2 ""));
     endTime2 ← int int_of_str (String y3 (String y4 ""));
     e ← newTime endTime1 endTime2;
     Done (flags, set_startEnd s e timing)).
Proof.
  intros Hw Hx1 Hx2 Hx3 Hx4 Hy1 Hy2 Hy3 Hy4 Hflags.
  destruct Hw as [[-> ->]|[-> ->]].
  - set (txt := String x1 _).
    assert (contains "event" txt = false) as He1 by absent "e"%char.
    assert (contains "Event" txt = false) as He2 by absent "E"%char.
    assert (contains "Game" txt = false) as He3 by absent "G"%char.
    assert (contains "TIMES" txt = false) as He4 by absent "I"%char.
    assert (contains "Times" txt = false) as He5 by absent "i"%char.
    assert (contains ":" txt = true) as Hc by present.
    assert (contains " - " txt = false) as Hs by absent "-"%char.
    assert (contains "-" txt = false) as Hd by absent "-"%char.
    assert (contains "TO" txt = true) as Hw by present.
    assert (StreetNames.find txt "TO" = 6) as Hf by find_at.
    unfold clockText. rewrite He1, He2, He3, He4, He5, Hflags, Hd, Hc, Hs.
    cbn [orb andb negb mbind outcome_bind].
    rewrite ?Hs. cbn [orb andb negb mbind outcome_bind].
    rewrite ?Hd, ?Hc, ?Hw, ?Hf. cbn [andb].
    replace (String.length txt =? 5)%nat with false by reflexivity.
    by apply clockBySeparator_colons.
  - set (txt := String x1 _).
    assert (contains "event" txt = false) as He1 by absent "e"%char.
    assert (contains "Event" txt = false) as He2 by absent "E"%char.
    assert (contains "Game" txt = false) as He3 by absent "G"%char.
    assert (contains "TIMES" txt = false) as He4 by absent "T"%char.
    assert (contains "Times" txt = false) as He5 by absent "T"%char.
    assert (contains ":" txt = true) as Hc by present.
    assert (contains " - " txt = false) as Hs by absent "-"%char.
    assert (contains "-" txt = false) as Hd by absent "-"%char.
    assert (contains "TO" txt = false) as Hw1 by absent "T"%char.
    assert (contains "to" txt = true) as Hw by present.
    assert (StreetNames.find txt "to" = 6) as Hf by find_at.
    unfold clockText. rewrite He1, He2, He3, He4, He5, Hflags, Hd, Hc, Hs.
    cbn [orb andb negb mbind outcome_bind].
    rewrite ?Hs. cbn [orb andb negb mbind outcome_bind].
    rewrite ?Hd, ?Hc, ?Hw1, ?Hw, ?Hf. cbn [andb].
    replace (String.length txt =? 5)%nat with false by reflexivity.
    by apply clockBySeparator_colons.
Qed.


Lemma two_digits n :
  0 ≤ n < 100 → isdigit (digit (n / 10)) = true ∧ isdigit (digit (n mod 10)) = true.
Proof.
  intros H. split; apply digit_isdigit.
  - split; [apply Z.div_pos; lia|apply Z.div_lt_upper_bound; lia].
  - apply Z.mod_pos_bound. lia.
Qed.

(** X16: the five ways of writing a range of clock times with two-digit
    hours and minutes are read back as written; an end hour 24 in the
    spaced form becomes 23:59; only the two forms without a colon mark the
    start time as known. *)
Theorem clockText_reads_ranges (s e : Time) flags (timing : ExcelSignalTiming D) :
  (∀ n, 0 ≤ n < 100 → int_of_str (two n) = Some n) →
  (∀ t, validTime t → newTime (hour t) (minute t) = Done t) →
  validTime s → validTime e → gotStartTime flags = false →
  clockText newTime int_of_str (hhmm s +:+ "-" +:+ hhmm e) flags timing
  = Done (set_gotStartTime flags, set_startEnd s e timing)
  ∧ clockText newTime int_of_str (hhmm s +:+ " - " +:+ hhmm e) flags timing
    = Done (set_gotStartTime flags, set_startEnd s e timing)
  ∧ clockText newTime int_of_str (hhmm s +:+ " - 24" +:+ two (minute e)) flags timing
    = Done (set_gotStartTime flags, set_startEnd s (mkTime 23 59) timing)
  ∧ clockText newTime int_of_str (hh_mm s +:+ "-" +:+ hh_mm e) flags timing
    = Done (flags, set_startEnd s e timing)
  ∧ clockText newTime int_of_str (hh_mm s +:+ " TO " +:+ hh_mm e) flags timing
    = Done (flags, set_startEnd s e timing)
  ∧ clockText newTime int_of_str (hh_mm s +:+ " to " +:+ hh_mm e) flags timing
    = Done (flags, set_startEnd s e timing).
Proof.
  intros Hint Hnew Hs He Hflags.
  destruct s as [h1 m1], e as [h2 m2]. unfold validTime in Hs, He. simpl in Hs, He.
  destruct Hs as [Hh1 Hm1], He as [Hh2 Hm2].
  destruct (two_digits h1) as [A1 A2]; [lia|].
  destruct (two_digits m1) as [A3 A4]; [lia|].
  destruct (two_digits h2) as [B1 B2]; [lia|].
  destruct (two_digits m2) as [B3 B4]; [lia|].
  assert (int int_of_str (two h1) = Done h1) as I1 by (unfold int; rewrite Hint; [done|lia]).
  assert (int int_of_str (two m1) = Done m1) as I2 by (unfold int; rewrite Hint; [done|lia]).
  assert (int int_of_str (two h2) = Done h2) as I3 by (unfold int; rewrite Hint; [done|lia]).
  assert (int int_of_str (two m2) = Done m2) as I4 by (unfold int; rewrite Hint; [done|lia]).
  assert (int int_of_str (two 24) = Done 24) as I5 by (unfold int; rewrite Hint; [done|lia]).
  pose proof (Hnew (mkTime h1 m1) (conj Hh1 Hm1)) as N1.
  pose proof (Hnew (mkTime h2 m2) (conj Hh2 Hm2)) as N2.
  assert (newTime 23 59 = Done (mkTime 23 59)) as N3
    by (apply (Hnew (mkTime 23 59)); unfold validTime; simpl; lia).
  simpl in N1, N2. unfold two in I1, I2, I3, I4, I5.
  repeat split.
  - etrans; [by apply (clockText_hhmm_dash (digit (h1 / 10)) (digit (h1 mod 10))
                         (digit (m1 / 10)) (digit (m1 mod 10))
                         (digit (h2 / 10)) (digit (h2 mod 10))
                         (digit (m2 / 10)) (digit (m2 mod 10)))|].
    rewrite I1, I2, I3, I4. cbn [mbind outcome_bind]. by rewrite N1, N2.
  - etrans; [by apply (clockText_hhmm_spaced (digit (h1 / 10)) (digit (h1 mod 10))
                         (digit (m1 / 10)) (digit (m1 mod 10))
                         (digit (h2 / 10)) (digit (h2 mod 10))
                         (digit (m2 / 10)) (digit (m2 mod 10)))|].
    rewrite I1, I2, I3, I4. cbn [mbind outcome_bind]. rewrite N1.
    cbn [mbind outcome_bind].
    destruct (Z.eqb_spec h2 24) as [->|_]; [lia|]. by rewrite N2.
  - etrans; [by apply (clockText_hhmm_spaced (digit (h1 / 10)) (digit (h1 mod 10))
                         (digit (m1 / 10)) (digit (m1 mod 10))
                         (digit (24 / 10)) (digit (24 mod 10))
                         (digit (m2 / 10)) (digit (m2 mod 10)))|].
    rewrite I1, I2, I5, I4. cbn [mbind outcome_bind]. rewrite N1.
    cbn [mbind outcome_bind]. by rewrite N3.
  - etrans; [by apply (clockText_colon_dash (digit (h1 / 10)) (digit (h1 mod 10))
                         (digit (m1 / 10)) (digit (m1 mod 10))
                         (digit (h2 / 10)) (digit (h2 mod 10))
                         (digit (m2 / 10)) (digit (m2 mod 10)))|].
    rewrite I1, I2. cbn [mbind outcome_bind]. rewrite N1. cbn [mbind outcome_bind].
    rewrite I3, I4. cbn [mbind outcome_bind]. by rewrite N2.
  - etrans; [by apply (clockText_colon_word "T" "O"
                         (digit (h1 / 10)) (digit (h1 mod 10))
                         (digit (m1 / 10)) (digit (m1 mod 10))
                         (digit (h2 / 10)) (digit (h2 mod 10))
                         (digit (m2 / 10)) (digit (m2 mod 10))); [left|..]|].
    rewrite I1, I2. cbn [mbind outcome_bind]. rewrite N1. cbn [mbind outcome_bind].
    rewrite I3, I4. cbn [mbind outcome_bind]. by rewrite N2.
  - etrans; [by apply (clockText_colon_word "t" "o"
                         (digit (h1 / 10)) (digit (h1 mod 10))
                         (digit (m1 / 10)) (digit (m1 mod 10))
                         (digit (h2 / 10)) (digit (h2 mod 10))
                         (digit (m2 / 10)) (digit (m2 mod 10))); [right|..]|].
    rewrite I1, I2. cbn [mbind outcome_bind]. rewrite N1. cbn [mbind outcome_bind].
    rewrite I3, I4. cbn [mbind outcome_bind]. by rewrite N2.
Qed.

End ClockFacts.

Section ClockEdges.

Context {D : Type}.
Variable newTime : Z → Z → outcome Time.
Variable int_of_str : string → option Z.

Lemma slice_from_short k s : (String.length s ≤ k)%nat → slice_from k s = "".
Proof.
  revert s. induction k as [|k IH]; intros [|c s] H; simpl in *; try done; try lia.
  apply IH. lia.
Qed.

Lemma mentions_contains c s : mentions c s = false → ∀ p, mentions c p = true → contains p s = false.
Proof. intros Hs p Hp. by apply (contains_absent c). Qed.

Lemma clockByPosition_short cellValue e1 e2 clamp flags (timing : ExcelSignalTiming D) :
  int_of_str "" = None →
  (String.length (strip cellValue) ≤ e2)%nat →
  clockByPosition newTime int_of_str cellValue e1 e2 clamp flags timing
  = Fail (Std ValueError).
Proof.
  intros Hint Hlen. unfold clockByPosition. cbv zeta.
  rewrite (slice_from_short e2 _ Hlen). unfold int. rewrite Hint.
  destruct (int_of_str (take 2 (strip cellValue))); [|done].
  destruct (int_of_str (String.substring 2 2 (strip cellValue))); [|done].
  by destruct (int_of_str (String.substring e1 2 (strip cellValue))).
Qed.

(** X17: what the rules for a text do when no format fits.  A text without
    a keyword is left alone once the start time is known, and also when it
    has no dash and either no colon or neither five characters nor the
    word TO; but a text with a dash, no colon and fewer than eight
    characters once stripped ends the parser with [ValueError]. *)
Theorem clockText_unmatched cellValue flags (timing : ExcelSignalTiming D) :
  contains "event" cellValue = false → contains "Event" cellValue = false →
  contains "Game" cellValue = false → contains "TIMES" cellValue = false →
  contains "Times" cellValue = false →
  (gotStartTime flags = true →
   clockText newTime int_of_str cellValue flags timing = Done (flags, timing))
  ∧ (contains "-" cellValue = false →
     contains ":" cellValue = false
     ∨ (String.length cellValue ≠ 5%nat ∧ contains "TO" cellValue = false
        ∧ contains "to" cellValue = false) →
     clockText newTime int_of_str cellValue flags timing = Done (flags, timing))
  ∧ (gotStartTime flags = false →
     contains "-" cellValue = true → contains ":" cellValue = false →
     int_of_str "" = None →
     (String.length (strip cellValue) ≤ 7)%nat →
     clockText newTime int_of_str cellValue flags timing = Fail (Std ValueError)).
Proof.
  intros He1 He2 He3 He4 He5. unfold clockText. rewrite He1, He2, He3, He4, He5.
  cbn [orb]. split; [|split].
  - by intros ->.
  - intros Hd Hrest. destruct (gotStartTime flags); [done|]. cbn [negb].
    assert (contains " - " cellValue = false) as Hs.
    { apply (contains_absent "-"); [done|]. by rewrite <- contains_char. }
    repeat (rewrite ?Hd, ?Hs; cbn [andb mbind outcome_bind]).
    destruct Hrest as [->|(Hlen & -> & ->)]; [done|].
    apply Nat.eqb_neq in Hlen. rewrite Hlen. by rewrite !andb_false_r.
  - intros -> Hd Hc Hint Hlen. cbn [negb]. rewrite Hd, Hc. cbn [andb negb].
    destruct (contains " - " cellValue) eqn:Hs; cbn [negb mbind outcome_bind].
    + rewrite Hs, Hc. cbn [andb negb].
      rewrite clockByPosition_short; [done..|lia].
    + rewrite clockByPosition_short; done.
Qed.

End ClockEdges.

Section ClockRows.

Context {D : Type} (str_of_float : D → string).
Variable float_eqb : D → D → bool.
Variable float_of_int : Z → D.
Variable xldate_as_tuple : D → outcome (Z * Z).
Variable newTime : Z → Z → outcome Time.
Variable int_of_str : string → option Z.

Lemma set_endTime_twice t t' (timing : ExcelSignalTiming D) :
  set_endTime t' (set_endTime t timing) = set_endTime t' timing.
Proof. reflexivity. Qed.

Lemma spanOf_fold ts t (timing : ExcelSignalTiming D) :
  foldl (λ tm t', set_endTime t' tm) (set_startTime t timing) ts
  = spanOf (t :: ts) timing.
Proof.
  destruct ts as [|t1 ts]; [done|].
  change (spanOf (t :: t1 :: ts) timing)
    with (set_startEnd t (default t (last (t1 :: ts))) timing).
  cbn [foldl].
  assert (∀ e, foldl (λ tm t', set_endTime t' tm)
                     (set_startEnd t e timing) ts
               = set_startEnd t (default e (last ts)) timing) as H.
  { induction ts as [|t2 ts IH]; intros e; [done|].
    cbn [foldl]. change (set_endTime t2 (set_startEnd t e timing))
      with (set_startEnd t t2 timing).
    rewrite IH. f_equal. rewrite last_cons. by destruct (last ts). }
  change (set_endTime t1 (set_startTime t timing)) with (set_startEnd t t1 timing).
  rewrite H. f_equal. rewrite last_cons. by destruct (last ts).
Qed.

Lemma setTimes_cell_weekday (sheet : Sheet D) row colCycle st c v :
  checkForWeekdayPlan str_of_float sheet row colCycle = Ok true →
  sheet row c = Some v →
  setTimes_cell str_of_float float_eqb float_of_int xldate_as_tuple newTime
                int_of_str sheet row colCycle st c
  = if String.eqb (strip (py_str str_of_float v)) "" then Done st
    else readClockTimes float_eqb float_of_int xldate_as_tuple newTime int_of_str
                        v st.1 st.2.
Proof.
  intros Hweek Hv. unfold setTimes_cell, cell_value. rewrite Hv.
  cbn [from_option lift mbind outcome_bind].
  destruct (String.eqb (strip (py_str str_of_float v)) ""); [done|].
  cbn [negb]. by rewrite Hweek.
Qed.

Lemma setTimes_cells (P : timesFlags → bool) (setP : timesFlags → timesFlags)
    (Inv : timesFlags → Prop) (R : cell D → Time → Prop)
    (sheet : Sheet D) row colCycle :
  checkForWeekdayPlan str_of_float sheet row colCycle = Ok true →
  (∀ f, Inv f → Inv (setP f) ∧ P (setP f) = true) →
  (∀ v t f tm, R v t → Inv f →
     readClockTimes float_eqb float_of_int xldate_as_tuple newTime int_of_str v f tm
     = Done (if P f then f else setP f, stepSpan (P f) t tm)) →
  ∀ cols ts f tm,
    Forall (λ c, is_Some (sheet row c)) cols →
    Forall2 R (filledCells str_of_float sheet row cols) ts →
    Inv f →
    ∃ f', for_loop cols
            (setTimes_cell str_of_float float_eqb float_of_int xldate_as_tuple
                           newTime int_of_str sheet row colCycle) (f, tm)
          = Done (f', match ts with
                      | [] => tm
                      | t :: rest =>
                        foldl (λ tm t', set_endTime t' tm) (stepSpan (P f) t tm) rest
                      end)
          ∧ Inv f' ∧ (ts ≠ [] → P f' = true) ∧ (ts = [] → f' = f).
Proof.
  intros Hweek HsetP Hread.
  induction cols as [|c cols IH]; intros ts f tm Hall Hcells Hinv.
  - apply Forall2_nil_inv_l in Hcells as ->. by exists f.
  - apply Forall_cons in Hall as [[v Hv] Hall].
    unfold filledCells in Hcells. cbn [omap list_omap] in Hcells. rewrite Hv in Hcells.
    cbn [for_loop]. rewrite (setTimes_cell_weekday _ _ _ _ _ v Hweek Hv).
    destruct (String.eqb (strip (py_str str_of_float v)) "") eqn:Hblank.
    + cbn [mbind outcome_bind]. by apply IH.
    + cbn [fst snd].
      apply Forall2_cons_inv_l in Hcells as (t & rest & Hvt & Hrest & ->).
      rewrite (Hread v t f tm Hvt Hinv). cbn [mbind outcome_bind].
      assert (Inv (if P f then f else setP f)
              ∧ P (if P f then f else setP f) = true) as [Hinv' HP'].
      { destruct (P f) eqn:HP; [done|]. by apply HsetP. }
      destruct (IH rest _ (stepSpan (P f) t tm) Hall Hrest Hinv')
        as (f' & Hloop & Hinv'' & Hne & Hnil).
      exists f'. rewrite Hloop. split; [|split; [done|split; [|done]]].
      * destruct rest as [|t1 rest]; [done|]. cbn [foldl].
        unfold stepSpan at 1. by rewrite HP'.
      * intros _. destruct rest as [|t1 rest].
        -- by rewrite (Hnil eq_refl).
        -- by apply Hne.
Qed.


Lemma clockText_colon x1 x2 x3 x4 flags (timing : ExcelSignalTiming D) :
  isdigit x1 = true → isdigit x2 = true → isdigit x3 = true → isdigit x4 = true →
  gotStartTime flags = false →
  clockText newTime int_of_str
    (String x1 (String x2 (String ":" (String x3 (String x4 ""))))) flags timing
  = (time1 ← int int_of_str (String x1 (String x2 ""));
     time2 ← int int_of_str (String x3 (String x4 ""));
     t ← newTime time1 time2;
     Done (if gotStartTime2 flags then flags else set_gotStartTime2 flags,
           stepSpan (gotStartTime2 flags) t timing)).
Proof.
  intros Hx1 Hx2 Hx3 Hx4 Hflags.
  set (txt := String x1 _).
  assert (contains "event" txt = false) as He1 by absent "e"%char.
  assert (contains "Event" txt = false) as He2 by absent "E"%char.
  assert (contains "Game" txt = false) as He3 by absent "G"%char.
  assert (contains "TIMES" txt = false) as He4 by absent "T"%char.
  assert (contains "Times" txt = false) as He5 by absent "T"%char.
  assert (contains ":" txt = true) as Hc by present.
  assert (contains " - " txt = false) as Hs by absent " "%char.
  assert (contains "-" txt = false) as Hd by absent "-"%char.
  unfold clockText. rewrite He1, He2, He3, He4, He5, Hflags.
  cbn [orb negb].
  repeat (rewrite ?Hd, ?Hc, ?Hs; cbn [andb negb mbind outcome_bind]).
  replace (String.length txt =? 5)%nat with true by reflexivity.
  replace (take 2 txt) with (String x1 (String x2 "")) by reflexivity.
  replace (slice_from 3 txt) with (String x3 (String x4 "")) by reflexivity.
  by destruct (gotStartTime2 flags).
Qed.

(** X18: in a weekday row whose cells that are not blank are all numbers,
    or all texts of the form hh:mm, the start of the period is the first of
    the times read and its end the last one; with a single time only the
    start is set, with none the period is unchanged. *)
Theorem setTimes_row_first_last (sheet : Sheet D) firstColumn colPhaseData0 row
    colCycle (timing : ExcelSignalTiming D) (ts : list Time) :
  checkForWeekdayPlan str_of_float sheet row colCycle = Ok true →
  Forall (λ c, is_Some (sheet row c)) (range firstColumn colPhaseData0) →
  (∀ xs,
     filledCells str_of_float sheet row (range firstColumn colPhaseData0)
     = CFloat <$> xs →
     Forall2 (λ x t, timeOfNumber float_eqb float_of_int xldate_as_tuple newTime x
                     = Done t) xs ts →
     setTimes_row str_of_float float_eqb float_of_int xldate_as_tuple newTime
                  int_of_str sheet firstColumn colPhaseData0 row colCycle timing
     = Done (spanOf ts timing))
  ∧ ((∀ n, 0 ≤ n < 100 → int_of_str (two n) = Some n) →
     (∀ t, validTime t → newTime (hour t) (minute t) = Done t) →
     filledCells str_of_float sheet row (range firstColumn colPhaseData0)
     = (λ t, CText (hh_mm t)) <$> ts →
     Forall validTime ts →
     setTimes_row str_of_float float_eqb float_of_int xldate_as_tuple newTime
                  int_of_str sheet firstColumn colPhaseData0 row colCycle timing
     = Done (spanOf ts timing)).
Proof.
  intros Hweek Hall.
  set (f0 := {| hasAllOtherTimes := false; gotStartTime := false;
                gotStartTime2 := false |}).
  assert (∀ (P : timesFlags → bool) setP Inv R,
            (∀ f, Inv f → Inv (setP f) ∧ P (setP f) = true) →
            (∀ v t f tm, R v t → Inv f →
               readClockTimes float_eqb float_of_int xldate_as_tuple newTime
                              int_of_str v f tm
               = Done (if P f then f else setP f, stepSpan (P f) t tm)) →
            Forall2 R (filledCells str_of_float sheet row
                                   (range firstColumn colPhaseData0)) ts →
            Inv f0 → P f0 = false →
            setTimes_row str_of_float float_eqb float_of_int xldate_as_tuple newTime
                  int_of_str sheet firstColumn colPhaseData0 row colCycle timing
            = Done (spanOf ts timing)) as Hrow.
  { intros P setP Inv R HsetP Hread Hcells Hinv HP.
    destruct (setTimes_cells P setP Inv R sheet row colCycle Hweek HsetP Hread
                _ ts f0 timing Hall Hcells Hinv) as (f' & Hloop & _).
    unfold setTimes_row. fold f0. rewrite Hloop. cbn [mbind outcome_bind snd].
    f_equal. destruct ts as [|t rest]; [done|].
    rewrite HP. unfold stepSpan. apply spanOf_fold. }
  split.
  - intros xs Hcells Htimes.
    apply (Hrow gotStartTime set_gotStartTime (λ _, True)
                (λ v t, ∃ x, v = CFloat x
                   ∧ timeOfNumber float_eqb float_of_int xldate_as_tuple newTime x
                     = Done t)); [done| | |done|done].
    + intros v t f tm (x & -> & Hx) _. cbn [readClockTimes]. unfold clockNumber.
      unfold timeOfNumber in Hx.
      destruct (if float_eqb x (float_of_int 1) then Done (0, 0)
                else xldate_as_tuple x) as [time| |]; [|done..].
      cbn [mbind outcome_bind] in *.
      destruct (gotStartTime f); cbn [negb]; by rewrite Hx.
    + rewrite Hcells. apply Forall2_fmap_l.
      eapply Forall2_impl; [exact Htimes|]. intros x t Hx. by exists x.
  - intros Hint Hnew Hcells Hvalid.
    apply (Hrow gotStartTime2 set_gotStartTime2 (λ f, gotStartTime f = false)
                (λ v t, v = CText (hh_mm t) ∧ validTime t)); [done| | |done|done].
    + intros v t f tm [-> Ht] Hf. cbn [readClockTimes].
      destruct t as [h m]. destruct Ht as [Hh Hm]. simpl in Hh, Hm.
      destruct (two_digits h) as [A1 A2]; [lia|].
      destruct (two_digits m) as [A3 A4]; [lia|].
      etrans; [by apply (clockText_colon (digit (h / 10)) (digit (h mod 10))
                           (digit (m / 10)) (digit (m mod 10)))|].
      change (String (digit (h / 10)) (String (digit (h mod 10)) "")) with (two h).
      change (String (digit (m / 10)) (String (digit (m mod 10)) "")) with (two m).
      unfold int. rewrite !Hint by lia. cbn [from_option mbind outcome_bind].
      pose proof (Hnew (mkTime h m) (conj Hh Hm)) as Ht. simpl in Ht.
      by rewrite Ht.
    + rewrite Hcells. apply Forall2_fmap_l.
      apply Forall_Forall2_diag. eapply Forall_impl; [exact Hvalid|]. done.
Qed.

End ClockRows.

(** The instances of the parameters in exact arithmetic meet the
    assumptions made on them. *)
Lemma ExactClock_int_two n : 0 ≤ n < 100 → ExactClock.int_of_str (two n) = Some n.
Proof.
  intros Hn.
  assert (Forall (λ n, ExactClock.int_of_str (two n) = Some n) (seqZ 0 100)) as H.
  { apply (bool_decide_unpack _). by vm_compute. }
  rewrite Forall_forall in H. apply H. apply elem_of_seqZ. lia.
Qed.

Lemma ExactClock_newTime_valid t :
  validTime t → ExactClock.newTime (hour t) (minute t) = Done t.
Proof.
  destruct t as [h m]. intros [Hh Hm]. simpl in *. unfold ExactClock.newTime.
  destruct (Z.leb_spec 0 h); [|lia]. destruct (Z.ltb_spec h 24); [|lia].
  destruct (Z.leb_spec 0 m); [|lia]. destruct (Z.ltb_spec m 60); [|lia]. done.
Qed.

Lemma clockText_reads_ranges_witness :
  let read := clockText (D := Qc) ExactClock.newTime ExactClock.int_of_str in
  let timing := ExcelSignalTiming_init in
  let flags := ClockSamples.noFlags in
  read "0630-0915" flags timing
  = Done (set_gotStartTime flags, set_startEnd (mkTime 6 30) (mkTime 9 15) timing)
  ∧ read "0630 - 0915" flags timing
    = Done (set_gotStartTime flags, set_startEnd (mkTime 6 30) (mkTime 9 15) timing)
  ∧ read "0630 - 2415" flags timing
    = Done (set_gotStartTime flags, set_startEnd (mkTime 6 30) (mkTime 23 59) timing)
  ∧ read "06:30-09:15" flags timing
    = Done (flags, set_startEnd (mkTime 6 30) (mkTime 9 15) timing)
  ∧ read "06:30 TO 09:15" flags timing
    = Done (flags, set_startEnd (mkTime 6 30) (mkTime 9 15) timing)
  ∧ read "06:30 to 09:15" flags timing
    = Done (flags, set_startEnd (mkTime 6 30) (mkTime 9 15) timing).
Proof.
  apply (clockText_reads_ranges ExactClock.newTime ExactClock.int_of_str
           (mkTime 6 30) (mkTime 9 15) ClockSamples.noFlags ExcelSignalTiming_init).
  - exact ExactClock_int_two.
  - exact ExactClock_newTime_valid.
  - unfold validTime. simpl. lia.
  - unfold validTime. simpl. lia.
  - reflexivity.
Defined.

Lemma clockText_unmatched_witness :
  clockText (D := Qc) ExactClock.newTime ExactClock.int_of_str "6-9"
            ClockSamples.noFlags ExcelSignalTiming_init
  = Fail (Std ValueError).
Proof.
  apply (clockText_unmatched ExactClock.newTime ExactClock.int_of_str "6-9"
           ClockSamples.noFlags ExcelSignalTiming_init);
    try reflexivity.
  simpl. lia.
Defined.

Lemma setTimes_row_first_last_witness :
  setTimes_row Exact.str_of_float ClockSamples.float_eqb Exact.float_of_int
               ExactClock.xldate_as_tuple ExactClock.newTime ExactClock.int_of_str
               ClockSamples.weekdaySheet 0 3 2 7 ExcelSignalTiming_init
  = Done (spanOf [mkTime 6 0; mkTime 9 0] ExcelSignalTiming_init).
Proof.
  apply (proj1 (setTimes_row_first_last Exact.str_of_float ClockSamples.float_eqb
                  Exact.float_of_int ExactClock.xldate_as_tuple ExactClock.newTime
                  ExactClock.int_of_str ClockSamples.weekdaySheet 0 3 2 7
                  ExcelSignalTiming_init [mkTime 6 0; mkTime 9 0]
                  ltac:(reflexivity)
                  ltac:(repeat constructor; by eexists))
         [Exact.ratio 1 4; Exact.ratio 3 8]).
  - by vm_compute.
  - repeat constructor; by vm_compute.
Defined.

(** ** The table of periods *)

Section TimingTableFacts.

Context {D : Type}.
Variable float_of_str : string → option D.
Variable float_of_int : Z → D.
Variable str_of_float : D → string.
Variable int_of_float : D → result Z.
Variable dict_order :
  list (string * ExcelSignalTiming D) → list (string * ExcelSignalTiming D).

Lemma lift_Done {A} (m : result A) a : lift m = Done a → m = Ok a.
Proof. destruct m; simpl; [by intros [= ->]|done]. Qed.

Lemma classifyCso_fresh strCso strCycle strOffset (st : ExcelSignalTiming D) :
  classifyCso float_of_str strCso strCycle strOffset = Ok st →
  cso st = PyStr strCso ∧ startTime st = mkTime 23 59 ∧ endTime st = mkTime 23 59.
Proof.
  unfold classifyCso, float_str, catch.
  repeat match goal with
         | |- context [if ?b then _ else _] => destruct b
         | |- context [from_option _ _ ?o] => destruct o; simpl
         end;
    try done; by intros [= <-].
Qed.

Lemma setPhaseTimes_spec timings (st st' : ExcelSignalTiming D) :
  setPhaseTimes timings st = Ok st' →
  timings = CFloat <$> times st'
  ∧ cso st' = cso st ∧ startTime st' = startTime st ∧ endTime st' = endTime st.
Proof.
  unfold setPhaseTimes.
  assert (∀ u, for_each timings
                 (λ (_ : ()) (time : cell D),
                    match time with CFloat _ => Ok () | _ => Raise ParsingCardError end) u
               = Ok ()
               → timings = CFloat <$> omap (λ time : cell D,
                   match time with CFloat x => Some x | _ => None end) timings) as H.
  { induction timings as [|v timings IH]; intros u; [done|]. simpl.
    destruct v as [s|x|z]; simpl; try done.
    intros Hrest. f_equal. by eapply IH. }
  destruct (for_each timings _ ()) as [[]|e] eqn:E; simpl; [|done].
  intros [= <-]. simpl. split; [by eapply H|done].
Qed.

Lemma readTimings_spec fuel (sheet : Sheet D) i j acc timings j' :
  readTimings str_of_float fuel sheet i j acc = Done (timings, j') →
  ∃ new, timings = (acc ++ new)%list ∧ j' = j + Z.of_nat (length new)
         ∧ (∀ k v, new !! k = Some v → sheet i (j + Z.of_nat k) = Some v)
         ∧ endsAt str_of_float sheet i j'.
Proof.
  revert j acc. induction fuel as [|fuel IH]; intros j acc; [done|].
  cbn [readTimings]. unfold cell_value.
  destruct (sheet i j) as [value|] eqn:Hv; cbn [from_option].
  - destruct (String.eqb_spec (strip (py_str str_of_float value)) "") as [Hb|Hb];
      cbn [negb].
    + intros [= <- <-]. exists []. rewrite app_nil_r, Z.add_0_r.
      split; [done|]. split; [done|]. split; [done|].
      right. by exists value.
    + assert (readTimings str_of_float fuel sheet i (j + 1) (acc ++ [value])
              = Done (timings, j') →
              ∃ new, timings = (acc ++ new)%list ∧ j' = j + Z.of_nat (length new)
                ∧ (∀ k v, new !! k = Some v → sheet i (j + Z.of_nat k) = Some v)
                ∧ endsAt str_of_float sheet i j') as Hrec.
      { intros (new & -> & -> & Hcells & Hend)%IH. exists (value :: new).
        rewrite <- app_assoc. split; [done|]. split; [simpl; lia|].
        split; [|done]. intros [|k] v; simpl.
        - intros [= <-]. by rewrite Z.add_0_r.
        - intros Hk. rewrite <- (Hcells k v Hk). f_equal. lia. }
      destruct value; [done|exact Hrec|exact Hrec].
  - intros [= <- <-]. exists []. rewrite app_nil_r, Z.add_0_r.
    split; [done|]. split; [done|]. split; [done|]. by left.
Qed.

Lemma readTimings_more fuel fuel' (sheet : Sheet D) i j acc :
  (fuel ≤ fuel')%nat →
  readTimings str_of_float fuel sheet i j acc ≠ OutOfFuel →
  readTimings str_of_float fuel' sheet i j acc
  = readTimings str_of_float fuel sheet i j acc.
Proof.
  revert fuel' j acc. induction fuel as [|fuel IH]; intros fuel' j acc Hle; [done|].
  destruct fuel' as [|fuel']; [lia|]. cbn [readTimings].
  destruct (cell_value sheet i j) as [value|]; [|done].
  destruct (negb _); [|done].
  destruct value; [done|apply IH; lia|apply IH; lia].
Qed.

Lemma readTimings_enough n (sheet : Sheet D) i j acc :
  endsAt str_of_float sheet i (j + Z.of_nat n) →
  readTimings str_of_float (S n) sheet i j acc ≠ OutOfFuel.
Proof.
  revert j acc. induction n as [|n IH]; intros j acc Hend.
  - rewrite Z.add_0_r in Hend. cbn [readTimings]. unfold cell_value.
    destruct Hend as [Hm|(v & Hv & Hb)].
    + unfold missingAt in Hm. simpl in Hm. by rewrite Hm.
    + simpl in Hv. rewrite Hv. cbn [from_option]. rewrite Hb. done.
  - cbn [readTimings]. destruct (cell_value sheet i j) as [value|]; [|done].
    destruct (negb _); [|done].
    assert (endsAt str_of_float sheet i (j + 1 + Z.of_nat n)) as Hend'.
    { replace (j + 1 + Z.of_nat n) with (j + Z.of_nat (S n)) by lia. done. }
    destruct value; [done|by apply IH|by apply IH].
Qed.


Lemma readPeriod_spec fuel (sheet : Sheet D) startY col i key period j :
  readPeriod float_of_str float_of_int str_of_float int_of_float fuel sheet
             startY col i = Done (key, period, j) →
  cso period = PyStr key ∧ startTime period = mkTime 23 59
  ∧ endTime period = mkTime 23 59
  ∧ durationsAt str_of_float sheet i col (times period)
  ∧ j = col + Z.of_nat (length (times period)).
Proof.
  unfold readPeriod.
  destruct (readCsoRow str_of_float sheet i startY col) as [row|]; [|done].
  cbn [lift mbind outcome_bind].
  destruct (csoOfRow _ _ _ _ row) as [strCso|]; [|done].
  cbn [lift mbind outcome_bind].
  destruct (cycleOffsetOfRow str_of_float row) as [[strCycle strOffset]|]; [|done].
  cbn [lift mbind outcome_bind].
  destruct (classifyCso float_of_str strCso strCycle strOffset) as [st0|] eqn:Hc;
    [|done].
  cbn [lift mbind outcome_bind].
  destruct (readTimings str_of_float fuel sheet i col []) as [[timings j0]| |] eqn:Hr;
    [|done..].
  cbn [mbind outcome_bind].
  destruct (setPhaseTimes timings st0) as [st1|] eqn:Hs; [|done].
  cbn [lift mbind outcome_bind]. intros [= <- <- <-].
  apply classifyCso_fresh in Hc as (Hcso & Hstart & Hend).
  apply setPhaseTimes_spec in Hs as (Htimes & Hcso' & Hstart' & Hend').
  apply readTimings_spec in Hr as (new & Hnew & Hj & Hcells & Hstop).
  simpl in Hnew. subst new. rewrite Htimes in Hj, Hcells. rewrite length_fmap in Hj.
  split; [congruence|]. split; [congruence|]. split; [congruence|].
  split; [|done]. split.
  - intros k x Hk. apply Hcells. by rewrite list_lookup_fmap, Hk.
  - by rewrite <- Hj.
Qed.

Lemma readPeriod_more fuel fuel' (sheet : Sheet D) startY col i :
  (fuel ≤ fuel')%nat →
  readPeriod float_of_str float_of_int str_of_float int_of_float fuel sheet
             startY col i ≠ OutOfFuel →
  readPeriod float_of_str float_of_int str_of_float int_of_float fuel' sheet
             startY col i
  = readPeriod float_of_str float_of_int str_of_float int_of_float fuel sheet
               startY col i.
Proof.
  intros Hle. unfold readPeriod.
  destruct (readCsoRow str_of_float sheet i startY col) as [row|]; [|done].
  cbn [lift mbind outcome_bind].
  destruct (csoOfRow _ _ _ _ row) as [strCso|]; [|done].
  cbn [lift mbind outcome_bind].
  destruct (cycleOffsetOfRow str_of_float row) as [[strCycle strOffset]|]; [|done].
  cbn [lift mbind outcome_bind].
  destruct (classifyCso float_of_str strCso strCycle strOffset) as [st0|]; [|done].
  cbn [lift mbind outcome_bind].
  intros Hne. rewrite (readTimings_more fuel fuel'); [done|done|].
  intros H. by rewrite H in Hne.
Qed.

Lemma readPeriod_enough n (sheet : Sheet D) startY col i :
  endsAt str_of_float sheet i (col + Z.of_nat n) →
  readPeriod float_of_str float_of_int str_of_float int_of_float (S n) sheet
             startY col i ≠ OutOfFuel.
Proof.
  intros Hend. unfold readPeriod.
  destruct (readCsoRow str_of_float sheet i startY col) as [row|]; [|done].
  cbn [lift mbind outcome_bind].
  destruct (csoOfRow _ _ _ _ row) as [strCso|]; [|done].
  cbn [lift mbind outcome_bind].
  destruct (cycleOffsetOfRow str_of_float row) as [[strCycle strOffset]|]; [|done].
  cbn [lift mbind outcome_bind].
  destruct (classifyCso float_of_str strCso strCycle strOffset) as [st0|]; [|done].
  cbn [lift mbind outcome_bind].
  pose proof (readTimings_enough n sheet i col [] Hend) as Hne.
  destruct (readTimings str_of_float (S n) sheet i col []) as [[timings j]| |];
    [|done..].
  cbn [mbind outcome_bind]. by destruct (setPhaseTimes timings st0).
Qed.

Lemma getSignalIntervalData_rows_fuel width fuel (sheet : Sheet D) startY col rows st :
  (width ≤ fuel)%nat →
  (∀ i, i ∈ rows → ∃ n, (n < width)%nat ∧ endsAt str_of_float sheet i (col + Z.of_nat n)) →
  getSignalIntervalData_rows float_of_str float_of_int str_of_float int_of_float
    dict_order fuel sheet startY col rows st
  = getSignalIntervalData_rows float_of_str float_of_int str_of_float int_of_float
      dict_order width sheet startY col rows st
  ∧ getSignalIntervalData_rows float_of_str float_of_int str_of_float int_of_float
      dict_order width sheet startY col rows st ≠ OutOfFuel.
Proof.
  intros Hle. revert st. induction rows as [|i rows IH]; intros st Hrows; [done|].
  cbn [getSignalIntervalData_rows].
  destruct (cell_value sheet i startY) as [value|]; [|done]. cbv zeta.
  assert (∀ i, i ∈ rows → ∃ n, (n < width)%nat
                               ∧ endsAt str_of_float sheet i (col + Z.of_nat n))
    as Hrest by (intros i' Hi'; apply Hrows; by right).
  destruct (negb _); [|by apply IH].
  destruct (contains "NOTE" _ || contains "*" _); [done|].
  destruct (Hrows i) as (n & Hn & Hend); [by left|].
  pose proof (readPeriod_enough n sheet startY col i Hend) as Hne.
  assert (∀ f, (S n ≤ f)%nat →
            readPeriod float_of_str float_of_int str_of_float int_of_float f sheet
                       startY col i
            = readPeriod float_of_str float_of_int str_of_float int_of_float (S n)
                         sheet startY col i) as Hsame
    by (intros f Hf; by apply readPeriod_more).
  rewrite (Hsame fuel), (Hsame width) by lia.
  destruct (readPeriod _ _ _ _ (S n) sheet startY col i) as [[[key period] j]| |];
    [|done..].
  cbn [mbind outcome_bind]. by apply IH.
Qed.

(** X19: the loop [while True] of [getSignalIntervalData] ends on every
    sheet whose rows are finite: when each of the ten rows below the CSO
    cell has a missing or blank cell within [width] columns of the
    phase-data column, [width] turns of the loop are enough, and more
    turns give the same result. *)
Theorem getSignalIntervalData_returns (width : nat) (sheet : Sheet D)
    (signalData : SignalData D) :
  (∀ startX startY col i,
     sigInterCell signalData = Some (startX, startY) →
     colPhaseData signalData = Some col →
     startX < i ≤ startX + 10 →
     ∃ n, (n < width)%nat ∧ endsAt str_of_float sheet i (col + Z.of_nat n)) →
  ∀ fuel, (width ≤ fuel)%nat →
    getSignalIntervalData float_of_str float_of_int str_of_float int_of_float
                          dict_order fuel sheet signalData
    = getSignalIntervalData float_of_str float_of_int str_of_float int_of_float
                            dict_order width sheet signalData
    ∧ getSignalIntervalData float_of_str float_of_int str_of_float int_of_float
                            dict_order width sheet signalData ≠ OutOfFuel.
Proof.
  intros Hrows fuel Hle. unfold getSignalIntervalData.
  destruct (sigInterCell signalData) as [[startX startY]|]; [|done].
  destruct (colPhaseData signalData) as [col|]; [|done].
  destruct (truthyZ (Some col)); [|done].
  destruct (getSignalIntervalData_rows_fuel width fuel sheet startY col
              (range (startX + 1) (startX + 11))
              (lastColPhaseData signalData, signalTiming signalData) Hle)
    as [-> Hne].
  { intros i Hi. apply (Hrows startX startY col i eq_refl eq_refl).
    unfold range in Hi. apply elem_of_seqZ in Hi. lia. }
  split; [done|].
  by destruct (getSignalIntervalData_rows _ _ _ _ _ width sheet startY col _ _)
    as [[lastCol timings]| |].
Qed.

End TimingTableFacts.

Section TimingTablePeriods.

Context {D : Type}.
Variable float_of_str : string → option D.
Variable float_of_int : Z → D.
Variable str_of_float : D → string.
Variable int_of_float : D → result Z.
Variable dict_order :
  list (string * ExcelSignalTiming D) → list (string * ExcelSignalTiming D).
Hypothesis dict_order_perm : ∀ l, dict_order l ≡ₚ l.

Lemma storeTiming_elem key (p : ExcelSignalTiming D) items k v :
  (k, v) ∈ storeTiming key p items → (k, v) = (key, p) ∨ (k, v) ∈ items.
Proof.
  induction items as [|[k0 v0] items IH]; [by intros H%elem_of_nil|]. simpl.
  destruct (String.eqb_spec k0 key) as [->|Hne].
  - intros [[= -> ->]|Hin]%elem_of_cons; [by left|]. right. by right.
  - intros [[= -> ->]|Hin]%elem_of_cons; [right; by left|].
    destruct (IH Hin) as [?|?]; [by left|]. right. by right.
Qed.

Lemma setTiming_elem key (p : ExcelSignalTiming D) items k v :
  (k, v) ∈ setTiming dict_order key p items → (k, v) = (key, p) ∨ (k, v) ∈ items.
Proof.
  unfold setTiming. case_bool_decide.
  - apply storeTiming_elem.
  - rewrite dict_order_perm. intros [Hin|Hin%list_elem_of_singleton]%elem_of_app;
      [by right|by left].
Qed.

Lemma setTiming_keys key (p : ExcelSignalTiming D) items :
  (setTiming dict_order key p items).*1 ≡ₚ
  if bool_decide (key ∈ items.*1) then items.*1 else (items.*1 ++ [key])%list.
Proof.
  unfold setTiming. case_bool_decide.
  - by rewrite storeTiming_keys.
  - by rewrite dict_order_perm, fmap_app.
Qed.

Lemma getSignalIntervalData_rows_inv fuel (sheet : Sheet D) startY col rows st st' :
  getSignalIntervalData_rows float_of_str float_of_int str_of_float int_of_float
    dict_order fuel sheet startY col rows st = Done st' →
  (∀ key, key ∈ st.2.*1 → key ∈ st'.2.*1)
  ∧ (NoDup st.2.*1 → NoDup st'.2.*1)
  ∧ (∀ key period, (key, period) ∈ st'.2 →
       (key, period) ∈ st.2 ∨ readFrom str_of_float sheet col rows key period)
  ∧ (truthyZ st.1 = true → st'.1 = st.1)
  ∧ (st'.1 = st.1
     ∨ ∃ i xs, i ∈ rows ∧ durationsAt str_of_float sheet i col xs
               ∧ st'.1 = Some (col + Z.of_nat (length xs) - 1)).
Proof.
  revert st. induction rows as [|i rows IH]; intros st.
  - intros [= <-]. repeat split; try done; [by left..].
  - cbn [getSignalIntervalData_rows].
    assert (∀ st1, getSignalIntervalData_rows float_of_str float_of_int str_of_float
                     int_of_float dict_order fuel sheet startY col rows st1 = Done st' →
              (∀ key, key ∈ st.2.*1 → key ∈ st1.2.*1) →
              (NoDup st.2.*1 → NoDup st1.2.*1) →
              (∀ key period, (key, period) ∈ st1.2 →
                 (key, period) ∈ st.2 ∨ readFrom str_of_float sheet col (i :: rows) key period) →
              (truthyZ st.1 = true → st1.1 = st.1) →
              (st1.1 = st.1
               ∨ ∃ xs, durationsAt str_of_float sheet i col xs
                       ∧ st1.1 = Some (col + Z.of_nat (length xs) - 1)) →
              (∀ key, key ∈ st.2.*1 → key ∈ st'.2.*1)
              ∧ (NoDup st.2.*1 → NoDup st'.2.*1)
              ∧ (∀ key period, (key, period) ∈ st'.2 →
                   (key, period) ∈ st.2 ∨ readFrom str_of_float sheet col (i :: rows) key period)
              ∧ (truthyZ st.1 = true → st'.1 = st.1)
              ∧ (st'.1 = st.1
                 ∨ ∃ i0 xs, i0 ∈ i :: rows ∧ durationsAt str_of_float sheet i0 col xs
                            ∧ st'.1 = Some (col + Z.of_nat (length xs) - 1))) as Hstep.
    { intros st1 (Hk & Hnd & Hel & Htr & Hlast)%IH Hk1 Hnd1 Hel1 Htr1 Hlast1.
      split; [intros key Hkey; by apply Hk, Hk1|].
      split; [intros H; by apply Hnd, Hnd1|].
      split.
      { intros key period [Hin|(Hc & Hs & He & i0 & Hi0 & Hd)]%Hel.
        - by apply Hel1.
        - right. repeat split; try done. exists i0. split; [by right|done]. }
      split.
      { intros Ht. rewrite <- (Htr1 Ht). apply Htr. by rewrite (Htr1 Ht). }
      destruct Hlast as [Heq|(i0 & xs & Hi0 & Hd & Heq)].
      - rewrite Heq. destruct Hlast1 as [?|(xs & Hd & Heq1)]; [by left|].
        right. exists i, xs. split; [by left|done].
      - right. exists i0, xs. split; [by right|done]. }
    destruct (cell_value sheet i startY) as [value|].
    2:{ intros [= <-]. repeat split; try done; [by left..]. }
    cbv zeta. destruct (negb _).
    2:{ intros Hrec. apply (Hstep st Hrec); try done; [by left..]. }
    destruct (contains "NOTE" _ || contains "*" _).
    { intros [= <-]. repeat split; try done; [by left..]. }
    destruct (readPeriod _ _ _ _ fuel sheet startY col i) as [[[key period] j]| |]
      eqn:Hp; [|done..].
    cbn [mbind outcome_bind]. intros Hrec.
    apply readPeriod_spec in Hp as (Hcso & Hstart & Hend & Hdur & Hj).
    apply (Hstep _ Hrec); cbn [fst snd].
    + intros k Hkin. rewrite setTiming_keys. case_bool_decide; [done|].
      apply elem_of_app. by left.
    + intros Hnd. rewrite setTiming_keys. case_bool_decide; [done|].
      apply NoDup_app. split; [done|]. split; [|apply NoDup_singleton].
      intros k Hkin ->%list_elem_of_singleton. done.
    + intros k v [[= -> ->]|Hin]%setTiming_elem; [|by left].
      right. repeat split; try done. exists i. split; [by left|done].
    + by intros ->.
    + destruct (truthyZ st.1); [by left|]. right. exists (times period).
      split; [done|]. by rewrite Hj.
Qed.

(** X20: what [getSignalIntervalData] stores.  The located cells and the
    grid are untouched and no key of the dictionary is lost; every period
    of the result that was not there before is stored under its own code,
    with the operating times 23:59 of a fresh record, and its durations
    are the numbers found in one of the ten rows below the CSO cell, from
    the phase-data column up to the first missing or blank cell.  A
    [lastColPhaseData] already set is kept; otherwise it is the last
    column of the durations of one of these rows, or stays as it was. *)
Theorem getSignalIntervalData_periods fuel (sheet : Sheet D)
    (signalData signalData' : SignalData D) :
  getSignalIntervalData float_of_str float_of_int str_of_float int_of_float
                        dict_order fuel sheet signalData = Done signalData' →
  (topLeftCell signalData' = topLeftCell signalData
   ∧ phaseSeqCell signalData' = phaseSeqCell signalData
   ∧ sigInterCell signalData' = sigInterCell signalData
   ∧ colPhaseData signalData' = colPhaseData signalData
   ∧ phasingData signalData' = phasingData signalData)
  ∧ (∀ key, key ∈ (signalTiming signalData).*1 → key ∈ (signalTiming signalData').*1)
  ∧ (NoDup (signalTiming signalData).*1 → NoDup (signalTiming signalData').*1)
  ∧ (∀ key period,
       (key, period) ∈ signalTiming signalData' →
       (key, period) ∈ signalTiming signalData
       ∨ ∃ startX startY col,
           sigInterCell signalData = Some (startX, startY)
           ∧ colPhaseData signalData = Some col
           ∧ readFrom str_of_float sheet col (range (startX + 1) (startX + 11)) key period)
  ∧ (truthyZ (lastColPhaseData signalData) = true →
     lastColPhaseData signalData' = lastColPhaseData signalData)
  ∧ (lastColPhaseData signalData' = lastColPhaseData signalData
     ∨ ∃ startX startY col i xs,
         sigInterCell signalData = Some (startX, startY)
         ∧ colPhaseData signalData = Some col
         ∧ startX < i ≤ startX + 10
         ∧ durationsAt str_of_float sheet i col xs
         ∧ lastColPhaseData signalData' = Some (col + Z.of_nat (length xs) - 1)).
Proof.
  unfold getSignalIntervalData.
  match goal with
  | |- _ → ?G => assert (Done signalData = Done signalData' → G) as Hsame
  end.
  { intros [= <-]. repeat split; try done; [by left..]. }
  destruct (sigInterCell signalData) as [[startX startY]|] eqn:Hsig; [|exact Hsame].
  destruct (colPhaseData signalData) as [col|] eqn:Hcol; [|exact Hsame].
  destruct (truthyZ (Some col)); [|exact Hsame]. clear Hsame.
  destruct (getSignalIntervalData_rows _ _ _ _ _ fuel sheet startY col _ _)
    as [[lastCol timings]| |] eqn:Hrows; [|done..].
  cbn [mbind outcome_bind]. intros [= <-]. cbn.
  apply getSignalIntervalData_rows_inv in Hrows
    as (Hk & Hnd & Hel & Htr & Hlast). cbn [fst snd] in *.
  split; [done|]. split; [done|]. split; [done|]. split.
  { intros key period [Hin|Hread]%Hel; [by left|]. right.
    exists startX, startY, col. split; [done|]. split; [done|]. exact Hread. }
  split; [done|].
  destruct Hlast as [?|(i & xs & Hi & Hd & Heq)]; [by left|].
  right. exists startX, startY, col, i, xs.
  unfold range in Hi. apply elem_of_seqZ in Hi.
  split; [done|]. split; [done|]. split; [lia|]. done.
Qed.

End TimingTablePeriods.

Lemma getSignalIntervalData_returns_witness :
  TimingSamples.getSignalIntervalData 10 TimingSamples.timingSheet
                                      TimingSamples.timingCard
  = TimingSamples.getSignalIntervalData 3 TimingSamples.timingSheet
                                        TimingSamples.timingCard
  ∧ TimingSamples.getSignalIntervalData 3 TimingSamples.timingSheet
                                        TimingSamples.timingCard ≠ OutOfFuel.
Proof.
  apply (getSignalIntervalData_returns Exact.float_of_str Exact.float_of_int
           Exact.str_of_float Exact.int_of_float id 3 TimingSamples.timingSheet
           TimingSamples.timingCard); [|lia].
  intros startX startY col i [= <- <-] [= <-] Hi. exists 2%nat. split; [lia|].
  right. exists (CText ""). split; [|reflexivity].
  unfold TimingSamples.timingSheet. cbn. by rewrite !andb_false_r.
Defined.

Lemma getSignalIntervalData_periods_witness :
  ∃ signalData',
    TimingSamples.getSignalIntervalData 3 TimingSamples.timingSheet
                                        TimingSamples.timingCard
    = Done signalData'
    ∧ lastColPhaseData signalData' = Some 4
    ∧ (signalTiming signalData').*1 = ["111"]
    ∧ ∀ key period,
        (key, period) ∈ signalTiming signalData' →
        (key, period) ∈ signalTiming TimingSamples.timingCard
        ∨ ∃ startX startY col,
            sigInterCell TimingSamples.timingCard = Some (startX, startY)
            ∧ colPhaseData TimingSamples.timingCard = Some col
            ∧ readFrom Exact.str_of_float TimingSamples.timingSheet col
                       (range (startX + 1) (startX + 11)) key period.
Proof.
  eexists. split; [by vm_compute|]. split; [reflexivity|]. split; [reflexivity|].
  apply (getSignalIntervalData_periods Exact.float_of_str Exact.float_of_int
           Exact.str_of_float Exact.int_of_float id (λ l, reflexivity _) 3
           TimingSamples.timingSheet TimingSamples.timingCard).
  by vm_compute.
Defined.

(** ** Operating times of the periods *)

Lemma for_loop_inv {A S} (Inv : S → Prop) (body : S → A → outcome S) xs s s' :
  (∀ s x s1, x ∈ xs → Inv s → body s x = Done s1 → Inv s1) →
  Inv s → for_loop xs body s = Done s' → Inv s'.
Proof.
  revert s. induction xs as [|x xs IH]; intros s Hbody Hs; [by intros [= <-]|].
  cbn [for_loop]. destruct (body s x) as [s1| |] eqn:Hb; [|done..].
  cbn [mbind outcome_bind]. apply IH.
  - intros s2 y s3 Hy. apply Hbody. by right.
  - apply (Hbody s x s1); [by left|done..].
Qed.

Lemma sameButTimes_refl {D} (a : ExcelSignalTiming D) : sameButTimes a a.
Proof. by repeat split. Qed.

Lemma sameButTimes_trans {D} (a b c : ExcelSignalTiming D) :
  sameButTimes a b → sameButTimes b c → sameButTimes a c.
Proof.
  intros (?&?&?&?&?) (?&?&?&?&?). repeat split; congruence.
Qed.

Lemma sameButTimes_set {D} s e (a b : ExcelSignalTiming D) :
  sameButTimes a b → sameButTimes a (set_startEnd s e b).
Proof. intros (?&?&?&?&?). by repeat split. Qed.

Lemma sameButTimesAll_refl {D} (l : list (string * ExcelSignalTiming D)) :
  sameButTimesAll l l.
Proof.
  unfold sameButTimesAll. induction l; constructor; [|done].
  split; [done|apply sameButTimes_refl].
Qed.

Lemma sameButTimesAll_trans {D} (l1 l2 l3 : list (string * ExcelSignalTiming D)) :
  sameButTimesAll l1 l2 → sameButTimesAll l2 l3 → sameButTimesAll l1 l3.
Proof.
  unfold sameButTimesAll. intros H12. revert l3.
  induction H12 as [|a b l1 l2 [Hk Hs] _ IH]; intros l3 H23.
  - by apply Forall2_nil_inv_l in H23 as ->.
  - apply Forall2_cons_inv_l in H23 as (c & l3' & [Hk' Hs'] & H23 & ->).
    constructor; [|by apply IH]. split; [congruence|by eapply sameButTimes_trans].
Qed.

Lemma storeTiming_same {D} key (timing timing' : ExcelSignalTiming D) timings :
  lookupTiming key timings = Ok timing → sameButTimes timing timing' →
  sameButTimesAll timings (storeTiming key timing' timings).
Proof.
  intros Hlook Hsame. induction timings as [|[k v] timings IH]; [done|].
  simpl in *. destruct (String.eqb k key).
  - injection Hlook as ->. constructor; [by split|apply sameButTimesAll_refl].
  - constructor; [split; [done|apply sameButTimes_refl]|by apply IH].
Qed.

Section OperationTimesFacts.

Context {D : Type} (str_of_float : D → string).
Variable float_eqb : D → D → bool.
Variable float_of_int : Z → D.
Variable xldate_as_tuple : D → outcome (Z * Z).
Variable newTime : Z → Z → outcome Time.
Variable int_of_str : string → option Z.
Variable int_of_float : D → result Z.
Variable float_bool : D → bool.

Ltac bind_cases H :=
  repeat match type of H with
         | context [from_option Done ?d (?f ?s)] =>
           destruct (f s); cbn [from_option mbind outcome_bind] in H; [|done]
         | context [mbind _ (newTime ?a ?b)] =>
           destruct (newTime a b); cbn [mbind outcome_bind] in H; [|done..]
         end.

Lemma clockNumber_same x flags (timing : ExcelSignalTiming D) flags' timing' :
  clockNumber float_eqb float_of_int xldate_as_tuple newTime x flags timing
  = Done (flags', timing') → sameButTimes timing timing'.
Proof.
  unfold clockNumber.
  destruct (if float_eqb x (float_of_int 1) then _ else _) as [time| |]; [|done..].
  cbn [mbind outcome_bind].
  destruct (negb _); destruct (newTime _ _); try done; cbn [mbind outcome_bind];
    intros [= <- <-]; apply sameButTimes_set, sameButTimes_refl.
Qed.

Lemma clockByPosition_same cellValue e1 e2 clamp flags (timing : ExcelSignalTiming D)
    cellValue' flags' timing' :
  clockByPosition newTime int_of_str cellValue e1 e2 clamp flags timing
  = Done (cellValue', flags', timing') → sameButTimes timing timing'.
Proof.
  unfold clockByPosition, int. cbv zeta. intros H. bind_cases H.
  destruct (if clamp && _ then _ else _) as [endTime1 endTime2].
  bind_cases H. injection H as <- <- <-.
  apply sameButTimes_set, sameButTimes_refl.
Qed.

Lemma clockBySeparator_same cellValue stopval before after flags
    (timing : ExcelSignalTiming D) flags' timing' :
  clockBySeparator newTime int_of_str cellValue stopval before after flags timing
  = Done (flags', timing') → sameButTimes timing timing'.
Proof.
  unfold clockBySeparator, int. cbv zeta. intros H. bind_cases H.
  injection H as <- <-. apply sameButTimes_set, sameButTimes_refl.
Qed.

Lemma clockText_same cellValue flags (timing : ExcelSignalTiming D) flags' timing' :
  clockText newTime int_of_str cellValue flags timing = Done (flags', timing') →
  sameButTimes timing timing'.
Proof.
  unfold clockText.
  destruct (contains "event" cellValue || _ || _).
  { intros [= <- <-]. apply sameButTimes_set, sameButTimes_refl. }
  destruct (contains "TIMES" cellValue || _).
  { intros [= <- <-]. apply sameButTimes_set, sameButTimes_refl. }
  destruct (negb (gotStartTime flags)); [|intros [= <- <-]; apply sameButTimes_refl].
  assert (∀ (c : bool) e1 e2 clamp cv f (tm : ExcelSignalTiming D) cv1 f1 tm1,
            (if c then clockByPosition newTime int_of_str cv e1 e2 clamp f tm
             else Done (cv, f, tm)) = Done (cv1, f1, tm1) →
            sameButTimes tm tm1) as Hpos.
  { intros [] e1 e2 clamp cv f tm cv1 f1 tm1.
    - apply clockByPosition_same.
    - intros [= <- <- <-]. apply sameButTimes_refl. }
  destruct (if contains "-" cellValue && _ && _ then _ else _)
    as [[[cv1 f1] tm1]| |] eqn:H1; [|done..].
  apply Hpos in H1. cbn [mbind outcome_bind].
  destruct (if contains " - " cv1 && _ then _ else _)
    as [[[cv2 f2] tm2]| |] eqn:H2; [|done..].
  apply Hpos in H2. cbn [mbind outcome_bind].
  pose proof (sameButTimes_trans _ _ _ H1 H2) as H12.
  intros H. eapply sameButTimes_trans; [exact H12|]. revert H.
  destruct (contains "-" cv2 && contains ":" cv2); [apply clockBySeparator_same|].
  destruct (contains ":" cv2 && (String.length cv2 =? 5)%nat).
  { unfold int. destruct (negb (gotStartTime2 f2)); intros H; bind_cases H;
      injection H as <- <-; apply sameButTimes_set, sameButTimes_refl. }
  destruct (contains ":" cv2 && contains "TO" cv2); [apply clockBySeparator_same|].
  destruct (contains ":" cv2 && contains "to" cv2); [apply clockBySeparator_same|].
  intros [= <- <-]. apply sameButTimes_refl.
Qed.

Lemma readClockTimes_same v flags (timing : ExcelSignalTiming D) flags' timing' :
  readClockTimes float_eqb float_of_int xldate_as_tuple newTime int_of_str
                 v flags timing = Done (flags', timing') →
  sameButTimes timing timing'.
Proof.
  destruct v; cbn [readClockTimes];
    [apply clockText_same|apply clockNumber_same|done].
Qed.

Lemma setTimes_row_same (sheet : Sheet D) firstColumn colPhaseData0 row colCycle
    (timing timing' : ExcelSignalTiming D) :
  setTimes_row str_of_float float_eqb float_of_int xldate_as_tuple newTime int_of_str
               sheet firstColumn colPhaseData0 row colCycle timing = Done timing' →
  sameButTimes timing timing'.
Proof.
  unfold setTimes_row.
  destruct (for_loop _ _ _) as [[flags tm]| |] eqn:Hloop; [|done..].
  cbn [mbind outcome_bind snd]. intros [= <-].
  apply (for_loop_inv (λ st, sameButTimes timing st.2) _ _ _ _ ) in Hloop;
    [done| |apply sameButTimes_refl].
  intros [f t] c [f1 t1] _ Hinv. unfold setTimes_cell. cbn [fst snd] in *.
  destruct (cell_value sheet row c) as [v|]; [|done]. cbn [lift mbind outcome_bind].
  destruct (negb _); [|by intros [= <- <-]].
  destruct (checkForWeekdayPlan str_of_float sheet row colCycle) as [w|]; [|done].
  cbn [lift mbind outcome_bind]. destruct (negb w).
  - intros [= <- <-]. by apply sameButTimes_set.
  - intros H%readClockTimes_same. by eapply sameButTimes_trans.
Qed.

Lemma operationTimes_row_same (sheet : Sheet D) firstColumn colPhaseData0 y timings k
    timings' :
  operationTimes_row str_of_float float_eqb float_of_int xldate_as_tuple newTime
                     int_of_str int_of_float float_bool sheet firstColumn
                     colPhaseData0 y timings k = Done timings' →
  sameButTimesAll timings timings'.
Proof.
  unfold operationTimes_row.
  destruct (readCso _ _ _ _ _ _) as [cso0|]; [|done]. cbn [lift mbind outcome_bind].
  destruct (resolveCso _ _ _ _ _ _) as [[| |key]|]; cbn [lift mbind outcome_bind];
    try done; try (intros [= <-]; apply sameButTimesAll_refl).
  destruct (lookupTiming key timings) as [timing|] eqn:Hlook; [|done].
  cbn [lift mbind outcome_bind].
  destruct (setTimes_row _ _ _ _ _ _ _ _ _ _ _ _) as [timing'| |] eqn:Hset; [|done..].
  cbn [mbind outcome_bind]. intros [= <-].
  apply setTimes_row_same in Hset. by apply (storeTiming_same key timing).
Qed.

Lemma operationTimes_at_spec (sheet : Sheet D) topLeftCell0 colPhaseData0 st xy st' :
  operationTimes_at str_of_float float_eqb float_of_int xldate_as_tuple newTime
                    int_of_str int_of_float float_bool sheet topLeftCell0
                    colPhaseData0 st xy = Done st' →
  sameButTimesAll st.2 st'.2
  ∧ (st'.1 = st.1 ∧ failsAt (isCycleKeyword str_of_float) sheet xy
     ∨ st'.1 = true ∧ meetsAt (isCycleKeyword str_of_float) sheet xy).
Proof.
  unfold operationTimes_at, cell_value.
  destruct (sheet xy.1 xy.2) as [v|] eqn:Hv; [|done].
  cbn [from_option lift mbind outcome_bind].
  destruct (isCycleKeyword str_of_float v) eqn:Hc.
  - destruct (findStreet str_of_float sheet topLeftCell0) as [[streetCell0|]|];
      [|done..]. cbn [lift mbind outcome_bind].
    destruct (for_loop _ _ _) as [timings| |] eqn:Hloop; [|done..].
    cbn [mbind outcome_bind]. intros [= <-]. cbn [fst snd]. split.
    + apply (for_loop_inv (λ t, sameButTimesAll st.2 t) _ _ _ _ ) in Hloop;
        [done| |apply sameButTimesAll_refl].
      intros t k t1 _ Hinv Hrow%operationTimes_row_same.
      by eapply sameButTimesAll_trans.
    + right. split; [done|]. by exists v.
  - intros [= <-]. split; [apply sameButTimesAll_refl|].
    left. split; [done|]. by exists v.
Qed.

Lemma operationTimes_scan (sheet : Sheet D) topLeftCell0 colPhaseData0 cells st st' :
  for_loop cells
    (operationTimes_at str_of_float float_eqb float_of_int xldate_as_tuple newTime
                       int_of_str int_of_float float_bool sheet topLeftCell0
                       colPhaseData0) st = Done st' →
  sameButTimesAll st.2 st'.2
  ∧ (st'.1 = st.1 ∧ Forall (failsAt (isCycleKeyword str_of_float) sheet) cells
     ∨ st'.1 = true
       ∧ ∃ c, c ∈ cells ∧ meetsAt (isCycleKeyword str_of_float) sheet c).
Proof.
  revert st. induction cells as [|c cells IH]; intros st.
  - intros [= <-]. split; [apply sameButTimesAll_refl|]. left. by split.
  - cbn [for_loop].
    destruct (operationTimes_at _ _ _ _ _ _ _ _ sheet topLeftCell0 colPhaseData0 st c)
      as [st1| |] eqn:Hat; [|done..].
    cbn [mbind outcome_bind]. intros (Hsame & Hfound)%IH.
    apply operationTimes_at_spec in Hat as (Hsame1 & Hfound1).
    split; [by eapply sameButTimesAll_trans|].
    destruct Hfound as [[Heq Hall]|[Ht (c' & Hc' & Hm)]].
    + destruct Hfound1 as [[Heq1 Hf]|[Ht1 Hm]].
      * left. split; [congruence|by constructor].
      * right. split; [congruence|]. exists c. split; [by left|done].
    + right. split; [done|]. exists c'. split; [by right|done].
Qed.

Lemma cycleWindow_elem topLeftCell0 colPhaseData0 (c : Z * Z) :
  c ∈ cycleWindow topLeftCell0 colPhaseData0 ↔
  topLeftCell0.1 + 7 ≤ c.1 < topLeftCell0.1 + 19
  ∧ colPhaseData0 ≤ c.2 < colPhaseData0 + 13.
Proof.
  unfold cycleWindow. cbv zeta. rewrite list_elem_of_bind. split.
  - intros (x & (y & Hc & Hy)%list_elem_of_bind & Hx).
    apply list_elem_of_singleton in Hc as ->. unfold range in *.
    apply elem_of_seqZ in Hx, Hy. simpl. lia.
  - intros [H1 H2]. exists c.1. split.
    + apply list_elem_of_bind. exists c.2. split.
      * destruct c. apply list_elem_of_singleton. done.
      * unfold range. apply elem_of_seqZ. lia.
    + unfold range. apply elem_of_seqZ. lia.
Qed.

(** X21: [getOperationTimes] touches nothing but the operating times: on
    return the card has the same cells, grid and keys in the same order,
    and every period keeps its code, cycle, offset, actuation and
    durations; it returns only if one of the 12 x 13 cells searched reads
    CYCLE, and fails with [ParsingCardError] when all of them exist and
    none does.  On a card without top-left cell or phase-data column it
    ends in a [TypeError]. *)
Theorem getOperationTimes_spec (sheet : Sheet D) (signalData : SignalData D) :
  let run := getOperationTimes str_of_float float_eqb float_of_int xldate_as_tuple
                               newTime int_of_str int_of_float float_bool sheet
                               signalData in
  (∀ signalData',
     run = Done signalData' →
     topLeftCell signalData' = topLeftCell signalData
     ∧ phaseSeqCell signalData' = phaseSeqCell signalData
     ∧ sigInterCell signalData' = sigInterCell signalData
     ∧ colPhaseData signalData' = colPhaseData signalData
     ∧ lastColPhaseData signalData' = lastColPhaseData signalData
     ∧ phasingData signalData' = phasingData signalData
     ∧ sameButTimesAll (signalTiming signalData) (signalTiming signalData')
     ∧ ∃ topLeftCell0 j c,
         topLeftCell signalData = Some topLeftCell0
         ∧ colPhaseData signalData = Some j
         ∧ topLeftCell0.1 + 7 ≤ c.1 < topLeftCell0.1 + 19 ∧ j ≤ c.2 < j + 13
         ∧ meetsAt (isCycleKeyword str_of_float) sheet c)
  ∧ (∀ topLeftCell0 j,
       topLeftCell signalData = Some topLeftCell0 →
       colPhaseData signalData = Some j →
       (∀ c, topLeftCell0.1 + 7 ≤ c.1 < topLeftCell0.1 + 19 → j ≤ c.2 < j + 13 →
             failsAt (isCycleKeyword str_of_float) sheet c) →
       run = Fail (Std ParsingCardError))
  ∧ (topLeftCell signalData = None ∨ colPhaseData signalData = None →
     run = Fail TypeError).
Proof.
  cbv zeta. unfold getOperationTimes. split; [|split].
  - intros signalData'.
    destruct (topLeftCell signalData) as [topLeftCell0|]; [|done].
    destruct (colPhaseData signalData) as [j|]; [|done].
    destruct (for_loop _ _ _) as [[found timings]| |] eqn:Hloop; [|done..].
    cbn [mbind outcome_bind]. destruct found; [|done]. intros [= <-]. cbn.
    apply operationTimes_scan in Hloop as (Hsame & Hfound). cbn [fst snd] in *.
    repeat (split; [done|]).
    destruct Hfound as [[? _]|[_ (c & Hc & Hm)]]; [done|].
    apply cycleWindow_elem in Hc as [Hx Hy]. exists topLeftCell0, j, c.
    split; [done|]. split; [done|]. split; [exact Hx|]. split; [exact Hy|done].
  - intros topLeftCell0 j -> -> Hnone.
    assert (Forall (failsAt (isCycleKeyword str_of_float) sheet)
                   (cycleWindow topLeftCell0 j)) as Hall.
    { apply Forall_forall. intros c [Hx Hy]%cycleWindow_elem. by apply Hnone. }
    assert (∀ cells st, Forall (failsAt (isCycleKeyword str_of_float) sheet) cells →
              for_loop cells
                (operationTimes_at str_of_float float_eqb float_of_int xldate_as_tuple
                   newTime int_of_str int_of_float float_bool sheet topLeftCell0 j) st
              = Done st) as Hscan.
    { intros cells st Hcells. induction Hcells as [|c cells (v & Hv & Hc) _ IH];
        [done|].
      cbn [for_loop].
      assert (operationTimes_at str_of_float float_eqb float_of_int xldate_as_tuple
                newTime int_of_str int_of_float float_bool sheet topLeftCell0 j st c
              = Done st) as ->; [|done].
      unfold operationTimes_at, cell_value. rewrite Hv.
      cbn [from_option lift mbind outcome_bind]. by rewrite Hc. }
    by rewrite (Hscan _ _ Hall).
  - intros [->| ->]; [done|]. by destruct (topLeftCell signalData).
Qed.

End OperationTimesFacts.

(** ** Reading one card file *)

Section CardFileFacts.

Context {D : Type}.
Variable float_of_str : string → option D.
Variable float_of_int : Z → D.
Variable str_of_float : D → string.
Variable int_of_float : D → result Z.
Variable float_bool : D → bool.
Variable float_eqb : D → D → bool.
Variable dict_order :
  list (string * ExcelSignalTiming D) → list (string * ExcelSignalTiming D).
Variable xldate_as_tuple : D → outcome (Z * Z).
Variable newTime : Z → Z → outcome Time.
Variable int_of_str : string → option Z.

Lemma firstNonBlank_blank (sheet : Sheet D) cells :
  Forall (blankAt str_of_float sheet) cells →
  firstNonBlank str_of_float sheet cells = Raise ParsingCardError.
Proof.
  induction 1 as [|[i j] cells (v & Hv & Hb) _ IH]; [done|].
  cbn [firstNonBlank]. unfold cell_value. simpl in Hv. rewrite Hv.
  cbn [from_option mbind result_bind]. by rewrite Hb.
Qed.

(** X22: [parseExcelCardsToSignalObjects] answers [False] exactly for the
    file names that [getExcelFileNames] drops.  For the other names it
    returns the card that [parseExcelCardFile] returns, and it never lets
    [ParsingCardError] through nor answers [False] for a card that fails to
    parse: the failure comes out as [NameError], the handler reading the
    variable [sd] that was never bound.  A sheet whose top-left window is
    blank is such a card. *)
Theorem parseExcelCardsToSignalObjects_outcomes fuel fileName0 (sheet : Sheet D) :
  let parse := parseExcelCardFile float_of_str float_of_int str_of_float int_of_float
                 float_bool float_eqb dict_order xldate_as_tuple newTime int_of_str
                 fuel fileName0 sheet in
  let run := parseExcelCardsToSignalObjects float_of_str float_of_int str_of_float
               int_of_float float_bool float_eqb dict_order xldate_as_tuple newTime
               int_of_str fuel fileName0 sheet in
  (∀ listing, fileName0 ∈ getExcelFileNames listing ↔
              fileName0 ∈ listing ∧ run ≠ Done None)
  ∧ run ≠ Fail (Std ParsingCardError)
  ∧ (run ≠ Done None →
     (∀ c, run = Done (Some c) ↔ parse = Done c)
     ∧ (parse = Fail (Std ParsingCardError) → run = Fail (Std NameError))
     ∧ (Forall (blankAt str_of_float sheet) topLeftWindow →
        run = Fail (Std NameError))).
Proof.
  cbv zeta. unfold parseExcelCardsToSignalObjects, getExcelFileNames, isCardFileName.
  set (parse := parseExcelCardFile _ _ _ _ _ _ _ _ _ _ fuel fileName0 sheet).
  assert (try_except (sd ← parse; Done (Some sd)) ParsingCardError
                     (Fail (Std NameError)) ≠ Done None) as Hnot.
  { destruct parse as [c|[[]| |]|]; done. }
  split; [|split].
  - intros listing. rewrite list_elem_of_filter.
    destruct (endswith fileName0 "xls"); cbn [negb andb].
    + destruct (String.prefix "System" fileName0); cbn [negb].
      * split; [intros [? _]; done|intros [_ H]; by destruct H].
      * split; [intros [_ ?]; by split|intros [? _]; by split].
    + split; [intros [? _]; done|intros [_ H]; by destruct H].
  - destruct (negb (endswith fileName0 "xls")); [done|].
    destruct (String.prefix "System" fileName0); [done|].
    destruct parse as [c|[[]| |]|]; done.
  - destruct (negb (endswith fileName0 "xls")); [done|].
    destruct (String.prefix "System" fileName0); [done|]. intros _.
    split; [|split].
    + intros c. destruct parse as [c'|[[]| |]|]; cbn; split; try done;
        by intros [= ->].
    + by intros ->.
    + intros Hblank.
      assert (parse = Fail (Std ParsingCardError)) as ->; [|done].
      subst parse. unfold parseExcelCardFile, findTopLeftCell.
      by rewrite (firstNonBlank_blank sheet _ Hblank).
Qed.

End CardFileFacts.

(** ** Overrides of the turn types *)

Lemma for_each_concat {A S} (body : S → A → result S) (xss : list (list A)) s :
  for_each xss (λ s xs, for_each xs body s) s = for_each (concat xss) body s.
Proof.
  revert s. induction xss as [|xs xss IH]; intros s; [done|].
  cbn [for_each concat]. rewrite for_each_app.
  destruct (for_each xs body s); cbn [mbind result_bind]; [apply IH|done].
Qed.

Lemma for_each_Ok_all {A S} (body : S → A → result S) xs s s' x :
  for_each xs body s = Ok s' → x ∈ xs → ∃ s1 s2, body s1 x = Ok s2.
Proof.
  revert s. induction xs as [|y xs IH]; intros s Hrun Hx;
    [by apply elem_of_nil in Hx|].
  cbn [for_each] in Hrun. destruct (body s y) as [s1|] eqn:Hb; [|done].
  cbn [mbind result_bind] in Hrun.
  apply elem_of_cons in Hx as [->|Hx]; [by exists s, s1|by eapply IH].
Qed.

Lemma rev_app_rev_app s a b :
  String.rev_app (String.rev_app s a) b = String.rev_app a (s +:+ b).
Proof.
  revert a b. induction s as [|c s IH]; intros a b; [done|].
  cbn [String.rev_app]. rewrite IH. by rewrite append_String.
Qed.

Lemma rev_app_append s t a :
  String.rev_app (s +:+ t) a = String.rev_app t (String.rev_app s a).
Proof.
  revert a. induction s as [|c s IH]; intros a; [done|].
  rewrite append_String. cbn [String.rev_app]. apply IH.
Qed.

Lemma mentions_rev_app c s a :
  mentions c (String.rev_app s a) = mentions c s || mentions c a.
Proof.
  revert a. induction s as [|x s IH]; intros a; [done|].
  cbn [String.rev_app mentions]. rewrite IH. cbn [mentions].
  by destruct (Ascii.eqb c x), (mentions c s), (mentions c a).
Qed.

Lemma lstrip_newlines_none s : mentions "010" s = false → lstrip_newlines s = s.
Proof.
  destruct s as [|c s]; [done|]. cbn [mentions lstrip_newlines].
  intros [Hc _]%orb_false_iff. rewrite Ascii.eqb_sym in Hc. by rewrite Hc.
Qed.

Lemma strip_newlines_line s :
  mentions "010" s = false → strip_newlines (s +:+ String "010" "") = s.
Proof.
  intros Hs. unfold strip_newlines.
  assert (mentions "010" (s +:+ String "010" "") = true ∨ True) as _ by (by right).
  assert (lstrip_newlines (s +:+ String "010" "")
          = match s with "" => "" | _ => s +:+ String "010" "" end) as ->.
  { destruct s as [|c s]; [done|]. rewrite append_String.
    cbn [lstrip_newlines]. cbn [mentions] in Hs.
    apply orb_false_iff in Hs as [Hc _]. rewrite Ascii.eqb_sym in Hc.
    by rewrite Hc. }
  destruct s as [|c s]; [done|].
  unfold String.rev. rewrite rev_app_append.
  change (String.rev_app (String "010" "") (String.rev_app (String c s) ""))
    with (String "010" (String.rev_app (String c s) "")).
  cbn [lstrip_newlines]. rewrite Ascii.eqb_refl.
  rewrite lstrip_newlines_none.
  - by rewrite rev_app_rev_app, append_nil_r.
  - rewrite mentions_rev_app, Hs. done.
Qed.

Lemma split_go_app sep a rest cur :
  mentions sep a = false →
  split_go sep (a +:+ rest) cur = split_go sep rest (cur +:+ a).
Proof.
  revert cur. induction a as [|c a IH]; intros cur Ha.
  - by rewrite append_nil_l, append_nil_r.
  - cbn [mentions] in Ha. apply orb_false_iff in Ha as [Hc Ha].
    rewrite append_String. cbn [split_go]. rewrite Ascii.eqb_sym, Hc.
    rewrite (IH _ Ha), append_assoc. by rewrite append_String, append_nil_l.
Qed.

Lemma split_join sep f rest cur :
  Forall (λ f, mentions sep f = false) (f :: rest) →
  split_go sep (join (String sep "") (f :: rest)) cur = (cur +:+ f) :: rest.
Proof.
  revert f cur. induction rest as [|g rest IH]; intros f cur Hall.
  - apply Forall_cons in Hall as [Hf _]. cbn [join].
    rewrite <- (append_nil_r f) at 1. by rewrite split_go_app.
  - apply Forall_cons in Hall as [Hf Hall].
    change (join (String sep "") (f :: g :: rest))
      with (f +:+ String sep "" +:+ join (String sep "") (g :: rest)).
    rewrite split_go_app by done. rewrite append_String, append_nil_l.
    cbn [split_go]. rewrite Ascii.eqb_refl. by rewrite IH.
Qed.

Lemma readOverride_written DIR_TH overrides fields :
  (6 ≤ length fields)%nat → Forall plainField fields →
  head fields ≠ Some "From Dir" →
  readOverride DIR_TH overrides (writeOverride fields)
  = Ok (overrides ++ [withThru DIR_TH fields])%list.
Proof.
  intros Hlen Hplain Hhead. unfold readOverride, writeOverride. cbv zeta.
  destruct fields as [|f rest]; [simpl in Hlen; lia|].
  assert (mentions "010" (join "," (f :: rest)) = false) as Hnl.
  { clear Hlen Hhead. revert f Hplain. induction rest as [|g rest IH]; intros f Hp.
    - apply Forall_cons in Hp as [[_ ?] _]. done.
    - apply Forall_cons in Hp as [[_ Hf] Hp].
      change (join "," (f :: g :: rest)) with (f +:+ "," +:+ join "," (g :: rest)).
      assert (∀ a b, mentions "010" (a +:+ b) = mentions "010" a || mentions "010" b)
        as Happ.
      { intros a b. induction a as [|c a IHa]; [done|].
        rewrite append_String. cbn [mentions]. by rewrite IHa, orb_assoc. }
      rewrite !Happ, Hf, (IH g Hp). done. }
  rewrite (strip_newlines_line _ Hnl). unfold split.
  rewrite (split_join "," f rest "").
  2:{ eapply Forall_impl; [exact Hplain|]. by intros x [? _]. }
  rewrite append_nil_l. unfold getitem.
  change ((f :: rest) !! 0%nat) with (Some f). cbn [from_option mbind result_bind].
  destruct (String.eqb_spec f "From Dir") as [->|_]; [done|].
  destruct ((f :: rest) !! 5%nat) as [o5|] eqn:Ho5.
  2:{ apply lookup_ge_None in Ho5. lia. }
  cbn [from_option mbind result_bind]. unfold withThru. rewrite Ho5.
  destruct (String.eqb_spec o5 "Thru") as [->|Hne].
  - by rewrite bool_decide_eq_true_2.
  - rewrite bool_decide_eq_false_2; [done|]. by intros [= ->].
Qed.

Lemma readOverride_Ok DIR_TH overrides line overrides' :
  readOverride DIR_TH overrides line = Ok overrides' →
  overrides' = overrides
  ∨ ∃ override, overrides' = (overrides ++ [override])%list
                ∧ (6 ≤ length override)%nat.
Proof.
  unfold readOverride. cbv zeta.
  destruct (getitem _ 0) as [o0|]; [|done]. cbn [mbind result_bind].
  destruct (String.eqb o0 "From Dir"); [intros [= <-]; by left|].
  unfold getitem.
  destruct (split "," (strip_newlines line) !! 5%nat) as [o5|] eqn:Ho5; [|done].
  cbn [from_option mbind result_bind]. intros [= <-]. right.
  apply lookup_lt_Some in Ho5. eexists. split; [done|].
  destruct (String.eqb o5 "Thru"); [rewrite length_insert|]; lia.
Qed.

Lemma readOverride_Raise DIR_TH overrides line e :
  readOverride DIR_TH overrides line = Raise e → e = IndexError.
Proof.
  unfold readOverride, getitem. cbv zeta.
  destruct (split "," (strip_newlines line) !! 0%nat); cbn [from_option];
    [|by intros [= <-]].
  cbn [mbind result_bind]. destruct (String.eqb _ _); [done|].
  destruct (split "," (strip_newlines line) !! 5%nat); cbn [from_option];
    [done|by intros [= <-]].
Qed.

Lemma readOverride_short DIR_TH overrides line :
  head (split "," (strip_newlines line)) ≠ Some "From Dir" →
  (length (split "," (strip_newlines line)) < 6)%nat →
  readOverride DIR_TH overrides line = Raise IndexError.
Proof.
  intros Hhead Hlen. unfold readOverride, getitem. cbv zeta.
  destruct (split "," (strip_newlines line)) as [|o0 fields] eqn:E; [done|].
  change ((o0 :: fields) !! 0%nat) with (Some o0).
  cbn [from_option mbind result_bind].
  destruct (String.eqb_spec o0 "From Dir") as [->|_]; [done|].
  rewrite (proj2 (lookup_ge_None (o0 :: fields) 5)); [done|lia].
Qed.

(** X23: the override files of the main program.  Every record read has
    at least six fields, and the only failure is [IndexError]; it is raised
    as soon as one line, once its surrounding newlines are stripped, has
    fewer than six comma-separated fields and is no header line - a blank
    line for one.  Records of six or more fields without comma or newline,
    written one per line, are read back as written, with Thru in the sixth
    field replaced by the constant. *)
Theorem readOverrides_spec DIR_TH (files : list (list string)) :
  (∀ overrides, readOverrides DIR_TH files = Ok overrides →
                Forall (λ override, (6 ≤ length override)%nat) overrides)
  ∧ (∀ e, readOverrides DIR_TH files = Raise e → e = IndexError)
  ∧ (∀ line, line ∈ concat files →
       head (split "," (strip_newlines line)) ≠ Some "From Dir" →
       (length (split "," (strip_newlines line)) < 6)%nat →
       readOverrides DIR_TH files = Raise IndexError)
  ∧ (∀ records,
       Forall (λ fields, (6 ≤ length fields)%nat ∧ Forall plainField fields
                         ∧ head fields ≠ Some "From Dir") records →
       files = [writeOverride <$> records] →
       readOverrides DIR_TH files = Ok (withThru DIR_TH <$> records)).
Proof.
  unfold readOverrides. rewrite for_each_concat.
  assert (∀ e, for_each (concat files) (readOverride DIR_TH) [] = Raise e →
               e = IndexError) as Hraise.
  { intros e (s & x & _ & Hb)%for_each_raise. by eapply readOverride_Raise. }
  split; [|split; [done|split]].
  - intros overrides Hrun.
    apply (for_each_preserves (readOverride DIR_TH)
             (Forall (λ override, (6 ≤ length override)%nat)) (concat files)
             ltac:(intros s x s' Hs [->|(o & -> & Ho)]%readOverride_Ok;
                   [done|apply Forall_app; split; [done|by constructor]])
             [] overrides); [constructor|done].
  - intros line Hin Hhead Hlen.
    destruct (for_each (concat files) (readOverride DIR_TH) []) as [s'|e] eqn:Hrun.
    + destruct (for_each_Ok_all _ _ _ _ line Hrun Hin) as (s1 & s2 & Hb).
      by rewrite (readOverride_short DIR_TH s1 line Hhead Hlen) in Hb.
    + by rewrite (Hraise e eq_refl).
  - intros records Hrec ->. clear Hraise. cbn [concat]. rewrite app_nil_r.
    assert (∀ acc, for_each (writeOverride <$> records) (readOverride DIR_TH) acc
                   = Ok (acc ++ (withThru DIR_TH <$> records))%list) as Hgen.
    { induction Hrec as [|fields records (Hlen & Hplain & Hhead) _ IH]; intros acc.
      - by rewrite app_nil_r.
      - cbn [fmap list_fmap for_each].
        rewrite (readOverride_written DIR_TH acc fields Hlen Hplain Hhead).
        cbn [mbind result_bind].
        change (for_each (writeOverride <$> records) (readOverride DIR_TH)
                         (acc ++ [withThru DIR_TH fields])%list
                = Ok (acc ++ withThru DIR_TH fields
                          :: (withThru DIR_TH <$> records))%list).
        rewrite IH. by rewrite <- app_assoc. }
    apply Hgen.
Qed.

(** ** Choosing the period of a time plan *)

Lemma returnFirst_elem {A} (cond : A → bool) xs x :
  returnFirst cond xs = Some x → x ∈ xs.
Proof.
  induction xs as [|y xs IH]; [done|]. simpl. destruct (cond y).
  - intros [= ->]. by left.
  - intros H. right. by apply IH.
Qed.

Lemma selectCSO_elem {D} (card0 : SignalData D) s e st :
  selectCSO card0 s e = Some st → st ∈ iterSignalTiming card0.
Proof.
  unfold selectCSO.
  destruct (returnFirst (inOperation s) _) eqn:H1.
  { intros [= <-]. by eapply returnFirst_elem. }
  destruct (returnFirst isAllOtherTimes _) eqn:H2.
  { intros [= <-]. by eapply returnFirst_elem. }
  apply returnFirst_elem.
Qed.

Lemma NoDup_keys_value {A} (l : list (string * A)) k a b :
  NoDup l.*1 → (k, a) ∈ l → (k, b) ∈ l → a = b.
Proof.
  induction l as [|[k0 v0] l IH]; [by intros _ H%elem_of_nil|].
  cbn [fmap list_fmap fst]. intros [Hnotin Hnd]%NoDup_cons Ha Hb.
  apply elem_of_cons in Ha as [Ha|Ha]; apply elem_of_cons in Hb as [Hb|Hb].
  - congruence.
  - injection Ha as -> ->. destruct Hnotin. apply list_elem_of_fmap. by exists (k0, b).
  - injection Hb as -> ->. destruct Hnotin. apply list_elem_of_fmap. by exists (k0, a).
  - by apply IH.
Qed.

Section PlanPeriodFacts.

Context {D : Type}.
Variable float_bool : D → bool.

Lemma csoOfSelection_usable (o : option (ExcelSignalTiming D)) :
  pyval_bool float_bool (csoOfSelection o) = true →
  ∃ st, o = Some st ∧ timing_bool st = true
        ∧ csoOfSelection o = cso st ∧ pyval_bool float_bool (cso st) = true.
Proof.
  destruct o as [st|]; [|done]. cbn [csoOfSelection].
  destruct (timing_bool st) eqn:Ht; [|done]. intros H. exists st.
  rewrite Ht. by repeat split.
Qed.

Lemma timingOfCso_keyed (card0 : SignalData D) st :
  keyedByCso card0 → st ∈ iterSignalTiming card0 →
  timingOfCso card0 (cso st) = Ok st.
Proof.
  intros [Hnd Hkeyed] Hin. unfold iterSignalTiming in Hin.
  apply list_elem_of_fmap in Hin as ([key st'] & -> & Hin). cbn [snd].
  rewrite (Hkeyed key st' Hin). cbn [timingOfCso].
  destruct (lookupTiming_key key (signalTiming card0)) as (st2 & -> & Hin2).
  { apply list_elem_of_fmap. by exists (key, st'). }
  f_equal. by eapply NoDup_keys_value.
Qed.

(** X24: the period that [convertSignalToDynameq] takes for a time plan.
    A selected period counts only if it has durations and a code that is
    not false; otherwise the selection is made again for the span 0:00 to
    0:00, and [DtaError] is raised exactly when that one does not count
    either.  On return, the span handed to [getPhases] is the one asked
    for or 0:00 to 0:00, it selects a period that counts, and on a card
    whose periods are stored under their own codes the offset is that of
    this very period and the dictionary lookup cannot fail. *)
Theorem planPeriod_spec (card0 : SignalData D) (startTime0 endTime0 : Time) :
  let usable s e :=
    pyval_bool float_bool (csoOfSelection (selectCSO card0 s e)) in
  (∀ offset0 s e,
     planPeriod float_bool card0 startTime0 endTime0 = Done (offset0, s, e) →
     ((s, e) = (startTime0, endTime0) ∧ usable startTime0 endTime0 = true
      ∨ (s, e) = (mkTime 0 0, mkTime 0 0) ∧ usable startTime0 endTime0 = false)
     ∧ ∃ st, selectCSO card0 s e = Some st ∧ times st ≠ []
             ∧ pyval_bool float_bool (cso st) = true
             ∧ (keyedByCso card0 → offset0 = offset st))
  ∧ (planPeriod float_bool card0 startTime0 endTime0 = Fail DtaError ↔
     usable startTime0 endTime0 = false ∧ usable (mkTime 0 0) (mkTime 0 0) = false)
  ∧ (usable startTime0 endTime0 = false →
     planPeriod float_bool card0 startTime0 endTime0
     = planPeriod float_bool card0 (mkTime 0 0) (mkTime 0 0))
  ∧ (keyedByCso card0 →
     ∀ e, planPeriod float_bool card0 startTime0 endTime0 = Fail e → e = DtaError).
Proof.
  cbv zeta.
  assert (∀ s e, pyval_bool float_bool (csoOfSelection (selectCSO card0 s e)) = true →
            ∃ st, selectCSO card0 s e = Some st ∧ times st ≠ []
                  ∧ pyval_bool float_bool (cso st) = true
                  ∧ csoOfSelection (selectCSO card0 s e) = cso st
                  ∧ (keyedByCso card0 → timingOfCso card0 (cso st) = Ok st))
    as Husable.
  { intros s e (st & Hsel & Hlen & Hcso & Hb)%csoOfSelection_usable.
    exists st. split; [done|]. split.
    { unfold timing_bool in Hlen. by destruct (times st). }
    split; [done|]. split; [done|]. intros Hk.
    apply timingOfCso_keyed; [done|]. by eapply selectCSO_elem. }
  unfold planPeriod. cbv zeta.
  destruct (pyval_bool float_bool (csoOfSelection (selectCSO card0 startTime0 endTime0)))
    eqn:H1; cbn [negb].
  - destruct (Husable _ _ H1) as (st & Hsel & Hne & Hb & Hcso & Hlook).
    cbn [mbind outcome_bind]. rewrite Hcso. split; [|split; [|split]].
    + intros offset0 s e.
      destruct (timingOfCso card0 (cso st)) as [st'|] eqn:Ht; [|done].
      cbn [lift mbind outcome_bind]. intros [= <- <- <-].
      split; [by left|]. exists st. split; [done|]. split; [done|]. split; [done|].
      intros Hk. specialize (Hlook Hk). by injection Hlook as ->.
    + split; [|by intros [? _]].
      by destruct (timingOfCso card0 (cso st)).
    + done.
    + intros Hk e. by rewrite (Hlook Hk).
  - destruct (pyval_bool float_bool
                (csoOfSelection (selectCSO card0 (mkTime 0 0) (mkTime 0 0)))) eqn:H2;
      cbn [negb mbind outcome_bind].
    + destruct (Husable _ _ H2) as (st & Hsel & Hne & Hb & Hcso & Hlook).
      rewrite Hcso. split; [|split; [|split]].
      * intros offset0 s e.
        destruct (timingOfCso card0 (cso st)) as [st'|] eqn:Ht; [|done].
        cbn [lift mbind outcome_bind]. intros [= <- <- <-].
        split; [by right|]. exists st. split; [done|]. split; [done|].
        split; [done|]. intros Hk. specialize (Hlook Hk). by injection Hlook as ->.
      * split; [|by intros [_ ?]]. by destruct (timingOfCso card0 (cso st)).
      * done.
      * intros Hk e. by rewrite (Hlook Hk).
    + split; [done|]. split; [done|]. split; [done|]. by intros _ e [= <-].
Qed.

End PlanPeriodFacts.

(** ** The two embeddings of [setTimes] *)

(** With rules that raise nothing outside [Py.exn], [setTimes_row] is the
    [setTimes] that takes the rules as a parameter. *)
Lemma setTimes_row_lift {D} (str_of_float : D → string) float_eqb float_of_int
    xldate_as_tuple newTime int_of_str
    (rules : cell D → timesFlags → ExcelSignalTiming D
             → result (timesFlags * ExcelSignalTiming D))
    (sheet : Sheet D) firstColumn colPhaseData0 row colCycle timing :
  (∀ v f t, readClockTimes float_eqb float_of_int xldate_as_tuple newTime
                           int_of_str v f t = lift (rules v f t)) →
  setTimes_row str_of_float float_eqb float_of_int xldate_as_tuple newTime
               int_of_str sheet firstColumn colPhaseData0 row colCycle timing
  = lift (setTimes str_of_float rules sheet firstColumn colPhaseData0 row colCycle
                   timing).
Proof.
  intros Hrules. unfold setTimes_row, setTimes.
  generalize ({| hasAllOtherTimes := false; gotStartTime := false;
                 gotStartTime2 := false |}, timing).
  induction (range firstColumn colPhaseData0) as [|c cols IH]; intros st; [done|].
  cbn [for_loop for_each].
  assert (setTimes_cell str_of_float float_eqb float_of_int xldate_as_tuple newTime
                        int_of_str sheet row colCycle st c
          = lift (setTimes_body str_of_float rules sheet row colCycle st c)) as ->.
  { unfold setTimes_cell, setTimes_body.
    destruct (cell_value sheet row c) as [v|]; [|done].
    cbn [lift mbind outcome_bind result_bind].
    destruct (negb _); [|done].
    destruct (checkForWeekdayPlan str_of_float sheet row colCycle) as [w|]; [|done].
    cbn [lift mbind outcome_bind result_bind].
    destruct (negb w); [done|apply Hrules]. }
  destruct (setTimes_body str_of_float rules sheet row colCycle st c) as [st1|];
    [|done].
  cbn [lift mbind outcome_bind result_bind]. apply IH.
Qed.
